(* ===== verification/_CoqProject ===== *)
-Q . S2P
Prelude.v
Tables.v
JsNumber.v
JsObject.v
ApiTypes.v
Generator.v
TsTypes.v
ServiceClass.v
Client.v
CliWorld.v
CodeGen.v
Cli.v
FeTypes.v
FeHttp.v
Database.v
ParamStore.v
Openapi.v
Backend.v
Transaction.v
BackendUser.v
BackendService.v
BackendApi.v
Integrity.v
Copies.v
BackendRoutes.v
BackendSafety.v
Failures.v
Wire.v
EndToEnd.v
Answers.v
Releases.v
Access.v
Listings.v
Exports.v
CliServices.v
Dialogs.v
ApiTree.v
ThisService.v
UseApi.v
Iteration.v
ApiPage.v
ApiListView.v
ServiceHome.v
UserStore.v
Dates.v
Views.v
Forms.v
Shell.v
ParamEdit.v
TreeEdit.v
StatusTabs.v
Header.v
HeaderView.v
Programs.v
Toolchain.v
LivePage.v
LiveTree.v
Account.v
LiveHome.v
