(* ===== verification/Prelude.v ===== *)
(** * CAM API Management: a verification library

    CAM manages the APIs of services.  This library models its three programs:
    [src/cam-fe-code-generator], the command-line tool [cam] that generates client
    code from the APIs of the configured services; [src/FE-CAM], the React
    front-end in which services, versions, iterations and API drafts are edited;
    and [src/BE-CAM], the Python back end both talk to.  The models of the two
    clients have the server as a parameter, so that their theorems hold whatever
    it answers; the back end is modelled by itself, down to its database, and
    [BackendRoutes.backend_server] and [Toolchain.tool_answer] are the servers it
    makes of it.

    ** Files

    Shared:
    - [Prelude] (this file): JavaScript outcomes (a value, a thrown error,
      [process.exit]), the state-and-error monad [M], string functions
      ([split], [join], [includes], [trim], [Number], [parseInt]'s digits), and
      [preserves], the relation a computation keeps, with its hint database and
      the tactic [preserve];
    - [JsObject]: plain objects as association lists in insertion order, and the
      order in which [Object.entries] lists them;
    - [ApiTypes]: parameters and API details, as both programs declare them;
    - [JsNumber]: [Number(text)] and [String(number)] for any decimal literal.

    The command-line tool ([src/cam-fe-code-generator/src]):
    - [Generator] -- [services/code-generate/generator.ts];
    - [TsTypes] -- what the generated interfaces mean: the declarations read from
      the text, the JSON values that inhabit them, and the schema the backend
      exports ([_build_param_schema] of [src/BE-CAM/services/utils.py]);
    - [ServiceClass] -- [templates/service-class.ts], [templates/request-demo.ts];
    - [Client] -- what the methods printed by [templates/service-class.ts] request
      when they are called;
    - [CliWorld] -- files, [~/.camrc] ([utils/data-manager.ts]), console, and the
      HTTP layer ([request/index.ts]) with the requests the commands make;
    - [CliServices] -- every request function of [services/apis];
    - [CodeGen] -- [services/code-generate/index.ts], [templates/init.ts];
    - [Cli] -- [cli/*.ts] and [utils/utils.ts].
    A command ([Cli.run]) checks its arguments, asks for a login when no token is
    stored ([loginRequired]), edits [cam.config.json] ([storeServiceInfo],
    [removeService]) and regenerates the output directory
    ([pullAllApisInAllServices]), which calls [generateTSCode] per API and
    [serviceClassCode] per service.

    The front-end ([src/FE-CAM/src]):
    - [FeTypes] -- [services/*/types.ts] and the requests of [services/*/index.ts];
    - [FeHttp] -- [request/index.ts] and what the browser keeps;
    - [Dialogs] -- the confirmations and the clipboard of [utils.tsx];
    - [ApiTree] -- the tree of [hooks/useService.tsx] and [ApiList/index.tsx];
    - [ThisService] -- [useThisService] of [hooks/useService.tsx], with the guard
      of [ApiManagement/index.tsx];
    - [UseApi] -- [hooks/useApi.tsx];
    - [Iteration] -- [useServiceIteration] and [CompleteIterationForm.tsx];
    - [ApiPage] -- [ApiManagement/index.tsx]: these four and their effects, run
      together until nothing changes ([settle]);
    - [ApiListView] -- the operations and the delete buttons of
      [ApiList/index.tsx];
    - [ServiceHome] -- [useService] and [LoggedInView.tsx];
    - [UserStore] -- [hooks/useUser.tsx];
    - [ParamEdit] -- [ApiManagement/ApiEdit], one table and the submission;
    - [TreeEdit] -- [ApiEdit/ParamTable.tsx] at every level, [ApiEdit/utils.ts];
    - [StatusTabs] -- [ApiEdit/ResponseParamsEdit.tsx];
    - [Header], [HeaderView] -- [ApiManagement/Header.tsx], its handlers and what
      it shows;
    - [Dates] -- [parseToDate] and [formatDateOrDateTime] of [utils.tsx];
    - [Views] -- [ApiManagement/Detail], the service table, tags and avatars;
    - [Forms] -- every form, as data; the form library is the class
      [FormLibrary];
    - [Shell] -- [router.tsx], [App.tsx], [components/Layout], the profile and
      language menus; the router library is the class [Router], i18next's choice of
      a language the class [I18n].
    A component's state is the record of its [useState]s and refs; with the
    [Browser] (storage, messages, requests sent, reloads, route) it makes the
    state [Fe] of the monad [UI].  A handler is one definition in that monad, its
    [try]/[catch]/[finally] included; an effect is a definition run after the
    changes that trigger it.  A view is a function from the state to the texts,
    tables and buttons it shows.  Each definition carries the name of the function
    it models.

    The back end ([src/BE-CAM]):
    - [Tables] -- tables of rows under growing ids;
    - [Database] -- [database/models.py] and [database/enums.py]: rows, enums,
      [toJson];
    - [ParamStore] -- trees of parameters as rows with parents:
      [organizeReqParams], [organizeRespParams], [_process_params_recursively],
      [_copy_params_recursively] and the two copying loops of iterations;
    - [Openapi] -- [openapiTemplate] of [services/utils.py];
    - [Backend] -- replies, the session (its own view of the database, what is
      committed, the mails sent), [commit] with the unique constraints, rights;
    - [BackendUser], [BackendService], [BackendApi] -- one definition per handler
      of [services/user.py], [services/service.py], [services/api.py];
    - [BackendRoutes] -- [subRouters/v1] and [authentication.py]: a request is let
      in by its token, decoded to an [Operation], run in a session ([serve]);
      [replay] runs a history of requests.
    A handler is a computation in [TX], the monad [M] over a session; an exception
    is a thrown error, and what was not committed is lost with it.

    On the back end alone:
    - [Transaction] -- [ends], the triples in which handlers are specified: the
      property of the database, what a success gives, and that only [commit]
      makes changes last;
    - [Integrity] -- the invariant [db_ok] of the database, operation by
      operation; [BackendSafety] -- over every history;
    - [Copies] -- what starting and committing an iteration copies;
    - [Failures] -- which requests fail; [Access] -- who can change a service;
      [Listings] -- pages; [Exports] -- the exported document.

    Programs together:
    - [Programs] -- forms with [cam add], saved drafts with the generated client;
    - [Wire] -- the front-end's requests and the back end's routes;
    - [EndToEnd], [Releases] -- front-end requests answered by the back end;
    - [Toolchain] -- the tool's commands answered by the back end;
    - [Answers] -- what a request of a signed-in page is answered ([answered], with
      [leaves] for the effect of a handler); on it [LivePage], the page of an
      iteration, [LiveTree], the page of a service, and [LiveHome], the list of
      services, run against the back end;
    - [Account] -- registration, login and change of password, from the form to the
      user shown.

    ** What the theorems show

    - Generation: the interfaces declared are exactly those reachable from the
      parameters, every nested type refers to one of them; read as TypeScript they
      admit every value the exported schema admits, when names are identifiers and
      no description closes its comment; an API without the five
      locations is refused and any other yields code; what [index.ts] imports,
      [namespaces.ts] declares.
    - The generated client: a call requests the method and path of the API with
      the path parameters filled in, and carries the query, header and body
      members under their names; cookie parameters are not sent.
    - Pulling refines a specification: the output directory becomes exactly the
      files [CodeGen.pulled_files] computes from the server's answers, and
      nothing outside changes; without services the command stops before it
      changes anything; a second run changes nothing.
    - The wire: each request of the front-end, and each of the tool, is decoded by
      the back end to the operation it is named after, with the same ids and texts,
      but for the texts of a query, which arrive as axios encodes them.
    - The back end: every history of requests keeps the database sound; only
      insiders change a service; a request fails with 500 only for the causes
      listed, and one that is not answered with success changes nothing; pages
      show each service once; the exported document describes the APIs of its
      version, and refers to no component it does not have.
    - Versions: what a user saves in the editor is what is shown afterwards,
      parameter trees included; committing an iteration releases exactly its
      drafts; an iteration that changes nothing releases what was there, except
      the description.
    - Pages on the back end: the page of an iteration lists the drafts the database
      holds, in the order of its tree, after every operation; the page of a service, which updates
      its tree by itself, shows the one it holds; the list of services, on every tab
      and page, is the one it holds; an account opened in the front-end logs in as
      the user it was opened for, also after its password changed.
    - The whole chain: [cam update] generates code from exactly the APIs the
      database holds for the configured version.
    - Configuration: every sequence of commands keeps [cam.config.json]
      well-formed (distinct uuids, names that are path segments, valid versions);
      adding and then removing a service restores it (the last one removed leaves its
      generated code); no guarded command runs without a token.
    - The two programs: an identifier and a version the forms accept can be
      configured with [cam add]; a draft the editor saved, with every placeholder
      of its path declared, yields a client whose request replaces each of them.
    - The service page: the tree partitions the APIs over the groups; a drag
      moves one API; the page, with all its effects, comes to rest after every
      action, and shows an API only as some server answered it for the id selected;
      an iteration pins its version, and the page reloads when it is completed; answers in the order of the requests
      settle on the version shown, and answers out of order need not; all answers
      are consumed; only an empty category can be deleted from the list.
    - Drafts: what is saved passed the checks and says what the form says; tables
      keep their types under any edits; the tabs show, after any event, the table the
      event made, an untouched empty one with the code 200; every draft operation
      that succeeds reloads the drafts; the version rule of the completion form is
      the lexicographic order.
    - Sessions: whoever is shown as signed in has a token; start-up, by what the
      browser keeps; the address of a created service opens its page.
    - Views: the detail shows every parameter, the header every person; a
      formatted date reads back.
    - Lists, users, requests: the query replayed is the one on screen; each
      operation's outcome by the server's answer, errors included.
    Some theorems state behaviour that is hardly meant: a refused request that
    leaves another version's answer on screen, a status code whose tab is not
    shown, a numeric text read as another time than the number it spells, a member
    named like another placeholder, a release that loses its description, a route
    that always fails.

    ** Conventions and assumptions

    - All functions are structural recursions; the only fuel is that of
      [JsNumber.strip_zeros], the number of digits, which suffices
      ([decimal_normal]).  Two passes of the effects bring a page to rest
      ([ApiPage.settle]).  Every outcome theorem says how the call ends, not only
      what holds if it does.
    - Parameters of the clients: the server (a function of the requests sent
      before, the bearer token and the endpoint), prettier, the removal of the working directory
      itself, prompt answers, the table printer, i18next's [t], [JSON.stringify]
      of the exported document, generated ids, [Date.now()], the offset of the
      local time zone and the instant of a local time, what [new Date(text)]
      reads, the outcome of the clipboard and of a confirmation.  The form library
      and the router are classes with the laws the pages rely on, each with an
      instance.  The hypotheses on parameters are stated where used
      ([CodeGen.stateless]: the answers do not depend on the requests sent before,
      for theorems that compare two runs).
    - Parameters of the back end: [bcrypt], [jose.jwt] (what token is valid when,
      for which id), [isoformat], [ilike], the order of texts ([Libraries],
      without laws, except in [Account], by the class [AccountLaws]), the clock and the salts ([Moment]); and how axios writes a
      query parameter: by [Wire.AxiosQuery], plain texts as they are, and others so
      that [unquote] reads them back, but for spaces.
    - The database is a list of rows per table, and a query without an order lists
      rows by id.  A request runs in a transaction of its own, one after the
      other; a constraint is checked no later than at [commit], and a request
      that violates one ends there.  Foreign keys are not checked again: that they
      refer to rows is part of [db_ok], which every operation keeps.  Columns are
      wide enough for the texts stored.  What the ORM does when a row is deleted
      (children lose their reference, or go with it) is written out.
    - Bodies have the member types the clients send; JSON literals in a query
      other than booleans and integers, and digits grouped by underscores, are not
      covered.
    - Strings are byte strings in UTF-8.  Upper-casing and white space are those
      of ASCII; [js_length] counts UTF-16 units; the first character of a name is
      its first code point.  [to_number] covers decimal integers, the keys and
      version parts the code applies [Number] to, and reads other literals as
      [NaN]; where a user types the number, [JsNumber] has all literals, exact up
      to fifteen significant digits.
    - Numbers of the data model (ids, pages, totals) are integers in [Z]; the code
      does no arithmetic on them that could leave the exact range, except the
      patch suggested for a version, taken below [2^53].
    - The text the tool prints is given a meaning for names that need no escaping
      in it; [req], the argument of a generated method, is read by its own
      members.  The keywords of a schema mean what the OpenAPI specification says.
    - The file system is that of relative paths below the working directory; a
      JSON file is the value it parses to; writing [~/.camrc] succeeds.  A console
      line of an error holds its [String(...)], not the stack.
    - Requests are answered in the order they are awaited, except in
      [ThisService.Interleaving], whose step relation delivers answers in any
      order.
    - The trees sort the arrays of the state in place when a page renders; the model
      sorts a list of its own ([ApiTree.treeData]), and where the order of the state
      matters the render is a step of its own ([Iteration.draftsRendered]).
    - Records keep the members the modelled code reads.  A member that may be
      absent or null is an [option]; where the code tells the two apart, an
      [option (option _)].

    ** Not modelled

    Styles and static markup ([Footer], [BlankPage], the welcome page's pictures),
    debouncing, the texts of the translations, [main.tsx] and the build files;
    functions without a caller ([getConfig], [put], [del], [patch],
    [version2Number]); the start of the Python server, its engine settings and the
    SMTP client (a mail is what is handed to [send_email]); requests the server
    runs at the same time.  On the back end, [LiveTree] covers a visit up to the
    reload that ends it, and of a past version its categories only (its APIs are
    drafts, which cannot be moved); [LiveHome] asks for pages counted from one and
    of no negative size, as the page's controls do. *)

From Stdlib Require Import Ascii String ZArith Lia DecimalString DecimalN DecimalFacts.
From stdpp Require Export base list gmap strings sorting.

(** ** Results of running JavaScript code

    A computation ends by returning a value, by throwing one, or by
    [process.exit].  Thrown values are [Error] instances (their class name and
    message) or plain strings (the command-line HTTP layer rejects with the
    message itself). *)
Inductive js_error :=
| JSError (name message : string)
| JSString (s : string).

Inductive outcome (A : Type) :=
| Ret (a : A)
| Throw (e : js_error)
| Exit (code : Z).
Arguments Ret {A} a.
Arguments Throw {A} e.
Arguments Exit {A} code.

(** State, exceptions and process exit in one monad. *)
Definition M (S A : Type) : Type := S -> outcome A * S.

#[global] Instance M_ret S : MRet (M S) := fun A a s => (Ret a, s).
#[global] Instance M_bind S : MBind (M S) := fun A B f m s =>
  match m s with
  | (Ret a, s') => f a s'
  | (Throw e, s') => (Throw e, s')
  | (Exit c, s') => (Exit c, s')
  end.

Definition throw {S A} (e : js_error) : M S A := fun s => (Throw e, s).
Definition exit {S A} (code : Z) : M S A := fun s => (Exit code, s).
Definition resume {S A} (o : outcome A) : M S A := fun s => (o, s).
Definition get_state {S} : M S S := fun s => (Ret s, s).
Definition modify {S} (f : S -> S) : M S unit := fun s => (Ret tt, f s).

(** [try { m } catch (e) { h(e) }]: [process.exit] is not an exception. *)
Definition try_catch {S A} (m : M S A) (h : js_error -> M S A) : M S A := fun s =>
  match m s with
  | (Throw e, s') => h e s'
  | r => r
  end.

(** [try { m } finally { f() }], for finalisers that only update the state. *)
Definition finally {S A} (m : M S A) (f : S -> S) : M S A := fun s =>
  match m s with
  | (Ret a, s') => (Ret a, f s')
  | (Throw e, s') => (Throw e, f s')
  | (Exit c, s') => (Exit c, s')
  end.

Definition new_error (msg : string) : js_error := JSError "Error" msg.

(** [err instanceof Error ? err.message : fallback]. *)
Definition message_or (fallback : string) (e : js_error) : string :=
  match e with
  | JSError _ m => m
  | JSString _ => fallback
  end.

(** [String(e)], also the value of a template slot. *)
Definition error_to_string (e : js_error) : string :=
  match e with
  | JSError n m => if String.eqb m "" then n else n +:+ ": " +:+ m
  | JSString s => s
  end.

(** [err instanceof Error ? err.message : String(err)]. *)
Definition message_of (e : js_error) : string :=
  match e with JSError _ m => m | JSString s => s end.

(** [s.length]: UTF-16 code units, of a string in UTF-8. *)
Fixpoint js_length (s : string) : nat :=
  match s with
  | EmptyString => 0
  | String c s' =>
      let b := N_of_ascii c in
      (if (b <? 128)%N then 1 else if (b <? 192)%N then 0 else if (b <? 240)%N then 1 else 2) + js_length s'
  end.

(** [a || b] on strings. *)
Definition str_or (a b : string) : string := if String.eqb a "" then b else a.

(** [for (const x of l) body]. *)
Fixpoint for_each {S A} (l : list A) (body : A -> M S unit) : M S unit :=
  match l with
  | [] => mret ()
  | x :: l' => body x ;; for_each l' body
  end.

(** ** Strings *)

Definition newline : string := String "010"%char "".
Definition dquote : string := String (ascii_of_N 34) "".

Definition is_lower (c : ascii) : bool :=
  (97 <=? N_of_ascii c)%N && (N_of_ascii c <=? 122)%N.
Definition is_upper (c : ascii) : bool :=
  (65 <=? N_of_ascii c)%N && (N_of_ascii c <=? 90)%N.

(** [c.toUpperCase()] on an ASCII character. *)
Definition upper_char (c : ascii) : ascii :=
  if is_lower c then ascii_of_N (N_of_ascii c - 32) else c.

Definition lower_char (c : ascii) : ascii :=
  if is_upper c then ascii_of_N (N_of_ascii c + 32) else c.
Fixpoint to_lower (s : string) : string :=
  match s with String c s' => String (lower_char c) (to_lower s') | EmptyString => "" end.

Fixpoint str_forallb (f : ascii -> bool) (s : string) : bool :=
  match s with
  | EmptyString => true
  | String c s' => f c && str_forallb f s'
  end.

Definition str_existsb (f : ascii -> bool) (s : string) : bool :=
  negb (str_forallb (fun c => negb (f c)) s).

(** [s.split(sep)] for a one-character separator; the first piece is returned
    apart, since the result is never empty. *)
Fixpoint split_aux (sep : ascii) (s : string) : string * list string :=
  match s with
  | EmptyString => (EmptyString, [])
  | String c s' =>
      let '(w, ws) := split_aux sep s' in
      if Ascii.eqb c sep then (EmptyString, w :: ws) else (String c w, ws)
  end.
Definition split_on (sep : ascii) (s : string) : list string :=
  let '(w, ws) := split_aux sep s in w :: ws.

(** [l.join(sep)]. *)
Fixpoint join (sep : string) (l : list string) : string :=
  match l with
  | [] => ""
  | [x] => x
  | x :: l' => x +:+ sep +:+ join sep l'
  end.

(** [s.startsWith(p)] is [String.prefix p s]; [s.includes(p)]. *)
Fixpoint includes (s p : string) : bool :=
  String.prefix p s ||
  match s with
  | EmptyString => false
  | String _ s' => includes s' p
  end.

(** [s.trim()] on ASCII white space. *)
Definition is_space (c : ascii) : bool :=
  let n := N_of_ascii c in ((9 <=? n) && (n <=? 13) || (n =? 32))%N.
Fixpoint trim_start (s : string) : string :=
  match s with
  | String c s' => if is_space c then trim_start s' else s
  | EmptyString => EmptyString
  end.
Fixpoint trim_end (s : string) : string :=
  match s with
  | EmptyString => EmptyString
  | String c s' =>
      match trim_end s' with
      | EmptyString => if is_space c then EmptyString else String c EmptyString
      | t => String c t
      end
  end.
Definition trim (s : string) : string := trim_end (trim_start s).

(** Decimal numerals: [digits s] is the value of [s] when it matches
    [/^\d+$/], and [show_nat] prints a natural number as [String(n)] does. *)
Definition digits (s : string) : option N :=
  match NilZero.uint_of_string s with
  | Some d => Some (N.of_uint d)
  | None => None
  end.
Definition show_nat (n : N) : string := NilZero.string_of_uint (N.to_uint n).
Definition show_int (z : Z) : string :=
  match z with
  | Zneg p => "-" +:+ show_nat (Npos p)
  | _ => show_nat (Z.to_N z)
  end.

(** [/^\d+$/.test(s)]. *)
Definition is_numeral (s : string) : bool := bool_decide (is_Some (digits s)).

(** [/^\d+\.\d+\.\d+$/.test(value)]. *)
Definition version_format (value : string) : bool :=
  match split_on "." value with
  | [x; y; z] => is_numeral x && is_numeral y && is_numeral z
  | _ => false
  end.

(** The longest prefix of characters that satisfy [f], and the rest. *)
Fixpoint span (f : ascii -> bool) (s : string) : string * string :=
  match s with
  | EmptyString => (EmptyString, EmptyString)
  | String c s' => if f c then let '(a, b) := span f s' in (String c a, b) else (EmptyString, s)
  end.

(** ** Tactics *)

(** Split every [match] of the goal and the hypotheses, and close the
    contradictory and the immediate branches. *)
Ltac split_cases := repeat (case_match; simplify_eq/=; try done).

(** ** Lemmas: the monad *)

Lemma bind_Ret {S A B} (m : M S A) (f : A -> M S B) s a s' :
  m s = (Ret a, s') -> (m ≫= f) s = f a s'.
Proof. intros H. unfold mbind, M_bind. by rewrite H. Qed.

Lemma bind_Throw {S A B} (m : M S A) (f : A -> M S B) s e s' :
  m s = (Throw e, s') -> (m ≫= f) s = (Throw e, s').
Proof. intros H. unfold mbind, M_bind. by rewrite H. Qed.

Lemma bind_Exit {S A B} (m : M S A) (f : A -> M S B) s c s' :
  m s = (Exit c, s') -> (m ≫= f) s = (Exit c, s').
Proof. intros H. unfold mbind, M_bind. by rewrite H. Qed.

Lemma bind_assoc {S A B C} (m : M S A) (f : A -> M S B) (g : B -> M S C) s :
  (m ≫= (fun a => f a ≫= g)) s = ((m ≫= f) ≫= g) s.
Proof. unfold mbind, M_bind. by destruct (m s) as [[]]. Qed.

Lemma try_catch_Ret {S A} (m : M S A) h s a s' :
  m s = (Ret a, s') -> try_catch m h s = (Ret a, s').
Proof. intros H. unfold try_catch. by rewrite H. Qed.

Lemma try_catch_Throw {S A} (m : M S A) h s e s' :
  m s = (Throw e, s') -> try_catch m h s = h e s'.
Proof. intros H. unfold try_catch. by rewrite H. Qed.

Lemma for_each_app {S A} (l k : list A) (body : A -> M S unit) s :
  for_each (l ++ k) body s = (for_each l body ;; for_each k body) s.
Proof.
  revert s; induction l as [|x l IH]; intros s; [done|].
  simpl. unfold mbind, M_bind in *.
  destruct (body x s) as [[]]; done.
Qed.

(** A relation kept by every turn of a loop is kept by the loop. *)
Lemma for_each_preserves {S A} (R : S -> S -> Prop) (l : list A) (body : A -> M S unit) s :
  Reflexive R -> Transitive R ->
  (forall x s, x ∈ l -> R s (body x s).2) -> R s (for_each l body s).2.
Proof.
  intros Hr Ht. revert s; induction l as [|x l IH]; intros s Hb; simpl.
  - apply Hr.
  - unfold mbind, M_bind. pose proof (Hb x s ltac:(set_solver)) as Hx.
    destruct (body x s) as [[a|e|c] s']; simpl in *; [|done..].
    etrans; [exact Hx|]. apply IH. intros; apply Hb; set_solver.
Qed.

(** ** Lemmas: strings *)

Lemma str_app_nil_r (s : string) : s +:+ "" = s.
Proof. induction s as [|c s IH]; [done|]. by rewrite <-IH at 2. Qed.

Lemma str_app_assoc (a b c : string) : (a +:+ b) +:+ c = a +:+ b +:+ c.
Proof.
  induction a as [|x a IH]; [done|].
  change (String x ((a +:+ b) +:+ c) = String x (a +:+ b +:+ c)). by rewrite IH.
Qed.

Lemma str_app_cons (x : ascii) (a b : string) : String x a +:+ b = String x (a +:+ b).
Proof. done. Qed.

Lemma str_forallb_app f (a b : string) :
  str_forallb f (a +:+ b) = str_forallb f a && str_forallb f b.
Proof.
  induction a as [|c a IH]; [done|].
  rewrite str_app_cons. simpl. by rewrite IH, andb_assoc.
Qed.

Lemma str_forallb_impl (f g : ascii -> bool) s :
  (forall c, f c = true -> g c = true) ->
  str_forallb f s = true -> str_forallb g s = true.
Proof.
  intros Hfg. induction s as [|c s IH]; [done|]. simpl.
  rewrite !andb_true_iff. intros [Hc Hs]. auto.
Qed.

Lemma str_app_inv_nil (a b : string) : a +:+ b = "" -> a = "" /\ b = "".
Proof. destruct a; [|done]. by destruct b. Qed.

Lemma span_app f a r :
  str_forallb f a = true -> (match r with String c _ => f c = false | _ => True end) ->
  span f (a +:+ r) = (a, r).
Proof.
  intros Ha Hr. induction a as [|c a IH].
  - change ("" +:+ r) with r. destruct r as [|c r]; [done|]. cbn [span]. by rewrite Hr.
  - cbn [str_forallb] in Ha. apply andb_true_iff in Ha as [Hc Ha].
    rewrite str_app_cons. cbn [span]. by rewrite Hc, IH.
Qed.

(** [s.split(sep)] when [s] holds no separator, and at the first separator. *)
Definition lacks (sep : ascii) (s : string) : bool :=
  str_forallb (fun c => negb (Ascii.eqb c sep)) s.

Lemma split_on_lacks sep s : lacks sep s = true -> split_on sep s = [s].
Proof.
  unfold split_on. induction s as [|c s IH]; [done|]. unfold lacks in *. simpl.
  rewrite andb_true_iff. intros [Hc Hs]. specialize (IH Hs).
  destruct (split_aux sep s) as [w ws]. simplify_eq.
  by destruct (Ascii.eqb c sep).
Qed.

Lemma split_on_app sep a b :
  lacks sep a = true -> split_on sep (a +:+ String sep b) = a :: split_on sep b.
Proof.
  unfold split_on, lacks. induction a as [|c a IH]; simpl.
  - intros _. change ("" +:+ String sep b) with (String sep b). simpl.
    rewrite Ascii.eqb_refl. by destruct (split_aux sep b).
  - rewrite andb_true_iff. intros [Hc Hs]. specialize (IH Hs).
    destruct (split_aux sep (a +:+ String sep b)) as [w ws].
    destruct (split_aux sep b) as [w' ws']. simplify_eq.
    by destruct (Ascii.eqb c sep).
Qed.

(** ** Lemmas: decimal numerals *)

Lemma digits_show_nat n : digits (show_nat n) = Some n.
Proof.
  unfold digits, show_nat. rewrite NilZero.usu.
  - by rewrite DecimalN.Unsigned.of_to.
  - destruct n as [|p]; [done|]. intros H.
    assert (Hz : N.of_uint (N.to_uint (Npos p)) = N.of_uint Decimal.Nil) by by rewrite H.
    by rewrite DecimalN.Unsigned.of_to in Hz.
Qed.

#[global] Instance show_nat_inj : Inj (=) (=) show_nat.
Proof. intros a b H. apply (f_equal digits) in H. rewrite !digits_show_nat in H. congruence. Qed.

(** [Number(s)] on the strings the program converts: surrounding white space is
    dropped, the empty string is [0], then an optional sign and digits.  [None] is
    [NaN].  Fractions, exponents, radix prefixes and [Infinity] are not modelled:
    they count as [NaN]. *)
Definition to_number (s : string) : option Z :=
  match trim s with
  | "" => Some 0%Z
  | String "-" s' => Z.opp ∘ Z.of_N <$> digits s'
  | String "+" s' => Z.of_N <$> digits s'
  | s' => Z.of_N <$> digits s'
  end.

Lemma show_nat_head n : exists c s, show_nat n = String c s /\ c <> "-"%char.
Proof.
  unfold show_nat. destruct (N.to_uint n) eqn:E; simpl; eauto 10 with congruence.
  all: eexists _, _; split; [reflexivity|done].
Qed.

(** Numerals are their own trimmed form. *)
Lemma trim_id s : str_existsb is_space s = false -> trim s = s.
Proof.
  unfold str_existsb. rewrite negb_false_iff. intros H.
  assert (Ht : forall t, str_forallb (fun c => negb (is_space c)) t = true -> trim_end t = t).
  { clear s H. induction t as [|c t IH]; [done|]. simpl. rewrite andb_true_iff, negb_true_iff.
    intros [Hc Hs]. rewrite (IH Hs), Hc. by destruct t. }
  unfold trim. destruct s as [|c s]; [done|]. simpl trim_start.
  pose proof H as H'. simpl in H. apply andb_true_iff in H as [Hc _]. apply negb_true_iff in Hc.
  rewrite Hc. by apply Ht.
Qed.

Definition is_digit (c : ascii) : bool := (48 <=? N_of_ascii c)%N && (N_of_ascii c <=? 57)%N.

Lemma digit_chars d : str_forallb is_digit (NilEmpty.string_of_uint d) = true.
Proof. induction d; [done|..]; exact IHd. Qed.

Lemma show_nat_digits n : str_forallb is_digit (show_nat n) = true.
Proof. unfold show_nat, NilZero.string_of_uint. destruct (N.to_uint n) eqn:E; [done|..]; apply digit_chars. Qed.

Lemma show_nat_no_space n : str_existsb is_space (show_nat n) = false.
Proof.
  unfold str_existsb. rewrite negb_false_iff.
  eapply str_forallb_impl; [|apply show_nat_digits]. intros c Hc. unfold is_digit, is_space in *.
  apply andb_true_iff in Hc as [H1%N.leb_le H2%N.leb_le].
  apply negb_true_iff, orb_false_iff. split.
  - apply andb_false_iff. right. apply N.leb_gt. lia.
  - apply N.eqb_neq. lia.
Qed.

Lemma to_number_show_nat n : to_number (show_nat n) = Some (Z.of_N n).
Proof.
  unfold to_number. rewrite trim_id by apply show_nat_no_space. pose proof (digits_show_nat n) as Hd.
  pose proof (show_nat_digits n) as Hc. destruct (show_nat_head n) as (c & s & E & _). rewrite E in *.
  simpl in Hc. apply andb_true_iff in Hc as [Hc _].
  destruct c as [[][][][][][][][]]; try done; by rewrite Hd.
Qed.

Lemma to_number_show_int z : to_number (show_int z) = Some z.
Proof.
  destruct z as [|p|p]; [apply (to_number_show_nat 0)|apply (to_number_show_nat (Npos p))|].
  unfold to_number, show_int. change ("-" +:+ show_nat (N.pos p)) with (String "-" (show_nat (N.pos p))).
  rewrite trim_id; [by rewrite digits_show_nat|].
  pose proof (show_nat_no_space (N.pos p)) as H. unfold str_existsb in *. exact H.
Qed.

(** ** Relations kept by computations

    [preserves R m]: whatever its outcome, running [m] moves the state along
    [R].  For a preorder this is closed under the constructs of the monad. *)
Definition preserves {S A} (R : relation S) (m : M S A) : Prop := forall s, R s (m s).2.

Create HintDb preserves.

Section Preserves.
Context {S : Type} {R : relation S} `{!PreOrder R}.

Lemma preserves_ret {A} (a : A) : preserves R (mret a : M S A).
Proof. intros s. reflexivity. Qed.

Lemma preserves_throw {A} e : preserves R (throw e : M S A).
Proof. intros s. reflexivity. Qed.

Lemma preserves_exit {A} c : preserves R (exit c : M S A).
Proof. intros s. reflexivity. Qed.

Lemma preserves_get : preserves R (get_state : M S S).
Proof. intros s. reflexivity. Qed.

Lemma preserves_modify f : (forall s, R s (f s)) -> preserves R (modify f).
Proof. intros H s. apply H. Qed.

Lemma preserves_bind {A B} (m : M S A) (f : A -> M S B) :
  preserves R m -> (forall a, preserves R (f a)) -> preserves R (m ≫= f).
Proof.
  intros Hm Hf s. unfold mbind, M_bind. pose proof (Hm s) as H.
  destruct (m s) as [[a|e|c] s']; simpl in *; [|done..].
  etrans; [exact H|apply Hf].
Qed.

Lemma preserves_try_catch {A} (m : M S A) h :
  preserves R m -> (forall e, preserves R (h e)) -> preserves R (try_catch m h).
Proof.
  intros Hm Hh s. unfold try_catch. pose proof (Hm s) as H.
  destruct (m s) as [[a|e|c] s']; simpl in *; [done| |done].
  etrans; [exact H|apply Hh].
Qed.

Lemma preserves_for_each {A} (l : list A) (body : A -> M S unit) :
  (forall x, x ∈ l -> preserves R (body x)) -> preserves R (for_each l body).
Proof.
  intros Hb s. apply for_each_preserves; [apply _..|]. intros x s' Hx. by apply Hb.
Qed.
End Preserves.

#[export] Hint Resolve preserves_ret preserves_throw preserves_exit preserves_get
  preserves_bind preserves_try_catch : preserves.

(** Walk through a computation, leaving its primitive steps. *)
Ltac preserve :=
  repeat first
    [ solve [auto 2 with preserves nocore]
    | apply preserves_bind; [|intros ?]
    | apply preserves_try_catch; [|intros ?]
    | apply preserves_ret | apply preserves_throw | apply preserves_exit | apply preserves_get
    | solve [eauto with preserves]
    | case_decide
    | case_match ].

(** [split_on] cuts at every separator. *)
Lemma split_on_app_sep sep a b : split_on sep (a +:+ String sep b) = split_on sep a ++ split_on sep b.
Proof.
  unfold split_on. induction a as [|c a IH]; simpl.
  - change ("" +:+ String sep b) with (String sep b). simpl.
    rewrite Ascii.eqb_refl. by destruct (split_aux sep b).
  - destruct (split_aux sep (a +:+ String sep b)) as [w ws].
    destruct (split_aux sep a) as [w' ws'], (split_aux sep b) as [w'' ws''].
    simpl in IH. injection IH as -> ->. by destruct (Ascii.eqb c sep).
Qed.

(** [s.split(c).join(c)] is [s]. *)
Lemma join_split_on sep s : join (String sep "") (split_on sep s) = s.
Proof.
  unfold split_on. induction s as [|c s IH]; [done|]. simpl.
  destruct (split_aux sep s) as [w ws]. destruct (Ascii.eqb_spec c sep) as [-> |Hc].
  - rewrite <-IH. by destruct ws.
  - rewrite <-IH. by destruct ws.
Qed.

(** ** Lemmas: sublists *)

Lemma sublist_map {A B} (f : A -> B) (l k : list A) : l `sublist_of` k -> f <$> l `sublist_of` f <$> k.
Proof. induction 1; simpl; by constructor. Qed.

Lemma Forall_sub {A} (P : A -> Prop) (l k : list A) : l `sublist_of` k -> Forall P k -> Forall P l.
Proof. induction 1; intros H'; [done|inversion H'; subst; constructor; auto|inversion H'; auto]. Qed.

(** ** HTTP layers

    What an HTTP layer promises to the code that sends requests through it: a
    request moves the state along [R] only, what it throws is of the kind
    [thrown], and it never ends the process. *)
Class HttpLayer {S : Type} {E : Type -> Type} (send : forall T, E T -> M S T)
    (R : relation S) (thrown : js_error -> Prop) : Prop := {
  http_quiet T (e : E T) : preserves R (send T e);
  http_thrown T (e : E T) s err : (send T e s).1 = Throw err -> thrown err;
  http_no_exit T (e : E T) s c : (send T e s).1 <> Exit c
}.

Section HttpLayer.
Context {S : Type} {E : Type -> Type} {send : forall T, E T -> M S T} {R : relation S} {thrown : js_error -> Prop}.
Context `{!HttpLayer send R thrown}.

(** A request is answered or throws. *)
Lemma http_answer {T} (e : E T) s :
  exists s', R s s' /\
    ((exists d, send T e s = (Ret d, s')) \/ exists err, send T e s = (Throw err, s') /\ thrown err).
Proof.
  pose proof (http_quiet T e s) as Hq. pose proof (http_thrown T e s) as Ht. pose proof (http_no_exit T e s) as Hx.
  exists (send T e s).2. split; [exact Hq|]. destruct (send T e s) as [[d|err|c] s']; simpl in *.
  - left. by exists d.
  - right. exists err. split; [done|]. by apply Ht.
  - by destruct (Hx c).
Qed.

(** Any relation wider than [R] is kept by requests. *)
Lemma http_preserves {T} (e : E T) (R' : relation S) :
  (forall s s', R s s' -> R' s s') -> preserves R' (send T e).
Proof. intros H s. apply H, http_quiet. Qed.
End HttpLayer.
