(* ===== verification/Tables.v ===== *)
(** * Tables with generated keys

    What the back end's ORM gives it, by its documentation: a table keeps its rows
    in the order they were inserted, numbers them from its own counter, and a query
    without an order lists them in that order.  Rows are plain records; [HasId]
    says which member is the primary key. *)

From S2P Require Import Prelude.
From Stdlib Require Import ZArith Lia.

Class HasId (R : Type) := id_of : R -> Z.

Record table (R : Type) := mkTable { rows : list R; next_id : Z }.
Arguments mkTable {R} rows next_id.
Arguments rows {R} t.
Arguments next_id {R} t.

Section Operations.
Context {R : Type} `{!HasId R}.

Definition empty_table : table R := mkTable [] 1.

(** [db.get(R, id)]. *)
Definition tget (t : table R) (i : Z) : option R := List.find (fun r => (id_of r =? i)%Z) (rows t).

(** [db.query(R).filter(q).all()]. *)
Definition select (t : table R) (q : R -> bool) : list R := List.filter q (rows t).

(** [db.query(R).filter(q).first()]. *)
Definition first_row (t : table R) (q : R -> bool) : option R := head (select t q).

(** [db.add(r); db.flush()]: the row made with the next key. *)
Definition tadd (make : Z -> R) (t : table R) : table R :=
  mkTable (rows t ++ [make (next_id t)]) (next_id t + 1).

(** Assigning to members of the row [i]. *)
Definition tupdate (i : Z) (f : R -> R) (t : table R) : table R :=
  mkTable (map (fun r => if (id_of r =? i)%Z then f r else r) (rows t)) (next_id t).

(** [db.query(R).filter(q).delete()]. *)
Definition tdelete (q : R -> bool) (t : table R) : table R :=
  mkTable (List.filter (fun r => negb (q r)) (rows t)) (next_id t).

(** Assigning to the rows a condition selects. *)
Definition tmap (f : R -> R) (t : table R) : table R := mkTable (map f (rows t)) (next_id t).

(** Keys grow from row to row, are positive, and below the counter. *)
Record table_ok (t : table R) : Prop := mkTableOk {
  keys_grow : StronglySorted Z.lt (map id_of (rows t));
  keys_below : Forall (fun r => (0 < id_of r < next_id t)%Z) (rows t);
  counter_positive : (0 < next_id t)%Z
}.

(** An operation that keeps every row's key. *)
Definition keeps_id (f : R -> R) : Prop := forall r, id_of (f r) = id_of r.
End Operations.

#[global] Hint Resolve keys_grow keys_below counter_positive : core.

(** ** Lemmas: growing lists of keys *)

Lemma sorted_distinct l : StronglySorted Z.lt l -> NoDup l.
Proof.
  induction 1 as [|x l _ IH Hx]; constructor; [|done]. intros Hin. rewrite Forall_forall in Hx. specialize (Hx x Hin). lia.
Qed.

Lemma sorted_app l k : StronglySorted Z.lt l -> StronglySorted Z.lt k -> (forall x y, x ∈ l -> y ∈ k -> (x < y)%Z) ->
  StronglySorted Z.lt (l ++ k).
Proof.
  induction 1 as [|x l _ IH Hx]; intros Hk Hlk; [done|]. cbn [app]. constructor.
  - apply IH; [done|]. intros a b Ha Hb. apply Hlk; [by right|done].
  - apply Forall_app. split; [done|]. apply Forall_forall. intros b Hb. apply Hlk; [by left|done].
Qed.

Lemma sorted_filter {A} (f : A -> Z) (q : A -> bool) l :
  StronglySorted Z.lt (map f l) -> StronglySorted Z.lt (map f (List.filter q l)).
Proof.
  induction l as [|x l IH]; intros Hs; [done|]. cbn [map] in Hs. apply StronglySorted_inv in Hs as [Hs Hx].
  cbn [List.filter]. destruct (q x); [|by apply IH]. cbn [map]. constructor; [by apply IH|].
  rewrite Forall_forall in *. intros z (y & -> & Hy)%list_elem_of_fmap. apply Hx. apply list_elem_of_fmap. exists y.
  split; [done|]. apply list_elem_of_In, filter_In in Hy as [Hy _]. by apply list_elem_of_In.
Qed.

Section Lemmas.
Context {R : Type} `{!HasId R}.
Implicit Types (t : table R) (q : R -> bool).

Lemma keys_distinct t : table_ok t -> NoDup (map id_of (rows t)).
Proof. intros Ht. by apply sorted_distinct, keys_grow. Qed.

Lemma elem_of_select t q r : r ∈ select t q <-> r ∈ rows t /\ q r = true.
Proof. unfold select. by rewrite !list_elem_of_In, filter_In. Qed.

Lemma tget_Some t i r : tget t i = Some r -> r ∈ rows t /\ id_of r = i.
Proof.
  intros [H1 H2]%find_some. split; [by apply list_elem_of_In|]. by apply Z.eqb_eq.
Qed.

Lemma tget_None t i : tget t i = None <-> forall r, r ∈ rows t -> id_of r <> i.
Proof.
  split.
  - intros H r Hr E. pose proof (find_none _ _ H r (proj1 (list_elem_of_In _ _) Hr)) as Hf. cbn in Hf.
    by rewrite E, Z.eqb_refl in Hf.
  - intros H. destruct (tget t i) as [r|] eqn:E; [|done]. apply tget_Some in E as [Hr E]. by destruct (H r Hr).
Qed.

Lemma tget_unique t r : table_ok t -> r ∈ rows t -> tget t (id_of r) = Some r.
Proof.
  intros Hnd%keys_distinct. unfold tget. induction (rows t) as [|x l IH]; [by intros ?%not_elem_of_nil|].
  cbn [map] in Hnd. apply NoDup_cons in Hnd as [Hx Hnd]. rewrite elem_of_cons. cbn [List.find].
  destruct (Z.eqb_spec (id_of x) (id_of r)) as [E|Hne]; intros [->|Hr]; [done| | |by apply IH].
  - destruct Hx. rewrite E. apply list_elem_of_fmap. by exists r.
  - done.
Qed.

Lemma first_row_Some t q r : first_row t q = Some r -> r ∈ rows t /\ q r = true.
Proof.
  unfold first_row. intros H. apply elem_of_select. destruct (select t q); [done|]. injection H as ->. by left.
Qed.

Lemma first_row_None t q : first_row t q = None <-> forall r, r ∈ rows t -> q r = false.
Proof.
  unfold first_row. split.
  - intros H r Hr. destruct (q r) eqn:E; [|done]. assert (Hs : r ∈ select t q) by by apply elem_of_select.
    destruct (select t q); [by apply not_elem_of_nil in Hs|done].
  - intros H. destruct (select t q) as [|r l] eqn:E; [done|].
    assert (Hs : r ∈ select t q) by (rewrite E; by left). apply elem_of_select in Hs as [Hr Hq]. by rewrite H in Hq.
Qed.

Lemma empty_table_ok : table_ok (empty_table (R := R)).
Proof. split; constructor. Qed.

Lemma tadd_ok make t : id_of (make (next_id t)) = next_id t -> table_ok t -> table_ok (tadd make t).
Proof.
  intros Hid [Hnd Hb Hc]. split; cbn [tadd rows next_id].
  - rewrite map_app. apply sorted_app; [done|by repeat constructor|].
    intros i j (r & -> & Hr)%list_elem_of_fmap. cbn [map]. rewrite Hid. intros ->%list_elem_of_singleton.
    rewrite Forall_forall in Hb. specialize (Hb r Hr). lia.
  - apply Forall_app. split; [eapply Forall_impl; [exact Hb|]; cbn; lia|]. repeat constructor; rewrite Hid; lia.
  - lia.
Qed.

Lemma tmap_ok f t : keeps_id f -> table_ok t -> table_ok (tmap f t).
Proof.
  intros Hf [Hnd Hb Hc]. split; cbn [tmap rows next_id]; [|by apply Forall_map; eapply Forall_impl; [exact Hb|]; cbn; intros r; rewrite Hf|done].
  rewrite map_map. erewrite map_ext; [exact Hnd|]. exact Hf.
Qed.

Lemma tupdate_map i f t : tupdate i f t = tmap (fun r => if (id_of r =? i)%Z then f r else r) t.
Proof. done. Qed.

Lemma tupdate_ok i f t : keeps_id f -> table_ok t -> table_ok (tupdate i f t).
Proof. intros Hf. apply tmap_ok. intros r. by destruct (_ =? i)%Z. Qed.

Lemma tdelete_ok q t : table_ok t -> table_ok (tdelete q t).
Proof.
  intros [Hnd Hb Hc]. split; cbn [tdelete rows next_id]; [by apply sorted_filter| |done].
  rewrite Forall_forall in *. intros r Hr. apply Hb. apply list_elem_of_In, filter_In in Hr as [Hr _].
  by apply list_elem_of_In.
Qed.

Lemma elem_of_tadd make t r : r ∈ rows (tadd make t) <-> r ∈ rows t \/ r = make (next_id t).
Proof. cbn [tadd rows]. by rewrite elem_of_app, list_elem_of_singleton. Qed.

Lemma elem_of_tdelete q t r : r ∈ rows (tdelete q t) <-> r ∈ rows t /\ q r = false.
Proof. cbn [tdelete rows]. rewrite !list_elem_of_In, filter_In, negb_true_iff. done. Qed.

Lemma elem_of_tmap f t r : r ∈ rows (tmap f t) <-> exists x, r = f x /\ x ∈ rows t.
Proof. cbn [tmap rows]. apply list_elem_of_fmap. Qed.

Lemma elem_of_tupdate i f t r :
  r ∈ rows (tupdate i f t) <-> exists x, r = (if (id_of x =? i)%Z then f x else x) /\ x ∈ rows t.
Proof. rewrite tupdate_map. apply elem_of_tmap. Qed.

Lemma find_app q (l k : list R) :
  List.find q (l ++ k) = match List.find q l with Some r => Some r | None => List.find q k end.
Proof. induction l as [|y l IH]; [done|]. cbn [app List.find]. by destruct (q y). Qed.

Lemma find_app_last q (l : list R) x :
  List.find q (l ++ [x]) = match List.find q l with Some r => Some r | None => if q x then Some x else None end.
Proof. by rewrite find_app. Qed.

Lemma tget_tadd make t i : id_of (make (next_id t)) = next_id t -> table_ok t ->
  tget (tadd make t) i = if (i =? next_id t)%Z then Some (make (next_id t)) else tget t i.
Proof.
  intros Hid [_ Hb _]. unfold tget. cbn [tadd rows]. rewrite find_app_last, Hid.
  rewrite Z.eqb_sym. destruct (List.find _ (rows t)) as [r|] eqn:E.
  - apply find_some in E as [Hr Hi%Z.eqb_eq]. rewrite Forall_forall in Hb.
    specialize (Hb r (proj2 (list_elem_of_In _ _) Hr)). cbn in Hb.
    destruct (Z.eqb_spec i (next_id t)); [lia|done].
  - by destruct (i =? next_id t)%Z.
Qed.

Lemma tget_tmap f t i : keeps_id f -> tget (tmap f t) i = f <$> tget t i.
Proof.
  intros Hf. unfold tget. cbn [tmap rows]. induction (rows t) as [|r l IH]; [done|]. cbn [map List.find].
  rewrite Hf. by destruct (id_of r =? i)%Z.
Qed.

Lemma tget_tupdate i f t j : keeps_id f ->
  tget (tupdate i f t) j = if (j =? i)%Z then f <$> tget t j else tget t j.
Proof.
  intros Hf. rewrite tupdate_map, tget_tmap by (intros r; by destruct (_ =? i)%Z).
  destruct (tget t j) as [r|] eqn:E; [|by destruct (j =? i)%Z]. apply tget_Some in E as [_ E]. cbn. rewrite E.
  by destruct (j =? i)%Z.
Qed.

Lemma tget_tdelete q t i : table_ok t ->
  tget (tdelete q t) i = match tget t i with Some r => if q r then None else Some r | None => None end.
Proof.
  intros Hok. destruct (tget t i) as [r|] eqn:E.
  - apply tget_Some in E as [Hr E]. destruct (q r) eqn:Hq.
    + apply tget_None. intros x [Hx Hqx]%elem_of_tdelete Ei. subst i.
      assert (x = r); [|congruence]. pose proof (tget_unique t x Hok Hx) as H1. rewrite Ei in H1.
      pose proof (tget_unique t r Hok Hr). congruence.
    + subst i. apply tget_unique; [by apply tdelete_ok|]. by apply elem_of_tdelete.
  - apply tget_None. intros x [Hx _]%elem_of_tdelete. by apply (proj1 (tget_None t i)).
Qed.

Lemma select_tadd make t q :
  select (tadd make t) q = select t q ++ (if q (make (next_id t)) then [make (next_id t)] else []).
Proof. unfold select. cbn [tadd rows]. rewrite List.filter_app. cbn [List.filter]. by destruct (q _). Qed.
End Lemmas.
