(* ===== verification/JsNumber.v ===== *)
(** * Numeric text in general

    [Number(text)] and [String(number)] for the status codes of an API, which a
    user types as free text: decimal literals with fractions and exponents,
    [Infinity], and the radix prefixes.  A number is kept as the decimal it was
    written as; [String] prints it as JavaScript does for literals of at most
    fifteen significant digits, which the rounding to a double does not change. *)

From S2P Require Import Prelude.
From Stdlib Require Import Ascii String ZArith Lia.

(** [Dec m e] is [m * 10^e], with no trailing zero in [m]. *)
Inductive js_num :=
| NaN
| Infinite (negative : bool)
| Dec (m e : Z).

#[global] Instance js_num_eq_dec : EqDecision js_num.
Proof. solve_decision. Defined.

Fixpoint strip_zeros (fuel : nat) (m e : Z) : js_num :=
  match fuel with
  | S n => if (m mod 10 =? 0)%Z then strip_zeros n (m / 10) (e + 1) else Dec m e
  | O => Dec m e
  end.

(** A decimal in normal form; [len] is at least the number of its digits. *)
Definition decimal (len : nat) (m e : Z) : js_num :=
  if (m =? 0)%Z then Dec 0 0 else strip_zeros len m e.

Definition negate (n : js_num) : js_num :=
  match n with NaN => NaN | Infinite b => Infinite (negb b) | Dec m e => Dec (- m) e end.

(** [ExponentPart?] to the end of the text. *)
Definition exponent (s : string) : option Z :=
  match s with
  | EmptyString => Some 0%Z
  | String c r =>
      if Ascii.eqb c "e" || Ascii.eqb c "E" then
        match r with
        | String "-" d => Z.opp ∘ Z.of_N <$> digits d
        | String "+" d => Z.of_N <$> digits d
        | d => Z.of_N <$> digits d
        end
      else None
  end.

(** [StrUnsignedDecimalLiteral]. *)
Definition unsigned_decimal (s : string) : js_num :=
  if String.eqb s "Infinity" then Infinite false
  else
    let '(i, r) := span is_digit s in
    let '(f, r) := match r with
                   | String "." r' => span is_digit r'
                   | _ => ("", r)
                   end in
    match digits (i +:+ f), exponent r with
    | Some n, Some x =>
        decimal (String.length (i +:+ f)) (Z.of_N n) (x - Z.of_nat (String.length f))
    | _, _ => NaN
    end.

Definition hex_digit (c : ascii) : option Z :=
  let n := Z.of_N (N_of_ascii c) in
  if is_digit c then Some (n - 48)%Z
  else if ((97 <=? n) && (n <=? 102))%Z then Some (n - 87)%Z
  else if ((65 <=? n) && (n <=? 70))%Z then Some (n - 55)%Z
  else None.

(** The digits of a literal with a radix prefix. *)
Fixpoint radix_value (base acc : Z) (s : string) : option Z :=
  match s with
  | EmptyString => Some acc
  | String c s' =>
      match hex_digit c with
      | Some d => if (d <? base)%Z then radix_value base (acc * base + d) s' else None
      | None => None
      end
  end.

Definition radix_literal (base : Z) (s : string) : js_num :=
  match s with
  | EmptyString => NaN
  | _ => match radix_value base 0 s with
         | Some m => decimal (2 * String.length s) m 0
         | None => NaN
         end
  end.

(** [Number(text)]. *)
Definition Number (text : string) : js_num :=
  match trim text with
  | EmptyString => Dec 0 0
  | String "0" (String "x" r) | String "0" (String "X" r) => radix_literal 16 r
  | String "0" (String "o" r) | String "0" (String "O" r) => radix_literal 8 r
  | String "0" (String "b" r) | String "0" (String "B" r) => radix_literal 2 r
  | String "-" r => negate (unsigned_decimal r)
  | String "+" r => unsigned_decimal r
  | s => unsigned_decimal s
  end.

Definition zeros (n : Z) : string := join "" (repeat "0" (Z.to_nat n)).

(** [Number::toString] of a positive decimal, by its digits [s] and the place
    [n] of its decimal point. *)
Definition show_decimal (s : string) (n : Z) : string :=
  let k := Z.of_nat (String.length s) in
  if ((k <=? n) && (n <=? 21))%Z then s +:+ zeros (n - k)
  else if ((0 <? n) && (n <=? 21))%Z then
    String.substring 0 (Z.to_nat n) s +:+ "." +:+ String.substring (Z.to_nat n) (String.length s) s
  else if ((-6 <? n) && (n <=? 0))%Z then "0." +:+ zeros (- n) +:+ s
  else
    let e := (if n - 1 <? 0 then "-" else "+")%Z +:+ show_int (Z.abs (n - 1)) in
    match s with
    | String c EmptyString => s +:+ "e" +:+ e
    | String c r => String c ("." +:+ r) +:+ "e" +:+ e
    | EmptyString => ""
    end.

(** [String(number)]. *)
Definition to_text (n : js_num) : string :=
  match n with
  | NaN => "NaN"
  | Infinite b => (if b then "-" else "") +:+ "Infinity"
  | Dec m e =>
      if (m =? 0)%Z then "0"
      else
        let s := show_nat (Z.to_N (Z.abs m)) in
        (if (m <? 0)%Z then "-" else "") +:+ show_decimal s (Z.of_nat (String.length s) + e)
  end.

(** [a - b > 0]: with a [NaN], and between equal infinities, it is false. *)
Definition above (a b : js_num) : bool :=
  match a, b with
  | NaN, _ | _, NaN => false
  | Infinite x, Infinite y => negb x && y
  | Infinite x, Dec _ _ => negb x
  | Dec _ _, Infinite y => y
  | Dec m e, Dec m' e' =>
      let k := Z.min e e' in (m' * 10 ^ (e' - k) <? m * 10 ^ (e - k))%Z
  end.

(** The text prints as itself: the canonical numeral of its number. *)
Definition canonical (text : string) : bool := String.eqb (to_text (Number text)) text.

(** With fuel for the digits of [m], [decimal] is the same number in normal form. *)
Lemma decimal_normal len m e :
  (0 < m < 10 ^ Z.of_nat len)%Z ->
  exists m' k, decimal len m e = Dec m' (e + Z.of_nat k) /\ (m' mod 10 <> 0)%Z /\ (m = m' * 10 ^ Z.of_nat k)%Z.
Proof.
  intros Hm. unfold decimal. destruct (Z.eqb_spec m 0); [lia|].
  revert m e n Hm. induction len as [|len IH]; intros m e n Hm; [cbn in Hm; lia|]. cbn [strip_zeros].
  destruct (Z.eqb_spec (m mod 10) 0) as [E|E].
  - assert (Em : m = (10 * (m / 10))%Z) by (apply Z_div_exact_full_2; lia).
    rewrite Nat2Z.inj_succ, Z.pow_succ_r in Hm by lia.
    destruct (IH (m / 10)%Z (e + 1)%Z) as (m' & k & -> & H1 & H2); [lia|lia|].
    exists m', (S k). split; [f_equal; lia|]. split; [done|].
    rewrite Nat2Z.inj_succ, Z.pow_succ_r by lia. lia.
  - exists m, 0%nat. split; [f_equal; lia|]. split; [done|]. cbn. lia.
Qed.

(** The texts of HTTP status codes are canonical; others need not be. *)
Lemma status_codes_canonical :
  forallb (fun n => canonical (show_nat (N.of_nat n))) (seq 0 1000) = true.
Proof. vm_compute. reflexivity. Qed.

Lemma canonical_code n : (n < 1000)%N -> canonical (show_nat n) = true.
Proof.
  intros Hn. pose proof status_codes_canonical as H. rewrite forallb_forall in H.
  rewrite <-(N2Nat.id n). apply H, in_seq. lia.
Qed.

Lemma Number_samples :
  map Number ["007"; "2e2"; " 200 "; "0x10"; "1.50"; "-0"; ".5"; "5."; "."; "2e"; "Infinity"; "abc"] =
  [Dec 7 0; Dec 2 2; Dec 2 2; Dec 16 0; Dec 15 (-1); Dec 0 0; Dec 5 (-1); Dec 5 0; NaN; NaN; Infinite false; NaN].
Proof. reflexivity. Qed.

Lemma to_text_samples :
  map (fun s => to_text (Number s)) ["007"; "2e2"; "1.50"; "1e21"; "1e20"; "0.000001"; "1e-7"; "123456e-3"; "1.5e30"] =
  ["7"; "200"; "1.5"; "1e+21"; "100000000000000000000"; "0.000001"; "1e-7"; "123.456"; "1.5e+30"].
Proof. reflexivity. Qed.
