(* ===== verification/JsObject.v ===== *)
(** * JavaScript objects used as string-keyed maps

    [Record<string, V>] values ([config.services], the parameter tables keyed by
    location or status code, the role buckets of the header) are association
    lists in insertion order.  [entries], [keys] and [values] enumerate them as
    [Object.entries], [Object.keys] and [Object.values] do: canonical array
    indices first, in increasing order, then the other keys in insertion order.
    Reading [o[k]] also sees the members of [Object.prototype]. *)

From S2P Require Import Prelude.
From Stdlib Require Import Ascii String ZArith Lia.

Notation obj V := (list (string * V)).

(** The own property [k] of [o]. *)
Fixpoint obj_get {V} (o : obj V) (k : string) : option V :=
  match o with
  | [] => None
  | (k', v) :: o' => if String.eqb k k' then Some v else obj_get o' k
  end.

(** [o[k] = v]: an existing key keeps its place, a new one goes last. *)
Fixpoint obj_set {V} (o : obj V) (k : string) (v : V) : obj V :=
  match o with
  | [] => [(k, v)]
  | (k', v') :: o' =>
      if String.eqb k k' then (k', v) :: o' else (k', v') :: obj_set o' k v
  end.

(** [delete o[k]]. *)
Fixpoint obj_delete {V} (o : obj V) (k : string) : obj V :=
  match o with
  | [] => []
  | (k', v) :: o' => if String.eqb k k' then obj_delete o' k else (k', v) :: obj_delete o' k
  end.

(** The array index a key denotes, when it is the canonical numeral of one. *)
Definition array_index (k : string) : option N :=
  match digits k with
  | Some n => if String.eqb (show_nat n) k && (n <? 4294967295)%N then Some n else None
  | None => None
  end.

Definition index_le {V} (a b : N * (string * V)) : Prop := (a.1 <= b.1)%N.
#[global] Instance index_le_dec {V} : RelDecision (@index_le V).
Proof. intros a b. unfold index_le. apply _. Defined.

Definition indexed {V} (kv : string * V) : option (N * (string * V)) :=
  (fun n => (n, kv)) <$> array_index kv.1.

(** [Object.entries(o)], [Object.keys(o)] and [Object.values(o)]. *)
Definition entries {V} (o : obj V) : list (string * V) :=
  (merge_sort index_le (omap indexed o)).*2 ++
  filter (fun kv => array_index kv.1 = None) o.
Definition keys {V} (o : obj V) : list string := (entries o).*1.
Definition values {V} (o : obj V) : list V := (entries o).*2.

(** The names every object literal and every parsed JSON object inherits. *)
Definition object_prototype_names : list string :=
  ["__defineGetter__"; "__defineSetter__"; "__lookupGetter__"; "__lookupSetter__";
   "__proto__"; "constructor"; "hasOwnProperty"; "isPrototypeOf";
   "propertyIsEnumerable"; "toLocaleString"; "toString"; "valueOf"].

(** The truth value of [o[k]] in a condition, for string-valued objects: a
    non-empty own value, or an inherited member when there is no own one. *)
Definition truthy_member (o : obj string) (k : string) : bool :=
  match obj_get o k with
  | Some v => negb (String.eqb v "")
  | None => bool_decide (k ∈ object_prototype_names)
  end.

(** Own keys are pairwise distinct. *)
Definition obj_wf {V} (o : obj V) : Prop := NoDup o.*1.

(** ** Lemmas *)

Lemma obj_get_set_eq {V} (o : obj V) k v : obj_get (obj_set o k v) k = Some v.
Proof.
  induction o as [|[k' v'] o IH]; simpl; [by rewrite String.eqb_refl|].
  destruct (String.eqb_spec k k'); simpl.
  - subst. by rewrite String.eqb_refl.
  - by rewrite (proj2 (String.eqb_neq _ _)).
Qed.

Lemma obj_get_set_ne {V} (o : obj V) k k' v :
  k <> k' -> obj_get (obj_set o k v) k' = obj_get o k'.
Proof.
  intros Hne. induction o as [|[k0 v0] o IH]; simpl.
  - by rewrite (proj2 (String.eqb_neq _ _)).
  - destruct (String.eqb_spec k k0); simpl; [subst|by rewrite IH].
    by rewrite (proj2 (String.eqb_neq k' k0)).
Qed.

Lemma obj_get_delete_eq {V} (o : obj V) k : obj_get (obj_delete o k) k = None.
Proof.
  induction o as [|[k' v'] o IH]; simpl; [done|].
  destruct (String.eqb_spec k k'); simpl; [done|].
  by rewrite (proj2 (String.eqb_neq _ _)).
Qed.

Lemma obj_get_delete_ne {V} (o : obj V) k k' :
  k <> k' -> obj_get (obj_delete o k) k' = obj_get o k'.
Proof.
  intros Hne. induction o as [|[k0 v0] o IH]; simpl; [done|].
  destruct (String.eqb_spec k k0); simpl; rewrite IH; [|done].
  subst. by rewrite (proj2 (String.eqb_neq k' k0)).
Qed.

Lemma obj_get_In {V} (o : obj V) k v : obj_get o k = Some v -> (k, v) ∈ o.
Proof.
  induction o as [|[k' v'] o IH]; simpl; [done|]. rewrite elem_of_cons.
  destruct (String.eqb_spec k k'); intros; simplify_eq; auto.
Qed.

Lemma obj_get_None {V} (o : obj V) k : obj_get o k = None <-> k ∉ o.*1.
Proof.
  induction o as [|[k' v'] o IH]; simpl; [set_solver|].
  rewrite not_elem_of_cons, <-IH.
  destruct (String.eqb_spec k k'); split; [done|tauto|tauto|tauto].
Qed.

Lemma obj_In_get {V} (o : obj V) k v : obj_wf o -> (k, v) ∈ o -> obj_get o k = Some v.
Proof.
  unfold obj_wf. induction o as [|[k' v'] o IH]; simpl; [set_solver|].
  rewrite NoDup_cons, elem_of_cons. intros [Hk Hnd] [?|Hin]; simplify_eq.
  - by rewrite String.eqb_refl.
  - rewrite (proj2 (String.eqb_neq k k')); [auto|]. intros ->. apply Hk.
    apply list_elem_of_fmap. by exists (k', v).
Qed.

Lemma obj_set_new {V} (o : obj V) k v : obj_get o k = None -> obj_set o k v = o ++ [(k, v)].
Proof.
  induction o as [|[k' v'] o IH]; simpl; [done|].
  destruct (String.eqb_spec k k'); [done|]. intros H. by rewrite IH.
Qed.

Lemma obj_delete_ignored {V} (o : obj V) k : obj_get o k = None -> obj_delete o k = o.
Proof.
  induction o as [|[k' v'] o IH]; simpl; [done|].
  destruct (String.eqb_spec k k'); [done|]. intros H. by rewrite IH.
Qed.

Lemma obj_delete_sublist {V} (o : obj V) k : obj_delete o k `sublist_of` o.
Proof.
  induction o as [|[k' v'] o IH]; simpl; [done|].
  destruct (String.eqb k k'); by constructor.
Qed.

Lemma obj_set_wf {V} (o : obj V) k v : obj_wf o -> obj_wf (obj_set o k v).
Proof.
  intros Hwf. destruct (obj_get o k) as [v0|] eqn:E.
  - unfold obj_wf in *.
    assert (Hk : (obj_set o k v).*1 = o.*1); [|by rewrite Hk].
    clear Hwf. induction o as [|[k' v'] o IH]; simpl in *; [done|].
    destruct (String.eqb_spec k k'); simpl; [done|]. f_equal; auto.
  - rewrite obj_set_new by done. unfold obj_wf in *. rewrite fmap_app. simpl.
    apply NoDup_app. apply obj_get_None in E. split; [done|].
    split; [|apply NoDup_singleton].
    intros x Hx ->%list_elem_of_singleton. done.
Qed.

Lemma obj_delete_wf {V} (o : obj V) k : obj_wf o -> obj_wf (obj_delete o k).
Proof.
  unfold obj_wf. intros Hnd. eapply sublist_NoDup; [exact Hnd|]. clear Hnd.
  induction o as [|[k' v'] o IH]; simpl; [done|].
  destruct (String.eqb k k'); by constructor.
Qed.

Lemma omap_indexed_cons {V} (kv : string * V) o :
  omap indexed (kv :: o) =
  match indexed kv with Some x => x :: omap indexed o | None => omap indexed o end.
Proof. done. Qed.

Lemma indexed_snd {V} (o : obj V) :
  (omap indexed o).*2 = filter (fun kv => array_index kv.1 <> None) o.
Proof.
  induction o as [|kv o IH]; [done|].
  rewrite omap_indexed_cons, filter_cons. unfold indexed.
  destruct (array_index kv.1) eqn:E; case_decide; try done; rewrite <-IH; reflexivity.
Qed.

(** Enumerating an object yields each own property once. *)
Lemma entries_Permutation {V} (o : obj V) : entries o ≡ₚ o.
Proof.
  unfold entries. rewrite merge_sort_Permutation, indexed_snd.
  induction o as [|kv o IH]; [done|].
  rewrite !filter_cons. repeat case_decide; try done; simpl.
  - by rewrite IH.
  - by rewrite <-Permutation_middle, IH.
Qed.

Lemma entries_ordinary {V} (o : obj V) :
  Forall (fun kv => array_index kv.1 = None) o -> entries o = o.
Proof.
  intros H. unfold entries.
  assert (Hi : omap indexed o = []).
  { induction H as [|kv o Hk Ho IH]; [done|].
    rewrite omap_indexed_cons. unfold indexed at 1. by rewrite Hk. }
  rewrite Hi. simpl. clear Hi. induction H as [|kv o Hk Ho IH]; [done|].
  rewrite filter_cons, IH. by case_decide.
Qed.

Lemma elem_of_entries {V} (o : obj V) kv : kv ∈ entries o <-> kv ∈ o.
Proof. by rewrite entries_Permutation. Qed.

Lemma entries_wf {V} (o : obj V) : obj_wf o -> obj_wf (entries o).
Proof. unfold obj_wf. by rewrite entries_Permutation. Qed.

Lemma entries_nil_iff {V} (o : obj V) : entries o = [] <-> o = [].
Proof.
  split; [|by intros ->]. intros H. apply Permutation_nil_r.
  by rewrite <-(entries_Permutation o), H.
Qed.
