(* ===== verification/ApiTypes.v ===== *)
(** * The API data the code generator consumes

    [cam-fe-code-generator/src/services/apis/api/types.ts]: HTTP methods,
    parameter trees and API details as the server sends them.  Nullable fields
    are options; [ParamType] stays a string because the generator also accepts
    names outside the declared union. *)

From S2P Require Import Prelude JsObject.
From Stdlib Require Import String ZArith.

Inductive HttpMethod := GET | POST | PUT | DELETE | PATCH.

Definition method_name (m : HttpMethod) : string :=
  match m with
  | GET => "GET" | POST => "POST" | PUT => "PUT" | DELETE => "DELETE" | PATCH => "PATCH"
  end.

#[global] Instance HttpMethod_eq_dec : EqDecision HttpMethod.
Proof. solve_decision. Defined.

Inductive ApiLevel := P0 | P1 | P2 | P3 | P4.

#[global] Instance ApiLevel_eq_dec : EqDecision ApiLevel.
Proof. solve_decision. Defined.

Inductive ParamLocation := query | path | header | cookie | body.

Definition location_name (l : ParamLocation) : string :=
  match l with
  | query => "query" | path => "path" | header => "header" | cookie => "cookie" | body => "body"
  end.

Definition all_locations : list ParamLocation := [query; path; header; cookie; body].

(** The members of [RequestParam] and [ResponseParam] that the other one lacks. *)
Inductive ParamPlace :=
| InRequest (location : string) (default_value : option string)
| InResponse (status_code : Z).

(** [RequestParam], [ResponseParam] and their draft versions: [param_api] is
    [api_id] on the published tables and [api_draft_id] on the draft ones. *)
Inductive Param := mkParam {
  param_id : Z;
  param_api : Z;
  param_place : ParamPlace;
  param_name : string;
  param_type : string;
  required : bool;
  description : option string;
  example : option string;
  array_child_type : option string;
  parent_param_id : option Z;
  children_params : option (list Param)
}.

(** [ApiDetail | ApiDraftDetail], the members the generator reads. *)
Record ApiDetail := mkApiDetail {
  api_id : Z;
  api_name : string;
  api_method : HttpMethod;
  api_path : string;
  api_description : option string;
  request_params_by_location : option (obj (list Param));
  response_params_by_status_code : option (obj (list Param))
}.

(** [ApiBrief]. *)
Record ApiBrief := mkApiBrief {
  brief_id : Z;
  brief_name : string;
  brief_method : HttpMethod;
  brief_path : string;
  brief_description : option string;
  brief_category : option Z
}.

(** [a || b] on a nullable string. *)
Definition opt_str_or (a : option string) (b : string) : string := str_or (default "" a) b.

(** [x && x.length > 0] on a nullable array. *)
Definition non_empty {A} (l : option (list A)) : bool :=
  match l with Some (_ :: _) => true | _ => false end.

(** Induction on parameter trees. *)
Section ParamInd.
Variable P : Param -> Prop.
Hypothesis Hnode : forall p, (forall cs, children_params p = Some cs -> Forall P cs) -> P p.

Fixpoint Param_tree_ind (p : Param) : P p.
Proof.
  apply Hnode. destruct p as [i a pl n t r d e ac pp [cs|]]; simpl; [|done].
  intros cs' [= <-]. induction cs as [|c cs IH]; constructor; [apply Param_tree_ind|exact IH].
Defined.
End ParamInd.
