(* ===== verification/Generator.v ===== *)
(** * Generating TypeScript from API details

    [cam-fe-code-generator/src/services/code-generate/generator.ts] and
    [capitalizeFirstLetter] of [utils/utils.ts]: the type map, the recursive
    interface generator and [generateTSCode].  Strings hold ASCII text: upper
    casing a first letter outside ASCII is not modelled. *)

From S2P Require Import Prelude JsObject ApiTypes.
From Stdlib Require Import Ascii String ZArith Lia.

Definition capitalizeFirstLetter (s : string) : string :=
  match s with
  | EmptyString => EmptyString
  | String c s' => String (upper_char c) s'
  end.

(** ** [tsTypeMap]

    The recursive call has no third argument, so it never recurses further. *)
Definition tsTypeMap_leaf (type : string) : string :=
  if decide (type ∈ ["int"; "float"; "double"; "long"]) then "number"
  else if decide (type ∈ ["string"; "text"]) then "string"
  else if decide (type ∈ ["boolean"; "bool"]) then "boolean"
  else if decide (type ∈ ["array"; "list"]) then "any[]"
  else "any".

Definition tsTypeMap (type : string) (arrayChildType : option string) : string :=
  if decide (type ∈ ["array"; "list"]) then
    match arrayChildType with
    | Some c => if String.eqb c "" then "any[]" else tsTypeMap_leaf c +:+ "[]"
    | None => "any[]"
    end
  else tsTypeMap_leaf type.

(** ** [generateInterface] *)

Definition field_comment (param : Param) : string :=
  match description param with
  | Some d => if String.eqb d "" then "" else "  /** " +:+ d +:+ " */" +:+ newline
  | None => ""
  end.

Definition field_line (param : Param) (type : string) : string :=
  field_comment param +:+ "  " +:+ param_name param +:+
  (if required param then "" else "?") +:+ ": " +:+ type +:+ ";".

Definition is_object (param : Param) : bool :=
  String.eqb (param_type param) "object" && non_empty (children_params param).

Definition is_object_array (param : Param) : bool :=
  String.eqb (param_type param) "array" &&
  bool_decide (array_child_type param = Some "object") &&
  non_empty (children_params param).

Definition interface_decl (interfaceName : string) (fields : list string) : string :=
  "export interface " +:+ interfaceName +:+ " {" +:+ newline +:+
  join newline fields +:+ newline +:+ "}".

(** What the calls of one [generateInterface] collect: the declarations of the
    nested interfaces, field after field, then the current one. *)
Definition interface_block (name : string) (bodies : list (list string * string)) : list string :=
  List.concat bodies.*1 ++ [interface_decl (capitalizeFirstLetter name) bodies.*2].

(** The body of [params.forEach]: the nested interfaces pushed for one
    parameter, and its field line. *)
Fixpoint param_code (interfaceName : string) (param : Param) {struct param}
    : list string * string :=
  let generateChildren name :=
    match children_params param with
    | Some cs => interface_block name (map (param_code (capitalizeFirstLetter name)) cs)
    | None => interface_block name []
    end in
  if is_object param then
    let child := interfaceName +:+ capitalizeFirstLetter (param_name param) in
    (generateChildren child, field_line param child)
  else if is_object_array param then
    let child := interfaceName +:+ capitalizeFirstLetter (param_name param) +:+ "Item" in
    (generateChildren child, field_line param (child +:+ "[]"))
  else
    ([], field_line param (tsTypeMap (param_type param) (array_child_type param))).

Definition generateInterface (name : string) (params : list Param) : list string :=
  interface_block name (map (param_code (capitalizeFirstLetter name)) params).

(** ** [generateTSCode] *)

(** [ApiOption] of [templates/service-class.ts]. *)
Record ApiOption := mkApiOption {
  functionName : string;
  apiMethod : HttpMethod;
  apiPath : string;
  apiDescription : string;
  reqBodyInterfaceName : string;
  reqQueryInterfaceName : string;
  reqPathInterfaceName : string;
  reqHeaderInterfaceName : string;
  reqCookieInterfaceName : string;
  respInterfaceNames : list string;
  reqBodyFields : list string;
  reqQueryFields : list string;
  reqPathFields : list string;
  reqHeaderFields : list string;
  reqCookieFields : list string
}.

Record GeneratedCode := mkGeneratedCode {
  namespaces : list string;
  apiOption : ApiOption
}.

Definition request_interface_name (api : ApiDetail) (location : string) : string :=
  capitalizeFirstLetter (api_name api) +:+ capitalizeFirstLetter location +:+ "Request".

Definition response_interface_name (api : ApiDetail) (statusCode : string) : string :=
  capitalizeFirstLetter (api_name api) +:+ statusCode +:+ "Response".

(** The first loop: [(namespaces, location -> interface name)].  The five
    variables of the code are the entries of the second component. *)
Definition request_step (api : ApiDetail) (acc : list string * obj string)
    (entry : string * list Param) : list string * obj string :=
  let '(ns, names) := acc in
  let '(location, params) := entry in
  match params with
  | [] => acc
  | _ :: _ =>
      let n := request_interface_name api location in
      let names' := if decide (location ∈ map location_name all_locations)
                    then obj_set names location n else names in
      (ns ++ generateInterface n params, names')
  end.

Definition request_interfaces (api : ApiDetail) : list string * obj string :=
  foldl (request_step api) ([], []) (entries (default [] (request_params_by_location api))).

(** [responseParams[Number(statusCode)]]. *)
Definition status_lookup (o : obj (list Param)) (statusCode : string) : option (list Param) :=
  match to_number statusCode with
  | Some z => obj_get o (show_int z)
  | None => obj_get o "NaN"
  end.

Definition response_step (api : ApiDetail) (o : obj (list Param))
    (acc : list string * list string) (statusCode : string) : list string * list string :=
  let '(ns, names) := acc in
  match status_lookup o statusCode with
  | None | Some [] => acc
  | Some params =>
      let n := response_interface_name api statusCode in
      (ns ++ generateInterface n params, names ++ [n])
  end.

Definition response_interfaces (api : ApiDetail) : list string * list string :=
  let o := default [] (response_params_by_status_code api) in
  foldl (response_step api o) ([], []) (keys o).

(** [api.request_params_by_location?.loc.map(param => param.name) || []]: reading
    a missing location throws. *)
Definition request_fields (api : ApiDetail) (l : ParamLocation) : outcome (list string) :=
  match request_params_by_location api with
  | None => Ret []
  | Some o =>
      match obj_get o (location_name l) with
      | Some params => Ret (map param_name params)
      | None => Throw (JSError "TypeError" "Cannot read properties of undefined (reading 'map')")
      end
  end.

Definition outcome_bind {A B} (o : outcome A) (f : A -> outcome B) : outcome B :=
  match o with Ret a => f a | Throw e => Throw e | Exit c => Exit c end.

Definition generateTSCode (api : ApiDetail) : outcome GeneratedCode :=
  let '(reqNs, names) := request_interfaces api in
  let '(respNs, respNames) := response_interfaces api in
  let name l := default "" (obj_get names (location_name l)) in
  outcome_bind (request_fields api body) (fun bodyF =>
  outcome_bind (request_fields api query) (fun queryF =>
  outcome_bind (request_fields api path) (fun pathF =>
  outcome_bind (request_fields api header) (fun headerF =>
  outcome_bind (request_fields api cookie) (fun cookieF =>
  Ret {|
    namespaces := reqNs ++ respNs;
    apiOption := {|
      functionName := capitalizeFirstLetter (api_name api) +:+ method_name (api_method api);
      apiMethod := api_method api;
      apiPath := api_path api;
      apiDescription := opt_str_or (api_description api) "";
      reqBodyInterfaceName := name body;
      reqQueryInterfaceName := name query;
      reqPathInterfaceName := name path;
      reqHeaderInterfaceName := name header;
      reqCookieInterfaceName := name cookie;
      respInterfaceNames := respNames;
      reqBodyFields := bodyF;
      reqQueryFields := queryF;
      reqPathFields := pathF;
      reqHeaderFields := headerF;
      reqCookieFields := cookieF
    |}
  |}))))).

(** ** Specification: which interfaces a parameter list declares *)

(** The interface a parameter of interface [m] opens, with its parameters. *)
Definition child_interface (m : string) (p : Param) : option (string * list Param) :=
  let k := m +:+ capitalizeFirstLetter (param_name p) in
  if is_object p then Some (k, default [] (children_params p))
  else if is_object_array p then
    Some (m +:+ capitalizeFirstLetter (param_name p) +:+ "Item", default [] (children_params p))
  else None.

(** [declared n ps m qs]: generating [n] from [ps] declares [m] with fields [qs]. *)
Inductive declared (n : string) (ps : list Param) : string -> list Param -> Prop :=
| declared_root : declared n ps n ps
| declared_child m qs p k cs :
    declared n ps m qs -> p ∈ qs -> child_interface m p = Some (k, cs) ->
    declared n ps k cs.

Definition field_type (m : string) (p : Param) : string :=
  match child_interface m p with
  | Some (k, _) => if is_object p then k else k +:+ "[]"
  | None => tsTypeMap (param_type p) (array_child_type p)
  end.

(** The declaration of interface [m] with parameters [qs]. *)
Definition declaration (m : string) (qs : list Param) : string :=
  interface_decl m (map (fun p => field_line p (field_type m p)) qs).

(** The interface names in the order of the declarations. *)
Fixpoint child_names (m : string) (p : Param) {struct p} : list string :=
  match child_interface m p with
  | Some (k, _) =>
      match children_params p with
      | Some cs => List.concat (map (child_names k) cs) ++ [k]
      | None => [k]
      end
  | None => []
  end.
Definition interface_names (n : string) (ps : list Param) : list string :=
  List.concat (map (child_names n) ps) ++ [n].

(** Names for which the prefixing scheme of the generator is unambiguous: a
    lower-case letter, then no upper-case letter. *)
Definition plain_name (s : string) : bool :=
  match s with
  | String c s' => is_lower c && str_forallb (fun c => negb (is_upper c)) s'
  | EmptyString => false
  end.
Fixpoint plain_tree (p : Param) : bool :=
  plain_name (param_name p) &&
  match children_params p with
  | Some cs => forallb plain_tree cs && bool_decide (NoDup (map param_name cs))
  | None => true
  end.
Definition plain_params (ps : list Param) : Prop :=
  forallb plain_tree ps = true /\ NoDup (map param_name ps).

(** ** Lemmas: names *)

Lemma upper_char_idem c : upper_char (upper_char c) = upper_char c.
Proof. destruct c as [[][][][][][][][]]; reflexivity. Qed.

Lemma capitalize_idem s : capitalizeFirstLetter (capitalizeFirstLetter s) = capitalizeFirstLetter s.
Proof. destruct s as [|c s]; simpl; [done|]. by rewrite upper_char_idem. Qed.

(** A name whose first letter is already upper case. *)
Definition capitalized (s : string) : Prop := capitalizeFirstLetter s = s.

Lemma capitalized_app a b : capitalized a -> capitalized b -> capitalized (a +:+ b).
Proof.
  unfold capitalized. destruct a as [|c a]; [done|]. intros Ha _.
  injection Ha as Ha. change (String (upper_char c) (a +:+ b) = String c (a +:+ b)).
  by rewrite Ha.
Qed.

Lemma capitalize_capitalized s : capitalized (capitalizeFirstLetter s).
Proof. apply capitalize_idem. Qed.

Create HintDb generator.
#[export] Hint Resolve capitalized_app capitalize_capitalized : generator.

Lemma child_interface_capitalized m p k cs :
  capitalized m -> child_interface m p = Some (k, cs) -> capitalized k.
Proof.
  intros Hm. unfold child_interface. intros H. repeat case_match; simplify_eq.
  all: repeat apply capitalized_app; auto with generator; done.
Qed.

Lemma child_interface_children m p k cs :
  child_interface m p = Some (k, cs) -> children_params p = Some cs.
Proof.
  unfold child_interface, is_object, is_object_array, non_empty.
  destruct (children_params p) as [[|c l]|]; simpl;
    rewrite ?andb_false_r; intros H; repeat case_match; simplify_eq; done.
Qed.

(** ** Lemmas: one interface *)

Lemma generateInterface_unfold n ps :
  generateInterface n ps =
  List.concat (map (fun p => (param_code (capitalizeFirstLetter n) p).1) ps) ++
  [interface_decl (capitalizeFirstLetter n)
     (map (fun p => (param_code (capitalizeFirstLetter n) p).2) ps)].
Proof.
  unfold generateInterface, interface_block. f_equal.
  - f_equal. rewrite <-list_fmap_compose. done.
  - do 2 f_equal. by rewrite <-list_fmap_compose.
Qed.

Lemma param_code_nested m p :
  (param_code m p).1 =
  match child_interface m p with
  | Some (k, cs) => generateInterface k cs
  | None => []
  end.
Proof.
  unfold child_interface, generateInterface. destruct p as [i a pl n t r d e ac pp [cs|]].
  - cbn [param_code children_params param_name param_type array_child_type default].
    destruct (is_object (mkParam _ _ _ _ _ _ _ _ _ _ _)); [done|].
    by destruct (is_object_array (mkParam _ _ _ _ _ _ _ _ _ _ _)).
  - simpl. unfold is_object, is_object_array. simpl. by rewrite !andb_false_r.
Qed.

Lemma param_code_field m p : (param_code m p).2 = field_line p (field_type m p).
Proof.
  unfold field_type, child_interface. destruct p as [i a pl n t r d e ac pp ch].
  cbn [param_code children_params param_name param_type array_child_type].
  destruct (is_object (mkParam _ _ _ _ _ _ _ _ _ _ _)); [done|].
  destruct (is_object_array (mkParam _ _ _ _ _ _ _ _ _ _ _)); [|done].
  simpl. by rewrite !str_app_assoc.
Qed.

Lemma generateInterface_eq n ps :
  capitalized n ->
  generateInterface n ps =
  List.concat (map (fun p => (param_code n p).1) ps) ++ [declaration n ps].
Proof.
  intros Hn. rewrite generateInterface_unfold, Hn. unfold declaration.
  by rewrite (map_ext _ _ (param_code_field n)).
Qed.

Lemma declared_capitalized n ps m qs : capitalized n -> declared n ps m qs -> capitalized m.
Proof.
  intros Hn. induction 1 as [|m qs p k cs _ IH _ Hk]; [done|].
  by eapply child_interface_capitalized.
Qed.

(** [declared] also unfolds from the root. *)
Lemma declared_inv_root n ps m qs :
  declared n ps m qs <->
  (m = n /\ qs = ps) \/
  exists p k cs, p ∈ ps /\ child_interface n p = Some (k, cs) /\ declared k cs m qs.
Proof.
  split.
  - induction 1 as [|m qs p k cs Hd IH Hp Hk]; [by left|]. right.
    destruct IH as [[-> ->]|(p' & k' & cs' & ? & ? & ?)].
    + exists p, k, cs. eauto using declared_root.
    + exists p', k', cs'. eauto using declared_child.
  - intros [[-> ->]|(p & k & cs & Hp & Hk & Hd)]; [constructor|].
    induction Hd; [|by eapply declared_child].
    by eapply declared_child; [apply declared_root| |].
Qed.

Lemma elem_of_concat_map {A B} (f : A -> list B) l x :
  x ∈ List.concat (map f l) <-> exists y, y ∈ l /\ x ∈ f y.
Proof.
  rewrite !list_elem_of_In, in_concat. split.
  - intros (k & (y & <- & Hy)%in_map_iff & Hx). exists y.
    by rewrite !list_elem_of_In.
  - intros (y & Hy & Hx). exists (f y). rewrite !list_elem_of_In in *. eauto using in_map.
Qed.

Lemma generated_iff_root n ps t :
  capitalized n ->
  t ∈ generateInterface n ps <->
  t = declaration n ps \/
  exists p k cs, p ∈ ps /\ child_interface n p = Some (k, cs) /\ t ∈ generateInterface k cs.
Proof.
  intros Hn. rewrite generateInterface_eq by done.
  rewrite elem_of_app, elem_of_concat_map, list_elem_of_singleton. split.
  - intros [(p & Hp & Ht)|]; [|by left]. rewrite param_code_nested in Ht.
    destruct (child_interface n p) as [[k cs]|] eqn:E; [|by apply not_elem_of_nil in Ht].
    right. eauto 10.
  - intros [|(p & k & cs & Hp & Hk & Ht)]; [by right|]. left. exists p. split; [done|].
    by rewrite param_code_nested, Hk.
Qed.

Lemma generated_declared n ps m qs :
  capitalized n -> declared n ps m qs -> declaration m qs ∈ generateInterface n ps.
Proof.
  intros Hn Hd.
  assert (H : forall t, t ∈ generateInterface m qs -> t ∈ generateInterface n ps).
  { induction Hd as [|m qs p k cs Hd IH Hp Hk]; [auto|]. intros t Ht.
    apply IH. apply generated_iff_root; [by eapply declared_capitalized|].
    right. eauto 10. }
  apply H. apply generated_iff_root; [by eapply declared_capitalized|]. by left.
Qed.

(** The nodes below a parameter satisfy the converse, by tree induction. *)
Definition sound_below (p : Param) : Prop := forall n k cs t,
  capitalized n -> child_interface n p = Some (k, cs) -> t ∈ generateInterface k cs ->
  exists m qs, declared k cs m qs /\ t = declaration m qs.

Lemma generated_sound_list n ps t :
  capitalized n -> Forall sound_below ps -> t ∈ generateInterface n ps ->
  exists m qs, declared n ps m qs /\ t = declaration m qs.
Proof.
  intros Hn Hps. rewrite generated_iff_root by done.
  intros [->|(p & k & cs & Hp & Hk & Ht)]; [eauto using declared_root|].
  rewrite Forall_forall in Hps.
  destruct (Hps p Hp n k cs t Hn Hk Ht) as (m & qs & Hd & ->).
  exists m, qs. split; [|done]. apply declared_inv_root. right. eauto 10.
Qed.

Lemma generated_sound p : sound_below p.
Proof.
  induction p as [p IH] using Param_tree_ind. intros n k cs t Hn Hk Ht.
  eapply generated_sound_list; [by eapply child_interface_capitalized| |done].
  apply IH. by eapply child_interface_children.
Qed.

(** ** Lemmas: interface names *)

(** What may follow a capitalised plain name inside an interface name. *)
Definition boundary (r : string) : bool :=
  match r with EmptyString => true | String c _ => is_upper c end.

Lemma upper_char_lower_inj a b :
  is_lower a = true -> is_lower b = true -> upper_char a = upper_char b -> a = b.
Proof.
  unfold upper_char. intros Ha Hb. rewrite Ha, Hb. intros H.
  apply (f_equal N_of_ascii) in H.
  unfold is_lower in *. rewrite andb_true_iff, !N.leb_le in *.
  rewrite !N_ascii_embedding in H by lia.
  rewrite <-(ascii_N_embedding a), <-(ascii_N_embedding b). f_equal. lia.
Qed.

Lemma upper_char_upper c : is_lower c = true -> is_upper (upper_char c) = true.
Proof. destruct c as [[][][][][][][][]]; vm_compute; congruence. Qed.

Lemma noupper_decode s1 s2 r1 r2 :
  str_forallb (fun c => negb (is_upper c)) s1 = true ->
  str_forallb (fun c => negb (is_upper c)) s2 = true ->
  boundary r1 = true -> boundary r2 = true ->
  s1 +:+ r1 = s2 +:+ r2 -> s1 = s2.
Proof.
  revert s2. induction s1 as [|c1 s1 IH]; intros [|c2 s2]; simpl; try done.
  - change ("" +:+ r1) with r1. rewrite str_app_cons. intros _ H2 Hr1 _ ->.
    simpl in Hr1. by rewrite Hr1 in H2.
  - change ("" +:+ r2) with r2. rewrite str_app_cons. intros H1 _ _ Hr2 <-.
    simpl in Hr2. by rewrite Hr2 in H1.
  - rewrite !str_app_cons, !andb_true_iff. intros [_ H1] [_ H2] Hr1 Hr2 H.
    simplify_eq. f_equal. by apply IH.
Qed.

Lemma plain_decode s1 s2 r1 r2 :
  plain_name s1 = true -> plain_name s2 = true ->
  boundary r1 = true -> boundary r2 = true ->
  capitalizeFirstLetter s1 +:+ r1 = capitalizeFirstLetter s2 +:+ r2 -> s1 = s2.
Proof.
  destruct s1 as [|c1 s1], s2 as [|c2 s2]; try done. simpl.
  rewrite !andb_true_iff, !str_app_cons. intros [Hc1 Hs1] [Hc2 Hs2] Hr1 Hr2 H.
  injection H as Hc Hs. f_equal; [by apply upper_char_lower_inj|].
  exact (noupper_decode _ _ _ _ Hs1 Hs2 Hr1 Hr2 Hs).
Qed.

Lemma plain_tree_name p : plain_tree p = true -> plain_name (param_name p) = true.
Proof. destruct p. simpl. by intros [? _]%andb_true_iff. Qed.

Lemma plain_tree_children p cs :
  plain_tree p = true -> children_params p = Some cs -> plain_params cs.
Proof.
  destruct p as [i a pl n t r d e ac pp ch]. simpl. intros [_ H]%andb_true_iff ->.
  apply andb_true_iff in H as [? H]. split; [done|]. by apply bool_decide_eq_true in H.
Qed.

Lemma plain_capitalize_boundary s r : plain_name s = true -> boundary (capitalizeFirstLetter s +:+ r) = true.
Proof.
  destruct s as [|c s]; [done|]. simpl. intros [Hc _]%andb_true_iff.
  by apply upper_char_upper.
Qed.

(** Generated names extend the name of the enclosing interface by the field. *)
Lemma child_interface_name m p k cs :
  child_interface m p = Some (k, cs) ->
  exists r, k = m +:+ capitalizeFirstLetter (param_name p) +:+ r /\ (r = "" \/ r = "Item").
Proof.
  unfold child_interface. intros H. repeat case_match; simplify_eq; [exists ""|exists "Item"]; split; auto.
  by rewrite str_app_nil_r.
Qed.

Lemma child_names_eq m p :
  child_names m p =
  match child_interface m p with
  | Some (k, cs) => interface_names k cs
  | None => []
  end.
Proof.
  unfold interface_names.
  destruct (child_interface m p) as [[k cs]|] eqn:E;
    destruct p as [i a pl n t r d e ac pp ch]; cbn [child_names]; rewrite E; [|done].
  apply child_interface_children in E. simpl in *. by subst.
Qed.

Lemma child_names_prefix p : forall m x,
  plain_tree p = true -> x ∈ child_names m p ->
  exists r, x = m +:+ capitalizeFirstLetter (param_name p) +:+ r /\ boundary r = true.
Proof.
  induction p as [p IH] using Param_tree_ind. intros m x Hp. rewrite child_names_eq.
  destruct (child_interface m p) as [[k cs]|] eqn:E; [|by intros ?%not_elem_of_nil].
  destruct (child_interface_name _ _ _ _ E) as (r & -> & Hr).
  apply child_interface_children in E. specialize (IH _ E). rewrite Forall_forall in IH.
  destruct (plain_tree_children p cs Hp E) as [Hcs _].
  unfold interface_names. rewrite elem_of_app, elem_of_concat_map, list_elem_of_singleton.
  intros [(c & Hc & Hx)| ->].
  - assert (Hpc : plain_tree c = true).
    { rewrite forallb_forall in Hcs. by apply Hcs, list_elem_of_In. }
    destruct (IH c Hc _ _ Hpc Hx) as (r' & -> & _).
    exists (r +:+ capitalizeFirstLetter (param_name c) +:+ r').
    rewrite !str_app_assoc. split; [done|].
    destruct Hr as [-> | ->]; [|done].
    apply plain_capitalize_boundary. by apply plain_tree_name.
  - exists r. by destruct Hr as [-> | ->].
Qed.

Lemma str_app_self_nil a b : a +:+ b = a -> b = "".
Proof. intros H. apply (inj (String.app a)). by rewrite H, str_app_nil_r. Qed.

Lemma interface_names_NoDup_list n ps :
  plain_params ps -> Forall (fun p => forall m, NoDup (child_names m p)) ps ->
  NoDup (interface_names n ps).
Proof.
  intros [Hps Hnd] IH. unfold interface_names. rewrite forallb_forall in Hps.
  assert (Hpre : forall p x, p ∈ ps -> x ∈ child_names n p -> exists r,
    x = n +:+ capitalizeFirstLetter (param_name p) +:+ r /\ boundary r = true).
  { intros p x Hp Hx. eapply child_names_prefix; [|done]. by apply Hps, list_elem_of_In. }
  apply NoDup_app. split; [|split; [|apply NoDup_singleton]].
  - induction IH as [|p ps Hp Hrest IH]; simpl; [constructor|].
    apply NoDup_cons in Hnd as [Hnin Hnd]. apply NoDup_app. split; [done|split].
    + intros x Hx (q & Hq & Hxq)%elem_of_concat_map. apply Hnin.
      destruct (Hpre p x) as (r1 & E1 & ?); [by left|done|].
      destruct (Hpre q x) as (r2 & E2 & ?); [by right|done|]. subst x.
      apply (inj (String.app n)) in E2.
      apply plain_decode in E2; try done.
      * rewrite E2. apply list_elem_of_In, in_map, list_elem_of_In. done.
      * apply plain_tree_name, Hps. by left.
      * apply plain_tree_name, Hps. right. by apply list_elem_of_In.
    + apply IH; [intros; apply Hps; by right|done|]. intros; apply Hpre; [by right|done].
  - intros x (p & Hp & Hx)%elem_of_concat_map ->%list_elem_of_singleton.
    destruct (Hpre p n Hp Hx) as (r & E & _). symmetry in E. apply str_app_self_nil in E.
    apply str_app_inv_nil in E as [E _].
    assert (Hn : plain_name (param_name p) = true).
    { apply plain_tree_name, Hps, list_elem_of_In. done. }
    by destruct (param_name p).
Qed.

Lemma child_names_NoDup p : plain_tree p = true -> forall m, NoDup (child_names m p).
Proof.
  induction p as [p IH] using Param_tree_ind. intros Hp m. rewrite child_names_eq.
  destruct (child_interface m p) as [[k cs]|] eqn:E; [|constructor].
  apply child_interface_children in E. specialize (IH _ E).
  pose proof (plain_tree_children p cs Hp E) as Hcs.
  apply interface_names_NoDup_list; [done|]. destruct Hcs as [Hcs _].
  rewrite Forall_forall in *. rewrite forallb_forall in Hcs.
  intros c Hc. apply IH; [done|]. by apply Hcs, list_elem_of_In.
Qed.

Lemma interface_names_NoDup n ps : plain_params ps -> NoDup (interface_names n ps).
Proof.
  intros Hps. apply interface_names_NoDup_list; [done|]. destruct Hps as [Hps _].
  rewrite Forall_forall. intros p Hp. apply child_names_NoDup.
  rewrite forallb_forall in Hps. by apply Hps, list_elem_of_In.
Qed.

(** The i-th declaration declares the i-th name. *)
Definition declares (m t : string) : Prop := exists fields, t = interface_decl m fields.

Lemma declares_concat n ps :
  Forall (fun p => forall m, capitalized m -> Forall2 declares (child_names m p) (param_code m p).1) ps ->
  capitalized n -> Forall2 declares (interface_names n ps) (generateInterface n ps).
Proof.
  intros IH Hn. rewrite generateInterface_eq by done. apply Forall2_app.
  - induction IH as [|p ps Hp _ IH]; simpl; [constructor|]. by apply Forall2_app; auto.
  - constructor; [|constructor]. unfold declares, declaration. eauto.
Qed.

Lemma declares_child p m : capitalized m -> Forall2 declares (child_names m p) (param_code m p).1.
Proof.
  revert m. induction p as [p IH] using Param_tree_ind. intros m Hm.
  rewrite child_names_eq, param_code_nested.
  destruct (child_interface m p) as [[k cs]|] eqn:E; [|constructor].
  apply declares_concat; [|by eapply child_interface_capitalized].
  apply IH. by eapply child_interface_children.
Qed.

(** ** Lemmas: one API *)

Lemma capitalized_app_l a b : a <> "" -> capitalized a -> capitalized (a +:+ b).
Proof.
  unfold capitalized. destruct a as [|c a]; [done|]. intros _ Ha.
  injection Ha as Ha. change (String (upper_char c) (a +:+ b) = String c (a +:+ b)).
  by rewrite Ha.
Qed.

Lemma generateInterface_declares n ps :
  capitalized n -> exists fields, interface_decl n fields ∈ generateInterface n ps.
Proof.
  intros Hn. eexists. apply generated_iff_root; [done|]. by left.
Qed.

Lemma request_interface_name_capitalized api l : capitalized (request_interface_name api l).
Proof. unfold request_interface_name. auto with generator. by repeat apply capitalized_app; auto with generator. Qed.

Lemma response_interface_name_capitalized api s :
  api_name api <> "" -> capitalized (response_interface_name api s).
Proof.
  intros Hn. apply capitalized_app_l; [by destruct (api_name api)|auto with generator].
Qed.

#[export] Hint Resolve request_interface_name_capitalized response_interface_name_capitalized
  generateInterface_declares : generator.

(** The interface name and the field names of [ApiOption] for a location. *)
Definition location_interface (o : ApiOption) (l : ParamLocation) : string :=
  match l with
  | query => reqQueryInterfaceName o | path => reqPathInterfaceName o
  | header => reqHeaderInterfaceName o | cookie => reqCookieInterfaceName o
  | body => reqBodyInterfaceName o
  end.
Definition location_fields (o : ApiOption) (l : ParamLocation) : list string :=
  match l with
  | query => reqQueryFields o | path => reqPathFields o
  | header => reqHeaderFields o | cookie => reqCookieFields o
  | body => reqBodyFields o
  end.

(** What the code returns once no location is missing. *)
Lemma generateTSCode_Ret api code :
  generateTSCode api = Ret code ->
  namespaces code = (request_interfaces api).1 ++ (response_interfaces api).1 /\
  respInterfaceNames (apiOption code) = (response_interfaces api).2 /\
  (forall l, location_interface (apiOption code) l =
             default "" (obj_get (request_interfaces api).2 (location_name l))) /\
  (forall l, request_fields api l = Ret (location_fields (apiOption code) l)).
Proof.
  unfold generateTSCode.
  destruct (request_interfaces api) as [ns names], (response_interfaces api) as [ns' names'].
  destruct (request_fields api body) eqn:E1; simpl; [|done..].
  destruct (request_fields api query) eqn:E2; simpl; [|done..].
  destruct (request_fields api path) eqn:E3; simpl; [|done..].
  destruct (request_fields api header) eqn:E4; simpl; [|done..].
  destruct (request_fields api cookie) eqn:E5; simpl; [|done..].
  intros [= <-]. simpl. split; [done|]. split; [done|].
  split; intros []; simpl; congruence.
Qed.

Lemma generateTSCode_defined api :
  (exists code, generateTSCode api = Ret code) <->
  forall l, exists fs, request_fields api l = Ret fs.
Proof.
  split.
  - intros (code & H) l. destruct (generateTSCode_Ret _ _ H) as (_ & _ & _ & Hf). eauto.
  - intros H. unfold generateTSCode.
    destruct (request_interfaces api) as [ns names], (response_interfaces api) as [ns' names'].
    destruct (H body) as [? ->], (H query) as [? ->], (H path) as [? ->],
      (H header) as [? ->], (H cookie) as [? ->]. simpl. eauto.
Qed.

(** Every interface name recorded by the request loop is declared. *)
Lemma request_loop_declares api es acc :
  (forall k n, obj_get acc.2 k = Some n -> exists fs, interface_decl n fs ∈ acc.1) ->
  forall k n, obj_get (foldl (request_step api) acc es).2 k = Some n ->
  exists fs, interface_decl n fs ∈ (foldl (request_step api) acc es).1.
Proof.
  revert acc. induction es as [|[l ps] es IH]; intros [ns names] Hacc; [done|]. simpl.
  apply IH. destruct ps as [|p ps]; [done|]. simpl in *. intros k n.
  assert (Hold : obj_get names k = Some n -> exists fs, interface_decl n fs ∈
      ns ++ generateInterface (request_interface_name api l) (p :: ps)).
  { intros H. destruct (Hacc _ _ H) as [fs ?]. exists fs. rewrite elem_of_app. auto. }
  case_decide; [|done]. destruct (decide (l = k)) as [-> |Hne].
  - rewrite obj_get_set_eq. intros [= <-].
    destruct (generateInterface_declares (request_interface_name api k) (p :: ps)) as [fs ?];
      [auto with generator|]. exists fs. rewrite elem_of_app. auto.
  - by rewrite obj_get_set_ne.
Qed.

Lemma response_loop_declares api o ks acc :
  api_name api <> "" ->
  (forall n, n ∈ acc.2 -> exists fs, interface_decl n fs ∈ acc.1) ->
  forall n, n ∈ (foldl (response_step api o) acc ks).2 ->
  exists fs, interface_decl n fs ∈ (foldl (response_step api o) acc ks).1.
Proof.
  intros Hn. revert acc. induction ks as [|k ks IH]; intros [ns names] Hacc; [done|]. simpl.
  apply IH. destruct (status_lookup o k) as [[|p ps]|]; [done| |done]. simpl in *.
  intros n. rewrite elem_of_app, list_elem_of_singleton. intros [H | ->].
  - destruct (Hacc _ H) as [fs ?]. exists fs. rewrite elem_of_app. auto.
  - destruct (generateInterface_declares (response_interface_name api k) (p :: ps)) as [fs ?];
      [auto with generator|]. exists fs. rewrite elem_of_app. auto.
Qed.

(** The name recorded for a location. *)
Lemma request_loop_name api es acc (l : ParamLocation) :
  obj_get (foldl (request_step api) acc es).2 (location_name l) =
  if decide (Exists (fun e => e.1 = location_name l /\ e.2 <> []) es)
  then Some (request_interface_name api (location_name l))
  else obj_get acc.2 (location_name l).
Proof.
  revert acc. induction es as [|[k ps] es IH]; intros [ns names]; [done|].
  simpl foldl. rewrite IH. clear IH. destruct (decide (Exists _ es)) as [H|H].
  { rewrite decide_True; [done|]. by right. }
  destruct ps as [|p ps]; simpl.
  { rewrite decide_False; [done|]. intros [[_ ?]|?]%Exists_cons; done. }
  destruct (decide (k ∈ _)) as [Hk|Hk].
  - destruct (decide (k = location_name l)) as [-> |Hne].
    + rewrite obj_get_set_eq, decide_True; [done|]. by left.
    + rewrite obj_get_set_ne by done. rewrite decide_False; [done|].
      intros [[E _]|?]%Exists_cons; simpl in *; done.
  - rewrite decide_False; [done|]. intros [[E _]|?]%Exists_cons; [|done]. simpl in E. subst k.
    apply Hk, list_elem_of_In. destruct l; simpl; tauto.
Qed.

Lemma obj_entries_nonempty (o : obj (list Param)) k :
  obj_wf o ->
  Exists (fun e => e.1 = k /\ e.2 <> []) (entries o) <->
  exists p ps, obj_get o k = Some (p :: ps).
Proof.
  intros Hwf. rewrite Exists_exists. split.
  - intros ([k' ps] & Hin & Hk & Hps). simpl in *. subst k'.
    rewrite elem_of_entries in Hin. destruct ps as [|p ps]; [done|].
    exists p, ps. by apply obj_In_get.
  - intros (p & ps & H). exists (k, p :: ps). rewrite elem_of_entries.
    split; [by apply obj_get_In|done].
Qed.

(** An interface name that [generateTSCode] records is declared. *)
Lemma generated_name_declared api code n :
  api_name api <> "" -> generateTSCode api = Ret code ->
  (exists l, location_interface (apiOption code) l = n /\ n <> "") \/
    n ∈ respInterfaceNames (apiOption code) ->
  exists fields, interface_decl n fields ∈ namespaces code.
Proof.
  intros Hname H Hn. destruct (generateTSCode_Ret _ _ H) as (-> & Hresp & Hreq & _).
  destruct Hn as [(l & Hl & Hne)|Hin].
  - rewrite Hreq in Hl. destruct (obj_get _ (location_name l)) as [m|] eqn:E; [|by subst].
    simpl in Hl. subst m.
    destruct (request_loop_declares api (entries (default [] (request_params_by_location api)))
                ([], []) ltac:(done) _ _ E) as [fs ?].
    exists fs. rewrite elem_of_app. by left.
  - rewrite Hresp in Hin.
    destruct (response_loop_declares api (default [] (response_params_by_status_code api))
                (keys (default [] (response_params_by_status_code api))) ([], []) Hname
                ltac:(intros ? ?%not_elem_of_nil; done) _ Hin) as [fs ?].
    exists fs. rewrite elem_of_app. by right.
Qed.

(** ** Properties *)

(** C22. [generateInterface] emits exactly the declarations of the interfaces
    reachable from the requested one: the interface itself and, for every field
    that is an object or an array of objects with sub-parameters, the interface
    that field's type names.  So every generated type name a field refers to is
    declared in the same output, with the fields its sub-parameters give. *)
Theorem generateInterface_closed name params t :
  t ∈ generateInterface name params <->
  exists m qs, declared (capitalizeFirstLetter name) params m qs /\ t = declaration m qs.
Proof.
  assert (E : generateInterface name params = generateInterface (capitalizeFirstLetter name) params).
  { unfold generateInterface, interface_block. by rewrite capitalize_idem. }
  rewrite E. split.
  - apply generated_sound_list; [auto with generator|].
    rewrite Forall_forall. intros p _. apply generated_sound.
  - intros (m & qs & Hd & ->). apply generated_declared; [auto with generator|done].
Qed.

(** When every field name starts with a lower-case letter and holds no
    upper-case one (snake_case), and names are distinct within each parameter
    list, the generated interfaces have pairwise distinct names. *)
Theorem generateInterface_names_distinct name params :
  plain_params params ->
  exists names, NoDup names /\ Forall2 declares names (generateInterface name params).
Proof.
  intros Hp. exists (interface_names (capitalizeFirstLetter name) params).
  split; [by apply interface_names_NoDup|].
  assert (E : generateInterface name params = generateInterface (capitalizeFirstLetter name) params).
  { unfold generateInterface, interface_block. by rewrite capitalize_idem. }
  rewrite E. apply declares_concat; [|auto with generator].
  rewrite Forall_forall. intros p _ m. apply declares_child.
Qed.

Definition sample_param (name type : string) (child : option string) (cs : option (list Param)) : Param :=
  mkParam 1 1 (InResponse 200) name type true None None child None cs.

Definition sample_tree : list Param :=
  [sample_param "user" "object" None (Some
     [sample_param "id" "int" None None;
      sample_param "tags" "array" (Some "object") (Some [sample_param "id" "int" None None])]);
   sample_param "user_id" "int" None None].

Lemma generateInterface_names_distinct_witness :
  plain_params sample_tree /\
  exists names, NoDup names /\ Forall2 declares names (generateInterface "reply" sample_tree).
Proof.
  assert (H : plain_params sample_tree).
  { split; [reflexivity|]. apply (bool_decide_unpack _). exact I. }
  split; [exact H|]. exact (generateInterface_names_distinct "reply" sample_tree H).
Defined.

(** The prefixing scheme does not prevent collisions in general: with
    distinct sibling names [a] (holding [b]) and [aB], two different interfaces
    called [RootAB] are emitted. *)
Theorem generateInterface_names_collide :
  exists params t1 t2,
    NoDup (map param_name params) /\
    declares "RootAB" t1 /\ declares "RootAB" t2 /\ t1 <> t2 /\
    t1 ∈ generateInterface "root" params /\ t2 ∈ generateInterface "root" params.
Proof.
  exists [sample_param "a" "object" None (Some
            [sample_param "b" "object" None (Some [sample_param "x" "int" None None])]);
          sample_param "aB" "object" None (Some [sample_param "y" "string" None None])].
  exists (interface_decl "RootAB" ["  x: number;"]), (interface_decl "RootAB" ["  y: string;"]).
  split; [apply (bool_decide_unpack _); exact I|].
  split; [by eexists|]. split; [by eexists|]. split; [by vm_compute|].
  split; apply list_elem_of_In; vm_compute; tauto.
Qed.

(** C38. [generateTSCode] succeeds exactly when the API has no table of request
    parameters or the table has all five locations; otherwise reading the
    missing one throws. *)
Theorem generateTSCode_total api :
  (exists code, generateTSCode api = Ret code) <->
  forall o l, request_params_by_location api = Some o -> is_Some (obj_get o (location_name l)).
Proof.
  rewrite generateTSCode_defined. unfold request_fields. split.
  - intros H o l E. specialize (H l). rewrite E in H.
    destruct (obj_get o (location_name l)); [eauto|by destruct H].
  - intros H l. destruct (request_params_by_location api) as [o|]; [|eauto].
    destruct (H o l eq_refl) as [ps ->]. eauto.
Qed.

Definition sample_api : ApiDetail :=
  mkApiDetail 65 "getUserInfo" GET "/api/getUserInfo" None
    (Some [("query", [sample_param "user_id" "int" None None]); ("path", []); ("header", []);
           ("cookie", []); ("body", [])])
    (Some [("200", sample_tree)]).

(** For each location, the recorded interface name is the generated one
    exactly when the location has parameters, and the recorded field names are
    the names of its top-level parameters, in order. *)
Theorem generateTSCode_request_fields api code o l :
  request_params_by_location api = Some o -> obj_wf o -> generateTSCode api = Ret code ->
  location_fields (apiOption code) l = map param_name (default [] (obj_get o (location_name l))) /\
  location_interface (apiOption code) l =
    (if non_empty (obj_get o (location_name l))
     then request_interface_name api (location_name l) else "").
Proof.
  intros Ho Hwf H. destruct (generateTSCode_Ret _ _ H) as (_ & _ & Hreq & Hfields).
  split.
  - specialize (Hfields l). unfold request_fields in Hfields. rewrite Ho in Hfields.
    destruct (obj_get o (location_name l)); simplify_eq/=; done.
  - rewrite Hreq. unfold request_interfaces. rewrite Ho. simpl default.
    rewrite request_loop_name. case_decide as E; rewrite obj_entries_nonempty in E by done.
    + by destruct E as (p & ps & ->).
    + simpl. destruct (obj_get o (location_name l)) as [[|p ps]|]; simpl; [done| |done].
      destruct E. eauto.
Qed.

Lemma generateTSCode_request_fields_witness :
  exists code, generateTSCode sample_api = Ret code /\
    reqQueryFields (apiOption code) = ["user_id"] /\
    reqQueryInterfaceName (apiOption code) = "GetUserInfoQueryRequest".
Proof.
  eexists. split; [reflexivity|].
  refine (generateTSCode_request_fields sample_api _ _ query eq_refl _ eq_refl).
  apply (bool_decide_unpack _). exact I.
Defined.
