(* ===== verification/TsTypes.v ===== *)
(** * The generated interfaces as TypeScript types

    What the text of [generateInterface] (see [Generator]) means: the interface
    declarations a TypeScript parser reads from it, the JSON values that inhabit
    them, and the schema the backend itself exports for the same parameters
    ([_build_param_schema] of [BE-CAM/services/utils.py]).  The property: a value
    valid for the exported schema inhabits the interface the tool generates. *)

From S2P Require Import Prelude JsObject ApiTypes Generator.
From Stdlib Require Import Ascii String ZArith Lia.

(** ** JSON values

    A number is its decimal literal [m * 10^e]. *)
Inductive value :=
| VNull | VBool (b : bool) | VNum (m e : Z) | VStr (s : string)
| VArr (l : list value) | VObj (o : list (string * value)).

Section ValueInd.
Variable P : value -> Prop.
Hypothesis Hnull : P VNull.
Hypothesis Hbool : forall b, P (VBool b).
Hypothesis Hnum : forall m e, P (VNum m e).
Hypothesis Hstr : forall s, P (VStr s).
Hypothesis Harr : forall l, Forall P l -> P (VArr l).
Hypothesis Hobj : forall o, Forall (fun kv => P kv.2) o -> P (VObj o).

Fixpoint value_tree_ind (v : value) : P v :=
  match v with
  | VNull => Hnull
  | VBool b => Hbool b
  | VNum m e => Hnum m e
  | VStr s => Hstr s
  | VArr l => Harr l ((fix go l : Forall P l := match l with
                | [] => Forall_nil_2 P
                | x :: l' => Forall_cons_2 P x l' (value_tree_ind x) (go l') end) l)
  | VObj o => Hobj o ((fix go o : Forall (fun kv => P kv.2) o := match o with
                | [] => Forall_nil_2 (fun kv => P kv.2)
                | kv :: o' => Forall_cons_2 (fun kv => P kv.2) kv o' (value_tree_ind kv.2) (go o')
                end) o)
  end.
End ValueInd.

(** [Number.isInteger]. *)
Definition integral (m e : Z) : bool :=
  (0 <=? e)%Z || (m mod 10 ^ (- e) =? 0)%Z.

Definition has_member {A} (o : obj A) (k : string) : bool := bool_decide (is_Some (obj_get o k)).

(** ** The schema the backend exports *)

Inductive json_type := TyString | TyInteger | TyNumber | TyBoolean | TyObject | TyArray.

(** The keywords that decide validity: [type], [items]; [properties],
    [required] and whether [additionalProperties] is [False]. *)
Inductive schema :=
| STyped (t : json_type)
| SItems (s : schema)
| SObject (properties : list (string * schema)) (required : list string) (closed : bool).

(** [_get_type_schema]. *)
Definition get_type_schema (type_name : string) : schema :=
  if String.eqb type_name "string" then STyped TyString
  else if String.eqb type_name "int" then STyped TyInteger
  else if String.eqb type_name "double" then STyped TyNumber
  else if String.eqb type_name "boolean" then STyped TyBoolean
  else if String.eqb type_name "binary" then STyped TyString
  else if String.eqb type_name "object" then STyped TyObject
  else if String.eqb type_name "array" then STyped TyArray
  else STyped TyString.

(** The loop over the children, shared by the three places that build an
    object: name, [required], schema of each. *)
Definition object_schema (closed : bool) (children : list (string * bool * schema)) : schema :=
  let properties := foldl (fun o c => obj_set o c.1.1 c.2) [] children in
  SObject properties (map (fun c => c.1.1) (filter (fun c => c.1.2 = true) children))
    (closed || non_empty (Some properties)).

(** [_build_param_schema]; the annotations ([example], [default]) decide no
    validity and are left out. *)
Fixpoint build_param_schema (param : Param) : schema :=
  let children := match children_params param with
                  | Some cs => map (fun c => (param_name c, required c, build_param_schema c)) cs
                  | None => []
                  end in
  if String.eqb (param_type param) "object" then object_schema false children
  else if String.eqb (param_type param) "array" then
    SItems (if decide (array_child_type param = Some "object") then object_schema false children
            else get_type_schema (default "" (array_child_type param)))
  else get_type_schema (param_type param).

Definition schema_entry (p : Param) : string * bool * schema :=
  (param_name p, required p, build_param_schema p).

(** [_build_root_schema], of a request body or a response. *)
Definition build_root_schema (params : list Param) : schema :=
  object_schema true (map schema_entry params).

Definition has_type (t : json_type) (v : value) : bool :=
  match t, v with
  | TyString, VStr _ | TyNumber, VNum _ _ | TyBoolean, VBool _
  | TyObject, VObj _ | TyArray, VArr _ => true
  | TyInteger, VNum m e => integral m e
  | _, _ => false
  end.

(** JSON Schema validation of these keywords. *)
Fixpoint valid (s : schema) (v : value) {struct v} : bool :=
  match s, v with
  | STyped t, _ => has_type t v
  | SItems s', VArr l => forallb (valid s') l
  | SObject properties req closed, VObj o =>
      forallb (fun kv : string * value =>
        let '(k, v') := kv in
        match obj_get properties k with
        | Some s' => valid s' v'
        | None => negb closed
        end) o &&
      forallb (has_member o) req
  | _, _ => false
  end.

(** ** TypeScript interfaces *)

Inductive ts_type :=
| TNumber | TString | TBoolean | TAny | TRef (name : string) | TArray (t : ts_type).

Record ts_field := mkTsField { tf_name : string; tf_optional : bool; tf_type : ts_type }.
Record ts_interface := mkTsInterface { ti_name : string; ti_fields : list ts_field }.

(** The members of the type [n]: TypeScript merges declarations of the same
    name. *)
Definition members (env : list ts_interface) (n : string) : list ts_field :=
  List.concat (map ti_fields (filter (fun i => ti_name i = n) env)).

(** Assignability of a JSON value to a type under strict null checks. *)
Fixpoint inhabits (env : list ts_interface) (t : ts_type) (v : value) {struct v} : bool :=
  match t, v with
  | TAny, _ => true
  | TNumber, VNum _ _ | TString, VStr _ | TBoolean, VBool _ => true
  | TArray t', VArr l => forallb (inhabits env t') l
  | TRef n, VObj o =>
      bool_decide (n ∈ map ti_name env) &&
      forallb (fun kv : string * value =>
        let '(k, v') := kv in
        forallb (fun f => negb (String.eqb (tf_name f) k) || inhabits env (tf_type f) v')
          (members env n)) o &&
      forallb (fun f => tf_optional f || has_member o (tf_name f)) (members env n)
  | _, _ => false
  end.

(** ** Reading the generated text

    A comment ends at the first [*/]. *)
Fixpoint strip_comments (inside : bool) (s : string) {struct s} : string :=
  match s with
  | EmptyString => EmptyString
  | String c s' =>
      match inside, s' with
      | false, String c' s'' =>
          if Ascii.eqb c "/" && Ascii.eqb c' "*" then strip_comments true s''
          else String c (strip_comments false s')
      | false, EmptyString => s
      | true, String c' s'' =>
          if Ascii.eqb c "*" && Ascii.eqb c' "/" then strip_comments false s''
          else strip_comments true s'
      | true, EmptyString => EmptyString
      end
  end.

Definition is_letter (c : ascii) : bool :=
  is_lower c || is_upper c || Ascii.eqb c "_" || Ascii.eqb c "$".
Definition is_ident_char (c : ascii) : bool := is_letter c || is_digit c.

(** An [IdentifierName] in ASCII. *)
Definition identifier (s : string) : bool :=
  match s with
  | EmptyString => false
  | String c s' => is_letter c && str_forallb is_ident_char s'
  end.

(** [[][]...;] to the end of the line. *)
Fixpoint parse_suffix (t : ts_type) (s : string) : option ts_type :=
  match s with
  | String c s' =>
      if Ascii.eqb c ";" then (if String.eqb s' "" then Some t else None)
      else if Ascii.eqb c "[" then
        match s' with
        | String d s'' => if Ascii.eqb d "]" then parse_suffix (TArray t) s'' else None
        | EmptyString => None
        end
      else None
  | EmptyString => None
  end.

Definition base_type (b : string) : ts_type :=
  if String.eqb b "number" then TNumber
  else if String.eqb b "string" then TString
  else if String.eqb b "boolean" then TBoolean
  else if String.eqb b "any" then TAny
  else TRef b.

Definition parse_type (s : string) : option ts_type :=
  let '(b, r) := span is_ident_char s in
  if identifier b then parse_suffix (base_type b) r else None.

(** [name: type;] or [name?: type;], after the indentation. *)
Definition parse_field (line : string) : option ts_field :=
  let '(n, r) := span is_ident_char line in
  if identifier n then
    match r with
    | String c r' =>
        if Ascii.eqb c ":" then mkTsField n false <$> parse_type (trim_start r')
        else if Ascii.eqb c "?" then
          match r' with
          | String d r'' =>
              if Ascii.eqb d ":" then mkTsField n true <$> parse_type (trim_start r'') else None
          | EmptyString => None
          end
        else None
    | EmptyString => None
    end
  else None.

(** The lines of the body up to the closing brace; blank ones are skipped. *)
Fixpoint parse_body (ls : list string) : option (list ts_field) :=
  match ls with
  | [] => None
  | l :: ls' =>
      let l' := trim_start l in
      if String.eqb l' "" then parse_body ls'
      else if String.eqb l' "}" then
        match ls' with [] => Some [] | _ => None end
      else f ← parse_field l'; fs ← parse_body ls'; Some (f :: fs)
  end.

Definition interface_head : string := "export interface ".

Definition parse_interface (s : string) : option ts_interface :=
  match split_on "010"%char (strip_comments false s) with
  | [] => None
  | l :: ls =>
      if String.prefix interface_head l then
        let '(n, r) := span is_ident_char
            (String.substring (String.length interface_head) (String.length l) l) in
        if identifier n && String.eqb r " {" then mkTsInterface n <$> parse_body ls else None
      else None
  end.

(** ** The interfaces the generator means *)

(** The types of [tsTypeMap]. *)
Definition leaf_type (type : string) : ts_type :=
  if decide (type ∈ ["int"; "float"; "double"; "long"]) then TNumber
  else if decide (type ∈ ["string"; "text"]) then TString
  else if decide (type ∈ ["boolean"; "bool"]) then TBoolean
  else if decide (type ∈ ["array"; "list"]) then TArray TAny
  else TAny.

Definition plain_type (p : Param) : ts_type :=
  if decide (param_type p ∈ ["array"; "list"]) then
    match array_child_type p with
    | Some c => if String.eqb c "" then TArray TAny else TArray (leaf_type c)
    | None => TArray TAny
    end
  else leaf_type (param_type p).

Definition typed_field (m : string) (p : Param) : ts_field :=
  mkTsField (param_name p) (negb (required p))
    (match child_interface m p with
     | Some (k, _) => if is_object p then TRef k else TArray (TRef k)
     | None => plain_type p
     end).

Definition typed_interface (d : string * list Param) : ts_interface :=
  mkTsInterface d.1 (map (typed_field d.1) d.2).

(** The interfaces declared, in the order of their declarations. *)
Fixpoint child_decls (m : string) (p : Param) {struct p} : list (string * list Param) :=
  match child_interface m p with
  | Some (k, _) =>
      match children_params p with
      | Some cs => List.concat (map (child_decls k) cs) ++ [(k, cs)]
      | None => [(k, [])]
      end
  | None => []
  end.
Definition interface_decls (n : string) (ps : list Param) : list (string * list Param) :=
  List.concat (map (child_decls n) ps) ++ [(n, ps)].

(** Parameters the claim is about: declared types, names that are identifiers
    and distinct within a list, descriptions that do not close their comment. *)
Definition param_types : list string :=
  ["string"; "int"; "double"; "boolean"; "array"; "object"; "binary"].

Fixpoint typed_tree (p : Param) : bool :=
  identifier (param_name p) && bool_decide (param_type p ∈ param_types) &&
  bool_decide (default "string" (array_child_type p) ∈ param_types) &&
  negb (includes (default "" (description p)) "*/") &&
  match children_params p with
  | Some cs => forallb typed_tree cs && bool_decide (NoDup (map param_name cs))
  | None => true
  end.
Definition typed_params (ps : list Param) : Prop :=
  forallb typed_tree ps = true /\ NoDup (map param_name ps).

(** ** Lemmas: the list of declarations *)

Lemma child_decls_eq m p :
  child_decls m p =
  match child_interface m p with
  | Some (k, cs) => interface_decls k cs
  | None => []
  end.
Proof.
  unfold interface_decls.
  destruct (child_interface m p) as [[k cs]|] eqn:E;
    destruct p as [i a pl n t r d e ac pp ch]; cbn [child_decls]; rewrite E; [|done].
  apply child_interface_children in E. simpl in *. by subst.
Qed.

Lemma concat_map_list {A B C} (g : B -> C) (f : A -> list B) (h : A -> list C) l :
  Forall (fun x => map g (f x) = h x) l ->
  map g (List.concat (map f l)) = List.concat (map h l).
Proof. induction 1 as [|x l Hx _ IH]; simpl; [done|]. by rewrite map_app, Hx, IH. Qed.

(** Names, texts and membership of the declarations, by the tree. *)
Lemma child_decls_names p : forall m, map fst (child_decls m p) = child_names m p.
Proof.
  induction p as [p IH] using Param_tree_ind. intros m. rewrite child_decls_eq, child_names_eq.
  destruct (child_interface m p) as [[k cs]|] eqn:E; [|done].
  apply child_interface_children in E. specialize (IH _ E).
  unfold interface_decls, interface_names. rewrite map_app. f_equal.
  apply concat_map_list. eapply Forall_impl; [exact IH|]. intros c Hc. apply Hc.
Qed.

Lemma interface_decls_names n ps : map fst (interface_decls n ps) = interface_names n ps.
Proof.
  unfold interface_decls, interface_names. rewrite map_app. f_equal.
  apply concat_map_list, Forall_forall. intros p _. apply child_decls_names.
Qed.

Definition declaration_of (d : string * list Param) : string := declaration d.1 d.2.

Lemma child_decls_text p : forall m,
  capitalized m -> map declaration_of (child_decls m p) = (param_code m p).1.
Proof.
  induction p as [p IH] using Param_tree_ind. intros m Hm.
  rewrite child_decls_eq, param_code_nested.
  destruct (child_interface m p) as [[k cs]|] eqn:E; [|done].
  assert (Hk : capitalized k) by by eapply child_interface_capitalized.
  apply child_interface_children in E. specialize (IH _ E).
  rewrite generateInterface_eq by done. unfold interface_decls. rewrite map_app. f_equal.
  apply concat_map_list. eapply Forall_impl; [exact IH|]. intros c Hc. by apply Hc.
Qed.

Lemma interface_decls_text n ps :
  capitalized n -> generateInterface n ps = map declaration_of (interface_decls n ps).
Proof.
  intros Hn. rewrite generateInterface_eq by done. unfold interface_decls. rewrite map_app.
  f_equal. symmetry. apply concat_map_list, Forall_forall. intros p _. by apply child_decls_text.
Qed.

Lemma child_decls_declared p : forall m k cs d,
  child_interface m p = Some (k, cs) -> d ∈ child_decls m p -> declared k cs d.1 d.2.
Proof.
  induction p as [p IH] using Param_tree_ind. intros m k cs d E. rewrite child_decls_eq, E.
  pose proof (child_interface_children _ _ _ _ E) as Hcs. specialize (IH _ Hcs).
  rewrite Forall_forall in IH. unfold interface_decls.
  rewrite elem_of_app, elem_of_concat_map, list_elem_of_singleton.
  intros [(c & Hc & Hd)| ->]; [|constructor].
  destruct (child_interface k c) as [[k' cs']|] eqn:E'.
  - apply declared_inv_root. right. exists c, k', cs'. eauto.
  - rewrite child_decls_eq, E' in Hd. by apply not_elem_of_nil in Hd.
Qed.

Lemma interface_decls_declared n ps d : d ∈ interface_decls n ps -> declared n ps d.1 d.2.
Proof.
  unfold interface_decls. rewrite elem_of_app, elem_of_concat_map, list_elem_of_singleton.
  intros [(c & Hc & Hd)| ->]; [|constructor].
  destruct (child_interface n c) as [[k cs]|] eqn:E.
  - apply declared_inv_root. right. exists c, k, cs. eauto using child_decls_declared.
  - rewrite child_decls_eq, E in Hd. by apply not_elem_of_nil in Hd.
Qed.

Lemma declared_interface_decls n ps m qs : declared n ps m qs -> (m, qs) ∈ interface_decls n ps.
Proof.
  intros Hd.
  assert (Hsub : forall d, d ∈ interface_decls m qs -> d ∈ interface_decls n ps).
  { induction Hd as [|m qs p k cs Hd IH Hp Hk]; [done|]. intros d Hd'. apply IH.
    unfold interface_decls. rewrite elem_of_app, elem_of_concat_map. left.
    exists p. split; [done|]. by rewrite child_decls_eq, Hk. }
  apply Hsub. unfold interface_decls. rewrite elem_of_app, list_elem_of_singleton. by right.
Qed.

(** ** Lemmas: reading the text back *)

Definition no_slash (s : string) : bool := str_forallb (fun c => negb (Ascii.eqb c "/")) s.

Lemma strip_text s r :
  no_slash s = true -> strip_comments false (s +:+ r) = s +:+ strip_comments false r.
Proof.
  induction s as [|c s IH]; [done|]. unfold no_slash in *. cbn [str_forallb].
  intros [Hc Hs]%andb_true_iff. rewrite !str_app_cons. apply negb_true_iff in Hc.
  rewrite <-IH by done. cbn [strip_comments]. destruct (s +:+ r); [done|]. by rewrite Hc.
Qed.

Lemma strip_inside d r :
  includes d "*/" = false -> strip_comments true (d +:+ " */" +:+ r) = strip_comments false r.
Proof.
  induction d as [|c d IH]; [done|]. cbn [includes]. intros [Hp Hd]%orb_false_iff.
  rewrite str_app_cons. cbn [strip_comments]. rewrite <-IH by done. clear IH.
  destruct d as [|c' d]; [cbn; by destruct (Ascii.eqb c "*")|]. rewrite str_app_cons.
  destruct (Ascii.eqb_spec c "*"), (Ascii.eqb_spec c' "/"); subst; try done.
  simpl in Hp. by destruct d.
Qed.

Lemma strip_comment d r :
  includes d "*/" = false ->
  strip_comments false ("  /** " +:+ d +:+ " */" +:+ r) = "  " +:+ strip_comments false r.
Proof.
  intros Hd. change ("  /** " +:+ d +:+ " */" +:+ r) with ("  " +:+ ("/*" +:+ ("* " +:+ d +:+ " */" +:+ r))).
  rewrite strip_text by done. f_equal.
  change (strip_comments false ("/*" +:+ ("* " +:+ d +:+ " */" +:+ r)))
    with (strip_comments true ("* " +:+ d +:+ " */" +:+ r)).
  rewrite <-str_app_assoc. apply strip_inside.
  change ("* " +:+ d) with (String "*" (String " " d)). cbn [includes]. rewrite Hd.
  by destruct d.
Qed.

Lemma identifier_chars s : identifier s = true -> str_forallb is_ident_char s = true.
Proof.
  destruct s as [|c s]; [done|]. cbn [identifier str_forallb]. unfold is_ident_char at 2.
  intros [Hc Hs]%andb_true_iff. by rewrite Hc, Hs.
Qed.

Lemma ident_char_other c d :
  is_ident_char c = true -> is_ident_char d = false -> Ascii.eqb c d = false.
Proof. intros Hc Hd. apply Ascii.eqb_neq. intros ->. congruence. Qed.

Lemma identifier_without s d :
  is_ident_char d = false -> identifier s = true ->
  str_forallb (fun c => negb (Ascii.eqb c d)) s = true.
Proof.
  intros Hd Hs. eapply str_forallb_impl; [|by apply identifier_chars].
  intros c Hc. cbn. by rewrite ident_char_other.
Qed.

(** [print_type] prints a type as the generator does. *)
Fixpoint print_type (t : ts_type) : string :=
  match t with
  | TNumber => "number" | TString => "string" | TBoolean => "boolean" | TAny => "any"
  | TRef n => n
  | TArray t' => print_type t' +:+ "[]"
  end.

(** Names of types apart from the predefined ones. *)
Fixpoint good_type (t : ts_type) : Prop :=
  match t with
  | TRef n => identifier n = true /\ capitalized n
  | TArray t' => good_type t'
  | _ => True
  end.

Fixpoint brackets (n : nat) (r : string) : string :=
  match n with O => r | S n' => "[]" +:+ brackets n' r end.

Lemma brackets_snoc n r : brackets n ("[]" +:+ r) = brackets (S n) r.
Proof. induction n as [|n IH]; [done|]. cbn [brackets] in *. by rewrite IH. Qed.

Lemma parse_brackets n t : parse_suffix t (brackets n ";") = Some (Nat.iter n TArray t).
Proof.
  revert t. induction n as [|n IH]; intros t; [done|].
  change (parse_suffix t (brackets (S n) ";")) with (parse_suffix (TArray t) (brackets n ";")).
  by rewrite IH, Nat.iter_succ_r.
Qed.

Lemma base_type_ref n : identifier n = true -> capitalized n -> base_type n = TRef n.
Proof.
  intros _ Hn. unfold base_type.
  repeat (case_match eqn:E; [apply String.eqb_eq in E; subst; discriminate Hn|clear E]). done.
Qed.

Lemma print_type_form t r :
  good_type t -> exists b n, print_type t +:+ r = b +:+ brackets n r /\
    identifier b = true /\ t = Nat.iter n TArray (base_type b).
Proof.
  revert r. induction t as [| | | |n|t IH]; intros r; cbn [good_type print_type].
  1-4: intros _. 1: exists "number". 2: exists "string". 3: exists "boolean". 4: exists "any".
  1-4: exists 0; done.
  - intros [Hi Hc]. exists n, 0. by rewrite base_type_ref.
  - intros Ht. destruct (IH ("[]" +:+ r) Ht) as (b & n & Hb & Hi & E).
    exists b, (S n). rewrite str_app_assoc, Hb, brackets_snoc. by subst.
Qed.

Lemma brackets_head n : match brackets n ";" with String c _ => is_ident_char c = false | _ => True end.
Proof. by destruct n. Qed.

Lemma parse_print_type t : good_type t -> parse_type (print_type t +:+ ";") = Some t.
Proof.
  intros Ht. destruct (print_type_form t ";" Ht) as (b & n & -> & Hb & ->).
  unfold parse_type. rewrite span_app; [|by apply identifier_chars|apply brackets_head].
  by rewrite Hb, parse_brackets.
Qed.

Lemma letter_visible c : is_letter c = true -> is_space c = false /\ Ascii.eqb c "}" = false.
Proof. destruct c as [[][][][][][][][]]; vm_compute; intros; split; congruence. Qed.

Lemma print_type_head t : good_type t ->
  exists c s, print_type t = String c s /\ is_space c = false.
Proof.
  intros Ht. destruct (print_type_form t "" Ht) as (b & n & E & Hb & _).
  rewrite str_app_nil_r in E. rewrite E. destruct b as [|c b]; [done|].
  exists c, (b +:+ brackets n ""). split; [done|]. apply andb_true_iff in Hb as [Hc _].
  by apply letter_visible.
Qed.

Lemma print_leaf_type type : print_type (leaf_type type) = tsTypeMap_leaf type.
Proof. unfold leaf_type, tsTypeMap_leaf. by repeat case_decide. Qed.

Lemma good_leaf_type type : good_type (leaf_type type).
Proof. unfold leaf_type. by repeat case_decide. Qed.

Lemma field_type_print m p : field_type m p = print_type (tf_type (typed_field m p)).
Proof.
  unfold field_type, typed_field. cbn [tf_type].
  destruct (child_interface m p) as [[k cs]|]; [by destruct (is_object p)|].
  unfold tsTypeMap, plain_type. case_decide; [|by rewrite print_leaf_type].
  destruct (array_child_type p) as [c|]; [|done].
  case_match; [done|]. by rewrite <-print_leaf_type.
Qed.

(** What [typed_tree] says of one parameter. *)
Lemma typed_tree_parts p :
  typed_tree p = true ->
  identifier (param_name p) = true /\ param_type p ∈ param_types /\
  default "string" (array_child_type p) ∈ param_types /\
  includes (default "" (description p)) "*/" = false /\
  (forall cs, children_params p = Some cs -> typed_params cs).
Proof.
  destruct p as [i a pl n t r d e ac pp ch]. simpl.
  rewrite !andb_true_iff, !bool_decide_eq_true, negb_true_iff.
  intros [[[[Hn Ht] Hc] Hd] Hch]. repeat split; auto; intros; simplify_eq/=.
  - by apply andb_true_iff in Hch as [? _].
  - by apply andb_true_iff in Hch as [_ H%bool_decide_eq_true].
Qed.

Lemma identifier_app a b :
  identifier a = true -> str_forallb is_ident_char b = true -> identifier (a +:+ b) = true.
Proof.
  destruct a as [|c a]; [done|]. cbn [identifier]. rewrite str_app_cons. intros [Hc Ha]%andb_true_iff Hb.
  cbn [identifier]. by rewrite str_forallb_app, Hc, Ha, Hb.
Qed.

Lemma capitalize_ident_chars s :
  identifier s = true -> str_forallb is_ident_char (capitalizeFirstLetter s) = true.
Proof.
  intros Hs%identifier_chars. destruct s as [|c s]; [done|]. simpl in *.
  apply andb_true_iff in Hs as [Hc Hs]. rewrite Hs, andb_true_r. revert Hc. clear.
  destruct c as [[][][][][][][][]]; vm_compute; congruence.
Qed.

Lemma capitalize_identifier s : identifier s = true -> identifier (capitalizeFirstLetter s) = true.
Proof.
  destruct s as [|c s]; [done|]. cbn. intros [Hc ->]%andb_true_iff. rewrite andb_true_r.
  revert Hc. clear. destruct c as [[][][][][][][][]]; vm_compute; congruence.
Qed.

Lemma child_interface_identifier m p k cs :
  identifier m = true -> identifier (param_name p) = true ->
  child_interface m p = Some (k, cs) -> identifier k = true.
Proof.
  intros Hm Hp E. destruct (child_interface_name _ _ _ _ E) as (r & -> & Hr).
  apply identifier_app; [done|]. rewrite str_forallb_app, capitalize_ident_chars by done.
  by destruct Hr as [-> | ->].
Qed.

Lemma good_field_type m p :
  identifier m = true -> capitalized m -> identifier (param_name p) = true ->
  good_type (tf_type (typed_field m p)).
Proof.
  intros Hm Hc Hp. unfold typed_field. cbn [tf_type].
  destruct (child_interface m p) as [[k cs]|] eqn:E.
  - assert (good_type (TRef k)).
    { split; [exact (child_interface_identifier _ _ _ _ Hm Hp E)|by eapply child_interface_capitalized]. }
    by destruct (is_object p).
  - unfold plain_type. repeat case_match; try done; apply good_leaf_type.
Qed.

(** The field without its comment. *)
Definition code_line (m : string) (p : Param) : string :=
  param_name p +:+ (if required p then "" else "?") +:+ ": " +:+ field_type m p +:+ ";".

Lemma parse_code_line m p :
  identifier m = true -> capitalized m -> identifier (param_name p) = true ->
  parse_field (code_line m p) = Some (typed_field m p).
Proof.
  intros Hm Hc Hp. pose proof (good_field_type m p Hm Hc Hp) as Hg.
  assert (Ht : parse_type (trim_start (" " +:+ field_type m p +:+ ";")) =
               Some (tf_type (typed_field m p))).
  { rewrite field_type_print.
    destruct (print_type_head _ Hg) as (c & s & E & Hs). rewrite <-(parse_print_type _ Hg), E.
    change (trim_start (" " +:+ ?x)) with (trim_start x).
    rewrite str_app_cons. cbn [trim_start]. by rewrite Hs. }
  unfold code_line, parse_field. rewrite span_app; [|by apply identifier_chars|by destruct (required p)].
  rewrite Hp. unfold typed_field in *. cbn [tf_type] in *. destruct (required p).
  - change ("" +:+ ": " +:+ field_type m p +:+ ";") with (String ":" (" " +:+ field_type m p +:+ ";")).
    cbn [Ascii.eqb Bool.eqb]. by rewrite Ht.
  - change ("?" +:+ ": " +:+ field_type m p +:+ ";")
      with (String "?" (String ":" (" " +:+ field_type m p +:+ ";"))).
    cbn [Ascii.eqb Bool.eqb]. by rewrite Ht.
Qed.

(** A good type is printed in identifier characters and brackets. *)
Lemma print_type_chars t d :
  good_type t -> is_ident_char d = false -> d <> "["%char -> d <> "]"%char ->
  str_forallb (fun c => negb (Ascii.eqb c d)) (print_type t) = true.
Proof.
  intros Ht Hd H1 H2. destruct (print_type_form t "" Ht) as (b & n & E & Hb & _).
  rewrite str_app_nil_r in E. rewrite E, str_forallb_app, identifier_without by done.
  clear E. rewrite andb_true_l. induction n as [|n IH]; [done|].
  cbn [brackets]. rewrite str_forallb_app, IH, andb_true_r. cbn [str_forallb].
  by rewrite !(proj2 (Ascii.eqb_neq _ _)) by congruence.
Qed.

Lemma code_line_without m p d :
  identifier m = true -> capitalized m -> identifier (param_name p) = true ->
  is_ident_char d = false -> d ∉ ["["; "]"; "?"; ":"; " "; ";"]%char ->
  str_forallb (fun c => negb (Ascii.eqb c d)) (code_line m p) = true.
Proof.
  intros Hm Hc Hp Hd Hn. rewrite !not_elem_of_cons in Hn. destruct Hn as (?&?&?&?&?&?&_).
  unfold code_line. rewrite !str_forallb_app, field_type_print, identifier_without by done.
  rewrite print_type_chars by (done || by apply good_field_type).
  destruct (required p); cbn [str_forallb]; by rewrite !(proj2 (Ascii.eqb_neq _ _)) by congruence.
Qed.

Definition body_text (m : string) (qs : list Param) : string :=
  foldr (fun p r => field_line p (field_type m p) +:+ newline +:+ r) "}" qs.

Lemma declaration_text m q qs :
  declaration m (q :: qs) = interface_head +:+ m +:+ " {" +:+ newline +:+ body_text m (q :: qs).
Proof.
  unfold declaration, interface_decl. do 4 f_equal. revert q.
  induction qs as [|q' qs IH]; intros q.
  - cbn [map join body_text foldr]. done.
  - change (join newline (map ?f (q :: q' :: qs)))
      with (f q +:+ newline +:+ join newline (map f (q' :: qs))).
    rewrite !str_app_assoc, IH. done.
Qed.

Lemma strip_field m p r :
  identifier m = true -> capitalized m -> typed_tree p = true ->
  strip_comments false (field_line p (field_type m p) +:+ newline +:+ r) =
  (if String.eqb (field_comment p) "" then "" else "  " +:+ newline) +:+
  "  " +:+ code_line m p +:+ newline +:+ strip_comments false r.
Proof.
  intros Hm Hc (Hp & _ & _ & Hd & _)%typed_tree_parts.
  set (c := "  " +:+ code_line m p +:+ newline).
  assert (E : field_line p (field_type m p) +:+ newline +:+ r = field_comment p +:+ c +:+ r).
  { unfold field_line, c, code_line. by rewrite !str_app_assoc. }
  assert (Hq : no_slash c = true).
  { unfold no_slash, c. rewrite !str_forallb_app, code_line_without; try done. set_solver. }
  assert (E' : "  " +:+ code_line m p +:+ newline +:+ strip_comments false r =
               c +:+ strip_comments false r) by (unfold c; by rewrite !str_app_assoc).
  rewrite E, E'. clearbody c. clear E E'. unfold field_comment.
  destruct (description p) as [d|]; simpl in Hd; [destruct (String.eqb d "")|].
  - exact (strip_text c r Hq).
  - change (String.eqb ("  /** " +:+ d +:+ " */" +:+ newline) "") with false. cbv iota.
    rewrite !str_app_assoc, strip_comment by done.
    change (newline +:+ c +:+ r) with (newline +:+ (c +:+ r)).
    rewrite (strip_text newline), strip_text by done. done.
  - exact (strip_text c r Hq).
Qed.

(** A line that starts with an identifier is neither blank nor the last one. *)
Lemma identifier_trim s r :
  identifier s = true ->
  trim_start (s +:+ r) = s +:+ r /\ s +:+ r <> "" /\ s +:+ r <> "}".
Proof.
  destruct s as [|c s]; [done|]. cbn [identifier]. intros [Hc _]%andb_true_iff.
  apply letter_visible in Hc as [Hs Hb]. rewrite str_app_cons. cbn [trim_start]. rewrite Hs.
  split; [done|]. split; [done|]. intros [= -> _]. done.
Qed.

Lemma parse_body_text m qs :
  identifier m = true -> capitalized m -> forallb typed_tree qs = true ->
  parse_body (split_on "010" (strip_comments false (body_text m qs))) = Some (map (typed_field m) qs).
Proof.
  intros Hm Hc. induction qs as [|p qs IH]; [done|]. cbn [forallb].
  intros [Hp Hqs]%andb_true_iff. cbn [body_text foldr]. rewrite strip_field by done.
  specialize (IH Hqs). destruct (typed_tree_parts _ Hp) as (Hn & _).
  assert (E : parse_body (split_on "010" ("  " +:+ code_line m p +:+ newline +:+
                strip_comments false (body_text m qs))) = Some (map (typed_field m) (p :: qs))).
  { rewrite <-(str_app_assoc "  "). change (newline +:+ ?x) with (String "010" x).
    rewrite split_on_app.
    - cbn [parse_body]. change (trim_start ("  " +:+ code_line m p)) with (trim_start (code_line m p)).
      pose proof (parse_code_line m p Hm Hc Hn) as Hparse. unfold code_line in *.
      destruct (identifier_trim (param_name p) ((if required p then "" else "?") +:+ ": " +:+
        field_type m p +:+ ";") Hn) as (-> & H1 & H2).
      apply String.eqb_neq in H1, H2. rewrite H1, H2. cbn [map].
      rewrite Hparse. cbn [mbind option_bind]. by rewrite IH.
    - unfold lacks. rewrite str_forallb_app, code_line_without; try done. set_solver. }
  destruct (String.eqb (field_comment p) ""); [exact E|].
  change ((("  " +:+ newline) +:+ ?x)) with ("  " +:+ String "010" x).
  by rewrite split_on_app.
Qed.

Lemma substring_all s n : String.length s <= n -> String.substring 0 n s = s.
Proof.
  revert n. induction s as [|c s IH]; intros [|n]; simpl; try done; [lia|].
  intros H. rewrite IH by lia. done.
Qed.

Lemma parse_head m b :
  identifier m = true ->
  parse_interface (interface_head +:+ m +:+ " {" +:+ newline +:+ b) =
  mkTsInterface m <$> parse_body (split_on "010" (strip_comments false b)).
Proof.
  intros Hm. pose proof (identifier_without m "/" eq_refl Hm) as Hq.
  pose proof (identifier_without m "010" eq_refl Hm) as Hl.
  unfold parse_interface. rewrite strip_text, strip_text, strip_text, strip_text by done.
  rewrite <-(str_app_assoc m), <-(str_app_assoc interface_head).
  change (newline +:+ ?x) with (String "010" x).
  rewrite split_on_app.
  2:{ unfold lacks. by rewrite !str_forallb_app, Hl. }
  change (String.prefix interface_head (interface_head +:+ m +:+ " {"))
    with (String.prefix "" (m +:+ " {")).
  replace (String.prefix "" (m +:+ " {")) with true by (by destruct (m +:+ " {")).
  change (String.substring (String.length interface_head) ?n (interface_head +:+ m +:+ " {"))
    with (String.substring 0 n (m +:+ " {")).
  rewrite substring_all.
  2:{ change (String.length (interface_head +:+ ?x)) with (17 + String.length x). lia. }
  rewrite span_app; [|by apply identifier_chars|done]. by rewrite Hm.
Qed.

Lemma parse_declaration m qs :
  identifier m = true -> capitalized m -> forallb typed_tree qs = true ->
  parse_interface (declaration m qs) = Some (typed_interface (m, qs)).
Proof.
  intros Hm Hc Hqs. destruct qs as [|q qs].
  - change (declaration m []) with (interface_head +:+ m +:+ " {" +:+ newline +:+ (newline +:+ "}")).
    by rewrite parse_head.
  - rewrite declaration_text, parse_head, parse_body_text by done. done.
Qed.

(** Well-formedness reaches every declared interface. *)
Lemma declared_typed n ps m qs :
  identifier n = true -> typed_params ps -> declared n ps m qs ->
  identifier m = true /\ typed_params qs.
Proof.
  intros Hn Hps. induction 1 as [|m qs p k cs Hd [IHm [IHqs IHnd]] Hp Hk]; [done|].
  assert (Ht : typed_tree p = true).
  { rewrite forallb_forall in IHqs. by apply IHqs, list_elem_of_In. }
  destruct (typed_tree_parts _ Ht) as (Hname & _ & _ & _ & Hcs).
  split; [exact (child_interface_identifier _ _ _ _ IHm Hname Hk)|].
  by apply Hcs, child_interface_children with m k.
Qed.

Lemma parse_generated n ps :
  identifier n = true -> capitalized n -> typed_params ps ->
  mapM parse_interface (generateInterface n ps) = Some (map typed_interface (interface_decls n ps)).
Proof.
  intros Hn Hc Hps. rewrite interface_decls_text by done.
  assert (H : Forall (fun d => parse_interface (declaration_of d) = Some (typed_interface d))
                (interface_decls n ps)).
  { apply Forall_forall. intros [m qs] Hd%interface_decls_declared. simpl in Hd.
    destruct (declared_typed _ _ _ _ Hn Hps Hd) as [Hm [Hqs _]].
    apply parse_declaration; [done|by eapply declared_capitalized|done]. }
  induction H as [|d ds Hd _ IH]; [done|]. cbn [map mapM]. rewrite Hd. cbn. by rewrite IH.
Qed.

(** ** Lemmas: members of a declared interface *)

Lemma members_unique (ds : list (string * list Param)) m qs :
  NoDup (map fst ds) -> (m, qs) ∈ ds ->
  members (map typed_interface ds) m = map (typed_field m) qs.
Proof.
  unfold members. induction ds as [|[m' qs'] ds IH]; [by intros _ ?%not_elem_of_nil|].
  cbn [map fst]. intros [Hni Hnd]%NoDup_cons.
  assert (Hother : forall n, n ∉ map fst ds ->
    filter (fun i => ti_name i = n) (map typed_interface ds) = []).
  { intros n Hn. clear -Hn. induction ds as [|[k ks] ds IH]; [done|]. cbn [map] in *.
    apply not_elem_of_cons in Hn as [Hne Hn]. rewrite filter_cons_False; [by apply IH|].
    simpl in *. congruence. }
  intros [E|Hin]%elem_of_cons.
  - injection E as -> ->. rewrite filter_cons_True by done. rewrite Hother by done.
    cbn. by rewrite app_nil_r.
  - rewrite filter_cons_False; [by apply IH|]. simpl. intros ->. apply Hni.
    apply list_elem_of_In, in_map_iff. exists (m, qs). by rewrite <-list_elem_of_In.
Qed.

(** The schema's table of properties, by distinct names. *)
Lemma properties_get l (o : list (string * schema)) p :
  NoDup (map param_name l) -> p ∈ l ->
  obj_get (foldl (fun o (c : string * bool * schema) => obj_set o c.1.1 c.2) o (map schema_entry l))
    (param_name p) = Some (build_param_schema p).
Proof.
  revert o. induction l as [|q l IH]; intros o; [by intros _ ?%not_elem_of_nil|].
  cbn [map foldl]. intros [Hni Hnd]%NoDup_cons [->|Hp]%elem_of_cons; [|by apply IH].
  clear IH. simpl.
  assert (Hkeep : obj_get (obj_set o (param_name q) (build_param_schema q)) (param_name q) =
                  Some (build_param_schema q)) by apply obj_get_set_eq.
  revert Hkeep. generalize (obj_set o (param_name q) (build_param_schema q)). clear o Hnd.
  induction l as [|r l IH]; intros o Ho; [done|]. cbn [map foldl] in *.
  apply not_elem_of_cons in Hni as [Hne Hni]. apply IH; [done|].
  simpl. by rewrite obj_get_set_ne.
Qed.

Lemma required_members l p :
  p ∈ l -> required p = true ->
  param_name p ∈ map (fun c : string * bool * schema => c.1.1)
    (filter (fun c => c.1.2 = true) (map schema_entry l)).
Proof.
  intros Hp Hr. apply list_elem_of_In, in_map_iff. exists (schema_entry p). split; [done|].
  apply list_elem_of_In, list_elem_of_filter. split; [done|].
  apply list_elem_of_In, in_map. by apply list_elem_of_In.
Qed.

Lemma build_param_schema_eq p :
  build_param_schema p =
  let children := map schema_entry (default [] (children_params p)) in
  if String.eqb (param_type p) "object" then object_schema false children
  else if String.eqb (param_type p) "array" then
    SItems (if decide (array_child_type p = Some "object") then object_schema false children
            else get_type_schema (default "" (array_child_type p)))
  else get_type_schema (param_type p).
Proof. by destruct p as [i a pl n t r d e ac pp [cs|]]. Qed.

(** A value of a primitive schema has the primitive type. *)
Lemma leaf_sound env type v :
  type ∈ param_types -> valid (get_type_schema type) v = true ->
  inhabits env (leaf_type type) v = true.
Proof.
  intros Ht. unfold param_types in Ht. rewrite !elem_of_cons in Ht.
  destruct Ht as [->|[->|[->|[->|[->|[->|[->|[]%not_elem_of_nil]]]]]]]; destruct v; try done.
  intros _. cbn. apply forallb_forall. by intros [].
Qed.

Lemma any_sound env v : inhabits env TAny v = true.
Proof. by destruct v. Qed.

Lemma forallb_mono {A} (f g : A -> bool) l :
  Forall (fun x => f x = true -> g x = true) l -> forallb f l = true -> forallb g l = true.
Proof.
  induction 1 as [|x l Hx _ IH]; [done|]. cbn. intros [Hf Hl]%andb_true_iff.
  by rewrite Hx, IH.
Qed.

Lemma items_sound env s t v :
  (forall x, valid s x = true -> inhabits env t x = true) ->
  valid (SItems s) v = true -> inhabits env (TArray t) v = true.
Proof.
  intros H. destruct v as [| | | |l|o]; try done. cbn [valid inhabits].
  apply forallb_mono, Forall_forall. auto.
Qed.

(** A parameter that opens no interface. *)
Lemma plain_sound env m p v :
  typed_tree p = true -> child_interface m p = None ->
  valid (build_param_schema p) v = true -> inhabits env (plain_type p) v = true.
Proof.
  intros (_ & Ht & Hc & _)%typed_tree_parts E. rewrite build_param_schema_eq. cbn zeta.
  unfold plain_type. destruct (String.eqb_spec (param_type p) "object") as [->|Hno].
  { intros _. rewrite decide_False by set_solver. apply any_sound. }
  destruct (String.eqb_spec (param_type p) "array") as [Ha|Hna].
  - rewrite Ha, (decide_True (P := "array" ∈ ["array"; "list"])) by (by left). destruct (array_child_type p) as [c|]; simpl in Hc.
    + rewrite (proj2 (String.eqb_neq c "")) by (intros ->; set_solver).
      apply items_sound. intros x. case_decide as Ho.
      * injection Ho as ->. intros _. apply any_sound.
      * simpl. by apply leaf_sound.
    + apply items_sound. intros x _. apply any_sound.
  - rewrite decide_False.
    2:{ intros [H|[H|[]%not_elem_of_nil]%elem_of_cons]%elem_of_cons; [done|].
        rewrite H in Ht. by apply (bool_decide_eq_true_2 _) in Ht. }
    by apply leaf_sound.
Qed.

(** ** Lemmas: soundness *)

Section Soundness.
Context (env : list ts_interface) (n : string) (ps : list Param).
Hypothesis Hps : typed_params ps.
Hypothesis Hn : identifier n = true.
Hypothesis Hmembers : forall m qs, declared n ps m qs ->
  m ∈ map ti_name env /\ members env m = map (typed_field m) qs.

(** [v] is sound at every declared interface and at the type of every field. *)
Definition sound_object (v : value) : Prop := forall closed m qs,
  declared n ps m qs -> valid (object_schema closed (map schema_entry qs)) v = true ->
  inhabits env (TRef m) v = true.
Definition sound_field (v : value) : Prop := forall m qs p,
  declared n ps m qs -> p ∈ qs -> valid (build_param_schema p) v = true ->
  inhabits env (tf_type (typed_field m p)) v = true.

Lemma field_sound v :
  sound_object v -> (forall l, v = VArr l -> Forall sound_object l) -> sound_field v.
Proof.
  intros Ho Hl m qs p Hd Hp. destruct (declared_typed _ _ _ _ Hn Hps Hd) as [_ [Hqs _]].
  assert (Ht : typed_tree p = true).
  { rewrite forallb_forall in Hqs. by apply Hqs, list_elem_of_In. }
  unfold typed_field. cbn [tf_type]. destruct (child_interface m p) as [[k cs]|] eqn:E.
  - assert (Hk : declared n ps k cs) by by eapply declared_child.
    rewrite build_param_schema_eq. cbn zeta. rewrite (child_interface_children _ _ _ _ E).
    cbn [default id]. destruct (is_object p) eqn:Eo.
    + unfold is_object in Eo. apply andb_true_iff in Eo as [-> _]. by apply Ho.
    + unfold child_interface in E. rewrite Eo in E.
      destruct (is_object_array p) eqn:Ea; [|done]. unfold is_object_array in Ea.
      apply andb_true_iff in Ea as [[Et Ec%bool_decide_eq_true]%andb_true_iff _].
      apply String.eqb_eq in Et. rewrite Et, Ec. rewrite decide_True by done.
      change (String.eqb "array" "object") with false. rewrite String.eqb_refl. cbv iota.
      destruct v as [| | | |l|o]; try done. cbn [valid inhabits].
      apply forallb_mono. eapply Forall_impl; [by apply Hl|]. intros x Hx. by apply Hx.
  - by eapply plain_sound.
Qed.

Lemma object_sound o : Forall (fun kv => sound_field kv.2) o -> sound_object (VObj o).
Proof.
  intros Ho closed m qs Hd. destruct (Hmembers _ _ Hd) as [Hm Hf].
  destruct (declared_typed _ _ _ _ Hn Hps Hd) as [_ [_ Hnd]].
  unfold object_schema. cbn [valid inhabits]. rewrite Hf.
  rewrite !andb_true_iff, bool_decide_eq_true. intros [Hv Hreq].
  split; [split; [done|]|].
  - revert Hv. apply forallb_mono. eapply Forall_impl; [exact Ho|]. intros [k v'] Hs Hv.
    apply forallb_forall. intros f (p & <- & Hp)%in_map_iff. apply list_elem_of_In in Hp.
    cbn [tf_name]. destruct (String.eqb_spec (tf_name (typed_field m p)) k) as [<-|]; [|done].
    simpl tf_name in Hv. rewrite properties_get in Hv by done. by apply (Hs m qs p).
  - apply forallb_forall. intros f (p & <- & Hp)%in_map_iff. apply list_elem_of_In in Hp.
    simpl. destruct (required p) eqn:Er; [|done].
    rewrite forallb_forall in Hreq. apply Hreq, list_elem_of_In. by apply required_members.
Qed.

Lemma value_sound v : sound_object v /\ sound_field v.
Proof.
  assert (Hflat : forall v, (forall o, v <> VObj o) -> sound_object v).
  { intros [| |a b| | |o] Hv closed m qs _; try done. by destruct (Hv o). }
  induction v as [| | | |l IH|o IH] using value_tree_ind.
  1-4: split; [by apply Hflat|apply field_sound; [by apply Hflat|done]].
  - split; [by apply Hflat|]. apply field_sound; [by apply Hflat|].
    intros l' [= <-]. eapply Forall_impl; [exact IH|]. by intros ? [].
  - assert (H : sound_object (VObj o)).
    { apply object_sound. eapply Forall_impl; [exact IH|]. by intros ? []. }
    split; [done|]. by apply field_sound.
Qed.

End Soundness.

(** ** Properties *)

(** C15. Type soundness of the generated code, against the schema the backend
    exports.  The text [generateInterface] emits for a parameter list is a list
    of well-formed TypeScript interface declarations; reading it back, every
    JSON value that is valid for the OpenAPI schema of the same parameters
    inhabits the generated interface.  The hypotheses: the name is an identifier; the
    parameters, at every level, have declared types, names that are identifiers and
    distinct within a list, and descriptions that do not contain the closing mark of
    a comment; and every nested object has an interface name of its own. *)
Theorem generated_types_sound name params :
  identifier name = true -> typed_params params ->
  NoDup (interface_names (capitalizeFirstLetter name) params) ->
  exists env, mapM parse_interface (generateInterface name params) = Some env /\
    forall v, valid (build_root_schema params) v = true ->
      inhabits env (TRef (capitalizeFirstLetter name)) v = true.
Proof.
  intros Hi Hps Hnd. set (n := capitalizeFirstLetter name) in *.
  assert (Hn : identifier n = true) by by apply capitalize_identifier.
  assert (Hc : capitalized n) by apply capitalize_capitalized.
  assert (E : generateInterface name params = generateInterface n params).
  { unfold generateInterface, interface_block, n. by rewrite capitalize_idem. }
  rewrite E, parse_generated by done. eexists. split; [done|]. intros v Hv.
  eapply value_sound; [exact Hps|exact Hn| |constructor|exact Hv].
  intros m qs Hd%declared_interface_decls. rewrite <-interface_decls_names in Hnd.
  split; [|by apply members_unique].
  rewrite map_map. apply list_elem_of_In, in_map_iff. exists (m, qs). by rewrite <-list_elem_of_In.
Qed.

Definition sample_reply : value :=
  VObj [("user", VObj [("id", VNum 7 0); ("tags", VArr [VObj [("id", VNum 120 (-1))]; VObj [("id", VNum 1 0)]])]);
        ("user_id", VNum 70 (-1))].

Lemma generated_types_sound_witness :
  exists env, mapM parse_interface (generateInterface "reply" sample_tree) = Some env /\
    inhabits env (TRef "Reply") sample_reply = true.
Proof.
  destruct (generated_types_sound "reply" sample_tree eq_refl) as (env & Henv & H).
  - split; [reflexivity|]. apply (bool_decide_unpack _). exact I.
  - apply (bool_decide_unpack _). vm_compute. exact I.
  - exists env. split; [exact Henv|]. apply H. vm_compute. reflexivity.
Defined.

(** Distinct interface names are needed: TypeScript merges the two
    declarations of [RootAB], and a valid value inhabits only one of them. *)
Theorem colliding_types_unsound :
  exists params v env,
    typed_params params /\ valid (build_root_schema params) v = true /\
    mapM parse_interface (generateInterface "root" params) = Some env /\
    inhabits env (TRef "Root") v = false.
Proof.
  exists [sample_param "a" "object" None (Some
            [sample_param "b" "object" None (Some [sample_param "x" "int" None None])]);
          sample_param "aB" "object" None (Some [sample_param "y" "string" None None])].
  exists (VObj [("a", VObj [("b", VObj [("x", VNum 1 0)])]); ("aB", VObj [("y", VStr "s")])]).
  eexists. split; [|split; [reflexivity|split; [reflexivity|reflexivity]]].
  split; [reflexivity|]. apply (bool_decide_unpack _). exact I.
Qed.

(** So are descriptions that do not close their comment: the generator prints the text
    of a description between the marks of a comment as it is, and what follows a closing mark
    in it is read as a member. *)
Theorem closing_description_unreadable :
  mapM parse_interface (generateInterface "ping"
    [mkParam 1 1 (InResponse 200) "path" "string" true (Some "a glob such as src/*/index.ts") None None None None]) = None.
Proof. reflexivity. Qed.

(** So are identifiers: the field of a header such as [x-token] is printed
    without quotes, which is not a TypeScript member. *)
Theorem hyphenated_name_unreadable :
  mapM parse_interface (generateInterface "ping" [sample_param "x-token" "string" None None]) = None.
Proof. reflexivity. Qed.
