(* ===== verification/ServiceClass.v ===== *)
(** * The generated service class

    [cam-fe-code-generator/src/templates/service-class.ts]: the text of the
    class of one service from the options of its APIs.  [import_set] is the
    [Set] the code collects, in insertion order. *)

From S2P Require Import Prelude JsObject ApiTypes Generator.
From Stdlib Require Import Ascii String ZArith.

(** [reqInterfaceNameWithValue]: [filter(Boolean)] drops the empty names. *)
Definition reqInterfaceNameWithValue (o : ApiOption) : list string :=
  filter (fun n => n <> "")
    [reqBodyInterfaceName o; reqQueryInterfaceName o; reqPathInterfaceName o;
     reqHeaderInterfaceName o; reqCookieInterfaceName o].

(** [set.add(name)]. *)
Definition set_add (s : list string) (name : string) : list string :=
  if decide (name ∈ s) then s else s ++ [name].

Definition collect_imports (s : list string) (o : ApiOption) : list string :=
  foldl set_add (foldl set_add s (reqInterfaceNameWithValue o)) (respInterfaceNames o).

Definition import_set (apiOptions : list ApiOption) : list string :=
  foldl collect_imports [] apiOptions.

(** ['field': _req[field]], comma separated. *)
Definition field_pair (field : string) : string :=
  "'" +:+ field +:+ "': _req[" +:+ dquote +:+ field +:+ dquote +:+ "]".
Definition params_code (fields : list string) : string := join ", " (map field_pair fields).
Definition braced_or_undefined (code : string) : string :=
  if String.eqb code "" then "undefined" else "{ " +:+ code +:+ " }".

Definition path_replacement (field : string) : string :=
  newline +:+ "    if (_req[" +:+ dquote +:+ field +:+ dquote +:+ "] !== undefined && _req[" +:+
  dquote +:+ field +:+ dquote +:+ " ] !== null) {" +:+ newline +:+
  "      url = url.replace('{" +:+ field +:+ "}', String(_req[" +:+ dquote +:+ field +:+ dquote +:+ "]));" +:+
  newline +:+ "    }".

Definition url_code (o : ApiOption) : string :=
  foldl (fun code field => code +:+ path_replacement field)
    ("let url = this.genBaseURL('" +:+ apiPath o +:+ "');") (reqPathFields o).

Definition req_param_def (o : ApiOption) : string :=
  let n := join " & " (reqInterfaceNameWithValue o) in
  if String.eqb n "" then "req?: any" else "req: " +:+ n.

Definition resp_interface_name (o : ApiOption) : string :=
  str_or (join " & " (respInterfaceNames o)) "any".

(** One method of the class. *)
Definition apiFunctionCode (o : ApiOption) : string :=
  newline +:+ "  /** " +:+ apiDescription o +:+ " */" +:+ newline +:+
  "  " +:+ functionName o +:+ "(" +:+ req_param_def o +:+ ", options?: T): Promise<" +:+
  resp_interface_name o +:+ "> {" +:+ newline +:+
  "    const _req = req || {};" +:+ newline +:+
  "    " +:+ url_code o +:+ newline +:+
  "    const method = '" +:+ method_name (apiMethod o) +:+ "';" +:+ newline +:+
  "    const data = " +:+ braced_or_undefined (params_code (reqBodyFields o)) +:+ ";" +:+ newline +:+
  "    const params = " +:+ braced_or_undefined (params_code (reqQueryFields o)) +:+ ";" +:+ newline +:+
  "    const headers = " +:+ braced_or_undefined (params_code (reqHeaderFields o)) +:+ ";" +:+ newline +:+
  "    return this.request({ url, method, data, params, headers }, options);" +:+ newline +:+
  "  }" +:+ newline +:+ "        ".

Definition methods_code (apiOptions : list ApiOption) : string :=
  foldl (fun code o => code +:+ apiFunctionCode o) "" apiOptions.

Definition import_code (names : list string) : string :=
  match names with
  | [] => ""
  | _ => "import type { " +:+ join ", " names +:+ " } from " +:+ dquote +:+ "./namespaces" +:+
         dquote +:+ ";" +:+ newline
  end.

Definition serviceClassCode (serviceName : string) (apiOptions : list ApiOption) : string :=
  newline +:+ import_code (import_set apiOptions) +:+ newline +:+
  "export default class " +:+ capitalizeFirstLetter serviceName +:+ "Service<T> {
  private request: any = () => {
    throw new Error('" +:+ capitalizeFirstLetter serviceName +:+ "Service.request is undefined');
  };
  private baseURL: string | ((path: string) => string) = '';

  constructor(options?: {
    baseURL?: string | ((path: string) => string);
    request?<R>(
      params: {
        url: string;
        method: 'GET' |  'POST' | 'PUT' |'DELETE' | 'PATCH';
        data?: any;
        params?: any;
        headers?: any;
      },
      options?: T,
    ): Promise<R>;
  }) {
    this.request = options?.request || this.request;
    this.baseURL = options?.baseURL || this.baseURL;
  }

  private genBaseURL(path: string) {
    if (typeof this.baseURL === 'string') {
        const baseUrl = this.baseURL.trim().replace(/\/+$/, " +:+ dquote +:+ dquote +:+ ");
        const apiPath = path.trim().replace(/^\/+/, " +:+ dquote +:+ dquote +:+ ");
        return baseUrl + '/' + apiPath;
    }
    return this.baseURL(path);
  }

  /* API Services */
" +:+ methods_code apiOptions +:+ "
};
    ".

(** [requestDemoCode] of [templates/request-demo.ts]. *)
Definition requestDemoCode (demoServiceName : string) : string :=
  let demoClassName := capitalizeFirstLetter (demoServiceName +:+ "Service") in
  "
// This is a demo request code for how to use auto generated service class.
// You can also use your own request instance like axios or fetch.

import axios, { type AxiosRequestConfig } from " +:+ dquote +:+ "axios" +:+ dquote +:+ "; // Install axios if you haven't
import " +:+ demoClassName +:+ " from " +:+ dquote +:+ "./" +:+ demoServiceName +:+ "/index" +:+ dquote +:+ ";

const BASE_URL = " +:+ dquote +:+ "http://localhost:3000" +:+ dquote +:+ "; // Change to the actual base URL

export const demoServiceForAxios = new " +:+ demoClassName +:+ "<AxiosRequestConfig>({
    baseURL: BASE_URL,
    request: (config, _options) =>
        axios.request({ ...config }),
});

export const demoServiceForFetch = new " +:+ demoClassName +:+ "<RequestInit>({
    baseURL: BASE_URL,
        request: (config, _options) =>
            fetch(config.url, { ...config }).then((res) => res.json()),
});
".

(** [o] with other cookie fields. *)
Definition with_cookie_fields (f : ApiOption -> list string) (o : ApiOption) : ApiOption :=
  mkApiOption (functionName o) (apiMethod o) (apiPath o) (apiDescription o)
    (reqBodyInterfaceName o) (reqQueryInterfaceName o) (reqPathInterfaceName o)
    (reqHeaderInterfaceName o) (reqCookieInterfaceName o) (respInterfaceNames o)
    (reqBodyFields o) (reqQueryFields o) (reqPathFields o) (reqHeaderFields o) (f o).

(** The interface names a method mentions. *)
Definition used_interfaces (o : ApiOption) : list string :=
  reqInterfaceNameWithValue o ++ respInterfaceNames o.

(** ** Lemmas *)

Lemma elem_of_set_add s n x : x ∈ set_add s n <-> x ∈ s \/ x = n.
Proof.
  unfold set_add. case_decide; rewrite ?elem_of_app, ?list_elem_of_singleton; [|done].
  split; [auto|]. by intros [| ->].
Qed.

Lemma set_add_NoDup s n : NoDup s -> NoDup (set_add s n).
Proof.
  unfold set_add. case_decide; [done|]. intros Hs. apply NoDup_app.
  split; [done|]. split; [|apply NoDup_singleton]. by intros x Hx ->%list_elem_of_singleton.
Qed.

Lemma elem_of_foldl_set_add l s x : x ∈ foldl set_add s l <-> x ∈ s \/ x ∈ l.
Proof.
  revert s. induction l as [|n l IH]; intros s; simpl.
  - split; [auto|]. by intros [|?%not_elem_of_nil].
  - rewrite IH, elem_of_set_add, elem_of_cons. tauto.
Qed.

Lemma foldl_set_add_NoDup l s : NoDup s -> NoDup (foldl set_add s l).
Proof. revert s. induction l as [|n l IH]; intros s Hs; simpl; auto using set_add_NoDup. Qed.

Lemma elem_of_import_set os x :
  x ∈ import_set os <-> exists o, o ∈ os /\ x ∈ used_interfaces o.
Proof.
  assert (H : forall s, x ∈ foldl collect_imports s os <->
    x ∈ s \/ exists o, o ∈ os /\ x ∈ used_interfaces o).
  { induction os as [|o os IH]; intros s; simpl.
    - split; [auto|]. by intros [|(o & ?%not_elem_of_nil & _)].
    - rewrite IH. unfold collect_imports. rewrite !elem_of_foldl_set_add.
      unfold used_interfaces. setoid_rewrite elem_of_cons. setoid_rewrite elem_of_app.
      split.
      + intros [[[?|?]|?]|(o' & ? & ?)]; eauto 10.
      + intros [?|(o' & [-> |?] & Hx)]; eauto 10. destruct Hx; auto. }
  unfold import_set. rewrite H. split; [|auto]. by intros [?%not_elem_of_nil|].
Qed.

Lemma import_set_NoDup os : NoDup (import_set os).
Proof.
  unfold import_set. assert (H : forall s, NoDup s -> NoDup (foldl collect_imports s os)).
  { induction os as [|o os IH]; intros s Hs; simpl; [done|].
    apply IH. unfold collect_imports. auto using foldl_set_add_NoDup. }
  apply H. constructor.
Qed.

(** A run of [generateTSCode] over the APIs of a service. *)
Definition generated (api : ApiDetail) (code : GeneratedCode) : Prop :=
  api_name api <> "" /\ generateTSCode api = Ret code.

(** ** Properties *)

(** C24. The import line of a generated service class lists each interface once,
    and every imported name is declared by the namespaces generated from the
    APIs of that service; conversely each interface a method mentions is
    imported. *)
Theorem serviceClass_imports_declared apis codes :
  Forall2 generated apis codes ->
  NoDup (import_set (map apiOption codes)) /\
  (forall n, n ∈ import_set (map apiOption codes) ->
     exists fields, interface_decl n fields ∈ List.concat (map namespaces codes)) /\
  (forall code n, code ∈ codes -> n ∈ used_interfaces (apiOption code) ->
     n ∈ import_set (map apiOption codes)).
Proof.
  intros H. split; [apply import_set_NoDup|]. split.
  - intros n (o & Ho & Hn)%elem_of_import_set.
    apply list_elem_of_In, in_map_iff in Ho as (code & <- & Hcode).
    apply list_elem_of_In in Hcode.
    assert (Hgen : exists api, generated api code).
    { clear -H Hcode. induction H; [by apply not_elem_of_nil in Hcode|].
      apply elem_of_cons in Hcode as [-> |?]; eauto. }
    destruct Hgen as (api & Hname & Hapi).
    destruct (generated_name_declared api code n Hname Hapi) as [fs Hfs].
    + apply elem_of_app in Hn as [Hn|Hn]; [left|by right].
      unfold reqInterfaceNameWithValue in Hn. apply list_elem_of_filter in Hn as [Hne Hin].
      rewrite !elem_of_cons in Hin.
      destruct Hin as [-> |[-> |[-> |[-> |[-> |?%not_elem_of_nil]]]]]; [..|done].
      * by exists body.
      * by exists query.
      * by exists path.
      * by exists header.
      * by exists cookie.
    + exists fs. apply elem_of_concat_map. eauto.
  - intros code n Hcode Hn. apply elem_of_import_set. exists (apiOption code).
    split; [|done]. apply list_elem_of_In, in_map. by apply list_elem_of_In.
Qed.

Lemma serviceClass_imports_declared_witness :
  exists code, generateTSCode sample_api = Ret code /\
    exists fields, interface_decl "GetUserInfo200Response" fields ∈ List.concat (map namespaces [code]).
Proof.
  eexists. split; [reflexivity|].
  eapply (proj1 (proj2 (serviceClass_imports_declared [sample_api] _ _))).
  apply list_elem_of_In. vm_compute. tauto.
Unshelve.
  constructor; [|constructor]. split; [discriminate|reflexivity].
Defined.

(** The generated class does not depend on the cookie fields of its APIs:
    cookie parameters are part of the request type but no generated method
    sends them. *)
Theorem serviceClassCode_ignores_cookie_fields name apiOptions f :
  serviceClassCode name (map (with_cookie_fields f) apiOptions) = serviceClassCode name apiOptions.
Proof.
  unfold serviceClassCode, methods_code, import_set.
  assert (Hfold : forall A (g : A -> ApiOption -> A) os acc,
    (forall a o, g a (with_cookie_fields f o) = g a o) ->
    foldl g acc (map (with_cookie_fields f) os) = foldl g acc os).
  { intros A g os. induction os as [|o os IH]; intros acc Hg; simpl; [done|].
    by rewrite IH, Hg. }
  by rewrite !Hfold.
Qed.
