(* ===== verification/Client.v ===== *)
(** * The generated client at work

    What the methods of the class written by
    [cam-fe-code-generator/src/templates/service-class.ts] do when they are
    called: the text that [ServiceClass] prints is itself a program, translated
    here into the request it makes.  The translation holds for field names and
    paths that need no escaping in a quoted JavaScript string.  [req] is the
    argument by its own members. *)

From S2P Require Import Prelude JsObject ApiTypes Generator ServiceClass.
From Stdlib Require Import Ascii String ZArith Lia.

(** ** [String.prototype.replace] with a text to find *)

(** What follows [p] in [s], when [s] starts with it. *)
Fixpoint after_prefix (p s : string) : option string :=
  match p, s with
  | EmptyString, _ => Some s
  | String a p', String b s' => if Ascii.eqb a b then after_prefix p' s' else None
  | String _ _, EmptyString => None
  end.

(** The text before and after the first occurrence of [p]. *)
Fixpoint find_text (p s : string) : option (string * string) :=
  match after_prefix p s with
  | Some r => Some ("", r)
  | None =>
      match s with
      | EmptyString => None
      | String c s' => (fun br : string * string => (String c br.1, br.2)) <$> find_text p s'
      end
  end.

(** The patterns [$$], [$&], [$`] and [$'] of a replacement. *)
Fixpoint expand (before matched after rep : string) : string :=
  match rep with
  | EmptyString => ""
  | String c ((String d r) as rep') =>
      if Ascii.eqb c "$" then
        if Ascii.eqb d "$" then String "$" (expand before matched after r)
        else if Ascii.eqb d "&" then matched +:+ expand before matched after r
        else if Ascii.eqb d "`" then before +:+ expand before matched after r
        else if Ascii.eqb d "'" then after +:+ expand before matched after r
        else String c (expand before matched after rep')
      else String c (expand before matched after rep')
  | String c EmptyString => String c ""
  end.

(** [s.replace(p, rep)]: the first occurrence. *)
Definition js_replace (s p rep : string) : string :=
  match find_text p s with
  | Some (before, after) => before +:+ expand before p after rep +:+ after
  | None => s
  end.

(** ** The class *)

(** [baseURL: string | ((path: string) => string)]. *)
Inductive BaseURL := BaseText (s : string) | BaseFunction (f : string -> string).

Definition is_slash (c : ascii) : bool := Ascii.eqb c "/".

(** [s.replace(/\/+$/, "")]. *)
Fixpoint drop_slashes (s : string) : string :=
  match s with
  | EmptyString => ""
  | String c s' =>
      match drop_slashes s' with
      | EmptyString => if is_slash c then "" else String c ""
      | t => String c t
      end
  end.

(** [genBaseURL]; the leading slashes of the path go too. *)
Definition genBaseURL (base : BaseURL) (path : string) : string :=
  match base with
  | BaseText b => drop_slashes (trim b) +:+ "/" +:+ snd (span is_slash (trim path))
  | BaseFunction f => f path
  end.

Section Call.
(** The values a member of [req] can have besides [null] and [undefined], and
    [String] of them. *)
Context {A : Type} (js_String : A -> string).

Inductive arg := ArgNull | Arg (a : A).

(** The code for one path parameter. *)
Definition replace_path (req : obj arg) (url field : string) : string :=
  match obj_get req field with
  | Some (Arg a) => js_replace url ("{" +:+ field +:+ "}") (js_String a)
  | _ => url
  end.

(** [{ 'f': _req["f"], ... }], or [undefined] when there is no field; an absent
    member of [req] is [undefined]. *)
Definition members_of (req : obj arg) (fields : list string) : option (obj (option arg)) :=
  match fields with
  | [] => None
  | _ => Some (foldl (fun o f => obj_set o f (obj_get req f)) [] fields)
  end.

(** What a method hands to [this.request]. *)
Record ClientRequest := mkClientRequest {
  client_url : string;
  client_method : string;
  client_data : option (obj (option arg));
  client_params : option (obj (option arg));
  client_headers : option (obj (option arg))
}.

Definition call_method (base : BaseURL) (o : ApiOption) (req : obj arg) : ClientRequest :=
  mkClientRequest
    (foldl (replace_path req) (genBaseURL base (apiPath o)) (reqPathFields o))
    (method_name (apiMethod o))
    (members_of req (reqBodyFields o)) (members_of req (reqQueryFields o)) (members_of req (reqHeaderFields o)).
End Call.
Arguments ArgNull {A}.
Arguments Arg {A} a.
Arguments mkClientRequest {A}.
Arguments client_url {A} c.
Arguments client_method {A} c.
Arguments client_data {A} c.
Arguments client_params {A} c.
Arguments client_headers {A} c.

(** ** Specification: an address with placeholders *)

Inductive piece := Lit (s : string) | Hole (name : string).

Definition piece_text (p : piece) : string :=
  match p with Lit s => s | Hole n => "{" +:+ n +:+ "}" end.
Fixpoint template (ps : list piece) : string :=
  match ps with [] => "" | p :: ps' => piece_text p +:+ template ps' end.

Definition holes (ps : list piece) : list string := omap (fun p => match p with Hole n => Some n | Lit _ => None end) ps.

(** The address with each placeholder replaced by its value. *)
Fixpoint fill (value : string -> string) (ps : list piece) : string :=
  match ps with
  | [] => ""
  | Lit s :: ps' => s +:+ fill value ps'
  | Hole n :: ps' => value n +:+ fill value ps'
  end.

(** Braces are used for placeholders only. *)
Definition piece_ok (p : piece) : Prop :=
  match p with Lit s => lacks "{" s = true | Hole n => lacks "{" n = true /\ lacks "}" n = true end.

(** ** Lemmas *)

Lemma after_prefix_app p r : after_prefix p (p +:+ r) = Some r.
Proof. induction p as [|c p IH]; [done|]. rewrite str_app_cons. cbn [after_prefix]. by rewrite Ascii.eqb_refl. Qed.

(** Two texts without [}], each followed by one: the first starts the second only
    when they are equal. *)
Lemma after_prefix_closed n m r : lacks "}" n = true -> lacks "}" m = true ->
  after_prefix (n +:+ "}") (m +:+ String "}" r) = if decide (n = m) then Some r else None.
Proof.
  revert m. induction n as [|a n IH]; intros m Hn Hm.
  - change ("" +:+ "}") with "}". destruct m as [|b m].
    + change ("" +:+ String "}" r) with (String "}" r). by rewrite decide_True.
    + rewrite str_app_cons. unfold lacks in Hm. cbn [str_forallb] in Hm. apply andb_true_iff in Hm as [Hb _].
      apply negb_true_iff in Hb. cbn [after_prefix]. rewrite Ascii.eqb_sym, Hb. by rewrite decide_False.
  - rewrite str_app_cons. unfold lacks in Hn. cbn [str_forallb] in Hn. apply andb_true_iff in Hn as [Ha Hn].
    apply negb_true_iff in Ha. destruct m as [|b m].
    + change ("" +:+ String "}" r) with (String "}" r). cbn [after_prefix]. rewrite Ha. by rewrite decide_False.
    + rewrite str_app_cons. unfold lacks in Hm. cbn [str_forallb] in Hm. apply andb_true_iff in Hm as [_ Hm].
      cbn [after_prefix]. destruct (Ascii.eqb_spec a b) as [->|Hab].
      * rewrite IH by done. apply decide_ext. split; [by intros ->|by intros [= ->]].
      * rewrite decide_False; [done|]. by intros [= ? ?].
Qed.

(** A placeholder is not found in text without [{]. *)
Lemma find_text_skip n s r : lacks "{" s = true ->
  find_text (String "{" n) (s +:+ r) = (fun br : string * string => (s +:+ br.1, br.2)) <$> find_text (String "{" n) r.
Proof.
  induction s as [|c s IH]; intros Hs.
  - change ("" +:+ r) with r. destruct (find_text (String "{" n) r) as [[b a]|]; done.
  - unfold lacks in Hs. cbn [str_forallb] in Hs. apply andb_true_iff in Hs as [Hc Hs]. apply negb_true_iff in Hc.
    rewrite str_app_cons. cbn [find_text after_prefix]. rewrite Ascii.eqb_sym, Hc, IH by done.
    by destruct (find_text (String "{" n) r) as [[b a]|].
Qed.

(** Finding a placeholder in an address: the first hole of that name. *)
Lemma find_hole n ps : lacks "{" n = true -> lacks "}" n = true -> Forall piece_ok ps ->
  match find_text ("{" +:+ n +:+ "}") (template ps) with
  | Some (b, a) => exists l r, ps = l ++ Hole n :: r /\ n ∉ holes l /\ b = template l /\ a = template r
  | None => n ∉ holes ps
  end.
Proof.
  intros Hn1 Hn2. change ("{" +:+ n +:+ "}") with (String "{" (n +:+ "}")).
  induction 1 as [|p ps Hp Hps IH]; [by apply not_elem_of_nil|]. cbn [template]. destruct p as [s|m]; cbn [piece_text piece_ok] in *.
  - rewrite find_text_skip by done. destruct (find_text _ (template ps)) as [[b a]|]; [|exact IH].
    destruct IH as (l & r & -> & Hl & -> & ->). by exists (Lit s :: l), r.
  - destruct Hp as [Hm1 Hm2].
    assert (E : ("{" +:+ m +:+ "}") +:+ template ps = String "{" (m +:+ String "}" (template ps))) by (by rewrite !str_app_assoc).
    rewrite E. cbn [find_text after_prefix]. rewrite Ascii.eqb_refl, after_prefix_closed by done.
    destruct (decide (n = m)) as [<-|Hne].
    + exists [], ps. split; [done|]. split; [by apply not_elem_of_nil|done].
    + assert (Em : m +:+ String "}" (template ps) = (m +:+ "}") +:+ template ps) by (by rewrite !str_app_assoc).
      rewrite Em, find_text_skip.
      2: { unfold lacks in *. by rewrite str_forallb_app, Hm1. }
      destruct (find_text _ (template ps)) as [[b a]|].
      * destruct IH as (l & r & -> & Hl & -> & ->). exists (Hole m :: l), r. split; [done|].
        split; [|done]. cbn. rewrite not_elem_of_cons. done.
      * cbn. rewrite not_elem_of_cons. done.
Qed.

Lemma expand_plain b m a s : lacks "$" s = true -> expand b m a s = s.
Proof.
  induction s as [|c s IH]; intros Hs; [done|]. unfold lacks in Hs. cbn [str_forallb] in Hs.
  apply andb_true_iff in Hs as [Hc Hs]. apply negb_true_iff in Hc. cbn [expand]. rewrite Hc.
  destruct s; [done|]. by rewrite IH.
Qed.

Lemma template_app l r : template (l ++ r) = template l +:+ template r.
Proof. induction l as [|p l IH]; [done|]. cbn [app template]. by rewrite IH, str_app_assoc. Qed.

Lemma fill_app v l r : fill v (l ++ r) = fill v l +:+ fill v r.
Proof. induction l as [|[s|n] l IH]; [done|..]; cbn [app fill]; by rewrite IH, str_app_assoc. Qed.

(** Without holes an address is its text. *)
Lemma fill_closed v ps : holes ps = [] -> fill v ps = template ps.
Proof. induction ps as [|[s|n] ps IH]; intros H; [done|..]; [|done]. cbn [fill template piece_text]. by rewrite IH. Qed.

(** Putting a value in place of a hole. *)
Definition plug (n v : string) (ps : list piece) : list piece :=
  map (fun p => match p with Hole m => if decide (m = n) then Lit v else p | Lit _ => p end) ps.

Lemma plug_absent n v ps : n ∉ holes ps -> plug n v ps = ps.
Proof.
  induction ps as [|[s|m] ps IH]; intros H; [done|..]; cbn in *; change (map _ ps) with (plug n v ps); [by rewrite IH|].
  rewrite not_elem_of_cons in H. rewrite decide_False by (intros ->; tauto). by rewrite IH by tauto.
Qed.

Lemma plug_app n v l r : plug n v (l ++ r) = plug n v l ++ plug n v r.
Proof. apply map_app. Qed.

Lemma holes_app l r : holes (l ++ r) = holes l ++ holes r.
Proof. apply omap_app. Qed.

Lemma holes_plug n v ps : holes (plug n v ps) = filter (fun m => m <> n) (holes ps).
Proof.
  induction ps as [|[s|m] ps IH]; [done|exact IH|].
  cbn [plug map]. change (map _ ps) with (plug n v ps). case_decide as E.
  - subst m. change (holes (Lit v :: plug n v ps)) with (holes (plug n v ps)).
    change (holes (Hole n :: ps)) with (n :: holes ps). rewrite IH, filter_cons, decide_False; [done|]. by intros H.
  - change (holes (Hole m :: plug n v ps)) with (m :: holes (plug n v ps)).
    change (holes (Hole m :: ps)) with (m :: holes ps). by rewrite IH, filter_cons, decide_True.
Qed.

Lemma plug_ok n v ps : lacks "{" v = true -> Forall piece_ok ps -> Forall piece_ok (plug n v ps).
Proof.
  intros Hv H. apply Forall_map. eapply Forall_impl; [exact H|]. intros [s|m] Hp; [done|]. by case_decide.
Qed.

Lemma fill_plug n value ps : fill value (plug n (value n) ps) = fill value ps.
Proof.
  induction ps as [|[s|m] ps IH]; [done|..]; cbn [plug map fill]; change (map _ ps) with (plug n (value n) ps);
    [by rewrite <-IH|]. case_decide as E; cbn [fill]; [subst m|]; by rewrite <-IH.
Qed.

Section Replace.
Context {A : Type} (js_String : A -> string) (req : obj (@arg A)) (value : string -> string).

(** [req] gives [n] a value that prints as [value n], which holds no placeholder
    and no replacement pattern. *)
Definition gives (n : string) : Prop :=
  exists a, obj_get req n = Some (Arg a) /\ js_String a = value n /\
    lacks "{" (value n) = true /\ lacks "$" (value n) = true.

Lemma replace_one n ps : lacks "{" n = true -> lacks "}" n = true ->
  Forall piece_ok ps -> NoDup (holes ps) -> (n ∈ holes ps -> gives n) ->
  replace_path js_String req (template ps) n = template (plug n (value n) ps).
Proof.
  intros Hn1 Hn2 Hok Hnd Hg. pose proof (find_hole n ps Hn1 Hn2 Hok) as H.
  unfold replace_path, js_replace. destruct (find_text _ (template ps)) as [[b a]|].
  - destruct H as (l & r & -> & Hl & -> & ->). rewrite holes_app in Hnd, Hg.
    change (holes (Hole n :: r)) with (n :: holes r) in *.
    assert (Hr : n ∉ holes r) by (apply NoDup_app in Hnd as (_ & _ & [? _]%NoDup_cons); done).
    destruct Hg as (x & -> & Hx & _ & Hd); [apply elem_of_app; right; by left|].
    rewrite expand_plain by (by rewrite Hx). rewrite plug_app, template_app, (plug_absent n _ l Hl).
    cbn [plug map]. rewrite decide_True by done. change (map _ r) with (plug n (value n) r).
    rewrite (plug_absent n _ r Hr). cbn [template piece_text]. by rewrite Hx.
  - rewrite (plug_absent n _ ps H). by destruct (obj_get req n) as [[|x]|].
Qed.

Lemma replace_fields fields : forall ps,
  Forall (fun n => lacks "{" n = true /\ lacks "}" n = true) fields ->
  Forall piece_ok ps -> NoDup (holes ps) -> (forall n, n ∈ holes ps -> gives n) ->
  exists ps', foldl (replace_path js_String req) (template ps) fields = template ps' /\
    fill value ps' = fill value ps /\ forall n, n ∈ holes ps' -> n ∈ holes ps /\ n ∉ fields.
Proof.
  induction fields as [|n fields IH]; intros ps Hf Hok Hnd Hg.
  { exists ps. split; [done|]. split; [done|]. intros n Hn. split; [exact Hn|apply not_elem_of_nil]. }
  inversion Hf as [|?? [Hn1 Hn2] Hf']; subst. cbn [foldl].
  rewrite (replace_one n ps Hn1 Hn2 Hok Hnd (Hg n)).
  assert (Hok' : Forall piece_ok (plug n (value n) ps)).
  { destruct (decide (n ∈ holes ps)) as [Hin|Hin]; [|by rewrite plug_absent].
    apply plug_ok; [|done]. destruct (Hg n Hin) as (a & _ & _ & H & _). exact H. }
  destruct (IH (plug n (value n) ps) Hf' Hok') as (ps' & -> & Hfill & Hh).
  - rewrite holes_plug. by apply NoDup_filter.
  - intros m. rewrite holes_plug, list_elem_of_filter. intros [_ Hm]. by apply Hg.
  - exists ps'. split; [done|]. split; [by rewrite Hfill, fill_plug|]. intros m Hm.
    destruct (Hh m Hm) as [Hm1 Hm2]. rewrite holes_plug, list_elem_of_filter in Hm1. destruct Hm1 as [Hne Hm1].
    split; [exact Hm1|]. by rewrite not_elem_of_cons.
Qed.
End Replace.

(** The members of an object literal are its fields, with the values of [req]. *)
Lemma members_of_get {A} (req : obj (@arg A)) fields o k :
  members_of req fields = Some o ->
  obj_get o k = if decide (k ∈ fields) then Some (obj_get req k) else None.
Proof.
  assert (H : forall fs acc, obj_get (foldl (fun o f => obj_set o f (obj_get req f)) acc fs) k =
    if decide (k ∈ fs) then Some (obj_get req k) else obj_get acc k).
  { induction fs as [|f fs IH]; intros acc; cbn [foldl]; [by rewrite decide_False by apply not_elem_of_nil|].
    rewrite IH. destruct (decide (k ∈ fs)) as [Hk|Hk]; [by rewrite decide_True by (by right)|].
    destruct (decide (k = f)) as [->|Hne].
    - rewrite obj_get_set_eq, decide_True by (by left). done.
    - rewrite obj_get_set_ne, decide_False by (rewrite ?elem_of_cons; naive_solver). done. }
  unfold members_of. destruct fields as [|f fs]; [done|]. intros [= <-]. apply (H (f :: fs) []).
Qed.

(** The address a method requests, when every placeholder is a field and given a
    value. *)
Lemma call_url {A} (js_String : A -> string) base o (req : obj (@arg A)) ps value :
  genBaseURL base (apiPath o) = template ps -> Forall piece_ok ps -> NoDup (holes ps) ->
  (forall n, n ∈ reqPathFields o <-> n ∈ holes ps) ->
  (forall n, n ∈ holes ps -> gives js_String req value n) ->
  client_url (call_method js_String base o req) = fill value ps.
Proof.
  intros Haddr Hok Honce Hdecl Hreq. cbn [call_method client_url]. rewrite Haddr.
  destruct (replace_fields js_String req value (reqPathFields o) ps) as (ps' & -> & Hfill & Hh); [|done|done|done|].
  - apply Forall_forall. intros n [n' Hn]%Hdecl%list_elem_of_omap. rewrite Forall_forall in Hok.
    destruct n' as [s|m]; destruct Hn as [Hn1 Hn2]; [done|]. injection Hn2 as ->. apply (Hok _ Hn1).
  - rewrite <-Hfill. symmetry. apply fill_closed. destruct (holes ps') as [|n hs]; [done|].
    destruct (Hh n ltac:(by left)) as [H1 H2]. by apply Hdecl in H1.
Qed.

(** The options of a generated method. *)
Lemma generated_option api code o : generateTSCode api = Ret code -> request_params_by_location api = Some o ->
  apiPath (apiOption code) = api_path api /\ apiMethod (apiOption code) = api_method api /\
  forall l, location_fields (apiOption code) l = map param_name (default [] (obj_get o (location_name l))).
Proof.
  intros Hgen Hparams. destruct (generateTSCode_Ret _ _ Hgen) as (_ & _ & _ & Hfields).
  assert (Hpath : apiPath (apiOption code) = api_path api /\ apiMethod (apiOption code) = api_method api).
  { revert Hgen. unfold generateTSCode. destruct (request_interfaces api), (response_interfaces api). unfold outcome_bind.
    repeat case_match; try done. by intros [= <-]. }
  destruct Hpath as [Hp Hm]. split; [exact Hp|]. split; [exact Hm|].
  intros l. specialize (Hfields l). unfold request_fields in Hfields. rewrite Hparams in Hfields.
  destruct (obj_get o (location_name l)); simplify_eq/=; done.
Qed.

(** The object handed over for a list of fields. *)
Lemma members_of_fields {A} (req : obj (@arg A)) fields :
  match members_of req fields with
  | None => fields = []
  | Some m => fields <> [] /\ forall k, obj_get m k = if decide (k ∈ fields) then Some (obj_get req k) else None
  end.
Proof.
  destruct (members_of req fields) as [m|] eqn:E; [|by destruct fields].
  split; [by intros ->|]. intros k. by apply members_of_get.
Qed.

(** ** Properties *)

(** C14. What the generated client does.  For an API whose code was generated, the
    method of the class called with a value for every placeholder requests the
    API's address with each placeholder replaced by the value given for it, by
    the API's method; and the body, query and headers it hands over have exactly
    the parameters declared there as members, with the values given, and are left
    out when none is declared.  The address is split at its placeholders, each
    used once and declared as a path parameter; the values must hold no brace and
    no [$], which [replace] would interpret. *)
Theorem client_requests_api {A} (js_String : A -> string) api code o base (req : obj (@arg A)) ps value
  (Hgen : generateTSCode api = Ret code) (Hparams : request_params_by_location api = Some o)
  (Haddr : genBaseURL base (api_path api) = template ps) (Hok : Forall piece_ok ps) (Honce : NoDup (holes ps))
  (Hdecl : forall n, n ∈ map param_name (default [] (obj_get o "path")) <-> n ∈ holes ps)
  (Hreq : forall n, n ∈ holes ps -> gives js_String req value n) :
  let r := call_method js_String base (apiOption code) req in
  let declared l := map param_name (default [] (obj_get o l)) in
  client_url r = fill value ps /\ client_method r = method_name (api_method api) /\
  Forall (fun part : string * option (obj (option arg)) =>
    match part.2 with
    | None => declared part.1 = []
    | Some m => declared part.1 <> [] /\
        forall k, obj_get m k = if decide (k ∈ declared part.1) then Some (obj_get req k) else None
    end) [("body", client_data r); ("query", client_params r); ("header", client_headers r)].
Proof.
  destruct (generated_option _ _ _ Hgen Hparams) as (Hp & Hm & Hf). cbv zeta. split; [|split].
  - apply call_url; [by rewrite Hp|done|done| |done]. intros n.
    change (reqPathFields (apiOption code)) with (location_fields (apiOption code) path). rewrite Hf. apply Hdecl.
  - cbn [call_method client_method]. by rewrite Hm.
  - cbn [call_method client_data client_params client_headers].
    change (reqBodyFields (apiOption code)) with (location_fields (apiOption code) body).
    change (reqQueryFields (apiOption code)) with (location_fields (apiOption code) query).
    change (reqHeaderFields (apiOption code)) with (location_fields (apiOption code) header). rewrite !Hf.
    repeat constructor; apply members_of_fields.
Qed.

Definition item_api : ApiDetail :=
  mkApiDetail 7 "getItem" GET "/api/items/{item_id}" None
    (Some [("query", [sample_param "lang" "string" None None]); ("path", [sample_param "item_id" "int" None None]);
           ("header", []); ("cookie", []); ("body", [])]) None.

Lemma client_requests_api_witness :
  exists code, generateTSCode item_api = Ret code /\
    client_url (call_method id (BaseText "https://cam.cn/") (apiOption code) [("item_id", Arg "42")]) =
      "https://cam.cn/api/items/42".
Proof.
  eexists. split; [reflexivity|].
  edestruct (client_requests_api id item_api) with (base := BaseText "https://cam.cn/") (req := [("item_id", Arg "42")])
    (ps := [Lit "https://cam.cn/api/items/"; Hole "item_id"]) (value := fun _ : string => "42") as [H _].
  - reflexivity.
  - reflexivity.
  - reflexivity.
  - repeat constructor.
  - repeat constructor. apply not_elem_of_nil.
  - intros n. vm_compute. done.
  - intros n Hn. vm_compute in Hn. apply list_elem_of_singleton in Hn as ->. exists "42". done.
  - exact H.
Defined.

(** A value with a replacement pattern is not taken literally, and a placeholder
    used twice is replaced once. *)
Example pattern_in_value :
  replace_path id [("id", Arg "a$&b")] "/items/{id}" "id" = "/items/a{id}b" /\
  replace_path id [("id", Arg "7")] "/items/{id}/next/{id}" "id" = "/items/7/next/{id}".
Proof. done. Qed.
