(* ===== verification/CliWorld.v ===== *)
(** * The command-line tool's environment

    What the commands of [cam-fe-code-generator] act on: the files under the
    working directory, [~/.camrc], the console, and the CAM server.  The file
    system is modelled for relative paths; writing [~/.camrc] is assumed to
    succeed.  A file holds text, or the JSON value [JSON.parse] reads back from
    it.  The server and the prompt are parameters.

    - [cam-fe-code-generator/src/utils/data-manager.ts]: [TokenManager];
    - [cam-fe-code-generator/src/request/index.ts]: interceptors, [get], [post];
    - [cam-fe-code-generator/src/services/apis/*]: the requests. *)

From S2P Require Import Prelude JsObject ApiTypes.
From Stdlib Require Import Ascii String ZArith.

(** ** Data *)

Record UserProfile := mkUserProfile {
  user_id : Z;
  username : string;
  nickname : string;
  email : string;
  role : string;
  level : Z;
  created_at : string
}.

(** [user] in [~/.camrc]: a profile, or the [{}] a logout stores. *)
Inductive stored_user := NoProfile | Profile (u : UserProfile).

Record CamrcConfig := mkCamrcConfig {
  token : option string;
  user : option stored_user
}.

Record CamConfig := mkCamConfig {
  services : option (obj string);
  outDir : option string;
  generateConfig : option string
}.

Inductive file_content :=
| Text (s : string)
| ConfigFile (c : CamConfig).

(** [~/.camrc]: unreadable JSON counts as [Garbage]. *)
Inductive camrc_content := Garbage | Camrc (c : CamrcConfig).

Inductive log_line := Log (s : string) | Warn (s : string) | Error (s : string).

Notation fpath := (list string).

(** ** Requests

    The endpoints the commands call, with the type of the response body. *)
Record LoginResponse := mkLoginResponse {
  login_status : Z; login_message : string; access_token : string }.

Record UserResponse := mkUserResponse {
  user_status : Z; user_message : string; user_user : UserProfile }.

(** [ServiceDetail | ServiceIterationDetail]: [Some x] when the member is
    present (["apis" in service]), with its nullable value. *)
Record ServicePayload := mkServicePayload {
  apis : option (option (list ApiBrief));
  api_drafts : option (option (list ApiBrief)) }.

Record ServiceResponse := mkServiceResponse {
  service_status : Z; service_message : string;
  service : option ServicePayload; is_latest : bool }.

Record ApiResponse := mkApiResponse {
  api_status : Z; api_message : string; api_api : ApiDetail }.

Inductive Endpoint : Type -> Type :=
| UserLogin (name password : string) : Endpoint LoginResponse
| GetMyInfo : Endpoint UserResponse
| GetServiceByUuidAndVersion (service_uuid version : string) : Endpoint ServiceResponse
| GetApiById (id : Z) (latest : option bool) : Endpoint ApiResponse.

Inductive http_verb := HttpGet | HttpPost.

Record HttpRequest := mkHttpRequest {
  verb : http_verb; url : string; params : list (string * string) }.

Definition show_bool (b : bool) : string := if b then "true" else "false".

(** The request each service function builds. *)
Definition encode {T} (e : Endpoint T) : HttpRequest :=
  match e with
  | UserLogin n p => mkHttpRequest HttpPost "/v1/user/login" [("username", n); ("password", p)]
  | GetMyInfo => mkHttpRequest HttpGet "/v1/user/getMyInfo" []
  | GetServiceByUuidAndVersion u v =>
      mkHttpRequest HttpGet "/v1/service/getServiceByUuidAndVersion"
        [("service_uuid", u); ("version", v)]
  | GetApiById i l =>
      mkHttpRequest HttpGet "/v1/api/getApiById"
        (("api_id", show_int i) ::
         match l with Some b => [("is_latest", show_bool b)] | None => [] end)
  end.

(** What axios delivers: a response body, or an error with its HTTP status (none
    when no response came) and message. *)
Inductive net (T : Type) :=
| NetOk (data : T)
| NetErr (status : option Z) (message : string).
Arguments NetOk {T} data.
Arguments NetErr {T} status message.

(** The bearer token sent with a request, and the request. *)
Notation sent_request := (option string * HttpRequest)%type.

Record World := mkWorld {
  files : gmap fpath file_content;
  dirs : gset fpath;
  camrc : option camrc_content;
  console : list log_line;
  sent : list sent_request
}.

Definition with_files (f : gmap fpath file_content) (w : World) : World :=
  mkWorld f (dirs w) (camrc w) (console w) (sent w).
Definition with_dirs (d : gset fpath) (w : World) : World :=
  mkWorld (files w) d (camrc w) (console w) (sent w).
Definition with_camrc (c : camrc_content) (w : World) : World :=
  mkWorld (files w) (dirs w) (Some c) (console w) (sent w).
Definition with_console (l : log_line) (w : World) : World :=
  mkWorld (files w) (dirs w) (camrc w) (console w ++ [l]) (sent w).
Definition with_sent (r : sent_request) (w : World) : World :=
  mkWorld (files w) (dirs w) (camrc w) (console w) (sent w ++ [r]).

Notation IO := (M World).

Definition say (l : log_line) : IO unit := modify (with_console l).

(** ** The file system *)

(** [path.normalize] on a relative path: the list of its segments. *)
Definition push_segment (acc : list string) (seg : string) : list string :=
  if decide (seg = "" \/ seg = ".") then acc
  else if decide (seg = "..") then
    match acc with
    | [] => [".."]
    | x :: acc' => if decide (x = "..") then ".." :: acc else acc'
    end
  else seg :: acc.
Definition path_of (s : string) : fpath := reverse (foldl push_segment [] (split_on "/" s)).

(** [path.join(a, b)]. *)
Definition path_join (a b : string) : fpath := path_of (a +:+ "/" +:+ b).

Definition exists_path (w : World) (p : fpath) : Prop :=
  p = [] \/ is_Some (files w !! p) \/ p ∈ dirs w.
#[global] Instance exists_path_dec w p : Decision (exists_path w p).
Proof. unfold exists_path. apply _. Defined.

(** [p] lies at or under [d]. *)
Definition under (d p : fpath) : Prop := take (List.length d) p = d.
#[global] Instance under_dec d p : Decision (under d p).
Proof. unfold under. apply _. Defined.

(** [fs.rmSync(d, { recursive: true, force: true })]. *)
Definition rm_tree (d : fpath) : IO unit :=
  modify (fun w => with_dirs (filter (fun p => ~ under d p) (dirs w))
    (with_files (filter (fun kv => ~ under d kv.1) (files w)) w)).

Definition fs_error (code : string) : js_error := JSError "Error" code.

(** The non-empty prefixes of a path, shortest first. *)
Fixpoint prefixes (p : fpath) : list fpath :=
  match p with
  | [] => []
  | x :: p' => [x] :: map (cons x) (prefixes p')
  end.

(** [fs.mkdirSync(p, { recursive: true })]: fails when a file is in the way. *)
Definition mkdirs (p : fpath) : IO unit := fun w =>
  if decide (Exists (fun q => is_Some (files w !! q)) (prefixes p))
  then (Throw (fs_error "ENOTDIR"), w)
  else (Ret tt, with_dirs (list_to_set (prefixes p) ∪ dirs w) w).

(** [fs.writeFileSync(p, c)]. *)
Definition write_file (p : fpath) (c : file_content) : IO unit := fun w =>
  let parent := take (pred (List.length p)) p in
  if decide (p = [] \/ p ∈ dirs w) then (Throw (fs_error "EISDIR"), w)
  else if decide (parent = [] \/ parent ∈ dirs w)
  then (Ret tt, with_files (<[p := c]> (files w)) w)
  else (Throw (fs_error "ENOENT"), w).

(** ** [TokenManager] *)

Definition readCamrc (w : World) : CamrcConfig :=
  match camrc w with
  | Some (Camrc c) => c
  | _ => mkCamrcConfig None None
  end.

Definition setToken (t : string) : IO unit :=
  modify (fun w => with_camrc (Camrc (mkCamrcConfig (Some t) (user (readCamrc w)))) w).

(** [config.token || null]. *)
Definition getToken (w : World) : option string :=
  match token (readCamrc w) with
  | Some t => if String.eqb t "" then None else Some t
  | None => None
  end.

Definition setUser (u : stored_user) : IO unit :=
  modify (fun w => with_camrc (Camrc (mkCamrcConfig (token (readCamrc w)) (Some u))) w).

Definition getUser (w : World) : option stored_user := user (readCamrc w).

Definition clearConfig : IO unit :=
  modify (fun w => mkWorld (files w) (dirs w) None (console w) (sent w)).

(** ** The HTTP layer *)

Section Http.
(** The server: its answer may depend on the requests sent before, on the
    bearer token and on the endpoint. *)
Variable server : forall T, list sent_request -> option string -> Endpoint T -> net T.

(** [http.get] / [http.post] with both interceptors: [None] is the [undefined]
    the response interceptor resolves to on a 401 without a token. *)
Definition http_send {T} (e : Endpoint T) : IO (option T) :=
  w ← get_state;
  let tok := getToken w in
  modify (with_sent (tok, encode e)) ;;
  match server T (sent w) tok e with
  | NetOk d => mret (Some d)
  | NetErr status msg =>
      let message := str_or msg "Request error" in
      if decide (status = Some 401%Z) then
        match tok with
        | None => mret None
        | Some _ =>
            setToken "" ;; setUser NoProfile ;;
            say (Warn "User token expired, please login again.") ;;
            throw (JSString message)
        end
      else
        say (Error ("API Error: " +:+ message)) ;; throw (JSString message)
  end.

(** [const res = await http.get(...); return res.data]. *)
Definition request {T} (e : Endpoint T) : IO T :=
  r ← http_send e;
  match r with
  | Some d => mret d
  | None => throw (JSError "TypeError" "Cannot read properties of undefined (reading 'data')")
  end.
End Http.

(** A file name that is one path segment. *)
Definition segment_ok (s : string) : Prop :=
  lacks "/" s = true /\ s <> "" /\ s <> "." /\ s <> "..".

(** Two worlds with the same files and directories. *)
Definition fs_same (w w' : World) : Prop := files w' = files w /\ dirs w' = dirs w.
#[global] Instance fs_same_preorder : PreOrder fs_same.
Proof. split; [done|]. intros ??? [] []. split; congruence. Qed.

(** ** Lemmas: paths and files *)

Lemma path_join_segment out s : segment_ok s -> path_join out s = path_of out ++ [s].
Proof.
  intros (Hl & Hne & Hd & Hdd). unfold path_join, path_of.
  change ("/" +:+ s) with (String "/" s).
  rewrite split_on_app_sep, (split_on_lacks _ s Hl), foldl_app. simpl.
  unfold push_segment at 1. rewrite decide_False by tauto. rewrite decide_False by done.
  by rewrite reverse_cons.
Qed.

Lemma under_refl d : under d d.
Proof. unfold under. by rewrite firstn_all. Qed.

Lemma under_app d k : under d (d ++ k).
Proof. unfold under. by rewrite take_app_length. Qed.

Lemma under_inv d p : under d p -> exists k, p = d ++ k.
Proof. unfold under. intros <-. exists (drop (List.length d) p). by rewrite take_drop. Qed.

Lemma elem_of_prefixes p q : q ∈ prefixes p <-> q <> [] /\ exists k, p = q ++ k.
Proof.
  revert q. induction p as [|x p IH]; intros q; simpl.
  - split; [by intros ?%not_elem_of_nil|]. intros [Hq (k & E)]. by destruct q.
  - rewrite elem_of_cons, list_elem_of_fmap. split.
    + intros [-> |(q' & -> & Hq)]; [split; [done|by exists p]|].
      apply IH in Hq as [_ (k & ->)]. split; [done|by exists k].
    + intros [Hq (k & E)]. destruct q as [|y q]; [done|]. simplify_eq/=.
      destruct (decide (q = [])) as [-> |Hq']; [by left|]. right.
      exists q. split; [done|]. apply IH. eauto.
Qed.

Lemma prefixes_snoc p x : prefixes (p ++ [x]) = prefixes p ++ [p ++ [x]].
Proof.
  induction p as [|y p IH]; simpl; [done|]. by rewrite IH, map_app.
Qed.

Lemma prefix_under d q : q ∈ prefixes d -> under d q -> q = d.
Proof.
  intros [_ (k & ->)]%elem_of_prefixes (k' & E)%under_inv.
  rewrite <-app_assoc in E. rewrite <-(app_nil_r q) in E at 1.
  apply app_inv_head in E. destruct k; [by rewrite app_nil_r|done].
Qed.

Lemma mkdirs_Ret p w :
  (forall q, q ∈ prefixes p -> files w !! q = None) ->
  mkdirs p w = (Ret tt, with_dirs (list_to_set (prefixes p) ∪ dirs w) w).
Proof.
  intros H. unfold mkdirs. rewrite decide_False; [done|].
  rewrite Exists_exists. intros (q & Hq & [x Hx]). rewrite H in Hx by done. done.
Qed.

Lemma write_file_Ret d s c w :
  d ∈ dirs w -> d ++ [s] ∉ dirs w ->
  write_file (d ++ [s]) c w = (Ret tt, with_files (<[d ++ [s] := c]> (files w)) w).
Proof.
  intros Hd Hs. unfold write_file.
  rewrite decide_False by (intros [E|?]; [by destruct d|done]).
  rewrite decide_True; [done|]. right. rewrite length_app. simpl.
  rewrite Nat.add_1_r. simpl. by rewrite take_app_length.
Qed.

(** ** Lemmas: [TokenManager] *)

Lemma getToken_camrc w w' : camrc w' = camrc w -> getToken w' = getToken w.
Proof. intros H. unfold getToken, readCamrc. by rewrite H. Qed.

(** ** Lemmas: the HTTP layer *)

Section HttpLemmas.
Variable server : forall T, list sent_request -> option string -> Endpoint T -> net T.

Lemma request_NetOk {T} (e : Endpoint T) w d :
  server T (sent w) (getToken w) e = NetOk d ->
  request server e w = (Ret d, with_sent (getToken w, encode e) w).
Proof.
  intros H. unfold request, http_send, mbind, M_bind, get_state, modify. by rewrite H.
Qed.

Lemma request_NetErr {T} (e : Endpoint T) w st msg :
  server T (sent w) (getToken w) e = NetErr st msg ->
  exists er w', request server e w = (Throw er, w') /\ fs_same w w' /\
    exists m, er = JSString m \/ er = JSError "TypeError" m.
Proof.
  intros H. unfold request, http_send, mbind, M_bind, get_state, modify. rewrite H.
  destruct (decide (st = Some 401%Z)); [destruct (getToken w)|]; eexists _, _; (split; [done|]); (split; [done|]); eauto.
Qed.

(** The credentials after a failed request. *)
Lemma request_failed {T} (e : Endpoint T) w st msg :
  server T (sent w) (getToken w) e = NetErr st msg ->
  exists er w', request server e w = (Throw er, w') /\
    getToken w' = (if decide (st = Some 401%Z) then None else getToken w) /\
    (st <> Some 401%Z -> camrc w' = camrc w).
Proof.
  intros H. unfold request, http_send, mbind, M_bind, get_state, modify. rewrite H.
  destruct (decide (st = Some 401%Z)); [destruct (getToken w) eqn:E|]; by eexists _, _.
Qed.

(** The tool's HTTP layer leaves the files alone, and throws the message of the
    error or, on a 401 without a token, a [TypeError]. *)
#[export] Instance http_layer :
  HttpLayer (fun T (e : Endpoint T) => request server e) fs_same
    (fun err => exists m, err = JSString m \/ err = JSError "TypeError" m).
Proof.
  split; intros T e w; destruct (server T (sent w) (getToken w) e) as [d|st msg] eqn:E.
  - by rewrite (request_NetOk _ _ _ E).
  - by destruct (request_NetErr _ _ _ _ E) as (er & w' & -> & Hf & _).
  - by rewrite (request_NetOk _ _ _ E).
  - destruct (request_NetErr _ _ _ _ E) as (er & w' & -> & _ & He). by intros ? [= <-].
  - by rewrite (request_NetOk _ _ _ E).
  - by destruct (request_NetErr _ _ _ _ E) as (er & w' & -> & _).
Qed.

Lemma request_quiet {T} (e : Endpoint T) : preserves fs_same (request server e).
Proof. exact (http_quiet (HttpLayer := http_layer) T e). Qed.

Lemma request_no_exit {T} (e : Endpoint T) w c : (request server e w).1 <> Exit c.
Proof. exact (http_no_exit (HttpLayer := http_layer) T e w c). Qed.
End HttpLemmas.

(** ** Properties *)

(** [setToken] then [getToken] gives the token back, except that the empty
    token reads as none; it keeps the stored user. *)
Theorem setToken_getToken t w :
  let w' := (setToken t w).2 in
  getToken w' = (if String.eqb t "" then None else Some t) /\ getUser w' = getUser w.
Proof. done. Qed.

(** The command-line HTTP layer, by answer: a response body is returned;
    a 401 with a stored token clears token and user and rejects with the message;
    a 401 without one makes the call fail with a [TypeError] and changes nothing
    stored; other errors reject with the message and keep the credentials.  The
    request carries the stored token in every case. *)
Theorem request_outcome server T (e : Endpoint T) w :
  let '(o, w') := request server e w in
  sent w' = sent w ++ [(getToken w, encode e)] /\ fs_same w w' /\
  match server T (sent w) (getToken w) e with
  | NetOk d => o = Ret d /\ camrc w' = camrc w
  | NetErr st msg =>
      if decide (st = Some 401%Z) then
        match getToken w with
        | Some _ => o = Throw (JSString (str_or msg "Request error")) /\
                    getToken w' = None /\ getUser w' = Some NoProfile
        | None => o = Throw (JSError "TypeError" "Cannot read properties of undefined (reading 'data')") /\
                  camrc w' = camrc w
        end
      else o = Throw (JSString (str_or msg "Request error")) /\ camrc w' = camrc w
  end.
Proof.
  unfold request, http_send, mbind, M_bind, get_state, modify.
  destruct (server T (sent w) (getToken w) e) as [d|st msg]; [done|].
  destruct (decide (st = Some 401%Z)); [destruct (getToken w)|]; done.
Qed.
