(* ===== verification/CodeGen.v ===== *)
(** * Generating code for the configured services

    [cam-fe-code-generator/src/services/code-generate/index.ts] (with
    [templates/init.ts] and [formatCodeByPrettier]): the commands
    that read and write [cam.config.json] and the run that regenerates the
    output directory.  Parameters: the server, prettier ([None] when it throws)
    and what removing the working directory itself does, which depends on the
    platform. *)

From S2P Require Import Prelude JsObject ApiTypes Generator ServiceClass CliWorld.
From Stdlib Require Import Ascii String ZArith.

Definition CONFIG_FILE_NAME : string := "cam.config.json".
Definition config_path : fpath := [CONFIG_FILE_NAME].

(** The JSON of [CONFIG_FILE_CONTENT]. *)
Definition CONFIG_FILE_CONTENT : CamConfig :=
  mkCamConfig (Some []) (Some "src/cam-auto-generate") (Some "{}").

Definition autoGeneratePrefix : string := "
// THIS IS AN AUTOGENERATED FILE. DO NOT EDIT THIS FILE DIRECTLY.
/* eslint-disable */
/* tslint:disable */
// @ts-nocheck

".

(** [readConfig] of [index.ts]. *)
Definition readConfig : IO CamConfig :=
  w ← get_state;
  if decide (exists_path w config_path) then
    match files w !! config_path with
    | Some (ConfigFile c) => mret c
    | _ =>
        say (Warn "Failed to read config file, please delete it and run `cam init` again") ;; exit 1
    end
  else say (Warn "You need to run `cam init` first") ;; exit 1.

(** [services[name] = v] on a plain object: assigning [__proto__] creates no
    own property. *)
Definition assign_member (o : obj string) (k v : string) : obj string :=
  if decide (k = "__proto__") then o else obj_set o k v.

Definition with_services (s : obj string) (c : CamConfig) : CamConfig :=
  mkCamConfig (Some s) (outDir c) (generateConfig c).

(** [v.split("@")[0]] and [v.split("@")[1]]. *)
Definition uuid_of (v : string) : string := default "" (head (split_on "@" v)).
Definition version_of (v : string) : option string := split_on "@" v !! 1.

Definition of_outcome {A} (o : outcome A) : IO A := fun w => (o, w).

Section CodeGen.
Variable server : forall T, list sent_request -> option string -> Endpoint T -> net T.
Variable prettier : string -> option string.
Variable rm_cwd : IO unit.

Notation request := (CliWorld.request server).

Definition formatCodeByPrettier (code : string) : IO string :=
  match prettier code with
  | Some s => mret s
  | None => say (Warn "Prettier format failed, using unformatted code.") ;; mret code
  end.

(** [fs.rmSync(outDir, { recursive: true, force: true })]. *)
Definition remove_dir (d : fpath) : IO unit := if decide (d = []) then rm_cwd else rm_tree d.

(** [serviceRes.service.apis], or the drafts of a past version. *)
Definition payload_apis (p : option ServicePayload) : outcome (list ApiBrief) :=
  match p with
  | None => Throw (JSError "TypeError" "Cannot use 'in' operator to search for 'apis' in undefined")
  | Some p =>
      match apis p with
      | Some (Some l) => Ret l
      | Some None => Throw (JSError "TypeError" "Cannot read properties of null (reading 'length')")
      | None => Ret (default [] (default None (api_drafts p)))
      end
  end.

(** The loop over the APIs of a service: the namespace text and the options. *)
Fixpoint fetch_apis (name : string) (isLatest : bool) (l : list ApiBrief)
    (namespaceCode : string) (apiOptions : list ApiOption) : IO (string * list ApiOption) :=
  match l with
  | [] => mret (namespaceCode, apiOptions)
  | api :: l' =>
      apiRes ← request (GetApiById (brief_id api) (Some isLatest));
      if decide (api_status apiRes <> 200%Z) then
        say (Warn ("Failed to get api info for api " +:+ brief_name api +:+ " in service " +:+
                   name +:+ ": " +:+ api_message apiRes)) ;;
        fetch_apis name isLatest l' namespaceCode apiOptions
      else
        code ← of_outcome (generateTSCode (api_api apiRes));
        fetch_apis name isLatest l'
          (namespaceCode +:+ newline +:+ newline +:+ join (newline +:+ newline) (namespaces code))
          (apiOptions ++ [apiOption code])
  end.

(** The [try] block of one service; [None] is [continue]. *)
Definition fetch_service (name service_uuid version : string)
    : IO (option (string * list ApiOption)) :=
  serviceRes ← request (GetServiceByUuidAndVersion service_uuid version);
  if decide (service_status serviceRes <> 200%Z) then
    say (Warn ("Failed to get service info for service " +:+ name +:+ ": " +:+
               service_message serviceRes)) ;;
    mret None
  else
    l ← of_outcome (payload_apis (service serviceRes));
    say (Log ("Service " +:+ name +:+ " has " +:+ show_nat (N.of_nat (List.length l)) +:+ " api" +:+
              (if decide (List.length l = 1) then "" else "s"))) ;;
    r ← fetch_apis name (is_latest serviceRes) l autoGeneratePrefix [];
    mret (Some r).

(** The body of the loop over [config.services]. *)
Definition pull_service (out : string) (entry : string * string) : IO unit :=
  let '(name, uuidAndVersion) := entry in
  let service_uuid := uuid_of uuidAndVersion in
  let version := default "" (version_of uuidAndVersion) in
  if decide (service_uuid = "" \/ version = "") then
    say (Warn ("Invalid service info " +:+ uuidAndVersion +:+ " for service " +:+ name +:+
               ". Please use 'cam add <name:uuid@version>' to add instead."))
  else
    let outputDir := path_join out name in
    w ← get_state;
    (if decide (exists_path w outputDir) then mret () else mkdirs outputDir) ;;
    r ← try_catch (fetch_service name service_uuid version) (fun e =>
          say (Error ("Failed to get service info for service " +:+ name +:+ ": " +:+
                      error_to_string e)) ;; mret None);
    match r with
    | None => mret ()
    | Some (namespaceCode, apiOptions) =>
        ns ← formatCodeByPrettier namespaceCode;
        write_file (outputDir ++ ["namespaces.ts"]) (Text ns) ;;
        code ← formatCodeByPrettier
          (autoGeneratePrefix +:+ newline +:+ serviceClassCode name apiOptions);
        write_file (outputDir ++ ["index.ts"]) (Text code)
    end.

(** [config.outDir || "."]. *)
Definition out_dir (c : CamConfig) : string := opt_str_or (outDir c) ".".

Definition pullAllApisInAllServices : IO unit :=
  config ← readConfig;
  match services config with
  | None | Some [] =>
      say (Warn "No service has been added yet. Please use 'cam add <name:uuid@version>' to add a service first.") ;;
      exit 1
  | Some svcs =>
      let out := out_dir config in
      w ← get_state;
      (if decide (exists_path w (path_of out)) then remove_dir (path_of out) else mret ()) ;;
      mkdirs (path_of out) ;;
      for_each (entries svcs) (pull_service out) ;;
      let demoServiceName := default "" (head (keys svcs)) in
      if decide (demoServiceName = "") then exit 1
      else
        code ← formatCodeByPrettier (requestDemoCode demoServiceName);
        write_file (path_join out "request-demo.ts") (Text code) ;;
        say (Log ("All services' apis have been generated in " +:+ out +:+ "."))
  end.

Definition storeServiceInfo (name service_uuid version : string) : IO unit :=
  config ← readConfig;
  if truthy_member (default [] (services config)) name && bool_decide (is_Some (services config)) then
    say (Warn ("Service name " +:+ name +:+ " already exists")) ;; exit 1
  else if existsb (fun v => String.eqb (uuid_of v) service_uuid) (values (default [] (services config))) then
    say (Warn ("Service " +:+ service_uuid +:+ " already exists. If you want to update the version, please remove this service first.")) ;;
    exit 1
  else
    try_catch (
      res ← request (GetServiceByUuidAndVersion service_uuid version);
      if decide (service_status res <> 200%Z) then
        say (Warn (str_or (service_message res) "Failed to get service info")) ;; exit 1
      else
        let svcs := assign_member (default [] (services config)) name
                      (service_uuid +:+ "@" +:+ version) in
        write_file config_path (ConfigFile (with_services svcs config)) ;;
        say (Log ("Service " +:+ name +:+ " added successfully")) ;;
        pullAllApisInAllServices)
      (fun e => say (Error (error_to_string e)) ;; exit 1).

Definition removeService (serviceName : string) : IO unit :=
  config ← readConfig;
  let svcs := default [] (services config) in
  if negb (bool_decide (is_Some (services config)) && truthy_member svcs serviceName) then
    say (Warn ("Service name " +:+ serviceName +:+ " does not exist")) ;; exit 1
  else
    try_catch (
      write_file config_path (ConfigFile (with_services (obj_delete svcs serviceName) config)) ;;
      say (Log ("Successfully removed service " +:+ serviceName)) ;;
      pullAllApisInAllServices)
      (fun e => say (Error ("Failed to remove service " +:+ serviceName +:+ ": " +:+ error_to_string e)) ;;
                exit 1).
End CodeGen.

(** ** Specification of a run against a server whose answers only depend on
    the request *)

Fixpoint fetch_apis_spec (answer : forall T, Endpoint T -> net T) (isLatest : bool)
    (l : list ApiBrief) : option (list GeneratedCode) :=
  match l with
  | [] => Some []
  | api :: l' =>
      match answer _ (GetApiById (brief_id api) (Some isLatest)) with
      | NetErr _ _ => None
      | NetOk res =>
          if decide (api_status res <> 200%Z) then fetch_apis_spec answer isLatest l'
          else match generateTSCode (api_api res) with
               | Ret code => cons code <$> fetch_apis_spec answer isLatest l'
               | _ => None
               end
      end
  end.

(** The code generated for a service, [None] when it is skipped. *)
Definition fetch_service_spec (answer : forall T, Endpoint T -> net T) (u v : string)
    : option (list GeneratedCode) :=
  match answer _ (GetServiceByUuidAndVersion u v) with
  | NetErr _ _ => None
  | NetOk res =>
      if decide (service_status res <> 200%Z) then None
      else match payload_apis (service res) with
           | Ret l => fetch_apis_spec answer (is_latest res) l
           | _ => None
           end
  end.

Definition namespace_text (start : string) (codes : list GeneratedCode) : string :=
  foldl (fun t c => t +:+ newline +:+ newline +:+ join (newline +:+ newline) (namespaces c)) start codes.

Definition formatted (prettier : string -> option string) (code : string) : string :=
  default code (prettier code).

(** The files one configured service contributes under directory [d]. *)
Definition service_files answer prettier (d : fpath) (entry : string * string)
    : list (fpath * file_content) :=
  let '(name, uv) := entry in
  let u := uuid_of uv in
  let v := default "" (version_of uv) in
  if decide (u = "" \/ v = "") then []
  else match fetch_service_spec answer u v with
       | None => []
       | Some codes =>
           [(d ++ [name; "namespaces.ts"],
             Text (formatted prettier (namespace_text autoGeneratePrefix codes)));
            (d ++ [name; "index.ts"],
             Text (formatted prettier (autoGeneratePrefix +:+ newline +:+
                     serviceClassCode name (map apiOption codes))))]
       end.

Definition demo_file prettier (d : fpath) (svcs : obj string) : fpath * file_content :=
  (d ++ ["request-demo.ts"],
   Text (formatted prettier (requestDemoCode (default "" (head (keys svcs)))))).

(** Everything an update writes, in order. *)
Definition pulled_files answer prettier (d : fpath) (svcs : obj string)
    : list (fpath * file_content) :=
  List.concat (map (service_files answer prettier d) (entries svcs)) ++ [demo_file prettier d svcs].

Definition apply_writes (l : list (fpath * file_content)) (m : gmap fpath file_content)
    : gmap fpath file_content :=
  foldl (fun m kv => <[kv.1 := kv.2]> m) m l.

(** The configured names an update can handle: one path segment each, and not
    the name of the demo file. *)
Definition service_name_ok (name : string) : Prop := segment_ok name /\ name <> "request-demo.ts".

(** Nothing lies under a directory that does not exist, and no file is in the
    way of the output directory. *)
Definition out_dir_ready (w : World) (d : fpath) : Prop :=
  (exists_path w d \/
   (forall p, under d p -> files w !! p = None) /\ (forall p, under d p -> p ∉ dirs w)) /\
  (forall q, q ∈ prefixes d -> q <> d -> files w !! q = None).

(** The answers of [server] do not depend on what was sent before. *)
Definition stateless (server : forall T, list sent_request -> option string -> Endpoint T -> net T)
    (answer : forall T, Endpoint T -> net T) : Prop :=
  forall T h t (e : Endpoint T), server T h t e = answer T e.

(** ** Lemmas *)

Lemma generateTSCode_no_exit api c : generateTSCode api <> Exit c.
Proof.
  unfold generateTSCode.
  destruct (request_interfaces api), (response_interfaces api). unfold request_fields.
  destruct (request_params_by_location api) as [o|]; simpl; [|done].
  by repeat (destruct (obj_get o _); simpl; [|done]).
Qed.

Lemma bind_of_outcome_Ret {A B} (a : A) (f : A -> IO B) w : (of_outcome (Ret a) ≫= f) w = f a w.
Proof. done. Qed.

Lemma bind_of_outcome_Throw {A B} er (f : A -> IO B) w :
  (of_outcome (Throw er) ≫= f) w = (Throw er, w).
Proof. done. Qed.

Lemma payload_apis_no_exit p c : payload_apis p <> Exit c.
Proof. destruct p as [[[[]|] ?]|]; done. Qed.

(** What the loop over the services keeps: the output directory exists and
    holds no directory but those of the services, and no file is in their way. *)
Record loop_inv (d : fpath) (names : list string) (w : World) : Prop := mkLoopInv {
  inv_dir : d ∈ dirs w;
  inv_dirs : forall q, q ∈ dirs w -> under d q -> q = d \/ exists n, n ∈ names /\ q = d ++ [n];
  inv_prefix : forall q, q ∈ prefixes d -> files w !! q = None;
  inv_files : forall n, n ∈ names -> files w !! (d ++ [n]) = None
}.

Lemma loop_inv_same d names w w' : fs_same w w' -> loop_inv d names w -> loop_inv d names w'.
Proof.
  intros [Hf Hd] [H1 H2 H3 H4]. split.
  - by rewrite Hd.
  - intros q Hq. rewrite Hd in Hq. auto.
  - intros q Hq. rewrite Hf. auto.
  - intros n Hn. rewrite Hf. auto.
Qed.

(** A path at depth two below the output directory is no directory. *)
Lemma loop_inv_leaf d names w n s : loop_inv d names w -> d ++ [n; s] ∉ dirs w.
Proof.
  intros [_ H _ _] Hin. destruct (H _ Hin (under_app _ _)) as [E|(m & _ & E)];
    apply (f_equal List.length) in E; rewrite !length_app in E; simpl in E; lia.
Qed.

Lemma loop_inv_write d names w n s c :
  loop_inv d names w -> loop_inv d names (with_files (<[d ++ [n; s] := c]> (files w)) w).
Proof.
  intros [H1 H2 H3 H4]. split; simpl; [done|done| |].
  - intros q Hq. rewrite lookup_insert_ne; [auto|]. intros E. subst q.
    apply elem_of_prefixes in Hq as [_ (k & E)].
    apply (f_equal List.length) in E. rewrite !length_app in E. simpl in E. lia.
  - intros m Hm. rewrite lookup_insert_ne; [auto|]. intros E.
    apply (f_equal List.length) in E. rewrite !length_app in E. simpl in E. lia.
Qed.

Lemma loop_inv_mkdirs d names w n :
  loop_inv d names w -> n ∈ names ->
  mkdirs (d ++ [n]) w = (Ret tt, with_dirs (list_to_set (prefixes (d ++ [n])) ∪ dirs w) w) /\
  loop_inv d names (with_dirs (list_to_set (prefixes (d ++ [n])) ∪ dirs w) w).
Proof.
  intros [H1 H2 H3 H4] Hn. rewrite prefixes_snoc. split.
  - rewrite mkdirs_Ret; rewrite prefixes_snoc; [done|].
    intros q [Hq|Hq%list_elem_of_singleton]%elem_of_app; [auto|]. subst q. auto.
  - split; simpl; [by apply elem_of_union_r| |done|done].
    intros q [Hq|Hq]%elem_of_union; [|auto]. intros Hu.
    rewrite elem_of_list_to_set, elem_of_app, list_elem_of_singleton in Hq.
    destruct Hq as [Hq| ->]; [left; by apply prefix_under|right; eauto].
Qed.

Lemma out_dir_ready_write d names w s c l r :
  loop_inv d names w ->
  out_dir_ready (mkWorld (<[d ++ [s] := c]> (files w)) (dirs w) r l (sent w)) d.
Proof.
  intros [H1 _ H3 _]. split; [left; by right; right|]. simpl. intros q Hq _.
  rewrite lookup_insert_ne; [auto|]. intros E. subst q.
  apply elem_of_prefixes in Hq as [_ (k & E)].
  apply (f_equal List.length) in E. rewrite !length_app in E. simpl in E. lia.
Qed.

Section Run.
Context (server : forall T, list sent_request -> option string -> Endpoint T -> net T).
Context (answer : forall T, Endpoint T -> net T) (Hserver : stateless server answer).
Context (prettier : string -> option string) (rm_cwd : IO unit).

Lemma fetch_apis_run name latest l ns opts w :
  exists o w', fetch_apis server name latest l ns opts w = (o, w') /\ fs_same w w' /\
  match fetch_apis_spec answer latest l with
  | Some codes => o = Ret (namespace_text ns codes, opts ++ map apiOption codes)
  | None => exists e, o = Throw e
  end.
Proof.
  revert ns opts w. induction l as [|api l IH]; intros ns opts w; simpl.
  { eexists _, _. split; [done|]. split; [done|]. by rewrite app_nil_r. }
  destruct (answer _ (GetApiById (brief_id api) (Some latest))) as [res|st msg] eqn:E.
  2:{ destruct (request_NetErr server (GetApiById (brief_id api) (Some latest)) w st msg)
        as (er & w' & Hr & Hs & _); [by rewrite Hserver|].
      eexists _, w'. split; [by apply bind_Throw|]. eauto. }
  pose proof (request_NetOk server (GetApiById (brief_id api) (Some latest)) w res) as Hr.
  rewrite Hserver in Hr. specialize (Hr E). rewrite (bind_Ret _ _ _ _ _ Hr).
  case_decide as Hst.
  - edestruct IH as (o & w' & H & Hs & Ho). exists o, w'. split; [exact H|].
    split; [|exact Ho]. etrans; [|exact Hs]. done.
  - destruct (generateTSCode (api_api res)) as [code|er|c] eqn:Eg.
    + rewrite bind_of_outcome_Ret.
      edestruct IH as (o & w' & H & Hs & Ho). exists o, w'. split; [exact H|].
      split; [etrans; [|exact Hs]; done|].
      destruct (fetch_apis_spec answer latest l) as [codes|]; simpl; [|done].
      by rewrite <-app_assoc in Ho.
    + rewrite bind_of_outcome_Throw. eexists _, _. split; [done|]. split; [done|]. eauto.
    + by destruct (generateTSCode_no_exit (api_api res) c).
Qed.

Lemma fetch_service_run name u v w :
  exists w', fs_same w w' /\
  let o := (try_catch (fetch_service server name u v) (fun e =>
      say (Error ("Failed to get service info for service " +:+ name +:+ ": " +:+
                  error_to_string e)) ;; mret None)) w in
  o = (Ret ((fun codes => (namespace_text autoGeneratePrefix codes, map apiOption codes)) <$>
            fetch_service_spec answer u v), w').
Proof.
  unfold fetch_service, fetch_service_spec.
  destruct (answer _ (GetServiceByUuidAndVersion u v)) as [res|st msg] eqn:E.
  2:{ destruct (request_NetErr server (GetServiceByUuidAndVersion u v) w st msg)
        as (er & w' & Hr & Hs & _); [by rewrite Hserver|].
      unfold try_catch. rewrite (bind_Throw _ _ _ _ _ Hr).
      eexists. split; [|reflexivity]. exact Hs. }
  pose proof (request_NetOk server (GetServiceByUuidAndVersion u v) w res) as Hr.
  rewrite Hserver in Hr. specialize (Hr E).
  unfold try_catch. rewrite (bind_Ret _ _ _ _ _ Hr). case_decide; [by eexists; split; [|reflexivity]|].
  destruct (payload_apis (service res)) as [l|er|c] eqn:Ep.
  - rewrite bind_of_outcome_Ret.
    erewrite bind_Ret by reflexivity.
    edestruct (fetch_apis_run name (is_latest res) l autoGeneratePrefix []) as (o & w' & H' & Hs & Ho).
    destruct (fetch_apis_spec answer (is_latest res) l) as [codes|].
    + subst o. rewrite (bind_Ret _ _ _ _ _ H'). exists w'. split; [|reflexivity]. etrans; [|exact Hs]. done.
    + destruct Ho as [er ->]. rewrite (bind_Throw _ _ _ _ _ H'). eexists.
      split; [|reflexivity]. etrans; [|exact Hs]. done.
  - rewrite bind_of_outcome_Throw. by eexists; split; [|reflexivity].
  - by destruct (payload_apis_no_exit (service res) c).
Qed.

Lemma formatCode_run code w :
  exists w', formatCodeByPrettier prettier code w = (Ret (formatted prettier code), w') /\ fs_same w w'.
Proof. unfold formatCodeByPrettier, formatted. destruct (prettier code); by eexists. Qed.

(** Writing formatted code below a service's directory. *)
Lemma write_formatted_run d names n s code w :
  loop_inv d names w -> d ++ [n] ∈ dirs w ->
  exists w', (c ← formatCodeByPrettier prettier code; write_file (d ++ [n; s]) (Text c)) w = (Ret tt, w') /\
    files w' = <[d ++ [n; s] := Text (formatted prettier code)]> (files w) /\
    loop_inv d names w' /\ dirs w' = dirs w.
Proof.
  intros Hinv Hd. destruct (formatCode_run code w) as (w1 & H1 & Hs).
  rewrite (bind_Ret _ _ _ _ _ H1).
  pose proof (loop_inv_same _ _ _ _ Hs Hinv) as Hinv1. destruct Hs as [Hf Hdirs].
  change (d ++ [n; s]) with (d ++ [n] ++ [s]) in *. rewrite app_assoc in *.
  rewrite write_file_Ret; [|by rewrite Hdirs|].
  - eexists. split; [reflexivity|]. rewrite <-app_assoc. simpl. rewrite <-Hf.
    split; [done|]. split; [by apply loop_inv_write|done].
  - rewrite <-app_assoc. by eapply loop_inv_leaf.
Qed.

Lemma pull_service_run out names name uv w :
  loop_inv (path_of out) names w -> name ∈ names -> segment_ok name ->
  exists w', pull_service server prettier out (name, uv) w = (Ret tt, w') /\
    files w' = apply_writes (service_files answer prettier (path_of out) (name, uv)) (files w) /\
    loop_inv (path_of out) names w'.
Proof.
  intros Hinv Hname Hseg. unfold pull_service, service_files.
  case_decide as Huv.
  { eexists. split; [reflexivity|]. split; [done|]. by eapply loop_inv_same; [|exact Hinv]. }
  rewrite path_join_segment by done.
  set (d := path_of out) in *. unfold get_state at 1. unfold mbind at 1, M_bind at 1.
  assert (Hmk : exists w1, (if decide (exists_path w (d ++ [name])) then mret () else mkdirs (d ++ [name])) w
      = (Ret tt, w1) /\ files w1 = files w /\ loop_inv d names w1 /\ d ++ [name] ∈ dirs w1).
  { case_decide as He.
    - exists w. split; [done|]. split; [done|]. split; [done|].
      destruct He as [E|[[x Hx]|?]]; [by destruct d| |done].
      by rewrite (inv_files _ _ _ Hinv) in Hx.
    - destruct (loop_inv_mkdirs d names w name Hinv Hname) as [-> Hi]. eexists.
      split; [done|]. split; [done|]. split; [done|]. simpl. rewrite prefixes_snoc.
      apply elem_of_union_l, elem_of_list_to_set, elem_of_app. right. by apply list_elem_of_singleton. }
  destruct Hmk as (w1 & Hw1 & Hf1 & Hinv1 & Hd1). rewrite (bind_Ret _ _ _ _ _ Hw1).
  destruct (fetch_service_run name (uuid_of uv) (default "" (version_of uv)) w1) as (w2 & Hs & H2).
  rewrite (bind_Ret _ _ _ _ _ H2).
  pose proof (loop_inv_same _ _ _ _ Hs Hinv1) as Hinv2. destruct Hs as [Hf2 Hdirs2].
  destruct (fetch_service_spec answer (uuid_of uv) (default "" (version_of uv))) as [codes|]; simpl.
  2:{ exists w2. split; [done|]. split; [congruence|done]. }
  destruct (write_formatted_run d names name "namespaces.ts" (namespace_text autoGeneratePrefix codes) w2)
    as (w3 & H3 & Hf3 & Hinv3 & Hdirs3); [done|by rewrite Hdirs2|].
  destruct (write_formatted_run d names name "index.ts"
    (autoGeneratePrefix +:+ newline +:+ serviceClassCode name (map apiOption codes)) w3)
    as (w4 & H4 & Hf4 & Hinv4 & _); [done|by rewrite Hdirs3, Hdirs2|].
  exists w4. split; [|split; [by rewrite Hf4, Hf3, Hf2, Hf1|done]].
  rewrite <-!app_assoc. simpl. unfold mbind, M_bind in *.
  destruct (formatCodeByPrettier prettier (namespace_text autoGeneratePrefix codes) w2) as [[ns|?|?] w2'];
    [|done..].
  by rewrite H3.
Qed.
Lemma apply_writes_app l k m : apply_writes (l ++ k) m = apply_writes k (apply_writes l m).
Proof. apply foldl_app. Qed.

Lemma pull_services_run out names es w :
  loop_inv (path_of out) names w -> Forall (fun e => e.1 ∈ names /\ segment_ok e.1) es ->
  exists w', for_each es (pull_service server prettier out) w = (Ret tt, w') /\
    files w' = apply_writes (List.concat (map (service_files answer prettier (path_of out)) es)) (files w) /\
    loop_inv (path_of out) names w'.
Proof.
  intros Hinv Hes. revert w Hinv. induction Hes as [|[n uv] es [Hn Hs] _ IH]; intros w Hinv.
  { by exists w. }
  destruct (pull_service_run out names n uv w Hinv Hn Hs) as (w1 & H1 & Hf1 & Hinv1).
  destruct (IH w1 Hinv1) as (w2 & H2 & Hf2 & Hinv2).
  exists w2. simpl for_each. rewrite (bind_Ret _ _ _ _ _ H1). split; [done|].
  split; [|done]. simpl map. simpl List.concat. by rewrite apply_writes_app, Hf2, Hf1.
Qed.

(** Clearing and recreating the output directory. *)
Lemma prepare_run d names w :
  d <> [] -> out_dir_ready w d ->
  exists w', ((if decide (exists_path w d) then remove_dir rm_cwd d else mret ()) ;; mkdirs d) w = (Ret tt, w') /\
    files w' = filter (fun kv => ~ under d kv.1) (files w) /\ loop_inv d names w'.
Proof.
  intros Hd [Hready Hpre].
  assert (Hprep : exists w1, (if decide (exists_path w d) then remove_dir rm_cwd d else mret ()) w = (Ret tt, w1) /\
    files w1 = filter (fun kv => ~ under d kv.1) (files w) /\ (forall q, q ∈ dirs w1 -> ~ under d q)).
  { unfold remove_dir. rewrite (decide_False (P := d = [])) by done. case_decide as He.
    - eexists. split; [reflexivity|]. split; [done|]. simpl.
      intros q Hq. by apply elem_of_filter in Hq as [? _].
    - exists w. destruct Hready as [|[Hf Hds]]; [done|]. split; [done|]. split.
      + symmetry. apply map_filter_id. intros p x Hx Hu. by rewrite Hf in Hx.
      + intros q Hq Hu. by destruct (Hds q Hu). }
  destruct Hprep as (w1 & H1 & Hf1 & Hd1). rewrite (bind_Ret _ _ _ _ _ H1).
  assert (Hnone : forall q, q ∈ prefixes d -> files w1 !! q = None).
  { intros q Hq. rewrite Hf1. destruct (decide (q = d)) as [-> |Hne].
    - apply map_lookup_filter_None. right. intros x _ Hu. apply Hu, under_refl.
    - apply map_lookup_filter_None. left. auto. }
  rewrite mkdirs_Ret by done. eexists. split; [reflexivity|]. split; [done|].
  split; simpl.
  - apply elem_of_union_l, elem_of_list_to_set, elem_of_prefixes. split; [done|].
    exists []. by rewrite app_nil_r.
  - intros q [Hq|Hq]%elem_of_union Hu; [|by destruct (Hd1 q Hq)].
    apply elem_of_list_to_set in Hq. left. by apply prefix_under.
  - done.
  - intros n _. rewrite Hf1. apply map_lookup_filter_None. right. intros x _ Hu.
    apply Hu, under_app.
Qed.

Lemma readConfig_run w c :
  files w !! config_path = Some (ConfigFile c) -> readConfig w = (Ret c, w).
Proof.
  intros H. unfold readConfig, get_state, mbind, M_bind. rewrite decide_True by (right; left; eauto).
  by rewrite H.
Qed.

Lemma pull_run c svcs w :
  files w !! config_path = Some (ConfigFile c) -> services c = Some svcs -> svcs <> [] ->
  Forall service_name_ok svcs.*1 ->
  path_of (out_dir c) <> [] -> out_dir_ready w (path_of (out_dir c)) ->
  exists w', pullAllApisInAllServices server prettier rm_cwd w = (Ret tt, w') /\
    files w' = apply_writes (pulled_files answer prettier (path_of (out_dir c)) svcs)
                 (filter (fun kv => ~ under (path_of (out_dir c)) kv.1) (files w)) /\
    out_dir_ready w' (path_of (out_dir c)).
Proof.
  intros Hc Hsv Hne Hnames Hd Hready. set (d := path_of (out_dir c)) in *.
  unfold pullAllApisInAllServices. rewrite (bind_Ret _ _ _ _ _ (readConfig_run w c Hc)).
  rewrite Hsv. destruct svcs as [|kv0 svcs0]; [done|]. set (svcs := kv0 :: svcs0) in *.
  unfold get_state at 1. unfold mbind at 1, M_bind at 1. rewrite Forall_forall in Hnames.
  destruct (prepare_run d svcs.*1 w Hd Hready) as (w1 & H1 & Hf1 & Hinv1).
  assert (Hkeys : forall k, k ∈ keys svcs -> k ∈ svcs.*1).
  { intros k. unfold keys. by rewrite entries_Permutation. }
  destruct (pull_services_run (out_dir c) svcs.*1 (entries svcs) w1 Hinv1) as (w2 & H2 & Hf2 & Hinv2).
  { rewrite Forall_forall. intros e He.
    assert (e.1 ∈ svcs.*1) by (apply Hkeys, list_elem_of_fmap; eauto).
    split; [done|]. by apply Hnames. }
  fold d in Hinv2, Hf2.
  assert (Hdemo : exists k, head (keys svcs) = Some k /\ k ∈ svcs.*1).
  { destruct (keys svcs) as [|k ks] eqn:E; [|exists k; split; [done|apply Hkeys; by left]].
    apply fmap_nil_inv in E. apply (proj1 (entries_nil_iff _)) in E. by destruct (Hne E). }
  destruct Hdemo as (k & Hk & Hkin). destruct (Hnames k Hkin) as [[_ [Hk0 _]] _].
  destruct (formatCode_run (requestDemoCode k) w2) as (w3 & H3 & [Hf3 Hds3]).
  assert (Hleaf : d ++ ["request-demo.ts"] ∉ dirs w3).
  { rewrite Hds3. intros Hin. destruct (inv_dirs _ _ _ Hinv2 _ Hin (under_app _ _)) as [E|(m & Hm & E)].
    - apply (f_equal List.length) in E. rewrite length_app in E. simpl in E. lia.
    - apply app_inv_head in E. injection E as <-. by destruct (Hnames _ Hm). }
  pose proof (write_file_Ret d "request-demo.ts" (Text (formatted prettier (requestDemoCode k))) w3
    ltac:(rewrite Hds3; apply (inv_dir _ _ _ Hinv2)) Hleaf) as H4.
  eexists. split.
  - rewrite bind_assoc, (bind_Ret _ _ _ _ _ H1), (bind_Ret _ _ _ _ _ H2), Hk. simpl default.
    rewrite decide_False by done.
    rewrite (bind_Ret _ _ _ _ _ H3), path_join_segment by (by repeat split).
    rewrite (bind_Ret _ _ _ _ _ H4). reflexivity.
  - simpl. split.
    + unfold pulled_files, demo_file. rewrite Hk, apply_writes_app. simpl. by rewrite Hf3, Hf2, Hf1.
    + apply (out_dir_ready_write d svcs.*1 w3). by apply (loop_inv_same _ _ w2).
Qed.
End Run.

(** ** Lemmas: what an update leaves in the file system *)

Lemma pulled_files_under answer prettier d svcs :
  Forall (fun kv => under d kv.1) (pulled_files answer prettier d svcs).
Proof.
  unfold pulled_files. apply Forall_app. split; [|apply Forall_singleton, under_app].
  induction (entries svcs) as [|[n uv] es IH]; simpl; [done|]. apply Forall_app. split; [|done].
  case_decide; [done|]. destruct (fetch_service_spec _ _ _); [|done].
  repeat constructor; apply under_app.
Qed.

Lemma apply_writes_other l m p :
  p ∉ l.*1 -> apply_writes l m !! p = m !! p.
Proof.
  revert m. induction l as [|[q c] l IH]; intros m; simpl; [done|].
  rewrite not_elem_of_cons. intros [Hq Hl]. unfold apply_writes in *. simpl.
  rewrite IH by done. by rewrite lookup_insert_ne.
Qed.

Lemma apply_writes_out d l m p :
  Forall (fun kv => under d kv.1) l -> ~ under d p -> apply_writes l m !! p = m !! p.
Proof.
  intros Hl Hp. apply apply_writes_other. intros ([q c] & -> & Hq)%list_elem_of_fmap.
  rewrite Forall_forall in Hl. by destruct (Hp (Hl _ Hq)).
Qed.

Lemma apply_writes_ext (l : list (fpath * file_content)) (m m' : gmap fpath file_content) (p : fpath) :
  m !! p = m' !! p -> apply_writes l m !! p = apply_writes l m' !! p.
Proof.
  revert m m'. induction l as [|[q x] l IH]; intros m m' E; [done|]. apply IH. simpl.
  destruct (decide (q = p)) as [-> |Hq]; [by rewrite !lookup_insert_eq|].
  by rewrite !lookup_insert_ne.
Qed.

(** Clearing the output directory undoes the writes below it. *)
Lemma filter_apply_writes d l m :
  Forall (fun kv => under d kv.1) l ->
  filter (fun kv => ~ under d kv.1) (apply_writes l (filter (fun kv => ~ under d kv.1) m)) =
  filter (fun kv => ~ under d kv.1) m.
Proof.
  intros Hl. apply map_eq. intros p. destruct (decide (under d p)) as [Hp|Hp].
  - rewrite !(proj2 (map_lookup_filter_None _ _ _)); [done|right; intros ? _ H; by apply H..].
  - assert (E : forall m0 : gmap fpath file_content, filter (fun kv : fpath * file_content => ~ under d kv.1) m0 !! p = m0 !! p).
    { intros m0. destruct (m0 !! p) as [x|] eqn:Ex.
      - by apply map_lookup_filter_Some.
      - apply map_lookup_filter_None. by left. }
    by rewrite E, (apply_writes_out d).
Qed.

Lemma filter_out_lookup (d : fpath) (m : gmap fpath file_content) (p : fpath) :
  filter (fun kv => ~ under d kv.1) m !! p = if decide (under d p) then None else m !! p.
Proof.
  case_decide as Hp; [apply map_lookup_filter_None; right; intros ? _ H; by apply H|].
  destruct (m !! p) as [x|] eqn:Ex.
  - by apply map_lookup_filter_Some.
  - apply map_lookup_filter_None. by left.
Qed.

(** ** Lemmas: relations an update keeps *)

Section Preserved.
Context (server : forall T, list sent_request -> option string -> Endpoint T -> net T).
Context (prettier : string -> option string) (rm_cwd : IO unit).
Context (R : relation World) `{!PreOrder R}.
Hypothesis Rsame : forall w w', files w' = files w -> dirs w' = dirs w -> R w w'.
Hypothesis Rwrite : forall p s, preserves R (write_file p (Text s)).
Hypothesis Rmkdirs : forall p, preserves R (mkdirs p).
Hypothesis Rrm : forall d, preserves R (rm_tree d).
Hypothesis Rcwd : preserves R rm_cwd.

Lemma say_kept l : preserves R (say l).
Proof using Rsame. intros w. by apply Rsame. Qed.

Lemma request_kept {T} (e : Endpoint T) : preserves R (CliWorld.request server e).
Proof using Rsame. apply (http_preserves e). intros w w' []. by apply Rsame. Qed.

Lemma of_outcome_kept {A} (o : outcome A) : preserves R (of_outcome o).
Proof using PreOrder0. intros w. reflexivity. Qed.

#[local] Hint Resolve say_kept request_kept of_outcome_kept Rwrite Rmkdirs Rrm Rcwd : preserves.

Lemma readConfig_kept : preserves R readConfig.
Proof using Rsame PreOrder0. unfold readConfig. preserve. Qed.

Lemma fetch_apis_kept name latest l ns opts : preserves R (fetch_apis server name latest l ns opts).
Proof using Rsame PreOrder0.
  revert ns opts. induction l as [|api l IH]; intros ns opts; simpl; preserve; apply IH.
Qed.

Lemma pull_service_kept out e : preserves R (pull_service server prettier out e).
Proof using Rsame Rwrite Rmkdirs PreOrder0.
  assert (Hf : forall code, preserves R (formatCodeByPrettier prettier code)).
  { intros. unfold formatCodeByPrettier. preserve. }
  assert (Hs : forall n u v, preserves R (fetch_service server n u v)).
  { intros. unfold fetch_service. preserve. all: apply fetch_apis_kept. }
  unfold pull_service. destruct e. preserve.
Qed.

Lemma pull_kept : preserves R (pullAllApisInAllServices server prettier rm_cwd).
Proof using Rsame Rwrite Rmkdirs Rrm Rcwd PreOrder0.
  assert (Hf : forall code, preserves R (formatCodeByPrettier prettier code)).
  { intros. unfold formatCodeByPrettier. preserve. }
  assert (Hd : forall d, preserves R (remove_dir rm_cwd d)).
  { intros. unfold remove_dir. preserve. }
  unfold pullAllApisInAllServices. pose proof readConfig_kept.
  assert (Hl : forall out l, preserves R (for_each l (pull_service server prettier out))).
  { intros. apply preserves_for_each. intros. apply pull_service_kept. }
  preserve.
Qed.
End Preserved.

(** No path is both a file and a directory. *)
Definition fs_ok (w : World) : Prop := forall q, is_Some (files w !! q) -> q ∉ dirs w.

Definition keeps (P : World -> Prop) (w w' : World) : Prop := P w -> P w'.
#[global] Instance keeps_preorder P : PreOrder (keeps P).
Proof. split; [by intros ??|]. intros ?????. unfold keeps in *. auto. Qed.

Lemma write_file_fs_ok p c : preserves (keeps fs_ok) (write_file p c).
Proof.
  intros w Hok. unfold write_file. do 2 (case_decide; [simpl; try done|]); [|done].
  intros q Hq. simpl in *. destruct (decide (q = p)) as [-> |Hne]; [tauto|].
  rewrite lookup_insert_ne in Hq by done. by apply Hok.
Qed.

Lemma mkdirs_fs_ok p : preserves (keeps fs_ok) (mkdirs p).
Proof.
  intros w Hok. unfold mkdirs. case_decide as Hex; [done|]. simpl. intros q Hq.
  intros [Hin%elem_of_list_to_set|Hin]%elem_of_union; [|by destruct (Hok q)].
  apply Hex, Exists_exists. by exists q.
Qed.

Lemma rm_tree_fs_ok d : preserves (keeps fs_ok) (rm_tree d).
Proof.
  intros w Hok q Hq. simpl in *. destruct Hq as [x [Hx _]%map_lookup_filter_Some].
  intros [_ Hin]%elem_of_filter. by destruct (Hok q ltac:(eauto)).
Qed.

Lemma same_fs_ok w w' : files w' = files w -> dirs w' = dirs w -> keeps fs_ok w w'.
Proof. intros Hf Hd H q. rewrite Hf, Hd. apply H. Qed.

(** What removing the working directory does only matters when it is the output
    directory. *)
Lemma pull_no_cwd server prettier rm_cwd rm_cwd' c w :
  files w !! config_path = Some (ConfigFile c) -> path_of (out_dir c) <> [] ->
  pullAllApisInAllServices server prettier rm_cwd w = pullAllApisInAllServices server prettier rm_cwd' w.
Proof.
  intros Hc Hd. unfold pullAllApisInAllServices.
  rewrite !(bind_Ret _ _ _ _ _ (readConfig_run w c Hc)). destruct (services c) as [[]|]; [done| |done].
  unfold remove_dir. by rewrite !(decide_False (P := path_of (out_dir c) = [])) by done.
Qed.

Lemma pull_fs_ok server prettier rm_cwd c w :
  files w !! config_path = Some (ConfigFile c) -> path_of (out_dir c) <> [] ->
  fs_ok w -> fs_ok (pullAllApisInAllServices server prettier rm_cwd w).2.
Proof.
  intros Hc Hd Hok. rewrite (pull_no_cwd _ _ rm_cwd (mret ()) c) by done.
  exact (pull_kept server prettier (mret ()) (keeps fs_ok) same_fs_ok
    (fun p s => write_file_fs_ok p (Text s)) mkdirs_fs_ok rm_tree_fs_ok (preserves_ret _) w Hok).
Qed.

(** Writing the configuration. *)
Lemma write_config_run c w :
  config_path ∉ dirs w ->
  write_file config_path (ConfigFile c) w =
  (Ret tt, with_files (<[config_path := ConfigFile c]> (files w)) w).
Proof.
  intros H. unfold write_file. rewrite decide_False by (intros [?|?]; done).
  by rewrite decide_True by (by left).
Qed.

(** ** Lemmas: adding and removing a service *)

Lemma obj_delete_set {V} (o : obj V) k v : obj_get o k = None -> obj_delete (obj_set o k v) k = o.
Proof.
  intros H. rewrite obj_set_new by done. induction o as [|[k' v'] o IH]; simpl in *.
  - by rewrite String.eqb_refl.
  - destruct (String.eqb_spec k k'); [done|]. by rewrite IH.
Qed.

Lemma truthy_member_absent o k :
  obj_get o k = None -> k ∉ object_prototype_names -> truthy_member o k = false.
Proof. intros H Hk. unfold truthy_member. rewrite H. by apply bool_decide_eq_false_2. Qed.

Section AddRemove.
Context (server : forall T, list sent_request -> option string -> Endpoint T -> net T).
Context (prettier : string -> option string) (rm_cwd : IO unit).

(** An accepted service: the configuration is rewritten and an update runs. *)
Lemma store_run name u v c svcs w res :
  files w !! config_path = Some (ConfigFile c) -> services c = Some svcs ->
  obj_get svcs name = None -> name ∉ object_prototype_names ->
  Forall (fun kv => uuid_of kv.2 <> u) svcs ->
  server _ (sent w) (getToken w) (GetServiceByUuidAndVersion u v) = NetOk res ->
  service_status res = 200%Z -> config_path ∉ dirs w ->
  exists w1,
    files w1 = <[config_path := ConfigFile (with_services (obj_set svcs name (u +:+ "@" +:+ v)) c)]> (files w) /\
    dirs w1 = dirs w /\
    forall w2, pullAllApisInAllServices server prettier rm_cwd w1 = (Ret tt, w2) ->
    storeServiceInfo server prettier rm_cwd name u v w = (Ret tt, w2).
Proof.
  intros Hc Hs Hn Hp Hu Hr Hst Hdir. eexists (with_console (Log ("Service " +:+ name +:+ " added successfully"))
    (with_files (<[config_path := ConfigFile (with_services (obj_set svcs name (u +:+ "@" +:+ v)) c)]> (files w))
      (with_sent (getToken w, encode (GetServiceByUuidAndVersion u v)) w))).
  split; [done|]. split; [done|]. intros w2 H2. unfold storeServiceInfo.
  rewrite (bind_Ret _ _ _ _ _ (readConfig_run w c Hc)), Hs. simpl default.
  rewrite truthy_member_absent by done. simpl andb. cbv iota.
  replace (existsb _ (values svcs)) with false.
  2:{ symmetry. apply not_true_iff_false. intros (x & Hx & E%String.eqb_eq)%existsb_exists.
      apply list_elem_of_In in Hx. unfold values in Hx. apply list_elem_of_fmap in Hx as (kv & -> & Hkv).
      rewrite elem_of_entries in Hkv. rewrite Forall_forall in Hu. by destruct (Hu kv Hkv). }
  cbv iota. apply try_catch_Ret. rewrite (bind_Ret _ _ _ _ _ (request_NetOk _ _ _ _ Hr)).
  rewrite decide_False by (intros H; by apply H).
  unfold assign_member. rewrite decide_False.
  2:{ intros ->. apply Hp. by apply (bool_decide_unpack _). }
  erewrite bind_Ret by (by apply write_config_run). erewrite bind_Ret by reflexivity. exact H2.
Qed.

Lemma remove_run name x c svcs w :
  files w !! config_path = Some (ConfigFile c) -> services c = Some svcs ->
  obj_get svcs name = Some x -> x <> "" -> config_path ∉ dirs w ->
  exists w1,
    files w1 = <[config_path := ConfigFile (with_services (obj_delete svcs name) c)]> (files w) /\
    dirs w1 = dirs w /\
    forall w2, pullAllApisInAllServices server prettier rm_cwd w1 = (Ret tt, w2) ->
    removeService server prettier rm_cwd name w = (Ret tt, w2).
Proof.
  intros Hc Hs Hn Hx Hdir. eexists (with_console (Log ("Successfully removed service " +:+ name))
    (with_files (<[config_path := ConfigFile (with_services (obj_delete svcs name) c)]> (files w)) w)).
  split; [done|]. split; [done|]. intros w2 H2. unfold removeService.
  rewrite (bind_Ret _ _ _ _ _ (readConfig_run w c Hc)), Hs. cbv zeta.
  change (default [] (Some svcs)) with svcs. unfold truthy_member. rewrite Hn, (proj2 (String.eqb_neq x "")) by done. simpl negb. cbv iota.
  apply try_catch_Ret. erewrite bind_Ret by (by apply write_config_run). erewrite bind_Ret by reflexivity.
  exact H2.
Qed.
End AddRemove.

Lemma out_dir_ready_config c w w1 d :
  out_dir_ready w d -> ~ under d config_path -> is_Some (files w !! config_path) ->
  files w1 = <[config_path := c]> (files w) -> dirs w1 = dirs w -> out_dir_ready w1 d.
Proof.
  intros [Hr Hp] Hout [x Hx] Hf Hd. split.
  - destruct Hr as [He|[H1 H2]]; [left|right].
    + destruct He as [?|[[y Hy]|?]]; [by left| |right; right; by rewrite Hd].
      right; left. rewrite Hf. destruct (decide (config_path = d)) as [<-|Hne].
      * rewrite lookup_insert_eq. eauto.
      * rewrite lookup_insert_ne by done. eauto.
    + split; [|by rewrite Hd]. intros p Hu. rewrite Hf, lookup_insert_ne; [auto|]. by intros <-.
  - intros q Hq Hne. rewrite Hf, lookup_insert_ne; [auto|]. intros <-. by rewrite Hp in Hx.
Qed.

Lemma fs_ok_config c w w1 :
  fs_ok w -> is_Some (files w !! config_path) ->
  files w1 = <[config_path := c]> (files w) -> dirs w1 = dirs w -> fs_ok w1.
Proof.
  intros Hok Hc Hf Hd q Hq. rewrite Hd. destruct (decide (config_path = q)) as [<-|Hne]; [by apply Hok|].
  rewrite Hf, lookup_insert_ne in Hq by done. by apply Hok.
Qed.

(** What is left outside the output directory when the configuration is written,
    an update runs, and the old configuration is written back. *)
Lemma config_restored (d : fpath) (l : list (fpath * file_content)) (c c' : file_content)
    (m : gmap fpath file_content) :
  Forall (fun kv => under d kv.1) l -> m !! config_path = Some c ->
  filter (fun kv => ~ under d kv.1) (<[config_path := c]>
    (apply_writes l (filter (fun kv => ~ under d kv.1) (<[config_path := c']> m)))) =
  filter (fun kv => ~ under d kv.1) m.
Proof.
  intros Hl Hc. apply map_eq. intros p. rewrite !filter_out_lookup.
  case_decide as Hp; [done|]. destruct (decide (config_path = p)) as [<-|Hpc].
  - by rewrite lookup_insert_eq.
  - rewrite lookup_insert_ne, (apply_writes_out d) by done.
    by rewrite filter_out_lookup, decide_False, lookup_insert_ne.
Qed.

(** Without services an update stops at once. *)
Lemma pull_nothing server prettier rm_cwd c w : files w !! config_path = Some (ConfigFile c) ->
  services c = None \/ services c = Some [] ->
  exists msg, pullAllApisInAllServices server prettier rm_cwd w = (Exit 1, with_console (Warn msg) w).
Proof.
  intros Hc Hs. unfold pullAllApisInAllServices. rewrite (bind_Ret _ _ _ _ _ (readConfig_run w c Hc)).
  destruct Hs as [-> | ->]; by eexists.
Qed.

(** ** Properties of an update *)

(** C1. An update implements its specification.  For a server whose answers only
    depend on the request, any behaviour of prettier, configured names that are path
    segments other than [request-demo.ts] (the file of the demo), and an output
    directory that is not the working directory itself, whose parents are no files and
    below which nothing lies unless it exists: without services the command exits with status 1 and nothing changes; with some,
    the run succeeds whatever the server answers, the files outside the output
    directory are untouched, and the output directory holds exactly what the
    specification lists: two files per service whose data could be fetched, and the
    demo.  Nothing stale remains. *)
Theorem pull_refines_spec server answer prettier rm_cwd c w
  (Hserver : stateless server answer)
  (Hconfig : files w !! config_path = Some (ConfigFile c))
  (Hnames : Forall service_name_ok (default [] (services c)).*1)
  (Hd : path_of (out_dir c) <> []) (Hready : out_dir_ready w (path_of (out_dir c))) :
  let d := path_of (out_dir c) in
  let svcs := default [] (services c) in
  let '(o, w') := pullAllApisInAllServices server prettier rm_cwd w in
  if decide (svcs = []) then o = Exit 1 /\ files w' = files w /\ dirs w' = dirs w /\ sent w' = sent w
  else
    o = Ret tt /\
    (forall p, ~ under d p -> files w' !! p = files w !! p) /\
    (forall p, under d p -> files w' !! p =
       apply_writes (pulled_files answer prettier d svcs) ∅ !! p).
Proof.
  intros d svcs. destruct (services c) as [l|] eqn:Hs; [|by destruct (pull_nothing server prettier rm_cwd c w Hconfig) as [msg ->]; [left|]].
  cbn [default from_option] in svcs, Hnames. unfold Datatypes.id in svcs, Hnames. unfold svcs. clear svcs. case_decide as Hne.
  { destruct (pull_nothing server prettier rm_cwd c w Hconfig) as [msg ->]; [right; congruence|done]. }
  destruct (pull_run server answer Hserver prettier rm_cwd c l w) as (w' & -> & Hf & _); [done..|].
  fold d in Hf. rewrite Hf. split; [done|].
  pose proof (pulled_files_under answer prettier d l) as Hu. split.
  - intros p Hp. rewrite (apply_writes_out d) by done.
    destruct (files w !! p) as [x|] eqn:Ex.
    + by apply map_lookup_filter_Some.
    + apply map_lookup_filter_None. by left.
  - intros p Hp. apply apply_writes_ext. rewrite lookup_empty.
    apply map_lookup_filter_None. right. intros ? _ H. by apply H.
Qed.

(** Updating twice is updating once: when the configuration file lies outside
    the output directory, a second run succeeds and leaves the same files. *)
Theorem pull_idempotent server answer prettier rm_cwd c svcs w
  (Hserver : stateless server answer)
  (Hconfig : files w !! config_path = Some (ConfigFile c))
  (Hservices : services c = Some svcs) (Hne : svcs <> [])
  (Hnames : Forall service_name_ok svcs.*1)
  (Hd : path_of (out_dir c) <> []) (Hready : out_dir_ready w (path_of (out_dir c)))
  (Hout : ~ under (path_of (out_dir c)) config_path) :
  let w1 := (pullAllApisInAllServices server prettier rm_cwd w).2 in
  let '(o, w2) := pullAllApisInAllServices server prettier rm_cwd w1 in
  o = Ret tt /\ files w2 = files w1.
Proof.
  destruct (pull_run server answer Hserver prettier rm_cwd c svcs w) as (w1 & -> & Hf1 & Hr1); [done..|].
  simpl. pose proof (pulled_files_under answer prettier (path_of (out_dir c)) svcs) as Hu.
  destruct (pull_run server answer Hserver prettier rm_cwd c svcs w1) as (w2 & -> & Hf2 & _);
    [|done..|].
  - rewrite Hf1, (apply_writes_out _ _ _ _ Hu Hout). by apply map_lookup_filter_Some.
  - split; [done|]. rewrite Hf2, Hf1 at 1. by rewrite filter_apply_writes.
Qed.

(** A server with one service, [shop], holding one API, and a fresh project. *)
Definition sample_answer (T : Type) (e : Endpoint T) : net T :=
  match e in Endpoint T return net T with
  | UserLogin _ _ => NetOk (mkLoginResponse 200 "" "tok")
  | GetMyInfo => NetErr (Some 500%Z) "down"
  | GetServiceByUuidAndVersion u _ =>
      if String.eqb u "shop-id" then
        NetOk (mkServiceResponse 200 "" (Some (mkServicePayload
          (Some (Some [mkApiBrief 1 "listItems" GET "/items" None None])) None)) true)
      else NetOk (mkServiceResponse 404 "Service not found" None true)
  | GetApiById i _ =>
      if (i =? 1)%Z then NetOk (mkApiResponse 200 "" sample_api)
      else NetErr (Some 404%Z) "missing"
  end.
Definition sample_server (T : Type) (_ : list sent_request) (_ : option string) (e : Endpoint T) : net T :=
  sample_answer T e.

Definition sample_services : obj string := [("shop", "shop-id@1.0.0"); ("gone", "x@latest")].
Definition sample_config : CamConfig := mkCamConfig (Some sample_services) (Some "src/gen") (Some "{}").
Definition sample_world : World :=
  mkWorld {[ config_path := ConfigFile sample_config ]} ∅
    (Some (Camrc (mkCamrcConfig (Some "tok") None))) [] [].

Lemma sample_world_ready : out_dir_ready sample_world (path_of (out_dir sample_config)).
Proof.
  split.
  - right. split; intros p Hp; [|done]. simpl. apply lookup_singleton_None. intros <-. by vm_compute in Hp.
  - intros q Hq _. simpl. apply lookup_singleton_None. intros <-.
    apply (bool_decide_spec (config_path ∈ prefixes (path_of (out_dir sample_config)))) in Hq. by vm_compute in Hq.
Qed.

Lemma pull_refines_spec_witness :
  let '(o, w') := pullAllApisInAllServices sample_server (fun _ => None) (mret ()) sample_world in
  o = Ret tt /\ is_Some (files w' !! ["src"; "gen"; "shop"; "index.ts"]) /\
  files w' !! ["src"; "gen"; "gone"; "index.ts"] = None.
Proof.
  pose proof (pull_refines_spec sample_server sample_answer (fun _ => None) (mret ()) sample_config
    sample_world (fun _ _ _ _ => eq_refl) eq_refl) as H.
  destruct (pullAllApisInAllServices _ _ _ _) as [o w'].
  destruct H as (Ho & _ & Hin); [|done|apply sample_world_ready|].
  - repeat constructor; done.
  - split; [done|]. rewrite !Hin by (vm_compute; reflexivity). split; [by eexists; vm_compute|by vm_compute].
Defined.

Lemma pull_idempotent_witness :
  let w1 := (pullAllApisInAllServices sample_server (fun _ => None) (mret ()) sample_world).2 in
  let '(o, w2) := pullAllApisInAllServices sample_server (fun _ => None) (mret ()) w1 in
  o = Ret tt /\ files w2 = files w1.
Proof.
  apply (pull_idempotent sample_server sample_answer (fun _ => None) (mret ()) sample_config
    sample_services sample_world (fun _ _ _ _ => eq_refl) eq_refl eq_refl);
    [done| |done|apply sample_world_ready|by vm_compute].
  repeat constructor; done.
Defined.

(** ** Properties of adding and removing *)

(** Removing the last service succeeds on the configuration but the command
    still exits with status 1, and the output directory is left as it was: the
    code of the removed service stays. *)
Theorem remove_last_service server prettier rm_cwd c name x w
  (Hconfig : files w !! config_path = Some (ConfigFile c))
  (Hservices : services c = Some [(name, x)]) (Hx : x <> "") (Hdir : config_path ∉ dirs w) :
  let '(o, w') := removeService server prettier rm_cwd name w in
  o = Exit 1 /\ dirs w' = dirs w /\ sent w' = sent w /\
  files w' = <[config_path := ConfigFile (with_services [] c)]> (files w).
Proof.
  unfold removeService. rewrite (bind_Ret _ _ _ _ _ (readConfig_run w c Hconfig)), Hservices. cbv zeta.
  change (default [] (Some [(name, x)])) with [(name, x)].
  assert (truthy_member [(name, x)] name = true) as ->.
  { unfold truthy_member. cbn [obj_get]. by rewrite String.eqb_refl, (proj2 (String.eqb_neq x "")). }
  cbn [obj_delete]. rewrite String.eqb_refl, bool_decide_eq_true_2 by eauto. cbn [negb andb].
  unfold try_catch. erewrite bind_Ret by (by apply write_config_run). cbv beta.
  erewrite bind_Ret by reflexivity. unfold pullAllApisInAllServices. erewrite bind_Ret.
  2:{ apply (readConfig_run _ (with_services [] c)). simpl. by rewrite lookup_insert_eq. }
  done.
Qed.

(** The project after an addition. *)
Lemma added_service server answer (Hserver : stateless server answer) prettier rm_cwd c svcs name u v res w :
  files w !! config_path = Some (ConfigFile c) -> services c = Some svcs -> Forall service_name_ok svcs.*1 ->
  path_of (out_dir c) <> [] -> out_dir_ready w (path_of (out_dir c)) ->
  ~ under (path_of (out_dir c)) config_path -> fs_ok w ->
  service_name_ok name -> obj_get svcs name = None -> name ∉ object_prototype_names ->
  Forall (fun kv => uuid_of kv.2 <> u) svcs ->
  answer _ (GetServiceByUuidAndVersion u v) = NetOk res -> service_status res = 200%Z ->
  let svcs' := svcs ++ [(name, u +:+ "@" +:+ v)] in
  exists w1, storeServiceInfo server prettier rm_cwd name u v w = (Ret tt, w1) /\
    files w1 !! config_path = Some (ConfigFile (with_services svcs' c)) /\
    files w1 = apply_writes (pulled_files answer prettier (path_of (out_dir c)) svcs')
      (filter (fun kv => ~ under (path_of (out_dir c)) kv.1) (<[config_path := ConfigFile (with_services svcs' c)]> (files w))) /\
    out_dir_ready w1 (path_of (out_dir c)) /\ fs_ok w1.
Proof.
  intros Hconfig Hservices Hnames Hd Hready Hout Hfs Hname Hnew Hproto Huuid Hanswer Hstatus svcs'.
  set (d := path_of (out_dir c)) in *. set (c' := with_services svcs' c).
  assert (Hsvcs' : obj_set svcs name (u +:+ "@" +:+ v) = svcs') by by apply obj_set_new.
  destruct (store_run server prettier rm_cwd name u v c svcs w res) as (wa & Hfa & Hda & Hstore);
    [done..|by rewrite Hserver|done|by apply Hfs; eauto|].
  rewrite Hsvcs' in Hfa. fold c' in Hfa.
  destruct (pull_run server answer Hserver prettier rm_cwd c' svcs' wa) as (w1 & H1 & Hf1 & Hr1).
  { by rewrite Hfa, lookup_insert_eq. } { done. } { by unfold svcs'; destruct svcs. }
  { unfold svcs'. rewrite fmap_app. apply Forall_app. split; [done|]. by apply Forall_singleton. }
  { done. }
  { eapply out_dir_ready_config; [exact Hready|done|eauto|exact Hfa|exact Hda]. }
  change (path_of (out_dir c')) with d in *. exists w1. split; [by rewrite (Hstore _ H1)|].
  assert (Hc1 : files w1 !! config_path = Some (ConfigFile c')).
  { rewrite Hf1, (apply_writes_out d) by (done || apply pulled_files_under).
    by rewrite filter_out_lookup, decide_False, Hfa, lookup_insert_eq. }
  split; [exact Hc1|]. split; [by rewrite Hf1, Hfa|]. split; [exact Hr1|].
  pose proof (pull_fs_ok server prettier rm_cwd c' wa) as Hok. rewrite H1 in Hok. apply Hok;
    [by rewrite Hfa, lookup_insert_eq|done|by eapply fs_ok_config; eauto].
Qed.

(** C27. Adding a service and removing it again leaves the project as a plain
    update would.  For a service whose data the server gives, with a name and a uuid
    not yet configured, the name a path segment other than [request-demo.ts] and none
    of the members of [Object.prototype]; and for a project as an update needs it
    (a server whose answers only depend on the request, configured names that are
    path segments other than [request-demo.ts], an output directory that is not the
    working directory, whose parents are no files and below which nothing lies unless
    it exists, no path that is both a file and a
    directory), whose [cam.config.json] lies outside the output directory:
    the addition records [name: uuid@version] after the existing services, the removal
    restores the configuration, and when there were services before, both commands
    succeed and the generated files are those of these services.  When there were none the
    removal exits with status 1, the configuration restored but the files generated
    by the addition still there. *)
Theorem add_remove_roundtrip server answer prettier rm_cwd c svcs name u v res w
  (Hserver : stateless server answer)
  (Hconfig : files w !! config_path = Some (ConfigFile c))
  (Hservices : services c = Some svcs)
  (Hnames : Forall service_name_ok svcs.*1)
  (Hd : path_of (out_dir c) <> []) (Hready : out_dir_ready w (path_of (out_dir c)))
  (Hout : ~ under (path_of (out_dir c)) config_path) (Hfs : fs_ok w)
  (Hname : service_name_ok name) (Hnew : obj_get svcs name = None)
  (Hproto : name ∉ object_prototype_names)
  (Huuid : Forall (fun kv => uuid_of kv.2 <> u) svcs)
  (Hanswer : answer _ (GetServiceByUuidAndVersion u v) = NetOk res)
  (Hstatus : service_status res = 200%Z) :
  let '(o1, w1) := storeServiceInfo server prettier rm_cwd name u v w in
  let '(o2, w2) := removeService server prettier rm_cwd name w1 in
  o1 = Ret tt /\
  files w1 !! config_path =
    Some (ConfigFile (with_services (svcs ++ [(name, u +:+ "@" +:+ v)]) c)) /\
  files w2 !! config_path = files w !! config_path /\
  if decide (svcs = []) then o2 = Exit 1 /\ (forall p, p <> config_path -> files w2 !! p = files w1 !! p)
  else o2 = Ret tt /\ files w2 = files (pullAllApisInAllServices server prettier rm_cwd w).2.
Proof.
  set (d := path_of (out_dir c)) in *.
  destruct (added_service server answer Hserver prettier rm_cwd c svcs name u v res w) as (w1 & -> & Hc1 & Hf1 & Hr1 & Hok1); [done..|].
  fold d in Hf1, Hr1. set (x := u +:+ "@" +:+ v) in *. set (c' := with_services (svcs ++ [(name, x)]) c) in *.
  assert (Hx : x <> "") by by intros [_ ?]%str_app_inv_nil.
  assert (Hdir : config_path ∉ dirs w1) by (apply Hok1; eauto).
  assert (Hrestore : with_services (obj_delete (svcs ++ [(name, x)]) name) c' = c).
  { rewrite <-(obj_set_new svcs name x), obj_delete_set by done. unfold c'. destruct c. simpl in *. by subst. }
  case_decide as Hnil.
  { subst svcs. pose proof (remove_last_service server prettier rm_cwd c' name x w1 Hc1 eq_refl Hx Hdir) as Hlast.
    destruct (removeService server prettier rm_cwd name w1) as [o2 w2]. destruct Hlast as (-> & _ & _ & Hf2).
    cbn [app obj_delete] in Hrestore. rewrite String.eqb_refl in Hrestore. rewrite Hf2, Hrestore. split; [done|]. split; [done|].
    split; [by rewrite lookup_insert_eq|]. split; [done|]. intros p Hp. by rewrite lookup_insert_ne. }
  destruct (remove_run server prettier rm_cwd name x c' (svcs ++ [(name, x)]) w1)
    as (wb & Hfb & Hdb & Hremove); [done|done| |exact Hx|exact Hdir|].
  { rewrite <-(obj_set_new svcs name x) by done. apply obj_get_set_eq. }
  rewrite Hrestore in Hfb.
  destruct (pull_run server answer Hserver prettier rm_cwd c svcs wb) as (w2 & H2 & Hf2 & _); [|done..| |].
  { by rewrite Hfb, lookup_insert_eq. }
  { eapply out_dir_ready_config; [exact Hr1|done|eauto|exact Hfb|exact Hdb]. }
  rewrite (Hremove _ H2). split; [done|]. split; [done|]. split.
  { rewrite Hf2, (apply_writes_out d) by (done || apply pulled_files_under).
    by rewrite filter_out_lookup, decide_False, Hfb, lookup_insert_eq. }
  split; [done|].
  destruct (pull_run server answer Hserver prettier rm_cwd c svcs w) as (w3 & -> & Hf3 & _); [done..|].
  simpl. rewrite Hf2, Hf3, Hfb, Hf1. f_equal.
  apply config_restored; [apply pulled_files_under|done].
Qed.

Lemma sample_world_fs_ok : fs_ok sample_world.
Proof. intros q _. by apply not_elem_of_empty. Qed.

Lemma add_remove_roundtrip_witness :
  let '(o1, w1) := storeServiceInfo sample_server (fun _ => None) (mret ()) "store" "shop-id-2" "2.0.0" sample_world in
  o1 = Exit 1 /\
  let '(o1, w1) := storeServiceInfo (fun T _ _ e => match e in Endpoint T return net T with
      | GetServiceByUuidAndVersion _ _ => NetOk (mkServiceResponse 200 "" (Some (mkServicePayload (Some (Some [])) None)) true)
      | e => sample_answer _ e
      end) (fun _ => None) (mret ()) "store" "shop-id-2" "2.0.0" sample_world in
  let '(o2, w2) := removeService (fun T _ _ e => match e in Endpoint T return net T with
      | GetServiceByUuidAndVersion _ _ => NetOk (mkServiceResponse 200 "" (Some (mkServicePayload (Some (Some [])) None)) true)
      | e => sample_answer _ e
      end) (fun _ => None) (mret ()) "store" w1 in
  o1 = Ret tt /\ o2 = Ret tt.
Proof.
  set (server := fun T (_ : list sent_request) (_ : option string) (e : Endpoint T) =>
    match e in Endpoint T return net T with
    | GetServiceByUuidAndVersion _ _ => NetOk (mkServiceResponse 200 "" (Some (mkServicePayload (Some (Some [])) None)) true)
    | e => sample_answer _ e
    end).
  pose proof (add_remove_roundtrip server (fun T e => server T [] None e) (fun _ => None) (mret ())
    sample_config sample_services "store" "shop-id-2" "2.0.0"
    (mkServiceResponse 200 "" (Some (mkServicePayload (Some (Some [])) None)) true) sample_world
    (fun _ _ _ _ => eq_refl) eq_refl eq_refl) as H.
  assert (H' := H ltac:(repeat constructor; done) ltac:(done) sample_world_ready
    ltac:(by vm_compute) sample_world_fs_ok ltac:(repeat split; done) eq_refl
    ltac:(by apply (bool_decide_unpack _)) ltac:(repeat constructor; by vm_compute) eq_refl eq_refl).
  destruct (storeServiceInfo sample_server _ _ _ _ _ _) as [o0 w0] eqn:E0.
  split; [by apply (f_equal fst) in E0; vm_compute in E0|].
  destruct (storeServiceInfo server _ _ _ _ _ _) as [o1 w1].
  destruct (removeService server _ _ _ _) as [o2 w2]. rewrite decide_False in H' by done. tauto.
Defined.

(** A duplicate is refused before anything happens: when the name or the uuid
    is already configured, the command exits with status 1 having printed one
    warning; no request is sent and no file changes. *)
Theorem storeServiceInfo_duplicate server prettier rm_cwd name u v c svcs w
  (Hconfig : files w !! config_path = Some (ConfigFile c))
  (Hservices : services c = Some svcs)
  (Hdup : (exists x, obj_get svcs name = Some x /\ x <> "") \/ Exists (fun kv => uuid_of kv.2 = u) svcs) :
  exists msg, storeServiceInfo server prettier rm_cwd name u v w = (Exit 1, with_console (Warn msg) w).
Proof.
  unfold storeServiceInfo. rewrite (bind_Ret _ _ _ _ _ (readConfig_run w c Hconfig)), Hservices.
  change (default [] (Some svcs)) with svcs.
  destruct (truthy_member svcs name) eqn:Et; [by eexists|]. simpl andb. cbv iota.
  destruct Hdup as [(x & Hx & Hne)|(kv & Hkv & Hu)%Exists_exists].
  { unfold truthy_member in Et. rewrite Hx, (proj2 (String.eqb_neq _ _) Hne) in Et. done. }
  replace (existsb _ (values svcs)) with true; [by eexists|].
  symmetry. apply existsb_exists. exists kv.2. rewrite Hu, String.eqb_refl. split; [|done].
  apply list_elem_of_In, list_elem_of_fmap. exists kv. split; [done|]. by rewrite elem_of_entries.
Qed.

Lemma storeServiceInfo_duplicate_witness :
  exists msg, storeServiceInfo sample_server (fun _ => None) (mret ()) "shop2" "shop-id" "3.0.0" sample_world =
    (Exit 1, with_console (Warn msg) sample_world).
Proof.
  apply (storeServiceInfo_duplicate _ _ _ _ _ _ sample_config sample_services sample_world eq_refl eq_refl).
  right. by left.
Defined.

Definition one_service_world : World :=
  mkWorld {[ config_path := ConfigFile (mkCamConfig (Some [("shop", "u@1.0.0")]) (Some "gen") None);
             ["gen"; "shop"; "index.ts"] := Text "old" ]} {[ ["gen"]; ["gen"; "shop"] ]} None [] [].

Lemma remove_last_service_witness :
  let '(o, w') := removeService sample_server (fun _ => None) (mret ()) "shop" one_service_world in
  o = Exit 1 /\ files w' !! ["gen"; "shop"; "index.ts"] = Some (Text "old").
Proof.
  pose proof (remove_last_service sample_server (fun _ => None) (mret ())
    (mkCamConfig (Some [("shop", "u@1.0.0")]) (Some "gen") None) "shop" "u@1.0.0" one_service_world) as H.
  destruct (removeService _ _ _ _ _) as [o w'].
  destruct H as (Ho & _ & _ & Hf); [by vm_compute|done|done|by apply (bool_decide_unpack _)|].
  split; [exact Ho|]. rewrite Hf. by vm_compute.
Defined.

(** Names inherited from [Object.prototype] pass for configured services:
    removing one reports success although no such service exists, and adding one
    is refused as a duplicate. *)
Theorem prototype_names_taken server prettier rm_cwd c svcs name u v w
  (Hconfig : files w !! config_path = Some (ConfigFile c))
  (Hservices : services c = Some svcs) (Hne : svcs <> [])
  (Hproto : name ∈ object_prototype_names) (Habsent : obj_get svcs name = None)
  (Hdir : config_path ∉ dirs w) :
  storeServiceInfo server prettier rm_cwd name u v w =
    (Exit 1, with_console (Warn ("Service name " +:+ name +:+ " already exists")) w) /\
  removeService server prettier rm_cwd name w =
    try_catch (pullAllApisInAllServices server prettier rm_cwd)
      (fun e => say (Error ("Failed to remove service " +:+ name +:+ ": " +:+ error_to_string e)) ;; exit 1)
      (with_console (Log ("Successfully removed service " +:+ name)) w).
Proof.
  assert (Ht : truthy_member svcs name = true).
  { unfold truthy_member. rewrite Habsent. by apply bool_decide_eq_true_2. }
  split.
  - unfold storeServiceInfo. rewrite (bind_Ret _ _ _ _ _ (readConfig_run w c Hconfig)), Hservices.
    change (default [] (Some svcs)) with svcs. by rewrite Ht.
  - unfold removeService. rewrite (bind_Ret _ _ _ _ _ (readConfig_run w c Hconfig)), Hservices. cbv zeta.
    change (default [] (Some svcs)) with svcs. rewrite Ht, obj_delete_ignored, bool_decide_eq_true_2 by eauto.
    cbn [negb andb].
    unfold try_catch. erewrite bind_Ret by (by apply write_config_run). cbv beta.
    erewrite bind_Ret by reflexivity.
    do 3 f_equal. destruct w. unfold with_files. simpl in *. f_equal.
    rewrite insert_id; [done|]. rewrite Hconfig. destruct c. simpl in *. by subst.
Qed.

Lemma prototype_names_taken_witness :
  fst (storeServiceInfo sample_server (fun _ => None) (mret ()) "constructor" "new" "1.0.0" sample_world) = Exit 1 /\
  fst (removeService sample_server (fun _ => None) (mret ()) "toString" sample_world) = Ret tt.
Proof.
  split.
  - rewrite (proj1 (prototype_names_taken _ _ _ sample_config sample_services "constructor" _ _ sample_world
      eq_refl eq_refl ltac:(done) ltac:(by apply (bool_decide_unpack _)) eq_refl ltac:(by apply not_elem_of_empty))).
    reflexivity.
  - rewrite (proj2 (prototype_names_taken _ _ _ sample_config sample_services "toString" "u" "1.0.0" sample_world
      eq_refl eq_refl ltac:(done) ltac:(by apply (bool_decide_unpack _)) eq_refl ltac:(by apply not_elem_of_empty))).
    vm_compute. reflexivity.
Defined.
