(* ===== verification/Cli.v ===== *)
(** * The commands of [cam]

    [cam-fe-code-generator/src/cli/*.ts] and [utils/utils.ts]: argument checks,
    [login], [logout], [whoami], [init], [add], [remove], [update] and the
    [loginRequired] wrapper.  The prompt's answers and the table printer are
    parameters. *)

From S2P Require Import Prelude JsObject ApiTypes Generator ServiceClass CliWorld CodeGen.
From Stdlib Require Import Ascii String ZArith.

Definition isValidVersion (value : string) : bool :=
  if String.eqb value "" then false
  else if String.eqb value "latest" then true
  else version_format value.

(** The character class of [invalidChars]. *)
Definition invalid_char (c : ascii) : bool :=
  (N_of_ascii c <=? 31)%N ||
  bool_decide (c ∈ ["<"; ">"; ":"; ascii_of_N 34; "/"; "\"; "|"; "?"; "*"]%char).

Definition isValidFilename (filename : string) : bool :=
  if String.eqb filename "" then false
  else if str_existsb invalid_char filename then false
  else negb (String.eqb filename "." || String.eqb filename "..").

Section Cli.
Variable server : forall T, list sent_request -> option string -> Endpoint T -> net T.
Variable prettier : string -> option string.
Variable rm_cwd : IO unit.
(** What the user types at the login prompt. *)
Variable answers : string * string.
(** [table.toString()]. *)
Variable show_table : list (string * string) -> string.

Notation request := (CliWorld.request server).

Definition login : IO unit :=
  try_catch (
    say (Log "Authenticating...") ;;
    loginRes ← request (UserLogin answers.1 answers.2);
    if decide (login_status loginRes <> 200%Z) then
      say (Warn (str_or (login_message loginRes) "Login failed"))
    else
      setToken (access_token loginRes) ;;
      getUserRes ← request GetMyInfo;
      if decide (user_status getUserRes <> 200%Z) then
        say (Warn (str_or (user_message getUserRes) "Get user info failed"))
      else
        let u := user_user getUserRes in
        setUser (Profile u) ;;
        say (Log ("Logged in as " +:+ nickname u +:+ " (" +:+ username u +:+ ") - " +:+ email u)))
    (fun e => say (Error (error_to_string e)) ;; exit 1).

Definition logout : IO unit :=
  w ← get_state;
  match getToken w with
  | None => say (Warn "No user logged in")
  | Some _ =>
      setToken "" ;; setUser NoProfile ;; say (Log "Logged out successfully")
  end.

Definition whoami : IO unit :=
  w ← get_state;
  match getToken w with
  | None => say (Warn "No user logged in")
  | Some _ =>
      match getUser w with
      | Some (Profile u) =>
          if String.eqb (username u) "" then say (Warn "User info not found")
          else say (Log (show_table [("Username", username u); ("Nickname", nickname u);
                                     ("Email", email u); ("Role", role u)]))
      | _ => say (Warn "User info not found")
      end
  end.

Definition loginRequired (fn : IO unit) : IO unit :=
  w ← get_state;
  match getToken w with
  | Some _ => fn
  | None =>
      say (Log "Please login to proceed.") ;;
      login ;;
      w' ← get_state;
      match getToken w' with
      | Some _ => fn
      | None => mret ()
      end
  end.

Definition init : IO unit :=
  w ← get_state;
  if decide (exists_path w config_path) then
    say (Warn (CONFIG_FILE_NAME +:+ " already exists in the current directory." +:+ newline +:+
               "If you want to overwrite it, please delete the existing file."))
  else
    try_catch (
      write_file config_path (ConfigFile CONFIG_FILE_CONTENT) ;;
      say (Log ("Successfully initialized " +:+ CONFIG_FILE_NAME)))
      (fun e => say (Error ("Failed to initialize " +:+ CONFIG_FILE_NAME +:+ ": " +:+ error_to_string e)) ;;
                exit 1).

Definition bad_format : IO unit :=
  say (Error "Invalid format. Usage: cam add <service_name>:<service_uuid>@<version | latest>") ;; exit 1.

Definition addService (serviceIdentifier : string) : IO unit :=
  let parts := split_on "@" serviceIdentifier in
  let nameAndUuid := default "" (head parts) in
  let version := str_or (default "" (parts !! 1)) "latest" in
  if negb (isValidVersion version) then
    say (Error "Invalid version format. Version must be in the format x.y.z (where x, y, and z are non-negative integers).") ;;
    exit 1
  else if String.eqb nameAndUuid "" then bad_format
  else
    let pieces := split_on ":" nameAndUuid in
    let serviceName := default "" (head pieces) in
    let serviceUuid := default "" (pieces !! 1) in
    if String.eqb serviceName "" || String.eqb serviceUuid "" then bad_format
    else if negb (isValidFilename serviceName) then
      say (Error ("Invalid service name: " +:+ dquote +:+ serviceName +:+ dquote +:+
                  ". Service name must be a valid directory/file name.")) ;;
      exit 1
    else
      say (Log ("Service Name: " +:+ serviceName)) ;;
      say (Log ("Service UUID: " +:+ serviceUuid)) ;;
      say (Log ("Version: " +:+ version)) ;;
      storeServiceInfo server prettier rm_cwd serviceName serviceUuid version.

(** The registered actions. *)
Inductive Command :=
| CmdInit | CmdLogin | CmdLogout | CmdWhoami
| CmdAdd (identifier : string) | CmdRemove (name : string) | CmdUpdate.

Definition run (c : Command) : IO unit :=
  match c with
  | CmdInit => loginRequired init
  | CmdLogin => login
  | CmdLogout => logout
  | CmdWhoami => whoami
  | CmdAdd i => loginRequired (addService i)
  | CmdRemove n => loginRequired (removeService server prettier rm_cwd n)
  | CmdUpdate => loginRequired (pullAllApisInAllServices server prettier rm_cwd)
  end.
End Cli.

(** ** Lemmas: splitting identifiers *)

(** No piece of a split holds a character the whole lacks, nor the separator. *)
Lemma split_on_pieces (P : ascii -> bool) sep s :
  (forall c, c <> sep -> P c = true) \/ str_forallb P s = true ->
  Forall (fun p => str_forallb P p = true) (split_on sep s).
Proof.
  intros H. unfold split_on.
  assert (Hs : let '(w, ws) := split_aux sep s in Forall (fun p => str_forallb P p = true) (w :: ws)).
  { induction s as [|c s IH]; simpl; [by repeat constructor|].
    assert (Hc : c <> sep -> P c = true).
    { intros Hc. destruct H as [H|H]; [by apply H|]. simpl in H. by apply andb_true_iff in H as []. }
    destruct (split_aux sep s) as [w ws].
    assert (IH' := IH ltac:(destruct H as [H|H]; [by left|right; simpl in H; by apply andb_true_iff in H as []])).
    inversion IH' as [|?? Hw Hws]; subst.
    destruct (Ascii.eqb_spec c sep); [by repeat constructor|]. constructor; [|done]. simpl.
    rewrite Hc by done. done. }
  by destruct (split_aux sep s).
Qed.

Lemma split_on_lacks_sep sep s : Forall (fun p => lacks sep p = true) (split_on sep s).
Proof.
  apply split_on_pieces. left. intros c Hc. by rewrite (proj2 (Ascii.eqb_neq _ _)).
Qed.

Lemma split_on_lacks_other sep c s :
  lacks c s = true -> Forall (fun p => lacks c p = true) (split_on sep s).
Proof. intros H. apply split_on_pieces. by right. Qed.

Lemma isValidFilename_lacks c s :
  isValidFilename s = true -> invalid_char c = true -> lacks c s = true.
Proof.
  unfold isValidFilename, str_existsb. intros H Hc. destruct (String.eqb s ""); [done|].
  rewrite negb_involutive_reverse in H. destruct (str_forallb _ s) eqn:E; [|done].
  revert E. apply str_forallb_impl. intros x Hx. apply negb_true_iff, Ascii.eqb_neq. intros ->.
  by rewrite Hc in Hx.
Qed.

(** A valid service name is one path segment. *)
Lemma isValidFilename_segment s : isValidFilename s = true -> segment_ok s.
Proof.
  intros H. split; [by apply (isValidFilename_lacks "/")|].
  unfold isValidFilename in H. repeat split; intros ->; by vm_compute in H.
Qed.

(** ** Lemmas: [cam add] *)

(** The lines [addService] logs before it stores. *)
Definition announced (name u v : string) (w : World) : World :=
  with_console (Log ("Version: " +:+ v))
    (with_console (Log ("Service UUID: " +:+ u)) (with_console (Log ("Service Name: " +:+ name)) w)).

(** What [cam add] hands to [storeServiceInfo]. *)
Record add_request_ok (name u v : string) : Prop := mkAddOk {
  add_name : isValidFilename name = true;
  add_uuid : u <> "";
  add_uuid_at : lacks "@" u = true;
  add_uuid_colon : lacks ":" u = true;
  add_version : isValidVersion v = true;
  add_version_at : lacks "@" v = true
}.

Lemma Forall_default_lookup (P : string -> Prop) (l : list string) i d :
  Forall P l -> P d -> P (default d (l !! i)).
Proof.
  intros Hl Hd. destruct (l !! i) as [x|] eqn:E; simpl; [|done].
  by eapply Forall_lookup_1.
Qed.

Section AddLemmas.
Context (server : forall T, list sent_request -> option string -> Endpoint T -> net T).
Context (prettier : string -> option string) (rm_cwd : IO unit).

Lemma addService_outcomes i w :
  (exists msg, addService server prettier rm_cwd i w = (Exit 1, with_console (Error msg) w)) \/
  exists name u v, add_request_ok name u v /\
    addService server prettier rm_cwd i w =
    storeServiceInfo server prettier rm_cwd name u v (announced name u v w).
Proof.
  unfold addService. pose proof (split_on_lacks_sep "@" i) as Hp.
  set (parts := split_on "@" i) in *. set (v := str_or (default "" (parts !! 1)) "latest").
  destruct (isValidVersion v) eqn:Hv; [|left; by eexists]. simpl negb. cbv iota zeta.
  assert (Hvl : lacks "@" v = true).
  { unfold v, str_or. case_match; [done|]. by apply (Forall_default_lookup (fun p => lacks "@" p = true)). }
  set (nameAndUuid := default "" (head parts)).
  destruct (String.eqb nameAndUuid ""); [left; by eexists|].
  assert (Hn : lacks "@" nameAndUuid = true).
  { unfold nameAndUuid. inversion Hp; [done|]. done. }
  pose proof (split_on_lacks_sep ":" nameAndUuid) as Hc.
  pose proof (split_on_lacks_other ":" "@" nameAndUuid Hn) as Ha.
  set (pieces := split_on ":" nameAndUuid) in *.
  set (name := default "" (head pieces)). set (u := default "" (pieces !! 1)).
  destruct (String.eqb_spec name ""), (String.eqb_spec u ""); simpl orb; cbv iota; try (left; by eexists).
  destruct (isValidFilename name) eqn:Hf; [|left; by eexists]. simpl negb. cbv iota.
  right. exists name, u, v. split; [|done]. split; try done.
  - by apply (Forall_default_lookup (fun p => lacks "@" p = true)).
  - by apply (Forall_default_lookup (fun p => lacks ":" p = true)).
Qed.

Lemma addService_parse name u rest w :
  isValidFilename name = true -> lacks "@" name = true -> u <> "" ->
  lacks "@" u = true -> lacks ":" u = true ->
  (rest = [] \/ exists v, rest = [v]) ->
  let v := str_or (default "" (head rest)) "latest" in
  isValidVersion v = true -> Forall (fun v => lacks "@" v = true) rest ->
  addService server prettier rm_cwd (join "@" ((name +:+ ":" +:+ u) :: rest)) w =
  storeServiceInfo server prettier rm_cwd name u v (announced name u v w).
Proof.
  intros Hf Hna Hu Hua Huc Hrest v Hv Hrl.
  assert (Hnc : lacks ":" name = true) by by apply isValidFilename_lacks.
  assert (Hnu : lacks "@" (name +:+ ":" +:+ u) = true).
  { unfold lacks in *. rewrite !str_forallb_app. by rewrite Hna, Hua. }
  assert (Hsplit : split_on "@" (join "@" ((name +:+ ":" +:+ u) :: rest)) = (name +:+ ":" +:+ u) :: rest).
  { destruct Hrest as [-> |[v' ->]]; [by apply split_on_lacks|].
    change (join "@" [name +:+ ":" +:+ u; v']) with ((name +:+ ":" +:+ u) +:+ String "@" v').
    rewrite split_on_app by done. rewrite split_on_lacks; [done|]. by inversion Hrl. }
  unfold addService. rewrite Hsplit. cbv zeta.
  change (default "" (head ((name +:+ ":" +:+ u) :: rest))) with (name +:+ ":" +:+ u).
  replace (((name +:+ ":" +:+ u) :: rest) !! 1) with (head rest) by (by destruct rest).
  fold v. rewrite Hv. simpl negb. cbv iota.
  destruct (String.eqb_spec (name +:+ ":" +:+ u) "") as [E|_]; [by destruct name|].
  change (":" +:+ u) with (String ":" u). rewrite split_on_app, split_on_lacks by done.
  change (default "" (head [name; u])) with name. change (default "" ([name; u] !! 1)) with u.
  destruct (String.eqb_spec name "") as [-> |_]; [done|].
  rewrite (proj2 (String.eqb_neq u "")) by done. simpl orb. by rewrite Hf.
Qed.
End AddLemmas.

(** ** The configuration's invariant *)

(** What a recorded service is: [uuid@version], both valid. *)
Definition entry_ok (v : string) : Prop :=
  uuid_of v <> "" /\ exists ver, version_of v = Some ver /\ isValidVersion ver = true.

Record services_ok (s : obj string) : Prop := mkServicesOk {
  ok_names : obj_wf s;
  ok_uuids : NoDup (uuid_of <$> s.*2);
  ok_segments : Forall segment_ok s.*1;
  ok_entries : Forall entry_ok s.*2
}.

Definition config_inv (w : World) : Prop :=
  forall c, files w !! config_path = Some (ConfigFile c) -> services_ok (default [] (services c)).

Lemma services_ok_nil : services_ok [].
Proof. split; constructor. Qed.

Lemma services_ok_delete s k : services_ok s -> services_ok (obj_delete s k).
Proof.
  intros [H1 H2 H3 H4]. pose proof (obj_delete_sublist s k) as Hs.
  assert (Hs1 : (obj_delete s k).*1 `sublist_of` s.*1) by by apply sublist_map.
  assert (Hs2 : (obj_delete s k).*2 `sublist_of` s.*2) by by apply sublist_map.
  split.
  - by apply obj_delete_wf.
  - eapply sublist_NoDup; [exact H2|]. by apply sublist_map.
  - by eapply Forall_sub.
  - by eapply Forall_sub.
Qed.

Lemma services_ok_add s k u v :
  services_ok s -> (forall x, obj_get s k = Some x -> x = "") -> Forall (fun x => uuid_of x <> u) s.*2 ->
  segment_ok k -> u <> "" -> lacks "@" u = true -> isValidVersion v = true -> lacks "@" v = true ->
  services_ok (assign_member s k (u +:+ "@" +:+ v)).
Proof.
  intros [H1 H2 H3 H4] Ht Hu Hk Hu0 Hul Hv Hvl. unfold assign_member. case_decide; [done|].
  assert (Hsplit : split_on "@" (u +:+ "@" +:+ v) = [u; v]).
  { change ("@" +:+ v) with (String "@" v). by rewrite split_on_app, split_on_lacks. }
  assert (Hnone : obj_get s k = None).
  { destruct (obj_get s k) as [x|] eqn:E; [|done]. specialize (Ht x eq_refl). subst x.
    rewrite Forall_forall in H4. destruct (H4 "") as [[] _]; [|done].
    apply list_elem_of_fmap. exists (k, ""). split; [done|]. by apply obj_get_In. }
  rewrite obj_set_new by done. split.
  - rewrite <-(obj_set_new s k) by done. by apply obj_set_wf.
  - rewrite !fmap_app. apply NoDup_app. split; [done|]. split; [|apply NoDup_singleton].
    intros x (y & -> & Hy)%list_elem_of_fmap E%list_elem_of_singleton.
    rewrite Forall_forall in Hu. apply (Hu y Hy). rewrite E. unfold uuid_of. simpl. by rewrite Hsplit.
  - rewrite fmap_app. apply Forall_app. split; [done|]. by apply Forall_singleton.
  - rewrite fmap_app. apply Forall_app. split; [done|]. apply Forall_singleton. simpl.
    unfold entry_ok, uuid_of, version_of. rewrite Hsplit. split; [done|]. by exists v.
Qed.

(** ** Lemmas: every command keeps the invariant *)

Lemma config_inv_same w w' : files w' = files w -> dirs w' = dirs w -> keeps config_inv w w'.
Proof. intros Hf _ H c. rewrite Hf. apply H. Qed.

Lemma config_inv_text p s : preserves (keeps config_inv) (write_file p (Text s)).
Proof.
  intros w H. unfold write_file. do 2 (case_decide; [simpl; try done|]); [|done].
  intros c. simpl. destruct (decide (p = config_path)) as [-> |Hne].
  - by rewrite lookup_insert_eq.
  - rewrite lookup_insert_ne by done. apply H.
Qed.

Lemma config_inv_mkdirs p : preserves (keeps config_inv) (mkdirs p).
Proof. intros w H. unfold mkdirs. by case_decide. Qed.

Lemma config_inv_rm_tree d : preserves (keeps config_inv) (rm_tree d).
Proof. intros w H c [Hc _]%map_lookup_filter_Some. by apply H. Qed.

Lemma config_inv_write c :
  services_ok (default [] (services c)) -> preserves (keeps config_inv) (write_file config_path (ConfigFile c)).
Proof.
  intros Hc w H. unfold write_file. do 2 (case_decide; [simpl; try done|]); [|done].
  intros c'. simpl. rewrite lookup_insert_eq. by intros [= <-].
Qed.

Lemma readConfig_inv w :
  (exists c, readConfig w = (Ret c, w) /\ files w !! config_path = Some (ConfigFile c)) \/
  exists l, readConfig w = (Exit 1, with_console l w).
Proof.
  unfold readConfig, get_state, mbind, M_bind. case_decide; [|right; by eexists].
  destruct (files w !! config_path) as [[]|] eqn:E; [right; by eexists|left; by eexists|right; by eexists].
Qed.

(** A computation that starts by reading the configuration may use its
    invariant. *)
Lemma read_keeps {A} (f : CamConfig -> IO A) :
  (forall c, services_ok (default [] (services c)) -> preserves (keeps config_inv) (f c)) ->
  preserves (keeps config_inv) (readConfig ≫= f).
Proof.
  intros Hf w H. destruct (readConfig_inv w) as [(c & Hr & Hc)|(l & Hr)].
  - rewrite (bind_Ret _ _ _ _ _ Hr). apply Hf; [by apply H|done].
  - rewrite (bind_Exit _ _ _ _ _ Hr). by apply (config_inv_same w).
Qed.

Section Invariant.
Context (server : forall T, list sent_request -> option string -> Endpoint T -> net T).
Context (prettier : string -> option string) (rm_cwd : IO unit).
Context (answers : string * string) (show_table : list (string * string) -> string).
Hypothesis Hcwd : preserves (keeps config_inv) rm_cwd.

Lemma say_inv l : preserves (keeps config_inv) (say l).
Proof using. apply say_kept, config_inv_same. Qed.

Lemma request_inv {T} (e : Endpoint T) : preserves (keeps config_inv) (CliWorld.request server e).
Proof using. apply request_kept, config_inv_same. Qed.

Lemma setToken_inv t : preserves (keeps config_inv) (setToken t).
Proof using. intros w. by apply config_inv_same. Qed.

Lemma setUser_inv u : preserves (keeps config_inv) (setUser u).
Proof using. intros w. by apply config_inv_same. Qed.

Lemma pull_inv : preserves (keeps config_inv) (pullAllApisInAllServices server prettier rm_cwd).
Proof using Hcwd.
  exact (pull_kept server prettier rm_cwd (keeps config_inv) config_inv_same config_inv_text
    config_inv_mkdirs config_inv_rm_tree Hcwd).
Qed.

#[local] Hint Resolve say_inv request_inv setToken_inv setUser_inv pull_inv : preserves.

Lemma store_inv name u v :
  segment_ok name -> u <> "" -> lacks "@" u = true -> isValidVersion v = true -> lacks "@" v = true ->
  preserves (keeps config_inv) (storeServiceInfo server prettier rm_cwd name u v).
Proof using Hcwd.
  intros Hn Hu Hul Hv Hvl. apply read_keeps. intros c Hc.
  destruct (truthy_member (default [] (services c)) name && _) eqn:Et; [preserve|].
  destruct (existsb _ _) eqn:Eu; [preserve|].
  pose proof (config_inv_write (with_services (assign_member (default [] (services c)) name (u +:+ "@" +:+ v)) c)) as Hw.
  assert (Hok : services_ok (assign_member (default [] (services c)) name (u +:+ "@" +:+ v))).
  { destruct (services c) as [s|].
    - apply services_ok_add; [done| | |done..].
      + intros x Hx. rewrite andb_true_r in Et. unfold truthy_member in Et.
        change (default [] (Some s)) with s in *. rewrite Hx in Et.
        by apply negb_false_iff, String.eqb_eq in Et.
      + apply Forall_forall. intros x Hx E. apply not_true_iff_false in Eu. apply Eu, existsb_exists.
        exists x. rewrite E, String.eqb_refl. split; [|done]. apply list_elem_of_In.
        unfold values. by rewrite entries_Permutation.
    - by apply services_ok_add. }
  specialize (Hw Hok). preserve.
Qed.
Lemma addService_inv i : preserves (keeps config_inv) (addService server prettier rm_cwd i).
Proof using Hcwd.
  intros w. destruct (addService_outcomes server prettier rm_cwd i w) as [[msg ->]|(n & u & v & [] & ->)].
  - by apply config_inv_same.
  - intros H. apply store_inv; [by apply isValidFilename_segment|done..].
Qed.

Lemma login_inv : preserves (keeps config_inv) (login server answers).
Proof using. unfold login. preserve. Qed.

Lemma run_inv cmd : preserves (keeps config_inv) (run server prettier rm_cwd answers show_table cmd).
Proof using Hcwd.
  pose proof login_inv. pose proof addService_inv.
  assert (Hr : forall fn, preserves (keeps config_inv) fn ->
    preserves (keeps config_inv) (loginRequired server answers fn)).
  { intros fn Hfn. unfold loginRequired. preserve. }
  pose proof (config_inv_write CONFIG_FILE_CONTENT services_ok_nil).
  destruct cmd; simpl; [apply Hr; unfold init; preserve|done|unfold logout; preserve|unfold whoami; preserve
    |by apply Hr| |apply Hr, pull_inv].
  apply Hr. apply read_keeps. intros c Hc.
  pose proof (config_inv_write (with_services (obj_delete (default [] (services c)) name) c)
    (services_ok_delete _ _ Hc)). cbv zeta. preserve.
Qed.
End Invariant.

(** ** Properties *)

(** A session: commands run one after the other, each against its own server,
    formatter and prompt answers. *)
Record Invocation := mkInvocation {
  inv_server : forall T, list sent_request -> option string -> Endpoint T -> net T;
  inv_prettier : string -> option string;
  inv_rm_cwd : IO unit;
  inv_answers : string * string;
  inv_table : list (string * string) -> string;
  inv_command : Command
}.

Definition invoke (w : World) (i : Invocation) : World :=
  (run (inv_server i) (inv_prettier i) (inv_rm_cwd i) (inv_answers i) (inv_table i) (inv_command i) w).2.

(** C17. The configuration stays well formed.  From a directory without a
    configuration file, whatever commands are run, in any order, against any
    server, and however they end: the recorded services have pairwise different
    names and pairwise different uuids, every name is one path segment, and every
    entry reads [uuid@version] with a valid version. *)
Theorem session_config_ok (l : list Invocation) w
  (Hcwd : Forall (fun i => preserves (keeps config_inv) (inv_rm_cwd i)) l)
  (Hfresh : files w !! config_path = None) :
  forall c, files (foldl invoke w l) !! config_path = Some (ConfigFile c) ->
  services_ok (default [] (services c)).
Proof.
  change (config_inv (foldl invoke w l)).
  assert (H : config_inv w) by (intros c; by rewrite Hfresh). clear Hfresh. revert w H.
  induction Hcwd as [|i l Hi _ IH]; intros w H; [done|]. apply IH. by apply run_inv.
Qed.

Definition sample_invocation (c : Command) : Invocation :=
  mkInvocation sample_server (fun _ => None) (mret ()) ("ann", "secret") (fun _ => "table") c.
Definition fresh_world : World := mkWorld ∅ {[ ["src"] ]} None [] [].
Definition sample_session : list Invocation :=
  [mkInvocation (fun T _ _ e => match e in Endpoint T return net T with
      | GetMyInfo => NetOk (mkUserResponse 200 "" (mkUserProfile 1 "ann" "Ann" "a@b" "Developer" 1 "now"))
      | e => sample_answer _ e end)
     (fun _ => None) (mret ()) ("ann", "secret") (fun _ => "table") CmdInit;
   sample_invocation (CmdAdd "shop:shop-id@1.0.0"); sample_invocation (CmdAdd "shop:other")].

Lemma session_config_ok_witness :
  exists c, files (foldl invoke fresh_world sample_session) !! config_path = Some (ConfigFile c) /\
    services c = Some [("shop", "shop-id@1.0.0")] /\ services_ok (default [] (services c)).
Proof.
  eexists. split; [vm_compute; reflexivity|]. split; [vm_compute; reflexivity|].
  apply (session_config_ok sample_session fresh_world); [|done|vm_compute; reflexivity].
  do 3 (apply Forall_cons; split; [apply preserves_ret|]). by apply Forall_nil.
Defined.

(** [cam add] either refuses its argument, changing nothing but the console,
    or stores exactly one well-formed request; a refused argument exits with
    status 1.  The names it lets through are path segments, so no service can be
    generated outside the output directory. *)
Theorem addService_refuses_or_stores server prettier rm_cwd i w :
  (exists msg, addService server prettier rm_cwd i w = (Exit 1, with_console (Error msg) w)) \/
  exists name u v, add_request_ok name u v /\
    (forall out, path_join out name = path_of out ++ [name]) /\
    addService server prettier rm_cwd i w =
    storeServiceInfo server prettier rm_cwd name u v (announced name u v w).
Proof.
  destruct (addService_outcomes server prettier rm_cwd i w) as [?|(n & u & v & Hok & E)]; [by left|].
  right. exists n, u, v. split; [done|]. split; [|done].
  intros out. apply path_join_segment, isValidFilename_segment, Hok.
Qed.

(** What [cam add] reads is what was written: [name:uuid@version] and
    [name:uuid] are taken apart into their parts, the version defaulting to
    [latest]. *)
Theorem addService_roundtrip server prettier rm_cwd name u v w
  (Hok : add_request_ok name u v) (Hname : lacks "@" name = true) :
  addService server prettier rm_cwd (name +:+ ":" +:+ u +:+ "@" +:+ v) w =
    storeServiceInfo server prettier rm_cwd name u v (announced name u v w) /\
  addService server prettier rm_cwd (name +:+ ":" +:+ u) w =
    storeServiceInfo server prettier rm_cwd name u "latest" (announced name u "latest" w).
Proof.
  destruct Hok as [Hf Hu Hua Huc Hv Hva]. split.
  - pose proof (addService_parse server prettier rm_cwd name u [v] w Hf Hname Hu Hua Huc) as H.
    change (default "" (head [v])) with v in H.
    assert (E : str_or v "latest" = v).
    { unfold str_or. destruct (String.eqb_spec v "") as [-> |]; done. }
    rewrite E in H. rewrite <-H; [|right; by exists v|done|by apply Forall_singleton].
    unfold join. f_equal. rewrite !str_app_assoc. reflexivity.
  - apply (addService_parse server prettier rm_cwd name u [] w Hf Hname Hu Hua Huc); [by left|done|done].
Qed.

Lemma addService_roundtrip_witness :
  fst (addService sample_server (fun _ => None) (mret ()) ("store" +:+ ":" +:+ "shop-id" +:+ "@" +:+ "1.2.3")
    sample_world) = Exit 1.
Proof.
  rewrite (proj1 (addService_roundtrip sample_server (fun _ => None) (mret ()) "store" "shop-id" "1.2.3"
    sample_world ltac:(split; vm_compute; done) eq_refl)).
  vm_compute. reflexivity.
Defined.

(** A version is accepted exactly when it is [latest] or three runs of digits
    separated by dots. *)
Theorem isValidVersion_spec v :
  isValidVersion v = true <->
  v = "latest" \/ exists x y z, v = x +:+ "." +:+ y +:+ "." +:+ z /\
    is_numeral x = true /\ is_numeral y = true /\ is_numeral z = true /\
    lacks "." x = true /\ lacks "." y = true /\ lacks "." z = true.
Proof.
  unfold isValidVersion, version_format. split.
  - destruct (String.eqb_spec v "") as [|_]; [done|]. destruct (String.eqb_spec v "latest"); [by left|].
    intros H. right. pose proof (join_split_on "." v) as E. pose proof (split_on_lacks_sep "." v) as Hl.
    destruct (split_on "." v) as [|x [|y [|z []]]]; try done.
    rewrite !andb_true_iff in H. destruct H as [[]]. exists x, y, z. split; [by rewrite <-E|].
    do 3 (inversion Hl as [|?? ? Hl']; subst; clear Hl; rename Hl' into Hl). done.
  - intros [-> |(x & y & z & -> & Hx & Hy & Hz & Hlx & Hly & Hlz)]; [done|].
    destruct (String.eqb_spec (x +:+ "." +:+ y +:+ "." +:+ z) "") as [E|_]; [by destruct x|]. case_match; [done|].
    change ("." +:+ y +:+ "." +:+ z) with (String "." (y +:+ String "." z)).
    by rewrite !split_on_app, split_on_lacks, Hx, Hy, Hz.
Qed.

(** ** Authentication *)

Lemma no_exit_bind {A B} (m : IO A) (f : A -> IO B) :
  (forall w c, (m w).1 <> Exit c) -> (forall a w c, (f a w).1 <> Exit c) ->
  forall w c, ((m ≫= f) w).1 <> Exit c.
Proof.
  intros Hm Hf w c. unfold mbind, M_bind. specialize (Hm w).
  destruct (m w) as [[a|e|x] w'] eqn:E; simpl in *; [apply Hf|done|intros [= ->]; by apply (Hm c)].
Qed.

(** [login] touches no file, and ends by returning or with status 1. *)
Lemma login_ends server answers w :
  let '(o, w') := login server answers w in fs_same w w' /\ (o = Ret tt \/ o = Exit 1).
Proof.
  assert (Hs : preserves fs_same (login server answers)).
  { assert (preserves fs_same (CliWorld.request server (UserLogin answers.1 answers.2)))
      by apply request_quiet.
    assert (preserves fs_same (CliWorld.request server GetMyInfo))
      by apply request_quiet.
    assert (forall l, preserves fs_same (say l)) by (intros ??; done).
    assert (forall t, preserves fs_same (setToken t)) by (intros ??; done).
    assert (forall u, preserves fs_same (setUser u)) by (intros ??; done).
    unfold login. preserve. }
  specialize (Hs w). destruct (login server answers w) as [o w'] eqn:E. split; [done|]. clear Hs.
  assert (Hn : forall (m : IO unit), (forall w c, (m w).1 <> Exit c) -> forall w,
    let '(o, _) := try_catch m (fun e => say (Error (error_to_string e)) ;; exit 1) w in o = Ret tt \/ o = Exit 1).
  { intros m Hm w0. unfold try_catch. specialize (Hm w0). destruct (m w0) as [[[]|e|c] w0']; [by left|by right|].
    by destruct (Hm c). }
  unfold login in E. match type of E with try_catch ?m _ _ = _ =>
    assert (Hm : forall w c, (m w).1 <> Exit c); [|specialize (Hn m Hm w); by rewrite E in Hn] end.
  repeat first [apply request_no_exit|apply no_exit_bind; [|intros ?]|case_decide|done].
Qed.

(** A guarded command only runs with a token.  Either it runs, in a world
    where a token is stored and whose files nothing has touched, or it does not
    run at all: then no file changed, and no token is stored or the login
    failed. *)
Theorem loginRequired_safe server answers fn w :
  exists w0, fs_same w w0 /\
    ((loginRequired server answers fn w = fn w0 /\ getToken w0 <> None /\ (getToken w <> None -> w0 = w)) \/
     (exists o, loginRequired server answers fn w = (o, w0) /\ getToken w = None /\
        (o = Exit 1 \/ o = Ret tt /\ getToken w0 = None))).
Proof.
  unfold loginRequired. rewrite (bind_Ret _ _ w w w) by done.
  destruct (getToken w) as [t|] eqn:Et.
  - exists w. split; [done|]. left. split; [done|]. split; [congruence|done].
  - erewrite bind_Ret by reflexivity.
    set (w1 := with_console _ w). pose proof (login_ends server answers w1) as Hl.
    destruct (login server answers w1) as [o w2] eqn:E.
    destruct Hl as [[Hf Hd] Ho]. exists w2. split; [by split|].
    destruct Ho as [-> | ->].
    + rewrite (bind_Ret _ _ _ _ _ E), (bind_Ret _ _ w2 w2 w2) by done.
      destruct (getToken w2) eqn:E2; [left|right; exists (Ret tt); auto].
      split; [done|]. split; congruence.
    + right. rewrite (bind_Exit _ _ _ _ _ E). exists (Exit 1). auto.
Qed.

(** Logging in, by the server's answers.  A rejected or failing login leaves
    no new credentials (a 401 drops the old token); an accepted one stores the
    token, and the profile too when the second request delivers it.  When that
    request fails the token stays without a profile, unless it was refused with a
    401. *)
Theorem login_outcome server answers w :
  let e := UserLogin answers.1 answers.2 in
  let '(o, w') := login server answers w in
  match server _ (sent w) (getToken w) e with
  | NetErr st _ =>
      o = Exit 1 /\ getToken w' = (if decide (st = Some 401%Z) then None else getToken w)
  | NetOk res =>
      if decide (login_status res <> 200%Z) then o = Ret tt /\ camrc w' = camrc w
      else
        let tok := if String.eqb (access_token res) "" then None else Some (access_token res) in
        match server _ (sent w ++ [(getToken w, encode e)]) tok GetMyInfo with
        | NetOk r =>
            o = Ret tt /\ getToken w' = tok /\
            getUser w' = (if decide (user_status r <> 200%Z) then getUser w else Some (Profile (user_user r)))
        | NetErr st _ =>
            o = Exit 1 /\
            if decide (st = Some 401%Z) then getToken w' = None
            else getToken w' = tok /\ getUser w' = getUser w
        end
  end.
Proof.
  cbv zeta. unfold login, try_catch. erewrite bind_Ret by reflexivity. set (w0 := with_console _ w).
  change (sent w) with (sent w0). change (getToken w) with (getToken w0).
  change (getUser w) with (getUser w0). change (camrc w) with (camrc w0).
  set (e := UserLogin _ _). destruct (server _ (sent w0) (getToken w0) e) as [res|st msg] eqn:E.
  2:{ destruct (request_failed server e w0 st msg E) as (er & w1 & H & Ht & _).
      by rewrite (bind_Throw _ _ _ _ _ H). }
  rewrite (bind_Ret _ _ _ _ _ (request_NetOk server e w0 res E)).
  case_decide; [done|]. erewrite bind_Ret by reflexivity.
  set (w1 := with_sent _ w0). set (w2 := with_camrc _ w1).
  set (tok := if String.eqb (access_token res) "" then None else Some (access_token res)).
  change tok with (getToken w2). change (sent w0 ++ [(getToken w0, encode e)]) with (sent w2).
  destruct (server _ (sent w2) (getToken w2) GetMyInfo) as [r|st msg] eqn:E2.
  - rewrite (bind_Ret _ _ _ _ _ (request_NetOk server GetMyInfo w2 r E2)). by case_decide.
  - destruct (request_failed server GetMyInfo w2 st msg E2) as (er & w3 & Hr & Ht & Hc).
    rewrite (bind_Throw _ _ _ _ _ Hr). split; [done|]. case_decide; [done|].
    split; [done|]. unfold getUser, readCamrc. simpl. by rewrite Hc.
Qed.
