(* ===== verification/FeTypes.v ===== *)
(** * Front-end data and requests

    [FE-CAM/src/services/*/types.ts] and [FE-CAM/src/services/*/index.ts]: the
    records the pages hold, the response of every endpoint, and the request each
    service function sends.  [interface X extends BaseResponse { ... }] is
    [Response] of the remaining members; members the code reads with [||] or
    [?.] are options. *)

From S2P Require Import Prelude JsObject ApiTypes.
From Stdlib Require Import String ZArith.

Record Response (P : Type) := mkResponse { status : Z; message : string; payload : P }.
Arguments mkResponse {P} status message payload.
Arguments status {P} r.
Arguments message {P} r.
Arguments payload {P} r.

(** ** Users ([services/user/types.ts]) *)

Record LoginRequest := mkLoginRequest { login_username : string; login_password : string }.

Record RegisterRequest := mkRegisterRequest {
  reg_username : string; reg_password : string; reg_nickname : string;
  reg_email : string; reg_role : string }.

(** With the [confirm_new_password] of the form: the hook hands the whole object
    to the service function, which posts it as it is. *)
Record ModifyPasswordRequest := mkModifyPasswordRequest {
  old_password : string; new_password : string; confirm_new_password : string }.

Record UserProfile := mkUserProfile {
  user_id : Z; username : string; nickname : string; email : string;
  role : string; level : Z; created_at : string }.

(** ** Services ([services/service/types.ts]) *)

(** [ServiceItem], [DeletedServiceItem] and [AllServiceItem]. *)
Record ServiceItem := mkServiceItem {
  service_id : Z;
  service_uuid : string;
  service_version : string;
  service_description : option string;
  owner_id : Z;
  service_created_at : string;
  is_deleted : bool;
  owner : option UserProfile;
  deleted_at : option string
}.

Record ApiBrief := mkApiBrief {
  api_id : Z;
  api_name : string;
  api_method : HttpMethod;
  api_path : string;
  api_description : option string;
  api_level : option ApiLevel;
  is_enabled : option bool;
  category_id : option Z
}.

Record ApiCategory := mkApiCategory {
  cat_id : Z; cat_name : string; cat_description : option string }.

(** A member that may be absent, and null when present. *)
Notation member A := (option (option A)).

Record ServiceDetail := mkServiceDetail {
  detail_item : ServiceItem;
  maintainers : option (list UserProfile);
  apis : member (list ApiBrief);
  api_categories : member (list ApiCategory)
}.

Record ServiceIterationDetail := mkServiceIterationDetail {
  iteration_id : Z;
  iteration_service_id : Z;
  iteration_version : option string;
  iteration_service : option ServiceItem;
  creator : UserProfile;
  api_drafts : member (list ApiBrief)
}.

(** [ServiceDetail | ServiceIterationDetail]. *)
Inductive AnyService :=
| Latest (d : ServiceDetail)
| Past (d : ServiceIterationDetail).

(** The list is [services], or [deleted_services] of [GetAllDeletedServicesByUserId]. *)
Record ServiceListResponse := mkServiceListResponse {
  list_services : option (list ServiceItem); list_total : option Z }.

Record GetServiceByUuidAndVersionResponse := mkGetServiceResponse {
  res_service : option AnyService; res_is_latest : bool }.

Record ServiceVersion := mkServiceVersion { version : string; is_latest : bool }.

(** ** APIs ([services/api/types.ts]) *)

(** [ApiDetail | ApiDraftDetail]. *)
Record ApiDetail := mkApiDetail {
  detail_api : ApiBrief;
  api_owner : option UserProfile;
  api_created_at : option string;
  api_updated_at : option string;
  request_params_by_location : option (obj (list Param));
  response_params_by_status_code : option (obj (list Param))
}.

Record AddApiRequest := mkAddApiRequest {
  add_iteration_id : Z; add_name : string; add_method : HttpMethod; add_path : string;
  add_description : string; add_level : ApiLevel; add_category_id : option Z }.

(** [ApiReqParamInput] and [ApiRespParamInput]: [input_place] is the [location]
    of the first and the [status_code] of the second ([None] is [NaN]). *)
Inductive InputPlace :=
| AtLocation (location : string)
| AtStatus (code : option Z).

Inductive ParamInput := mkParamInput {
  input_name : string;
  input_type : string;
  input_place : InputPlace;
  input_required : bool;
  input_default : option string;
  input_description : option string;
  input_example : option string;
  input_array_child : option string;
  input_children : option (list ParamInput)
}.

Record UpdateApiRequest := mkUpdateApiRequest {
  upd_draft_id : Z; upd_name : string; upd_method : HttpMethod; upd_path : string;
  upd_description : string; upd_level : ApiLevel;
  req_params : list ParamInput; resp_params : list ParamInput }.

(** ** Endpoints *)

Inductive Endpoint : Type -> Type :=
| UserLogin (data : LoginRequest) : Endpoint (Response string)
| UserRegister (data : RegisterRequest) : Endpoint (Response unit)
| UserModifyPassword (data : ModifyPasswordRequest) : Endpoint (Response unit)
| GetUserById (id : Z) : Endpoint (Response (option UserProfile))
| GetMyInfo : Endpoint (Response (option UserProfile))
| GetUserByUsernameOrNicknameOrEmail (q : string) : Endpoint (Response (option (list UserProfile)))
| GetMyNewestServices (page_size current_page : Z) : Endpoint (Response ServiceListResponse)
| GetMyMaintainedServices (page_size current_page : Z) : Endpoint (Response ServiceListResponse)
| GetAllServices (page_size current_page : Z) : Endpoint (Response ServiceListResponse)
| GetHisNewestServicesByOwnerId (owner page_size current_page : Z) : Endpoint (Response ServiceListResponse)
| GetAllDeletedServicesByUserId (page_size current_page : Z) : Endpoint (Response ServiceListResponse)
| GetServiceById (id : Z) : Endpoint (Response (option ServiceDetail))
| GetServiceByUuidAndVersion (uuid version : string) : Endpoint (Response GetServiceByUuidAndVersionResponse)
| GetAllVersionsByUuid (uuid : string) : Endpoint (Response (option (list ServiceVersion)))
| CreateNewService (uuid description : string) : Endpoint (Response unit)
| DeleteServiceById (id : Z) : Endpoint (Response unit)
| RestoreServiceById (id : Z) : Endpoint (Response unit)
| DeleteIterationById (id : Z) : Endpoint (Response unit)
| GetIterationById (id : Z) : Endpoint (Response (option ServiceIterationDetail))
| StartIteration (service : option Z) : Endpoint (Response Z)
| CommitIteration (iteration : Z) (new_version : string) : Endpoint (Response unit)
| UpdateDescription (iteration : Z) (description : string) : Endpoint (Response unit)
| IsServiceMaintainer (service : option Z) (candidate : Z) : Endpoint (Response bool)
| AddOrRemoveServiceMaintainerById (service : option Z) (candidate : Z) : Endpoint (Response bool)
| ExportOpenapiByUuidAndVersion (uuid version : string) : Endpoint (Response string)
| GetAllCategoriesByServiceId (service : Z) : Endpoint (Response (option (list ApiCategory)))
| GetAllApisByServiceId (service category : Z) : Endpoint (Response (option (list ApiBrief)))
| GetApiById (api : Z) (latest : option bool) : Endpoint (Response (option ApiDetail))
| AddCategoryByServiceId (service : option Z) (name : string) (description : option string)
    : Endpoint (Response ApiCategory)
| DeleteCategoryById (category : Z) : Endpoint (Response unit)
| UpdateCategoryById (category : Z) (name description : option string) : Endpoint (Response ApiCategory)
| UpdateApiCategoryById (api category : Z) : Endpoint (Response unit)
| AddApi (data : AddApiRequest) : Endpoint (Response unit)
| CopyApiByApiDraftId (iteration draft : Z) : Endpoint (Response unit)
| DeleteApiByApiDraftId (iteration draft : Z) : Endpoint (Response unit)
| UpdateApiByApiDraftId (iteration : Z) (data : UpdateApiRequest) : Endpoint (Response unit).

(** ** What is sent *)

(** JSON values; [Stringified j] is the string [JSON.stringify(j)]. *)
Inductive json :=
| JNull | JBool (b : bool) | JNum (z : Z) | JStr (s : string)
| JArr (l : list json) | JObj (o : list (string * json)) | Stringified (j : json).

Inductive http_verb := HttpGet | HttpPost.

(** Method, path, and query parameters or body; [undefined] members are left
    out. *)
Record HttpRequest := mkHttpRequest { verb : http_verb; url : string; data : list (string * json) }.

Definition level_name (l : ApiLevel) : string :=
  match l with P0 => "P0" | P1 => "P1" | P2 => "P2" | P3 => "P3" | P4 => "P4" end.

(** An [undefined] id is left out of the body. *)
Definition id_member (k : string) (i : option Z) : list (string * json) :=
  match i with Some z => [(k, JNum z)] | None => [] end.

Definition json_opt (o : option string) : json := match o with Some s => JStr s | None => JNull end.

(** An [undefined] string is left out. *)
Definition str_member (k : string) (o : option string) : list (string * json) :=
  match o with Some s => [(k, JStr s)] | None => [] end.

Fixpoint input_json (p : ParamInput) : json :=
  let '(mkParamInput name type place required dflt descr example child children) := p in
  JObj ([("name", JStr name); ("type", JStr type)] ++
    match place with
    | AtLocation l => [("location", JStr l)]
    | AtStatus c => [("status_code", match c with Some z => JNum z | None => JNull end)]
    end ++
    [("required", JBool required)] ++
    match place with AtStatus _ => [] | AtLocation _ => [("default_value", json_opt dflt)] end ++
    [("description", json_opt descr); ("example", json_opt example); ("array_child_type", json_opt child)] ++
    match children with Some cs => [("children", JArr (map input_json cs))] | None => [] end).

Definition user_url (s : string) : string := "/v1/user/" +:+ s.
Definition service_url (s : string) : string := "/v1/service/" +:+ s.
Definition api_url (s : string) : string := "/v1/api/" +:+ s.

Definition page_params (page_size current_page : Z) : list (string * json) :=
  [("page_size", JNum page_size); ("current_page", JNum current_page)].

Definition encode {T} (e : Endpoint T) : HttpRequest :=
  let get u d := mkHttpRequest HttpGet u d in
  let post u d := mkHttpRequest HttpPost u d in
  match e with
  | UserLogin d => post (user_url "login")
      [("username", JStr (login_username d)); ("password", JStr (login_password d))]
  | UserRegister d => post (user_url "register")
      [("username", JStr (reg_username d)); ("password", JStr (reg_password d));
       ("nickname", JStr (reg_nickname d)); ("email", JStr (reg_email d)); ("role", JStr (reg_role d))]
  | UserModifyPassword d => post (user_url "modifyPassword")
      [("old_password", JStr (old_password d)); ("new_password", JStr (new_password d));
       ("confirm_new_password", JStr (confirm_new_password d))]
  | GetUserById i => get (user_url "getUserById") [("id", JNum i)]
  | GetMyInfo => get (user_url "getMyInfo") []
  | GetUserByUsernameOrNicknameOrEmail q => get (user_url "getUserByUsernameOrNicknameOrEmail")
      [("username_or_nickname_or_email", JStr q)]
  | GetMyNewestServices s c => get (service_url "getHisNewestServicesByOwnerId")
      (page_params s c ++ [("is_my_services", JBool true)])
  | GetMyMaintainedServices s c => get (service_url "getHisMaintainedServicesByUserId") (page_params s c)
  | GetAllServices s c => get (service_url "getAllServices") (page_params s c)
  | GetHisNewestServicesByOwnerId o s c => get (service_url "getHisNewestServicesByOwnerId")
      (page_params s c ++ [("is_my_services", JBool false); ("owner_id", JNum o)])
  | GetAllDeletedServicesByUserId s c => get (service_url "getAllDeletedServicesByUserId") (page_params s c)
  | GetServiceById i => get (service_url "getServiceById") [("id", JNum i)]
  | GetServiceByUuidAndVersion u v => get (service_url "getServiceByUuidAndVersion")
      [("service_uuid", JStr u); ("version", JStr v)]
  | GetAllVersionsByUuid u => get (service_url "getAllVersionsByUuid") [("service_uuid", JStr u)]
  | CreateNewService u d => post (service_url "createNewService")
      [("service_uuid", JStr u); ("description", JStr d)]
  | DeleteServiceById i => post (service_url "deleteServiceById") [("id", JNum i)]
  | RestoreServiceById i => post (service_url "restoreServiceById") [("id", JNum i)]
  | DeleteIterationById i => post (service_url "deleteIterationById") [("service_iteration_id", JNum i)]
  | GetIterationById i => get (service_url "getIterationById") [("id", JNum i)]
  | StartIteration s => post (service_url "startIteration") (id_member "service_id" s)
  | CommitIteration i v => post (service_url "commitIteration")
      [("service_iteration_id", JNum i); ("new_version", JStr v)]
  | UpdateDescription i d => post (service_url "updateDescription")
      [("service_iteration_id", JNum i); ("description", JStr d)]
  | IsServiceMaintainer s c => get (service_url "isServiceMaintainer")
      (id_member "service_id" s ++ [("candidate_id", JNum c)])
  | AddOrRemoveServiceMaintainerById s c => post (service_url "addOrRemoveServiceMaintainerById")
      (id_member "service_id" s ++ [("candidate_id", JNum c)])
  | ExportOpenapiByUuidAndVersion u v => get (service_url "exportOpenapiByUuidAndVersion")
      [("service_uuid", JStr u); ("version", JStr v)]
  | GetAllCategoriesByServiceId s => get (api_url "getAllCategoriesByServiceId") [("service_id", JNum s)]
  | GetAllApisByServiceId s c => get (api_url "getAllApisByServiceId")
      [("service_id", JNum s); ("category_id", JNum c)]
  | GetApiById i l => get (api_url "getApiById")
      (("api_id", JNum i) :: match l with Some b => [("is_latest", JBool b)] | None => [] end)
  | AddCategoryByServiceId s n d => post (api_url "addCategoryByServiceId")
      (id_member "service_id" s ++ [("category_name", JStr n)] ++ str_member "description" d)
  | DeleteCategoryById c => post (api_url "deleteCategoryById") [("category_id", JNum c)]
  | UpdateCategoryById c n d => post (api_url "updateCategoryById")
      ([("category_id", JNum c)] ++ str_member "category_name" n ++ str_member "description" d)
  | UpdateApiCategoryById a c => post (api_url "updateApiCategoryById")
      [("api_id", JNum a); ("category_id", JNum c)]
  | AddApi d => post (api_url "addApi")
      ([("service_iteration_id", JNum (add_iteration_id d)); ("name", JStr (add_name d));
        ("method", JStr (method_name (add_method d))); ("path", JStr (add_path d));
        ("description", JStr (add_description d)); ("level", JStr (level_name (add_level d)))] ++
       match add_category_id d with Some c => [("category_id", JNum c)] | None => [] end)
  | CopyApiByApiDraftId i d => post (api_url "copyApiByApiDraftId")
      [("service_iteration_id", JNum i); ("api_draft_id", JNum d)]
  | DeleteApiByApiDraftId i d => post (api_url "deleteApiByApiDraftId")
      [("service_iteration_id", JNum i); ("api_draft_id", JNum d)]
  | UpdateApiByApiDraftId i d => post (api_url "updateApiByApiDraftId")
      [("api_draft_id", JNum (upd_draft_id d)); ("name", JStr (upd_name d));
       ("method", JStr (method_name (upd_method d))); ("path", JStr (upd_path d));
       ("description", JStr (upd_description d)); ("level", JStr (level_name (upd_level d)));
       ("req_params", Stringified (JArr (map input_json (req_params d))));
       ("resp_params", Stringified (JArr (map input_json (resp_params d))));
       ("service_iteration_id", JNum i)]
  end.
