(* ===== verification/FeHttp.v ===== *)
(** * The front-end's HTTP layer and browser state

    [FE-CAM/src/request/index.ts]: the request interceptor that attaches the
    stored token, the response interceptor that drops the credentials on a 401 or
    a network failure, and [get]/[post].  [Browser] is what outlives a component:
    storage, messages shown, reloads and navigations.  The server is a
    parameter; requests are answered in the order they are awaited. *)

From S2P Require Import Prelude JsObject ApiTypes FeTypes.
From Stdlib Require Import String ZArith.

(** [Message.success], [.warning] and [.error], and the [Modal.warning] dialog. *)
Inductive toast := Success (s : string) | Warning (s : string) | Failure (s : string) | Dialog (s : string).

(** What axios delivers: a body, or an error with [code = ERR_NETWORK], an HTTP
    status when there was a response, and a message. *)
Inductive net (T : Type) :=
| NetOk (data : T)
| NetErr (network : bool) (status : option Z) (message : string).
Arguments NetOk {T} data.
Arguments NetErr {T} network status message.

Notation sent_request := (option string * HttpRequest)%type.
Notation Server := (forall T, list sent_request -> option string -> Endpoint T -> net T).

Record Browser := mkBrowser {
  (** [localStorage["cam_access_token"]]. *)
  access_token : option string;
  (** [sessionStorage["user-store"]]: the persisted [user]. *)
  user_store : option (option UserProfile);
  (** [sessionStorage["user-store-ttl"]], in milliseconds. *)
  user_store_ttl : option Z;
  messages : list toast;
  sent : list sent_request;
  reloads : nat;
  route : string
}.

Definition with_token (t : option string) (b : Browser) : Browser :=
  mkBrowser t (user_store b) (user_store_ttl b) (messages b) (sent b) (reloads b) (route b).
Definition with_user_store (u : option (option UserProfile)) (b : Browser) : Browser :=
  mkBrowser (access_token b) u (user_store_ttl b) (messages b) (sent b) (reloads b) (route b).
Definition with_ttl (t : Z) (b : Browser) : Browser :=
  mkBrowser (access_token b) (user_store b) (Some t) (messages b) (sent b) (reloads b) (route b).
Definition with_message (m : toast) (b : Browser) : Browser :=
  mkBrowser (access_token b) (user_store b) (user_store_ttl b) (messages b ++ [m]) (sent b) (reloads b) (route b).
Definition with_sent (r : sent_request) (b : Browser) : Browser :=
  mkBrowser (access_token b) (user_store b) (user_store_ttl b) (messages b) (sent b ++ [r]) (reloads b) (route b).
Definition with_reload (b : Browser) : Browser :=
  mkBrowser (access_token b) (user_store b) (user_store_ttl b) (messages b) (sent b) (S (reloads b)) (route b).
Definition with_route (r : string) (b : Browser) : Browser :=
  mkBrowser (access_token b) (user_store b) (user_store_ttl b) (messages b) (sent b) (reloads b) r.

(** A component's state next to the browser's. *)
Record Fe (H : Type) := mkFe { browser : Browser; hook : H }.
Arguments mkFe {H} browser hook.
Arguments browser {H} f.
Arguments hook {H} f.

Notation UI H := (M (Fe H)).

Definition set_hook {H} (f : H -> H) : UI H unit := modify (fun s => mkFe (browser s) (f (hook s))).
Definition set_browser {H} (f : Browser -> Browser) : UI H unit := modify (fun s => mkFe (f (browser s)) (hook s)).
Definition get_hook {H} : UI H H := fun s => (Ret (hook s), s).
Definition toast_up {H} (m : toast) : UI H unit := set_browser (with_message m).
Definition navigate {H} (r : string) : UI H unit := set_browser (with_route r).

(** [class ApiError extends Error]. *)
Definition ApiError (message : string) : js_error := JSError "ApiError" message.

(** [getAccessToken], as the header uses it. *)
Definition getAccessToken (b : Browser) : option string :=
  match access_token b with
  | Some t => if String.eqb t "" then None else Some t
  | None => None
  end.

(** The response interceptor's clean-up. *)
Definition drop_credentials (b : Browser) : Browser :=
  with_reload (with_user_store None (with_token None b)).

Section Request.
Context {H : Type}.
Variable server : Server.

(** [api.get] and [api.post] with both interceptors. *)
Definition request {T} (e : Endpoint T) : UI H T := fun s =>
  let tok := getAccessToken (browser s) in
  let b := with_sent (tok, encode e) (browser s) in
  match server T (sent (browser s)) tok e with
  | NetOk d => (Ret d, mkFe b (hook s))
  | NetErr network status msg =>
      let b' := if network || bool_decide (status = Some 401%Z) then drop_credentials b else b in
      (Throw (ApiError (str_or msg "Request error")), mkFe b' (hook s))
  end.
End Request.

(** ** Lemmas *)

Section RequestLemmas.
Context {H : Type}.
Variable server : Server.

Lemma fe_request_NetOk {T} (e : Endpoint T) (s : Fe H) d :
  server T (sent (browser s)) (getAccessToken (browser s)) e = NetOk d ->
  request server e s = (Ret d, mkFe (with_sent (getAccessToken (browser s), encode e) (browser s)) (hook s)).
Proof. intros E. unfold request. by rewrite E. Qed.

(** The front-end's HTTP layer leaves the component's state alone and throws
    [ApiError]s. *)
#[export] Instance http_layer :
  HttpLayer (fun T (e : Endpoint T) => request (H := H) server e) (fun s s' => hook s' = hook s)
    (fun err => exists m, err = ApiError m).
Proof.
  split; intros T e s; unfold request; destruct (server T _ _ e) as [d|n st msg]; try done.
  intros ? [= <-]. by eexists.
Qed.

Lemma request_cases {T} (e : Endpoint T) (s : Fe H) :
  exists q, hook q = hook s /\
    ((exists d, request server e s = (Ret d, q)) \/ exists m, request server e s = (Throw (ApiError m), q)).
Proof.
  destruct (http_answer e s) as (q & Hq & [Hd|(err & Hr & m & ->)]); exists q; eauto.
Qed.
End RequestLemmas.

(** ** Properties *)

(** The front-end's HTTP layer, by answer: the request carries the stored
    token; a response body is returned and changes nothing stored; a 401 or a
    network failure drops token and cached user and reloads the page; any other
    error keeps them.  Every failure reaches the caller as an [ApiError] with a
    non-empty message. *)
Theorem fe_request_outcome {H} (server : Server) T (e : Endpoint T) (s : Fe H) :
  let '(o, s') := request server e s in
  let b := browser s in
  let b' := browser s' in
  hook s' = hook s /\ sent b' = sent b ++ [(getAccessToken b, encode e)] /\ messages b' = messages b /\
  match server T (sent b) (getAccessToken b) e with
  | NetOk d => o = Ret d /\ access_token b' = access_token b /\ user_store b' = user_store b /\
               reloads b' = reloads b
  | NetErr network st msg =>
      (exists m, o = Throw (JSError "ApiError" m) /\ m <> "" /\ (msg <> "" -> m = msg)) /\
      if network || bool_decide (st = Some 401%Z)
      then access_token b' = None /\ user_store b' = None /\ reloads b' = S (reloads b)
      else access_token b' = access_token b /\ user_store b' = user_store b /\ reloads b' = reloads b
  end.
Proof.
  unfold request. destruct (server T _ _ e) as [d|n st msg]; [done|].
  assert (Hm : exists m, @Throw T (ApiError (str_or msg "Request error")) = Throw (JSError "ApiError" m) /\
    m <> "" /\ (msg <> "" -> m = msg)).
  { eexists. split; [done|]. unfold str_or. by destruct (String.eqb_spec msg ""). }
  by destruct (n || _).
Qed.
