(* ===== verification/Database.v ===== *)
(** * The back end's database

    [BE-CAM/database/models.py] and [enums.py]: the tables, their rows and enums,
    and [toJson], which turns a row into what the clients receive.  [Api] and
    [ApiDraft] have the same members but for their parent (the service, the
    iteration); so have the four tables of parameters. *)

From S2P Require Import Prelude Tables JsObject ApiTypes FeTypes.
From Stdlib Require Import String ZArith.

(** ** Enums *)

Inductive ParamType := TString | TInt | TDouble | TBoolean | TArray | TObject | TBinary.

#[global] Instance ParamType_eq_dec : EqDecision ParamType.
Proof. solve_decision. Defined.

Definition type_name (t : ParamType) : string :=
  match t with
  | TString => "string" | TInt => "int" | TDouble => "double" | TBoolean => "boolean"
  | TArray => "array" | TObject => "object" | TBinary => "binary"
  end.

#[global] Instance ParamLocation_eq_dec : EqDecision ParamLocation.
Proof. solve_decision. Defined.

(** [Enum(value)]: the member with that value, or [ValueError]. *)
Definition enum_of {E} (name : E -> string) (members : list E) (value : string) : option E :=
  List.find (fun e => String.eqb (name e) value) members.

Definition all_types : list ParamType := [TString; TInt; TDouble; TBoolean; TArray; TObject; TBinary].
Definition all_methods : list HttpMethod := [GET; POST; PUT; DELETE; PATCH].
Definition all_levels : list ApiLevel := [P0; P1; P2; P3; P4].
Definition all_roles : list string :=
  ["frontend"; "backend"; "fullstack"; "qa"; "devops"; "product_manager"; "designer"; "architect";
   "proj_lead"; "guest"].

(** ** Rows

    Points in time are microseconds since 1970. *)

(** [User]; [ur_level] is the value of its [UserLevel]. *)
Record UserRow := mkUserRow {
  ur_id : Z; ur_username : string; ur_password : string; ur_nickname : string; ur_email : string;
  ur_role : string; ur_level : Z; ur_created : Z }.

(** [Service], with the users linked to it by [user_service_link]. *)
Record ServiceRow := mkServiceRow {
  sr_id : Z; sr_owner : Z; sr_maintainers : list Z; sr_uuid : string; sr_version : string;
  sr_description : option string; sr_created : Z; sr_deleted : bool; sr_deleted_at : option Z }.

(** [ServiceIteration]. *)
Record IterationRow := mkIterationRow {
  ir_id : Z; ir_service : Z; ir_creator : Z; ir_version : option string; ir_description : option string;
  ir_committed : bool }.

(** [ApiCategory]. *)
Record CategoryRow := mkCategoryRow {
  cr_id : Z; cr_service : Z; cr_name : string; cr_description : option string }.

(** [Api] and [ApiDraft]: [ar_parent] is [service_id] or [service_iteration_id]. *)
Record ApiRow := mkApiRow {
  ar_id : Z; ar_parent : Z; ar_owner : Z; ar_category : option Z; ar_name : string; ar_method : HttpMethod;
  ar_path : string; ar_description : option string; ar_level : ApiLevel; ar_enabled : bool;
  ar_created : Z; ar_updated : Z }.

(** What request and response parameters do not share. *)
Inductive RowPlace :=
| RowRequest (location : ParamLocation) (default_value : option string)
| RowResponse (status_code : Z).

Record ParamData := mkParamData {
  pd_place : RowPlace; pd_name : string; pd_type : ParamType; pd_required : bool; pd_description : option string;
  pd_example : option string; pd_child : option ParamType }.

(** [RequestParam], [ResponseParam] and their drafts: [pr_api] is [api_id] or
    [api_draft_id]. *)
Record ParamRow := mkParamRow { pr_id : Z; pr_api : Z; pr_parent : option Z; pr_data : ParamData }.

#[global] Instance user_id_of : HasId UserRow := ur_id.
#[global] Instance service_id_of : HasId ServiceRow := sr_id.
#[global] Instance iteration_id_of : HasId IterationRow := ir_id.
#[global] Instance category_id_of : HasId CategoryRow := cr_id.
#[global] Instance api_id_of : HasId ApiRow := ar_id.
#[global] Instance param_id_of : HasId ParamRow := pr_id.

Record Db := mkDb {
  users : table UserRow;
  services : table ServiceRow;
  iterations : table IterationRow;
  categories : table CategoryRow;
  db_apis : table ApiRow;
  drafts : table ApiRow;
  req_params : table ParamRow;
  resp_params : table ParamRow;
  req_drafts : table ParamRow;
  resp_drafts : table ParamRow
}.

Definition empty_db : Db :=
  mkDb empty_table empty_table empty_table empty_table empty_table empty_table empty_table empty_table
    empty_table empty_table.

Definition on_users (f : table UserRow -> table UserRow) (d : Db) : Db :=
  mkDb (f (users d)) (services d) (iterations d) (categories d) (db_apis d) (drafts d) (req_params d) (resp_params d)
    (req_drafts d) (resp_drafts d).
Definition on_services (f : table ServiceRow -> table ServiceRow) (d : Db) : Db :=
  mkDb (users d) (f (services d)) (iterations d) (categories d) (db_apis d) (drafts d) (req_params d) (resp_params d)
    (req_drafts d) (resp_drafts d).
Definition on_iterations (f : table IterationRow -> table IterationRow) (d : Db) : Db :=
  mkDb (users d) (services d) (f (iterations d)) (categories d) (db_apis d) (drafts d) (req_params d) (resp_params d)
    (req_drafts d) (resp_drafts d).
Definition on_categories (f : table CategoryRow -> table CategoryRow) (d : Db) : Db :=
  mkDb (users d) (services d) (iterations d) (f (categories d)) (db_apis d) (drafts d) (req_params d) (resp_params d)
    (req_drafts d) (resp_drafts d).
Definition on_apis (f : table ApiRow -> table ApiRow) (d : Db) : Db :=
  mkDb (users d) (services d) (iterations d) (categories d) (f (db_apis d)) (drafts d) (req_params d) (resp_params d)
    (req_drafts d) (resp_drafts d).
Definition on_drafts (f : table ApiRow -> table ApiRow) (d : Db) : Db :=
  mkDb (users d) (services d) (iterations d) (categories d) (db_apis d) (f (drafts d)) (req_params d) (resp_params d)
    (req_drafts d) (resp_drafts d).
Definition on_req_params (f : table ParamRow -> table ParamRow) (d : Db) : Db :=
  mkDb (users d) (services d) (iterations d) (categories d) (db_apis d) (drafts d) (f (req_params d)) (resp_params d)
    (req_drafts d) (resp_drafts d).
Definition on_resp_params (f : table ParamRow -> table ParamRow) (d : Db) : Db :=
  mkDb (users d) (services d) (iterations d) (categories d) (db_apis d) (drafts d) (req_params d) (f (resp_params d))
    (req_drafts d) (resp_drafts d).
Definition on_req_drafts (f : table ParamRow -> table ParamRow) (d : Db) : Db :=
  mkDb (users d) (services d) (iterations d) (categories d) (db_apis d) (drafts d) (req_params d) (resp_params d)
    (f (req_drafts d)) (resp_drafts d).
Definition on_resp_drafts (f : table ParamRow -> table ParamRow) (d : Db) : Db :=
  mkDb (users d) (services d) (iterations d) (categories d) (db_apis d) (drafts d) (req_params d) (resp_params d)
    (req_drafts d) (f (resp_drafts d)).

(** ** [toJson] *)

(** [datetime.isoformat]. *)
Class Isoformat := isoformat : Z -> string.

Section Json.
Context `{!Isoformat}.

(** The password is left out. *)
Definition user_json (u : UserRow) : UserProfile :=
  mkUserProfile (ur_id u) (ur_username u) (ur_nickname u) (ur_email u) (ur_role u) (ur_level u)
    (isoformat (ur_created u)).

(** The user behind a foreign key. *)
Definition user_ref (d : Db) (i : Z) : option UserProfile := user_json <$> tget (users d) i.

(** The lists say which of [owner] and [deleted_at] they include. *)
Definition service_json (d : Db) (with_owner with_deleted_at : bool) (s : ServiceRow) : ServiceItem :=
  mkServiceItem (sr_id s) (sr_uuid s) (sr_version s) (sr_description s) (sr_owner s) (isoformat (sr_created s))
    (sr_deleted s) (if with_owner then user_ref d (sr_owner s) else None)
    (if with_deleted_at then isoformat <$> sr_deleted_at s else None).

Definition api_json (a : ApiRow) : ApiBrief :=
  mkApiBrief (ar_id a) (ar_name a) (ar_method a) (ar_path a) (ar_description a) (Some (ar_level a))
    (Some (ar_enabled a)) (ar_category a).

Definition category_json (c : CategoryRow) : ApiCategory := mkApiCategory (cr_id c) (cr_name c) (cr_description c).

(** The rows a relationship lists. *)
Definition apis_of (d : Db) (service : Z) : list ApiRow := select (db_apis d) (fun a => (ar_parent a =? service)%Z).
Definition drafts_of (d : Db) (iteration : Z) : list ApiRow := select (drafts d) (fun a => (ar_parent a =? iteration)%Z).
Definition categories_of (d : Db) (service : Z) : list CategoryRow :=
  select (categories d) (fun c => (cr_service c =? service)%Z).

(** [service.toJson(include_relations=True)]. *)
Definition service_detail_json (d : Db) (s : ServiceRow) : ServiceDetail :=
  mkServiceDetail (service_json d true true s) (Some (omap (user_ref d) (sr_maintainers s)))
    (Some (Some (map api_json (apis_of d (sr_id s))))) (Some (Some (map category_json (categories_of d (sr_id s))))).

(** A creator always exists: the column refers to [user]. *)
Definition no_user : UserProfile := mkUserProfile 0 "" "" "" "" 0 "".

Definition iteration_detail_json (d : Db) (i : IterationRow) : ServiceIterationDetail :=
  mkServiceIterationDetail (ir_id i) (ir_service i) (ir_version i)
    (service_json d false true <$> tget (services d) (ir_service i))
    (default no_user (user_ref d (ir_creator i))) (Some (Some (map api_json (drafts_of d (ir_id i))))).

End Json.

(** [toJson] of a parameter, without its sub-parameters. *)
Definition param_json (r : ParamRow) (children : option (list Param)) : Param :=
  let d := pr_data r in
  mkParam (pr_id r) (pr_api r)
    (match pd_place d with
     | RowRequest l v => InRequest (location_name l) v
     | RowResponse c => InResponse c
     end)
    (pd_name d) (type_name (pd_type d)) (pd_required d) (pd_description d) (pd_example d) (type_name <$> pd_child d)
    (pr_parent r) children.

(** ** Lemmas: enums *)

Lemma enum_of_name {E} (name : E -> string) members e :
  (forall x y, name x = name y -> x = y) -> e ∈ members -> enum_of name members (name e) = Some e.
Proof.
  intros Hinj. unfold enum_of. induction members as [|x l IH]; [by intros ?%not_elem_of_nil|].
  rewrite elem_of_cons. cbn [List.find]. destruct (String.eqb_spec (name x) (name e)) as [E'|Hne].
  - intros _. by rewrite (Hinj _ _ E').
  - intros [->|H]; [done|by apply IH].
Qed.

Lemma parse_type_name t : enum_of type_name all_types (type_name t) = Some t.
Proof. by destruct t. Qed.
Lemma parse_location_name l : enum_of location_name all_locations (location_name l) = Some l.
Proof. by destruct l. Qed.
Lemma parse_method_name m : enum_of method_name all_methods (method_name m) = Some m.
Proof. by destruct m. Qed.
Lemma parse_level_name l : enum_of level_name all_levels (level_name l) = Some l.
Proof. by destruct l. Qed.
