(* ===== verification/ParamStore.v ===== *)
(** * How the back end stores parameters

    Parameters are trees for the clients and rows with a parent for the database.
    [_process_params_recursively] and [_copy_params_recursively] of
    [BE-CAM/services/api.py] write trees as rows, [organizeReqParams] and
    [organizeRespParams] of [BE-CAM/services/utils.py] read them back, and the two
    loops that [serviceStartIteration] and [serviceCommitIteration] of
    [BE-CAM/services/service.py] run per API copy rows from one table to another.
    The lemmas say that each of them keeps the trees. *)

From S2P Require Import Prelude Tables JsObject ApiTypes FeTypes Database.
From Stdlib Require Import String ZArith Lia.

Inductive tree (A : Type) := Node (a : A) (cs : list (tree A)).
Arguments Node {A} a cs.

Definition root {A} (t : tree A) : A := match t with Node a _ => a end.
Definition branches {A} (t : tree A) : list (tree A) := match t with Node _ cs => cs end.

Fixpoint tree_map {A B} (f : A -> B) (t : tree A) : tree B :=
  match t with Node a cs => Node (f a) (map (tree_map f) cs) end.

Fixpoint tree_size {A} (t : tree A) : nat :=
  match t with Node _ cs => S (list_sum (map tree_size cs)) end.
Definition forest_size {A} (ts : list (tree A)) : nat := list_sum (map tree_size ts).

Fixpoint tree_nodes {A} (t : tree A) : list A :=
  match t with Node a cs => a :: List.concat (map tree_nodes cs) end.

(** A Python exception, by its class. *)
Definition raise {S A} (name message : string) : M S A := throw (JSError name message).
Definition IntegrityError {S A} : M S A := raise "IntegrityError" "a constraint of the database is violated".

(** [for x in l: body(x)]. *)
Section Each.
Context {S A : Type} (body : A -> M S unit).
Fixpoint each (l : list A) : M S unit :=
  match l with
  | [] => mret ()
  | x :: l' => body x ;; each l'
  end.
End Each.

(** ** Reading: [organizeReqParams] and [organizeRespParams] *)

Definition is_child (parent : option Z) (r : ParamRow) : bool := bool_decide (pr_parent r = parent).

(** The second loop hangs every row into the [children_params] of its parent's
    dict, in the order of the rows; since the dicts are shared, a parent that is
    itself hung somewhere shows all its children in the end. *)
Fixpoint nest (fuel : nat) (rows : list ParamRow) (r : ParamRow) : tree ParamRow :=
  match fuel with
  | O => Node r []
  | S n => Node r (map (nest n rows) (List.filter (is_child (Some (pr_id r))) rows))
  end.

(** No tree is higher than there are rows. *)
Definition forest (rows : list ParamRow) : list (tree ParamRow) :=
  map (nest (List.length rows) rows) (List.filter (is_child None) rows).

(** A dict without children has no [children_params]. *)
Fixpoint tree_json (t : tree ParamRow) : Param :=
  match t with Node r cs => param_json r (match cs with [] => None | _ => Some (map tree_json cs) end) end.

Definition row_location (r : ParamRow) : option ParamLocation :=
  match pd_place (pr_data r) with RowRequest l _ => Some l | RowResponse _ => None end.
Definition row_status (r : ParamRow) : Z :=
  match pd_place (pr_data r) with RowRequest _ _ => 0 | RowResponse c => c end.

(** The five lists are there from the start, in this order. *)
Definition organizeReqParams (request_params : list ParamRow) : obj (list Param) :=
  map (fun l => (location_name l,
    map tree_json (List.filter (fun t => bool_decide (row_location (root t) = Some l)) (forest request_params))))
    all_locations.

(** [response_params_by_status_code.setdefault(str(code), []).append(p)]. *)
Definition organizeRespParams (response_params : list ParamRow) : obj (list Param) :=
  foldl (fun o t => let k := show_int (row_status (root t)) in obj_set o k (default [] (obj_get o k) ++ [tree_json t]))
    [] (forest response_params).

(** ** Writing: [_process_params_recursively] *)

Inductive param_class := RequestParamDraft | ResponseParamDraft.

(** [parent_location], or the parameter's own location, [body] when it has none. *)
Definition param_location (parent_location : string) (p : ParamInput) : string :=
  str_or parent_location (match input_place p with AtLocation l => l | AtStatus _ => "body" end).

(** The columns of the new row; [None] when the status code is null, which the
    column refuses. *)
Definition process_data (k : param_class) (parent_location : string) (p : ParamInput) : option ParamData :=
  let place :=
    match k with
    | RequestParamDraft =>
        Some (RowRequest (default body (enum_of location_name all_locations (param_location parent_location p)))
                (input_default p))
    | ResponseParamDraft =>
        match input_place p with
        | AtStatus (Some c) => Some (RowResponse c)
        | AtStatus None => None
        | AtLocation _ => Some (RowResponse 200)
        end
    end in
  (fun pl => mkParamData pl (input_name p) (default TString (enum_of type_name all_types (input_type p)))
     (input_required p) (input_description p) (input_example p)
     (input_array_child p ≫= fun c => if String.eqb c "" then None else enum_of type_name all_types c)) <$> place.

(** Whether the children of a row are stored. *)
Definition stores_children (d : ParamData) : bool :=
  match pd_type d with
  | TObject => true
  | TArray => bool_decide (pd_child d = Some TObject)
  | _ => false
  end.

Fixpoint process_param (k : param_class) (api_draft_id : Z) (parent : option Z) (parent_location : string)
    (p : ParamInput) : M (table ParamRow) unit :=
  match process_data k parent_location p with
  | None => IntegrityError
  | Some d =>
      t ← get_state;
      modify (tadd (fun i => mkParamRow i api_draft_id parent d)) ;;
      if stores_children d then
        match input_children p with
        | Some cs => each (process_param k api_draft_id (Some (next_id t)) (param_location parent_location p)) cs
        | None => mret ()
        end
      else mret ()
  end.

Definition process_params (k : param_class) (api_draft_id : Z) (params : list ParamInput) : M (table ParamRow) unit :=
  each (process_param k api_draft_id None "") params.

(** ** Copying *)

(** [_copy_params_recursively]: the rows below [param.child_params]. *)
Fixpoint copy_tree (target_api_draft_id : Z) (parent_param_id : option Z) (param : tree ParamRow)
    : M (table ParamRow) unit :=
  match param with
  | Node r child_params =>
      t ← get_state;
      modify (tadd (fun i => mkParamRow i target_api_draft_id parent_param_id (pr_data r))) ;;
      each (copy_tree target_api_draft_id (Some (next_id t))) child_params
  end.

Definition copy_params (target_api_draft_id : Z) (params : list ParamRow) : M (table ParamRow) unit :=
  each (copy_tree target_api_draft_id None) (forest params).

(** The two loops of an iteration's start and commit: the rows with no parent
    yet, noting the id each one gets; then the parents, through the notes. *)
Fixpoint clone_rows (api_id : Z) (params : list ParamRow) (mapping : gmap Z Z) : M (table ParamRow) (gmap Z Z) :=
  match params with
  | [] => mret mapping
  | r :: params' =>
      t ← get_state;
      modify (tadd (fun i => mkParamRow i api_id None (pr_data r))) ;;
      clone_rows api_id params' (<[pr_id r := next_id t]> mapping)
  end.

Definition set_parent (parent : option Z) (r : ParamRow) : ParamRow := mkParamRow (pr_id r) (pr_api r) parent (pr_data r).

Definition clone_parent (mapping : gmap Z Z) (r : ParamRow) : M (table ParamRow) unit :=
  match pr_parent r with
  | None => mret ()
  | Some p =>
      match mapping !! pr_id r with
      | None => raise "KeyError" (show_int (pr_id r))
      | Some i =>
          t ← get_state;
          match tget t i with
          | None => mret ()
          | Some _ =>
              match mapping !! p with
              | None => raise "KeyError" (show_int p)
              | Some p' => modify (tupdate i (set_parent (Some p')))
              end
          end
      end
  end.

Definition clone_params (api_id : Z) (params : list ParamRow) : M (table ParamRow) unit :=
  mapping ← clone_rows api_id params ∅;
  each (clone_parent mapping) params.

(** ** Specification: a tree as a block of rows *)

Section Number.
Context {A B : Type} (f : Z -> tree A -> list B).
Fixpoint number (start : Z) (ts : list (tree A)) : list B :=
  match ts with
  | [] => []
  | t :: ts' => f start t ++ number (start + Z.of_nat (tree_size t)) ts'
  end.
End Number.

(** The rows of a tree in preorder, numbered from [start]. *)
Fixpoint flat (api : Z) (parent : option Z) (start : Z) (t : tree ParamData) : list ParamRow :=
  match t with
  | Node d cs => mkParamRow start api parent d :: number (fun s c => flat api (Some start) s c) (start + 1) cs
  end.
Definition flat_list (api : Z) (parent : option Z) : Z -> list (tree ParamData) -> list ParamRow :=
  number (flat api parent).

(** The tree of the parameters a request asks to store. *)
Definition sent_data (k : param_class) (parent_location : string) (p : ParamInput) : ParamData :=
  default (mkParamData (RowResponse 0) "" TString false None None None) (process_data k parent_location p).

Fixpoint input_tree (k : param_class) (parent_location : string) (p : ParamInput) : tree ParamData :=
  let d := sent_data k parent_location p in
  Node d (if stores_children d
          then match input_children p with
               | Some cs => map (input_tree k (param_location parent_location p)) cs
               | None => []
               end
          else []).

(** Every status code that is stored is a number. *)
Fixpoint storable (k : param_class) (parent_location : string) (p : ParamInput) : bool :=
  match process_data k parent_location p with
  | None => false
  | Some d =>
      if stores_children d
      then match input_children p with
           | Some cs => forallb (storable k (param_location parent_location p)) cs
           | None => true
           end
      else true
  end.

(** ** Lemmas: trees *)

Section TreeInd.
Context {A : Type} (P : tree A -> Prop).
Hypothesis Hnode : forall a cs, Forall P cs -> P (Node a cs).
Fixpoint tree_nested_ind (t : tree A) : P t.
Proof.
  destruct t as [a cs]. apply Hnode. induction cs as [|c cs IH]; constructor; [apply tree_nested_ind|exact IH].
Defined.
End TreeInd.

Section InputInd.
Variable P : ParamInput -> Prop.
Hypothesis Hinput : forall p, Forall P (default [] (input_children p)) -> P p.
Fixpoint input_nested_ind (p : ParamInput) : P p.
Proof.
  apply Hinput. destruct p as [n t pl r df ds ex ac [cs|]]; cbn [input_children default]; [|constructor].
  induction cs as [|c cs IH]; constructor; [apply input_nested_ind|exact IH].
Defined.
End InputInd.

Lemma tree_size_pos {A} (t : tree A) : (0 < tree_size t)%nat.
Proof. destruct t. cbn. lia. Qed.

Lemma forest_size_cons {A} (t : tree A) ts : forest_size (t :: ts) = (tree_size t + forest_size ts)%nat.
Proof. done. Qed.

Lemma tree_size_node {A} (a : A) cs : tree_size (Node a cs) = S (forest_size cs).
Proof. done. Qed.

Lemma tree_map_root {A B} (f : A -> B) t : root (tree_map f t) = f (root t).
Proof. by destruct t. Qed.

Lemma flat_node api parent start d cs :
  flat api parent start (Node d cs) = mkParamRow start api parent d :: flat_list api (Some start) (start + 1) cs.
Proof. done. Qed.

Lemma flat_list_cons api parent start t ts :
  flat_list api parent start (t :: ts) =
  flat api parent start t ++ flat_list api parent (start + Z.of_nat (tree_size t)) ts.
Proof. done. Qed.

(** The rows of a block: their ids, api, and where their parents lie. *)
Lemma flat_rows t : forall api parent start r, r ∈ flat api parent start t ->
  (start <= pr_id r < start + Z.of_nat (tree_size t))%Z /\ pr_api r = api /\
  ((r = mkParamRow start api parent (root t)) \/
   exists p, pr_parent r = Some p /\ (start <= p < pr_id r)%Z).
Proof.
  induction t as [d cs IH] using tree_nested_ind. intros api parent start r. rewrite flat_node, elem_of_cons, tree_size_node.
  intros [->|Hr]; [cbn; split; [lia|]; split; [done|by left]|].
  assert (H : forall s, (start < s)%Z -> r ∈ flat_list api (Some start) s cs ->
    (s <= pr_id r < s + Z.of_nat (forest_size cs))%Z /\ pr_api r = api /\
    exists p, pr_parent r = Some p /\ (start <= p < pr_id r)%Z).
  { clear Hr. induction IH as [|c cs Hc _ IHcs]; intros s Hs; [by intros ?%not_elem_of_nil|].
    rewrite flat_list_cons, elem_of_app, forest_size_cons. intros [Hr|Hr].
    - destruct (Hc api (Some start) s r Hr) as (H1 & H2 & H3). split; [lia|]. split; [done|].
      destruct H3 as [->|(p & ? & ?)]; [exists start; cbn; split; [done|lia]|exists p; split; [done|lia]].
    - destruct (IHcs (s + Z.of_nat (tree_size c))%Z) as (H1 & H2 & H3); [lia|done|]. split; [lia|]. done. }
  destruct (H (start + 1)%Z) as (H1 & H2 & p & H3 & H4); [lia|done|]. split; [lia|]. split; [done|].
  right. exists p. split; [done|lia].
Qed.

Lemma flat_list_rows ts : forall api parent start r, r ∈ flat_list api parent start ts ->
  (start <= pr_id r < start + Z.of_nat (forest_size ts))%Z /\ pr_api r = api /\
  (pr_parent r = parent \/ exists p, pr_parent r = Some p /\ (start <= p < pr_id r)%Z).
Proof.
  induction ts as [|t ts IH]; intros api parent start r; [by intros ?%not_elem_of_nil|].
  rewrite flat_list_cons, elem_of_app, forest_size_cons. intros [Hr|Hr].
  - destruct (flat_rows t api parent start r Hr) as (H1 & H2 & H3). split; [lia|]. split; [done|].
    destruct H3 as [->|(p & ? & ?)]; [by left|right; exists p; split; [done|lia]].
  - destruct (IH api parent _ r Hr) as (H1 & H2 & H3). split; [lia|]. split; [done|].
    destruct H3 as [?|(p & ? & ?)]; [by left|right; exists p; split; [done|lia]].
Qed.

Lemma flat_length t : forall api parent start, List.length (flat api parent start t) = tree_size t.
Proof.
  induction t as [d cs IH] using tree_nested_ind. intros api parent start. rewrite flat_node, tree_size_node. cbn [List.length]. f_equal.
  generalize (start + 1)%Z. induction IH as [|c cs Hc _ IHcs]; intros s; [done|].
  by rewrite flat_list_cons, List.length_app, Hc, IHcs.
Qed.

(** ** Lemmas: reading a block back *)

Definition parent_below (parent : option Z) (i : Z) : Prop := forall p, parent = Some p -> (p < i)%Z.

(** No row hangs below the ids from [i] to [j]. *)
Definition none_below (i j : Z) (l : list ParamRow) : Prop :=
  forall r p, r ∈ l -> pr_parent r = Some p -> ~ (i <= p < j)%Z.

Lemma none_below_app i j l l' : none_below i j (l ++ l') <-> none_below i j l /\ none_below i j l'.
Proof.
  unfold none_below. setoid_rewrite elem_of_app. naive_solver.
Qed.

Lemma none_below_sub i j i' j' l : (i <= i')%Z -> (j' <= j)%Z -> none_below i j l -> none_below i' j' l.
Proof. intros Hi Hj H r p Hr Hp ?. apply (H r p Hr Hp). lia. Qed.

Lemma filter_none {A} (f : A -> bool) l : (forall x, x ∈ l -> f x = false) -> List.filter f l = [].
Proof.
  induction l as [|x l IH]; intros H; [done|]. cbn [List.filter]. rewrite H by by left. apply IH.
  intros y Hy. apply H. by right.
Qed.

Lemma flat_outside api parent start t i j :
  parent_below parent i -> (j <= start)%Z -> none_below i j (flat api parent start t).
Proof.
  intros Hp Hj r p Hr E ?. destruct (flat_rows t api parent start r Hr) as (_ & _ & [->|(q & Hq & ?)]).
  - cbn in E. specialize (Hp p E). lia.
  - simplify_eq. lia.
Qed.

Lemma flat_list_outside api parent start ts i j :
  parent_below parent i -> (j <= start)%Z -> none_below i j (flat_list api parent start ts).
Proof.
  intros Hp Hj r p Hr E ?. destruct (flat_list_rows ts api parent start r Hr) as (_ & _ & [Eq|(q & Hq & ?)]).
  - rewrite Eq in E. specialize (Hp p E). lia.
  - simplify_eq. lia.
Qed.

Lemma flat_before api parent start t i j :
  parent_below parent i -> (start + Z.of_nat (tree_size t) <= i)%Z -> none_below i j (flat api parent start t).
Proof.
  intros Hp Hj r p Hr E ?. destruct (flat_rows t api parent start r Hr) as (Hi & _ & [->|(q & Hq & ?)]).
  - cbn in E. specialize (Hp p E). lia.
  - simplify_eq. lia.
Qed.

(** In the block of one tree only the root is a child of the block's parent. *)
Lemma flat_roots api parent start t : parent_below parent start ->
  List.filter (is_child parent) (flat api parent start t) = [mkParamRow start api parent (root t)].
Proof.
  intros Hp. destruct t as [d cs]. rewrite flat_node. cbn [List.filter root].
  unfold is_child at 1. cbn [pr_parent]. rewrite bool_decide_eq_true_2 by done. f_equal. apply filter_none.
  intros r Hr. unfold is_child. apply bool_decide_eq_false_2. intros E.
  assert (Hs : r ∈ flat api parent start (Node d cs)) by (rewrite flat_node; by right).
  destruct (flat_list_rows cs api (Some start) (start + 1)%Z r Hr) as (_ & _ & [Eq|(q & Hq & ?)]).
  - rewrite Eq in E. symmetry in E. specialize (Hp start E). lia.
  - rewrite Hq in E. symmetry in E. specialize (Hp q E). lia.
Qed.

Definition reads_back (t : tree ParamData) : Prop := forall api parent start pre post fuel,
  none_below start (start + Z.of_nat (tree_size t)) (pre ++ post) -> parent_below parent start ->
  (tree_size t <= fuel)%nat ->
  tree_map pr_data (nest fuel (pre ++ flat api parent start t ++ post) (mkParamRow start api parent (root t))) = t.

Lemma forest_reads_back ts : Forall reads_back ts -> forall api parent start pre post fuel,
  none_below start (start + Z.of_nat (forest_size ts)) (pre ++ post) -> parent_below parent start ->
  (forest_size ts <= fuel)%nat ->
  map (fun r => tree_map pr_data (nest fuel (pre ++ flat_list api parent start ts ++ post) r))
    (List.filter (is_child parent) (flat_list api parent start ts)) = ts.
Proof.
  induction 1 as [|t ts Ht _ IH]; intros api parent start pre post fuel Hout Hp Hf; [done|].
  rewrite forest_size_cons in Hout, Hf. pose proof Hout as [Hpre Hpost]%none_below_app.
  rewrite flat_list_cons, List.filter_app, flat_roots by done. cbn [app map]. f_equal.
  - rewrite <-app_assoc. apply Ht; [|done|lia]. apply none_below_app. split; [|apply none_below_app; split].
    + eapply none_below_sub; [..|exact Hpre]; lia.
    + apply flat_list_outside; [done|lia].
    + eapply none_below_sub; [..|exact Hpost]; lia.
  - rewrite <-(app_assoc (flat api parent start t)), (app_assoc pre). apply IH; [|intros p E; specialize (Hp p E); lia|lia].
    rewrite <-app_assoc. apply none_below_app. split; [eapply none_below_sub; [..|exact Hpre]; lia|].
    apply none_below_app. split; [|eapply none_below_sub; [..|exact Hpost]; lia].
    apply flat_before; [intros p E; specialize (Hp p E); lia|lia].
Qed.

Lemma tree_reads_back t : reads_back t.
Proof.
  induction t as [d cs IH] using tree_nested_ind. intros api parent start pre post fuel Hout Hp Hf.
  rewrite tree_size_node in *. destruct fuel as [|n]; [lia|]. cbn [nest tree_map root pr_id]. f_equal.
  rewrite map_map, flat_node. pose proof Hout as [Hpre Hpost]%none_below_app.
  assert (Hroots : List.filter (is_child (Some start))
      (pre ++ (mkParamRow start api parent d :: flat_list api (Some start) (start + 1) cs) ++ post) =
    List.filter (is_child (Some start)) (flat_list api (Some start) (start + 1) cs)).
  { assert (Hno : forall l, none_below start (start + Z.of_nat (S (forest_size cs))) l ->
      List.filter (is_child (Some start)) l = []).
    { intros l Hl. apply filter_none. intros r Hr. apply bool_decide_eq_false_2. intros E. apply (Hl r start Hr E). lia. }
    rewrite !List.filter_app, (Hno pre), (Hno post) by done. cbn [app List.filter]. unfold is_child at 1. cbn [pr_parent].
    rewrite bool_decide_eq_false_2, app_nil_r; [done|]. intros E. specialize (Hp start E). lia. }
  rewrite Hroots. change (pre ++ (?x :: ?l) ++ post) with (pre ++ [x] ++ l ++ post). rewrite (app_assoc pre).
  apply forest_reads_back; [done| |intros p [= <-]; lia|lia].
  rewrite <-app_assoc. apply none_below_app. split; [eapply none_below_sub; [..|exact Hpre]; lia|].
  apply none_below_app. split; [|eapply none_below_sub; [..|exact Hpost]; lia].
  intros r p ->%list_elem_of_singleton E ?. cbn in E. specialize (Hp p E). lia.
Qed.

(** A block of rows gives its trees back. *)
Lemma forest_flat api start ts : map (tree_map pr_data) (forest (flat_list api None start ts)) = ts.
Proof.
  unfold forest. rewrite map_map.
  assert (Hl : List.length (flat_list api None start ts) = forest_size ts).
  { revert start. induction ts as [|t ts IH]; intros start; [done|].
    by rewrite flat_list_cons, List.length_app, flat_length, IH. }
  rewrite Hl. pose proof (forest_reads_back ts) as H. specialize (H ltac:(apply Forall_forall; intros; apply tree_reads_back)).
  specialize (H api None start [] [] (forest_size ts)). cbn [app] in H. rewrite app_nil_r in H. apply H; [|done|done].
  by intros r p ?%not_elem_of_nil.
Qed.

(** ** Lemmas: what the writers leave in the table *)

(** The table with a block added at its end. *)
Definition with_block (api : Z) (parent : option Z) (ts : list (tree ParamData)) (t : table ParamRow) : table ParamRow :=
  mkTable (rows t ++ flat_list api parent (next_id t) ts) (next_id t + Z.of_nat (forest_size ts)).

Lemma with_block_nil api parent t : with_block api parent [] t = t.
Proof. unfold with_block. cbn. rewrite app_nil_r, Z.add_0_r. by destruct t. Qed.

Lemma with_block_cons api parent tr ts t :
  with_block api parent (tr :: ts) t = with_block api parent ts (with_block api parent [tr] t).
Proof.
  unfold with_block. cbn [rows next_id]. rewrite !flat_list_cons, !forest_size_cons. cbn [flat_list number forest_size map list_sum].
  rewrite app_nil_r, app_assoc. unfold forest_size. cbn [map list_sum]. f_equal; [|cbn; lia].
  f_equal. unfold flat_list. f_equal. cbn. lia.
Qed.

Lemma with_block_node api parent d cs t :
  with_block api parent [Node d cs] t =
  with_block api (Some (next_id t)) cs (tadd (fun i => mkParamRow i api parent d) t).
Proof.
  unfold with_block, tadd. cbn [rows next_id]. rewrite flat_list_cons, flat_node. cbn [flat_list number].
  rewrite app_nil_r, <-app_assoc. f_equal. rewrite forest_size_cons, tree_size_node. cbn. lia.
Qed.

(** A loop whose body adds a block per element adds them all. *)
Lemma each_blocks {A} (body : A -> M (table ParamRow) unit) api parent (f : A -> tree ParamData) l :
  Forall (fun x => forall t, body x t = (Ret tt, with_block api parent [f x] t)) l ->
  forall t, each body l t = (Ret tt, with_block api parent (map f l) t).
Proof.
  induction 1 as [|x l Hx _ IH]; intros t; [by rewrite with_block_nil|].
  cbn [each map]. rewrite (bind_Ret _ _ _ _ _ (Hx t)), IH. f_equal. symmetry. apply with_block_cons.
Qed.

(** A loop stops at the first element whose body throws. *)
Lemma each_throws {A S} (body : A -> M S unit) e l :
  (forall x s, x ∈ l -> exists s', body x s = (Ret tt, s') \/ body x s = (Throw e, s')) ->
  (exists x, x ∈ l /\ forall s, exists s', body x s = (Throw e, s')) ->
  forall s, exists s', each body l s = (Throw e, s').
Proof.
  induction l as [|x l IH]; intros Hall [y [Hy Hthrow]] s; [by apply not_elem_of_nil in Hy|]. cbn [each].
  destruct (Hall x s ltac:(by left)) as (s' & [E|E]).
  - rewrite (bind_Ret _ _ _ _ _ E). apply elem_of_cons in Hy as [->|Hy].
    + destruct (Hthrow s) as (s'' & E'). congruence.
    + apply IH; [intros z q Hz; apply Hall; by right|by exists y].
  - exists s'. by apply bind_Throw.
Qed.

Lemma process_run k api p : forall parent loc, storable k loc p = true ->
  forall t, process_param k api parent loc p t = (Ret tt, with_block api parent [input_tree k loc p] t).
Proof.
  induction p as [p IH] using input_nested_ind. intros parent loc.
  destruct p as [n ty pl r df ds ex ac cs]. cbn [storable process_param input_tree input_children default] in *.
  set (p := mkParamInput n ty pl r df ds ex ac cs) in *. unfold sent_data.
  destruct (process_data k loc p) as [d|]; [|done]. cbn [from_option id]. intros Hs t.
  rewrite with_block_node. erewrite bind_Ret by reflexivity. erewrite bind_Ret by reflexivity.
  destruct (stores_children d); [|by rewrite with_block_nil]. destruct cs as [cs|]; [|by rewrite with_block_nil].
  apply each_blocks. cbn [from_option id] in IH. rewrite Forall_forall in *. intros c Hc. apply IH; [done|].
  rewrite forallb_forall in Hs. by apply Hs, list_elem_of_In.
Qed.

Lemma process_params_run k api params t : forallb (storable k "") params = true ->
  process_params k api params t = (Ret tt, with_block api None (map (input_tree k "") params) t).
Proof.
  intros Hs. apply each_blocks, Forall_forall. intros p Hp. apply process_run.
  rewrite forallb_forall in Hs. by apply Hs, list_elem_of_In.
Qed.

(** A status code that is null somewhere fails the request. *)
Definition violation : js_error := JSError "IntegrityError" "a constraint of the database is violated".

Lemma each_storable k api parent loc l :
  Forall (fun p => storable k loc p = false ->
    forall t, exists t', process_param k api parent loc p t = (Throw violation, t')) l ->
  forallb (storable k loc) l = false -> forall t, exists t', each (process_param k api parent loc) l t = (Throw violation, t').
Proof.
  intros Hall Hs. apply each_throws.
  - intros p t Hp. rewrite Forall_forall in Hall. destruct (storable k loc p) eqn:E.
    + eexists. left. by apply process_run.
    + destruct (Hall p Hp E t) as (t' & Et). exists t'. by right.
  - assert (H : exists p, p ∈ l /\ storable k loc p = false).
    { clear Hall. induction l as [|p l IH]; [done|]. cbn [forallb] in Hs. destruct (storable k loc p) eqn:E.
      - destruct (IH Hs) as (q & ? & ?). exists q. split; [by right|done].
      - exists p. split; [by left|done]. }
    destruct H as (p & Hp & E). exists p. split; [done|]. rewrite Forall_forall in Hall. by apply Hall.
Qed.

Lemma process_fails k api p : forall parent loc, storable k loc p = false ->
  forall t, exists t', process_param k api parent loc p t = (Throw violation, t').
Proof.
  induction p as [p IH] using input_nested_ind. intros parent loc.
  destruct p as [n ty pl r df ds ex ac cs]. cbn [storable process_param input_children default] in *.
  set (p := mkParamInput n ty pl r df ds ex ac cs) in *.
  destruct (process_data k loc p) as [d|]; [|intros _ t; by exists t]. intros Hs t.
  erewrite bind_Ret by reflexivity. erewrite bind_Ret by reflexivity.
  destruct (stores_children d); [|done]. destruct cs as [cs|]; [|done].
  apply each_storable; [|done]. cbn [from_option id] in IH. eapply Forall_impl; [exact IH|]. cbn. intros c Hc. apply Hc.
Qed.

Lemma process_params_fails k api params t : forallb (storable k "") params = false ->
  exists t', process_params k api params t = (Throw violation, t').
Proof. intros Hs. apply each_storable; [|done]. apply Forall_forall. intros p _. apply process_fails. Qed.

(** Request parameters can always be stored. *)
Lemma request_storable p : forall loc, storable RequestParamDraft loc p = true.
Proof.
  induction p as [p IH] using input_nested_ind. intros loc.
  destruct p as [n ty pl r df ds ex ac cs]. cbn [storable input_children default] in *.
  unfold process_data. cbn [fmap option_fmap option_map]. destruct (stores_children _); [|done].
  destruct cs as [cs|]; [|done]. apply forallb_forall. rewrite Forall_forall in IH. intros c Hc.
  apply IH. by apply list_elem_of_In.
Qed.

Lemma copy_run api tr : forall parent t,
  copy_tree api parent tr t = (Ret tt, with_block api parent [tree_map pr_data tr] t).
Proof.
  induction tr as [r cs IH] using tree_nested_ind. intros parent t. cbn [copy_tree tree_map].
  erewrite bind_Ret by reflexivity. erewrite bind_Ret by reflexivity. rewrite with_block_node.
  apply each_blocks. rewrite Forall_forall in *. intros c Hc t'. by apply IH.
Qed.

Lemma copy_params_run api params t :
  copy_params api params t = (Ret tt, with_block api None (map (tree_map pr_data) (forest params)) t).
Proof. apply each_blocks, Forall_forall. intros tr _ t'. apply copy_run. Qed.

(** The block's rows are its API's, the others' are untouched. *)
Lemma select_block api ts t (q : ParamRow -> bool) :
  (forall r, q r = (pr_api r =? api)%Z) ->
  select (with_block api None ts t) q = select t q ++ flat_list api None (next_id t) ts.
Proof.
  intros Hq. unfold select, with_block. cbn [rows]. rewrite List.filter_app. f_equal.
  apply forallb_filter_id, forallb_forall. intros r Hr%list_elem_of_In.
  destruct (flat_list_rows ts api None _ r Hr) as (_ & E & _). by rewrite Hq, E, Z.eqb_refl.
Qed.

Lemma select_block_other api api' ts t (q : ParamRow -> bool) :
  (forall r, q r = (pr_api r =? api')%Z) -> api <> api' -> select (with_block api None ts t) q = select t q.
Proof.
  intros Hq Hne. unfold select, with_block. cbn [rows]. rewrite List.filter_app.
  rewrite (filter_none q (flat_list _ _ _ _)), app_nil_r; [done|]. intros r Hr.
  destruct (flat_list_rows ts api None _ r Hr) as (_ & E & _). rewrite Hq, E. by apply Z.eqb_neq.
Qed.

(** ** Lemmas: copying through a mapping of ids *)

(** Ids are distinct, and every parent is among the rows. *)
Definition params_linked (l : list ParamRow) : Prop :=
  NoDup (map pr_id l) /\ forall r p, r ∈ l -> pr_parent r = Some p -> p ∈ map pr_id l.

(** The id the row [i] of [l] gets when numbering starts from [n]. *)
Fixpoint fresh (n : Z) (l : list ParamRow) (i : Z) : Z :=
  match l with
  | [] => n
  | r :: l' => if (pr_id r =? i)%Z then n else fresh (n + 1) l' i
  end.

Definition renamed (f : Z -> Z) (api : Z) (r : ParamRow) : ParamRow :=
  mkParamRow (f (pr_id r)) api (f <$> pr_parent r) (pr_data r).
Definition orphan (f : Z -> Z) (api : Z) (r : ParamRow) : ParamRow := mkParamRow (f (pr_id r)) api None (pr_data r).

Lemma fresh_bounds l : forall n i, i ∈ map pr_id l -> (n <= fresh n l i < n + Z.of_nat (List.length l))%Z.
Proof.
  induction l as [|r l IH]; intros n i; [by intros ?%not_elem_of_nil|]. cbn [map fresh List.length]. rewrite elem_of_cons.
  destruct (Z.eqb_spec (pr_id r) i) as [E|Hne]; intros Hi; [lia|]. destruct Hi as [Hi|Hi]; [by subst|].
  specialize (IH (n + 1)%Z i Hi). lia.
Qed.

Lemma fresh_inj l : forall n i j, i ∈ map pr_id l -> j ∈ map pr_id l -> fresh n l i = fresh n l j -> i = j.
Proof.
  induction l as [|r l IH]; intros n i j; [by intros ?%not_elem_of_nil|]. cbn [map fresh]. rewrite !elem_of_cons.
  destruct (Z.eqb_spec (pr_id r) i) as [Ei|Hi], (Z.eqb_spec (pr_id r) j) as [Ej|Hj]; intros H1 H2 E; [congruence|..].
  - destruct H2 as [?|H2]; [congruence|]. pose proof (fresh_bounds l (n + 1)%Z j H2). lia.
  - destruct H1 as [?|H1]; [congruence|]. pose proof (fresh_bounds l (n + 1)%Z i H1). lia.
  - destruct H1 as [?|H1], H2 as [?|H2]; try congruence. by apply (IH (n + 1)%Z).
Qed.

Lemma orphans_cons r l n api : NoDup (map pr_id (r :: l)) ->
  map (orphan (fresh n (r :: l)) api) (r :: l) = mkParamRow n api None (pr_data r) :: map (orphan (fresh (n + 1) l) api) l.
Proof.
  cbn [map]. intros [Hr Hnd]%NoDup_cons. f_equal; [unfold orphan; cbn [fresh]; by rewrite Z.eqb_refl|].
  apply map_ext_in. intros x Hx%list_elem_of_In. unfold orphan. cbn [fresh].
  destruct (Z.eqb_spec (pr_id r) (pr_id x)) as [E|]; [|done]. destruct Hr. rewrite E. apply list_elem_of_fmap. by exists x.
Qed.

Lemma clone_rows_run api l : forall m t, NoDup (map pr_id l) -> exists mapping,
  clone_rows api l m t = (Ret mapping,
    mkTable (rows t ++ map (orphan (fresh (next_id t) l) api) l) (next_id t + Z.of_nat (List.length l))) /\
  forall i, mapping !! i = if decide (i ∈ map pr_id l) then Some (fresh (next_id t) l i) else m !! i.
Proof.
  induction l as [|r l IH]; intros m t Hnd.
  - exists m. split; [cbn; rewrite app_nil_r, Z.add_0_r; by destruct t|]. intros i. by rewrite decide_False by apply not_elem_of_nil.
  - cbn [clone_rows]. erewrite bind_Ret by reflexivity. erewrite bind_Ret by reflexivity.
    pose proof Hnd as [Hr Hnd']%NoDup_cons.
    destruct (IH (<[pr_id r := next_id t]> m) (tadd (fun i => mkParamRow i api None (pr_data r)) t) Hnd') as (mapping & E & Hm).
    exists mapping. rewrite E. split.
    + f_equal. unfold tadd. cbn [rows next_id]. rewrite orphans_cons by done. rewrite <-app_assoc. f_equal. cbn [List.length]. lia.
    + intros i. rewrite Hm. cbn [tadd next_id map fresh]. destruct (decide (i ∈ map pr_id l)) as [Hi|Hi].
      * rewrite decide_True by (by right). destruct (Z.eqb_spec (pr_id r) i) as [<-|]; done.
      * destruct (Z.eqb_spec (pr_id r) i) as [<-|Hne].
        -- rewrite lookup_insert_eq, decide_True by (by left). done.
        -- rewrite lookup_insert_ne by done. rewrite decide_False; [done|]. rewrite elem_of_cons. naive_solver.
Qed.

Lemma map_unchanged {A} (f : A -> A) l : (forall x, x ∈ l -> f x = x) -> map f l = l.
Proof.
  induction l as [|x l IH]; intros H; [done|]. cbn [map]. rewrite H by by left. f_equal. apply IH. intros y Hy. apply H. by right.
Qed.

Section Parents.
Context (api : Z) (l : list ParamRow) (n : Z) (base : list ParamRow) (mapping : gmap Z Z) (next : Z).
Hypothesis Hlinked : params_linked l.
Hypothesis Hbase : forall r, r ∈ base -> (pr_id r < n)%Z.
Hypothesis Hmapping : forall i, i ∈ map pr_id l -> mapping !! i = Some (fresh n l i).

Lemma clone_parent_step before r after : l = before ++ r :: after ->
  clone_parent mapping r
    (mkTable (base ++ map (renamed (fresh n l) api) before ++ map (orphan (fresh n l) api) (r :: after)) next) =
  (Ret tt, mkTable (base ++ map (renamed (fresh n l) api) (before ++ [r]) ++ map (orphan (fresh n l) api) after) next).
Proof.
  intros E. destruct Hlinked as [Hnd Hpar].
  assert (Hr : r ∈ l) by (rewrite E; apply elem_of_app; right; by left).
  assert (Hi : pr_id r ∈ map pr_id l) by (apply list_elem_of_fmap; by exists r).
  unfold clone_parent. rewrite map_app, <-app_assoc. cbn [map app].
  destruct (pr_parent r) as [p|] eqn:Ep.
  2: { unfold renamed at 3, orphan at 1. by rewrite Ep. }
  rewrite (Hmapping _ Hi), (Hmapping p) by (by eapply Hpar). erewrite bind_Ret by reflexivity.
  destruct (tget _ _) as [x|] eqn:Eg.
  2: { rewrite tget_None in Eg. destruct (Eg (orphan (fresh n l) api r)); [|done]. cbn [rows].
       rewrite !elem_of_app, elem_of_cons. tauto. }
  unfold modify. f_equal. unfold tupdate. cbn [rows next_id]. f_equal. rewrite !map_app. cbn [map].
  assert (Hdiff : forall x g, x ∈ l -> x <> r -> pr_id (g (fresh n l) api x) = fresh n l (pr_id x) ->
    (id_of (g (fresh n l) api x) =? fresh n l (pr_id r))%Z = false).
  { intros y g Hy Hne Hg. apply Z.eqb_neq. unfold id_of, param_id_of. rewrite Hg. intros Ef.
    apply fresh_inj in Ef; [|apply list_elem_of_fmap; by exists y|done]. apply Hne.
    clear -Hnd Hy Hr Ef. induction l as [|z l' IH]; [by apply not_elem_of_nil in Hy|].
    cbn [map] in Hnd. apply NoDup_cons in Hnd as [Hz Hnd]. apply elem_of_cons in Hy, Hr.
    destruct Hy as [->|Hy], Hr as [->|Hr]; [done|..|by apply IH].
    - destruct Hz. rewrite Ef. apply list_elem_of_fmap. by exists r.
    - destruct Hz. rewrite <-Ef. apply list_elem_of_fmap. by exists y. }
  assert (Hndl : NoDup l) by (by eapply NoDup_fmap_1). rewrite E in Hndl. apply NoDup_app in Hndl as (_ & Hb & Ha).
  apply NoDup_cons in Ha as [Ha _].
  f_equal; [|f_equal].
  - apply map_unchanged. intros y Hy. replace (_ =? _)%Z with false; [done|]. symmetry. apply Z.eqb_neq.
    specialize (Hbase y Hy). pose proof (fresh_bounds l n _ Hi). unfold id_of, param_id_of. lia.
  - apply map_unchanged. intros y (z & -> & Hz)%list_elem_of_fmap. rewrite (Hdiff z renamed); [done| |  |done].
    + rewrite E. apply elem_of_app. by left.
    + intros ->. apply (Hb r Hz). by left.
  - f_equal.
    + unfold id_of, param_id_of. cbn [pr_id orphan]. rewrite Z.eqb_refl. unfold renamed. by rewrite Ep.
    + apply map_unchanged. intros y (z & -> & Hz)%list_elem_of_fmap. rewrite (Hdiff z orphan); [done| |  |done].
      * rewrite E. apply elem_of_app. right. by right.
      * intros ->. by apply Ha.
Qed.

Lemma clone_parents_run after : forall before, l = before ++ after ->
  each (clone_parent mapping) after
    (mkTable (base ++ map (renamed (fresh n l) api) before ++ map (orphan (fresh n l) api) after) next) =
  (Ret tt, mkTable (base ++ map (renamed (fresh n l) api) l) next).
Proof.
  induction after as [|r after IH]; intros before E.
  - cbn [each map]. rewrite app_nil_r. rewrite app_nil_r in E. by subst before.
  - cbn [each]. rewrite (bind_Ret _ _ _ _ _ (clone_parent_step before r after E)). apply IH. by rewrite <-app_assoc.
Qed.
End Parents.

Lemma clone_params_run api l t : params_linked l -> table_ok t ->
  clone_params api l t = (Ret tt,
    mkTable (rows t ++ map (renamed (fresh (next_id t) l) api) l) (next_id t + Z.of_nat (List.length l))).
Proof.
  intros Hl Ht. unfold clone_params. destruct (clone_rows_run api l ∅ t) as (mapping & E & Hm); [apply Hl|].
  rewrite (bind_Ret _ _ _ _ _ E). apply (clone_parents_run api l (next_id t) (rows t) mapping _ Hl) with (before := []).
  - intros r Hr. pose proof (keys_below _ Ht) as Hb. rewrite Forall_forall in Hb. apply (Hb r Hr).
  - intros i Hi. by rewrite Hm, decide_True.
  - done.
Qed.

(** Renaming ids commutes with nesting. *)
Lemma nest_renamed f api l : (forall i j, i ∈ map pr_id l -> j ∈ map pr_id l -> f i = f j -> i = j) ->
  (forall r p, r ∈ l -> pr_parent r = Some p -> p ∈ map pr_id l) ->
  forall fuel r, r ∈ l ->
  nest fuel (map (renamed f api) l) (renamed f api r) = tree_map (renamed f api) (nest fuel l r).
Proof.
  intros Hinj Hpar. induction fuel as [|fuel IH]; intros r Hr; [done|]. cbn [nest tree_map]. f_equal.
  assert (E : List.filter (is_child (Some (pr_id (renamed f api r)))) (map (renamed f api) l) =
    map (renamed f api) (List.filter (is_child (Some (pr_id r))) l)).
  { assert (H : forall l', (forall x, x ∈ l' -> x ∈ l) ->
      List.filter (is_child (Some (pr_id (renamed f api r)))) (map (renamed f api) l') =
      map (renamed f api) (List.filter (is_child (Some (pr_id r))) l')).
    2: { by apply H. }
    induction l' as [|x l' IHl]; intros Hsub; [done|]. cbn [map List.filter].
    rewrite IHl by (intros y Hy; apply Hsub; by right).
    replace (is_child (Some (pr_id (renamed f api r))) (renamed f api x)) with (is_child (Some (pr_id r)) x).
    { by destruct (is_child (Some (pr_id r)) x). }
    unfold is_child. apply bool_decide_ext. cbn [renamed pr_parent pr_id].
    destruct (pr_parent x) as [p|] eqn:Ep; cbn; [|done]. split; [by intros [= ->]|]. intros [= E]. f_equal.
    apply Hinj; [by eapply (Hpar x); [apply Hsub; left|]|by apply list_elem_of_fmap; exists r|done]. }
  rewrite E, !map_map. apply map_ext_in. intros x [Hx _]%filter_In. apply IH. by apply list_elem_of_In.
Qed.

Lemma tree_map_id_ext {A B C} (f : A -> B) (g : B -> C) (h : A -> C) t :
  (forall x, g (f x) = h x) -> tree_map g (tree_map f t) = tree_map h t.
Proof.
  intros H. induction t as [a cs IH] using tree_nested_ind. cbn [tree_map]. rewrite H, map_map. f_equal.
  apply map_ext_in. intros c Hc%list_elem_of_In. rewrite Forall_forall in IH. by apply IH.
Qed.

(** Copied rows have the same trees. *)
Lemma forest_renamed f api l : params_linked l ->
  (forall i j, i ∈ map pr_id l -> j ∈ map pr_id l -> f i = f j -> i = j) ->
  map (tree_map pr_data) (forest (map (renamed f api) l)) = map (tree_map pr_data) (forest l).
Proof.
  intros [Hnd Hpar] Hinj. unfold forest. rewrite List.length_map.
  assert (E : List.filter (is_child None) (map (renamed f api) l) = map (renamed f api) (List.filter (is_child None) l)).
  { clear. induction l as [|x l IH]; [done|]. cbn [map List.filter]. rewrite IH.
    replace (is_child None (renamed f api x)) with (is_child None x); [by destruct (is_child None x)|].
    unfold is_child. apply bool_decide_ext. cbn. by destruct (pr_parent x). }
  rewrite E, !map_map. apply map_ext_in. intros r [Hr _]%filter_In. apply list_elem_of_In in Hr.
  rewrite nest_renamed by done. by apply tree_map_id_ext.
Qed.

(** ** Lemmas: the answer without ids *)

(** A parameter apart from its row: ids and parents forgotten. *)
Fixpoint forget_ids (p : Param) : Param :=
  let '(mkParam _ _ pl n t r d e ac _ cs) := p in
  mkParam 0 0 pl n t r d e ac None (match cs with Some l => Some (map forget_ids l) | None => None end).

Fixpoint bare_json (t : tree ParamData) : Param :=
  match t with
  | Node d cs => param_json (mkParamRow 0 0 None d) (match cs with [] => None | _ => Some (map bare_json cs) end)
  end.

Lemma forget_tree_json t : forget_ids (tree_json t) = bare_json (tree_map pr_data t).
Proof.
  induction t as [r cs IH] using tree_nested_ind. cbn [tree_json tree_map bare_json param_json forget_ids].
  unfold param_json. f_equal. destruct cs as [|c cs]; [done|]. cbn [map]. rewrite map_map, map_map.
  apply Forall_cons in IH as [Hc IH]. rewrite Hc. do 2 f_equal. apply map_ext_in.
  intros x Hx%list_elem_of_In. rewrite Forall_forall in IH. by apply IH.
Qed.

Definition data_location (d : ParamData) : option ParamLocation :=
  match pd_place d with RowRequest l _ => Some l | RowResponse _ => None end.
Definition data_status (d : ParamData) : Z := match pd_place d with RowRequest _ _ => 0 | RowResponse c => c end.

Lemma filter_map_comm {A B} (f : A -> B) (q : B -> bool) l :
  List.filter q (map f l) = map f (List.filter (fun x => q (f x)) l).
Proof. induction l as [|x l IH]; [done|]. cbn [map List.filter]. rewrite IH. by destruct (q (f x)). Qed.

(** The five lists, by the trees of the rows. *)
Lemma organizeReq_get l params :
  map forget_ids <$> obj_get (organizeReqParams params) (location_name l) =
  Some (map bare_json (List.filter (fun t => bool_decide (data_location (root t) = Some l))
    (map (tree_map pr_data) (forest params)))).
Proof.
  assert (E : obj_get (organizeReqParams params) (location_name l) =
    Some (map tree_json (List.filter (fun t => bool_decide (row_location (root t) = Some l)) (forest params))))
    by by destruct l.
  rewrite E. cbn. f_equal. rewrite filter_map_comm, !map_map.
  rewrite (List.filter_ext (fun t => bool_decide (data_location (root (tree_map pr_data t)) = Some l))
    (fun t => bool_decide (row_location (root t) = Some l))).
  { apply map_ext. apply forget_tree_json. }
  intros t. by rewrite tree_map_root.
Qed.

Lemma show_int_inj x y : show_int x = show_int y -> x = y.
Proof. intros E. pose proof (to_number_show_int x) as H. rewrite E, to_number_show_int in H. by injection H. Qed.

Section Group.
Context {A V : Type} (key : A -> string) (value : A -> V).
Definition group (o : obj (list V)) (l : list A) : obj (list V) :=
  foldl (fun o x => obj_set o (key x) (default [] (obj_get o (key x)) ++ [value x])) o l.

Lemma group_get k l : forall o, obj_get (group o l) k =
  match List.filter (fun x => String.eqb (key x) k) l with
  | [] => obj_get o k
  | xs => Some (default [] (obj_get o k) ++ map value xs)
  end.
Proof.
  induction l as [|x l IH]; intros o; [done|]. cbn [group foldl List.filter]. change (foldl _ ?o' l) with (group o' l).
  rewrite IH. destruct (String.eqb_spec (key x) k) as [<-|Hne].
  - rewrite obj_get_set_eq. destruct (List.filter _ l) as [|y ys]; [done|]. cbn [from_option id map].
    by rewrite <-app_assoc.
  - by rewrite obj_get_set_ne by done.
Qed.
End Group.

Lemma organizeResp_get c params :
  default [] (map forget_ids <$> obj_get (organizeRespParams params) (show_int c)) =
  map bare_json (List.filter (fun t => (data_status (root t) =? c)%Z) (map (tree_map pr_data) (forest params))).
Proof.
  unfold organizeRespParams. change (foldl _ [] (forest params)) with
    (group (fun t => show_int (row_status (root t))) tree_json [] (forest params)). rewrite group_get, filter_map_comm, !map_map.
  rewrite (List.filter_ext (fun t => String.eqb (show_int (row_status (root t))) (show_int c))
    (fun t => (data_status (root (tree_map pr_data t)) =? c)%Z)).
  2: { intros t. rewrite tree_map_root. change (data_status (pr_data (root t))) with (row_status (root t)).
       destruct (Z.eqb_spec (row_status (root t)) c) as [->|Hne]; [apply String.eqb_refl|]. apply String.eqb_neq.
       intros E. by apply Hne, show_int_inj. }
  destruct (List.filter _ (forest params)) as [|x xs]; [done|]. cbn [obj_get fmap option_fmap option_map from_option id app].
  rewrite map_map. apply map_ext. apply forget_tree_json.
Qed.

(** ** Specification: what a client that saved [p] reads back *)

Fixpoint as_param (p : ParamInput) : Param :=
  let '(mkParamInput n t pl r df ds ex ac cs) := p in
  mkParam 0 0 (match pl with AtLocation l => InRequest l df | AtStatus c => InResponse (default 200%Z c) end)
    n t r ds ex ac None
    (match cs with Some (c :: cs') => Some (map as_param (c :: cs')) | _ => None end).

#[global] Instance InputPlace_eq_dec : EqDecision InputPlace.
Proof. solve_decision. Defined.

Definition known_type (t : string) : bool := bool_decide (is_Some (enum_of type_name all_types t)).

(** Types known, sub-parameters where the type has some, one place for the whole
    tree, and no default outside requests. *)
Fixpoint well_typed (place : InputPlace) (p : ParamInput) : bool :=
  let '(mkParamInput n t pl r df ds ex ac cs) := p in
  bool_decide (pl = place) && known_type t &&
  match ac with Some c => known_type c | None => true end &&
  match place with AtStatus _ => bool_decide (df = None) | AtLocation _ => true end &&
  match cs with
  | Some (c :: cs') =>
      (String.eqb t "object" || String.eqb t "array" && bool_decide (ac = Some "object")) &&
      forallb (well_typed place) (c :: cs')
  | _ => true
  end.

Definition place_class (place : InputPlace) : option param_class :=
  match place with
  | AtLocation l => if bool_decide (is_Some (enum_of location_name all_locations l)) then Some RequestParamDraft else None
  | AtStatus (Some _) => Some ResponseParamDraft
  | AtStatus None => None
  end.

(** ** Lemmas: saved, then read *)

Lemma known_type_parse t : known_type t = true -> exists ty, enum_of type_name all_types t = Some ty /\ type_name ty = t.
Proof.
  intros [ty E]%bool_decide_eq_true. exists ty. split; [done|]. apply find_some in E as [_ E]. by apply String.eqb_eq.
Qed.

(** The location a sub-parameter inherits is that of the tree. *)
Definition inherits (place : InputPlace) (loc : string) : Prop :=
  match place with AtLocation l => loc = "" \/ loc = l | AtStatus _ => True end.

Lemma well_typed_root place k loc p : well_typed place p = true -> place_class place = Some k -> inherits place loc ->
  exists d, process_data k loc p = Some d /\
    pd_name d = input_name p /\ type_name (pd_type d) = input_type p /\ pd_required d = input_required p /\
    pd_description d = input_description p /\ pd_example d = input_example p /\
    type_name <$> pd_child d = input_array_child p /\
    match pd_place d with
     | RowRequest l v => InRequest (location_name l) v
     | RowResponse c => InResponse c
     end = match place with AtLocation l => InRequest l (input_default p) | AtStatus c => InResponse (default 200%Z c) end /\
    inherits place (param_location loc p) /\
    match k with RequestParamDraft => is_Some (data_location d) | ResponseParamDraft => True end.
Proof.
  destruct p as [n t pl r df ds ex ac cs]. cbn [well_typed]. rewrite !andb_true_iff.
  intros [[[[Hpl%bool_decide_eq_true Ht] Hac] Hdf] _] Hk Hloc. subst pl.
  destruct (known_type_parse t Ht) as (ty & Et & Ety).
  assert (Hchild : type_name <$> (ac ≫= fun c => if String.eqb c "" then None else enum_of type_name all_types c) = ac).
  { destruct ac as [c|]; [|done]. destruct (known_type_parse c Hac) as (tc & Ec & Etc). cbn [mbind option_bind].
    destruct (String.eqb_spec c "") as [->|]; [discriminate Ec|]. rewrite Ec. cbn [fmap option_fmap option_map]. by rewrite Etc. }
  unfold process_data, param_location. cbn [input_place input_name input_type input_required input_default input_description input_example input_array_child].
  rewrite Et. destruct place as [l|[c|]]; cbn [place_class] in Hk; [|injection Hk as <-|done].
  - case_bool_decide as El; [|done]. injection Hk as <-. destruct El as [el El].
    assert (Hel : location_name el = l) by (apply find_some in El as [_ El]; by apply String.eqb_eq).
    assert (Hs : str_or loc l = l).
    { destruct Hloc as [->| ->]; [done|]. unfold str_or. by destruct (String.eqb l ""). }
    rewrite Hs, El. eexists. split; [reflexivity|]. cbn [pd_name pd_type pd_required pd_description pd_example pd_child pd_place from_option id].
    rewrite Hel. repeat split; try done. by right.
  - eexists. split; [reflexivity|]. cbn. done.
Qed.

Lemma well_typed_tree place k p : forall loc, well_typed place p = true -> place_class place = Some k -> inherits place loc ->
  storable k loc p = true /\ bare_json (input_tree k loc p) = as_param p.
Proof.
  induction p as [p IH] using input_nested_ind. intros loc Hw Hk Hloc.
  destruct (well_typed_root place k loc p Hw Hk Hloc) as (d & Ed & Hn & Ht & Hr & Hds & Hex & Hac & Hpl & Hin & _).
  destruct p as [n t pl r df ds ex ac cs].
  cbn [input_name input_type input_required input_default input_description input_example input_array_child] in *.
  cbn [storable input_tree input_children default as_param] in *. set (p := mkParamInput n t pl r df ds ex ac cs) in *.
  unfold sent_data. rewrite Ed. cbn [from_option id bare_json]. unfold param_json. cbn [pr_data pr_id pr_api pr_parent].
  rewrite Hpl, Hn, Ht, Hr, Hds, Hex, Hac.
  assert (Hplace : pl = place).
  { unfold p in Hw. cbn [well_typed] in Hw. rewrite !andb_true_iff in Hw. destruct Hw as [[[[H _] _] _] _]. by apply bool_decide_eq_true in H. }
  assert (Hstores : forall c cs', cs = Some (c :: cs') -> stores_children d = true /\ Forall (fun c => well_typed place c = true) (c :: cs')).
  { intros c cs' ->. unfold p in Hw. cbn [well_typed] in Hw. rewrite !andb_true_iff in Hw. destruct Hw as [_ [Hh Hall]]. split.
    - unfold stores_children. apply orb_true_iff in Hh as [Hh|[Hh1 Hh2]%andb_true_iff].
      + apply String.eqb_eq in Hh. rewrite Hh in Ht. by destruct (pd_type d).
      + apply String.eqb_eq in Hh1. rewrite Hh1 in Ht. apply bool_decide_eq_true in Hh2. rewrite Hh2 in Hac.
        destruct (pd_type d); try done. apply bool_decide_eq_true. destruct (pd_child d) as [[]|]; try done.
    - apply Forall_forall. intros x Hx. change (forallb (well_typed place) (c :: cs') = true) in Hall.
      rewrite forallb_forall in Hall. by apply Hall, list_elem_of_In. }
  split.
  - destruct (stores_children d) eqn:Es; [|done]. destruct cs as [cs|]; [|done].
    apply forallb_forall. intros c Hc%list_elem_of_In. destruct cs as [|c0 cs]; [by apply not_elem_of_nil in Hc|].
    destruct (Hstores c0 cs eq_refl) as [_ Hall]. rewrite Forall_forall in Hall, IH. by apply IH; [|apply Hall|..].
  - rewrite Hplace. f_equal. destruct cs as [[|c cs]|].
    + by destruct (stores_children d).
    + destruct (Hstores c cs eq_refl) as [-> Hall]. cbn [map]. change (map ?f cs) with (map f cs).
      rewrite Forall_forall in Hall, IH. f_equal. f_equal.
      * apply IH; [by left|apply Hall; by left|done..].
      * rewrite map_map. apply map_ext_in. intros x Hx%list_elem_of_In. apply IH; [by right|apply Hall; by right|done..].
    + by destruct (stores_children d).
Qed.

Lemma input_location l p : (exists place, well_typed place p = true /\ place_class place = Some RequestParamDraft) ->
  bool_decide (data_location (root (input_tree RequestParamDraft "" p)) = Some l) =
  bool_decide (input_place p = AtLocation (location_name l)).
Proof.
  intros (place & Hw & Hk). pose proof Hk as Hc. destruct place as [lo|[]]; try done. cbn [place_class] in Hc.
  case_bool_decide as El; [clear Hc|done]. destruct El as [el El].
  assert (Hel : location_name el = lo) by (apply find_some in El as [_ El]; by apply String.eqb_eq).
  assert (Hp : input_place p = AtLocation lo).
  { destruct p. cbn [well_typed] in Hw. rewrite !andb_true_iff in Hw. destruct Hw as [[[[H _] _] _] _]. by apply bool_decide_eq_true in H. }
  apply bool_decide_ext. rewrite Hp. destruct p as [n t pl r df ds ex ac cs]. cbn [input_place] in Hp. subst pl.
  cbn [input_tree root]. unfold sent_data, process_data, param_location. cbn [input_place].
  change (str_or "" lo) with lo. rewrite El. cbn.
  rewrite <-Hel. split; [by intros [= ->]|]. intros [= E]. f_equal. by destruct el, l.
Qed.

(** Parameters of one class whose trees are well typed. *)
Definition sendable (k : param_class) (p : ParamInput) : Prop :=
  exists place, well_typed place p = true /\ place_class place = Some k.

Lemma sendable_tree k p : sendable k p -> storable k "" p = true /\ bare_json (input_tree k "" p) = as_param p.
Proof. intros (place & Hw & Hk). apply (well_typed_tree place); [done|done|]. by destruct place; [left|]. Qed.

Lemma sendable_storable k params : Forall (sendable k) params -> forallb (storable k "") params = true.
Proof.
  intros H. apply forallb_forall. rewrite Forall_forall in H. intros p Hp%list_elem_of_In. by apply sendable_tree, H.
Qed.

Lemma map_filter_as {A B} (f : A -> B) (g : A -> B) (q q' : A -> bool) l :
  (forall x, x ∈ l -> f x = g x /\ q x = q' x) -> map f (List.filter q l) = map g (List.filter q' l).
Proof.
  induction l as [|x l IH]; intros H; [done|]. cbn [List.filter]. destruct (H x ltac:(by left)) as [Hf Hq].
  rewrite Hq. assert (E : map f (List.filter q l) = map g (List.filter q' l)) by (apply IH; intros y Hy; apply H; by right).
  destruct (q' x); cbn [map]; [by rewrite Hf, E|exact E].
Qed.

(** The rows of saved request parameters, read by location. *)
Lemma saved_requests_read api n params l : Forall (sendable RequestParamDraft) params ->
  map forget_ids <$> obj_get (organizeReqParams (flat_list api None n (map (input_tree RequestParamDraft "") params))) (location_name l) =
  Some (map as_param (List.filter (fun p => bool_decide (input_place p = AtLocation (location_name l))) params)).
Proof.
  intros Hs. rewrite organizeReq_get, forest_flat, filter_map_comm, map_map. f_equal. apply map_filter_as.
  rewrite Forall_forall in Hs. intros p Hp. specialize (Hs p Hp). split; [by apply sendable_tree|by apply input_location].
Qed.

Lemma input_status c p : sendable ResponseParamDraft p ->
  (data_status (root (input_tree ResponseParamDraft "" p)) =? c)%Z = bool_decide (input_place p = AtStatus (Some c)).
Proof.
  intros (place & Hw & Hk). destruct place as [l|[c'|]]; [|clear Hk|done].
  { cbn [place_class] in Hk. by case_bool_decide. }
  destruct p as [n t pl r df ds ex ac cs]. cbn [well_typed] in Hw. rewrite !andb_true_iff in Hw.
  destruct Hw as [[[[->%bool_decide_eq_true _] _] _] _]. cbn.
  destruct (Z.eqb_spec c' c) as [->|Hne]; symmetry; [by apply bool_decide_eq_true|].
  apply bool_decide_eq_false. by intros [= ?].
Qed.

(** The rows of saved response parameters, read by status code. *)
Lemma saved_responses_read api n params c : Forall (sendable ResponseParamDraft) params ->
  default [] (map forget_ids <$> obj_get (organizeRespParams (flat_list api None n (map (input_tree ResponseParamDraft "") params))) (show_int c)) =
  map as_param (List.filter (fun p => bool_decide (input_place p = AtStatus (Some c))) params).
Proof.
  intros Hs. rewrite organizeResp_get, forest_flat, filter_map_comm, map_map. apply map_filter_as.
  rewrite Forall_forall in Hs. intros p Hp. specialize (Hs p Hp). split; [by apply sendable_tree|by apply input_status].
Qed.

(** Two lists of rows with the same trees read the same. *)
Lemma organize_same l l' : map (tree_map pr_data) (forest l) = map (tree_map pr_data) (forest l') ->
  (forall loc, map forget_ids <$> obj_get (organizeReqParams l) (location_name loc) =
               map forget_ids <$> obj_get (organizeReqParams l') (location_name loc)) /\
  (forall c, default [] (map forget_ids <$> obj_get (organizeRespParams l) (show_int c)) =
             default [] (map forget_ids <$> obj_get (organizeRespParams l') (show_int c))).
Proof. intros E. split; intros x; [by rewrite !organizeReq_get, E|by rewrite !organizeResp_get, E]. Qed.
