(* ===== verification/Openapi.v ===== *)
(** * The exported document

    [openapiTemplate] of [BE-CAM/services/utils.py]: the OpenAPI document of a
    service or of one of its past versions.  The schemas are those of [TsTypes]
    ([example] and [default] decide no validity); a [default] that does not parse
    as its type fails the export. *)

From S2P Require Import Prelude Tables JsNumber JsObject ApiTypes TsTypes FeTypes Database ParamStore.
From Stdlib Require Import Ascii String ZArith.

(** ** The document *)

Record DocParameter := mkDocParameter {
  dp_name : string; dp_in : string; dp_required : bool; dp_description : option string; dp_schema : schema }.

(** A request body and a response refer to a component by name. *)
Record DocOperation := mkDocOperation {
  do_description : option string; operationId : string; do_parameters : list DocParameter;
  requestBody : option string; do_responses : obj string; deprecated : bool }.

Record Document := mkDocument {
  doc_title : string; doc_description : option string; doc_contact : string * string; doc_version : option string;
  doc_paths : obj (obj DocOperation); doc_schemas : obj schema }.

(** ** [_to_component_name] *)

Fixpoint spaced (s : string) : string :=
  match s with
  | String c s' => if is_upper c then String " " (String c (spaced s')) else String c (spaced s')
  | EmptyString => ""
  end.
Definition alphanumeric (c : ascii) : bool := is_upper c || is_lower c || is_digit c.
Fixpoint cleaned (s : string) : string :=
  match s with
  | String c s' => String (if alphanumeric c then c else " "%char) (cleaned s')
  | EmptyString => ""
  end.
Definition capitalized (word : string) : string :=
  match word with String c w => String (upper_char c) (to_lower w) | EmptyString => "" end.
Definition to_component_name (name : string) : string :=
  join "" (map capitalized (List.filter (fun w => negb (String.eqb w "")) (split_on " " (cleaned (spaced name))))).

(** ** Defaults *)

(** [int(text)] and whether [float(text)] is a number; digits grouped by [_] are
    not covered. *)
Definition py_int (s : string) : option Z := if String.eqb (trim s) "" then None else to_number s.
Definition py_float_ok (s : string) : bool :=
  let t := to_lower (trim s) in
  let u := match t with String "-" r | String "+" r => r | _ => t end in
  bool_decide (u ∈ ["inf"; "infinity"; "nan"]) ||
  match unsigned_decimal u with Dec _ _ => true | _ => false end.

(** [schema["default"] = ...] does not raise. *)
Definition own_default_ok (p : Param) : bool :=
  match param_place p with
  | InRequest _ (Some v) =>
      if String.eqb v "" || String.eqb v "null" || String.eqb v "undefined" then true
      else if String.eqb (param_type p) "int" then bool_decide (is_Some (py_int v))
      else if String.eqb (param_type p) "double" then py_float_ok v
      else true
  | _ => true
  end.

(** Of every parameter [_build_param_schema] visits. *)
Fixpoint defaults_ok (p : Param) : bool :=
  own_default_ok p &&
  (if String.eqb (param_type p) "object" || (String.eqb (param_type p) "array" && bool_decide (array_child_type p = Some "object"))
   then match children_params p with Some cs => forallb defaults_ok cs | None => true end
   else true).

(** ** One API *)

Definition at_location (params : obj (list Param)) (l : string) : list Param := default [] (obj_get params l).

Definition doc_parameter (loc : string) (p : Param) : DocParameter :=
  mkDocParameter (param_name p) loc (required p)
    (match description p with Some t => if String.eqb t "" then None else Some t | None => None end)
    (build_param_schema p).

Definition request_component (a : ApiRow) : string := to_component_name (ar_name a) +:+ "Request".
Definition response_component (a : ApiRow) (status_code : string) : string :=
  to_component_name (ar_name a) +:+ "Response" +:+ (if String.eqb status_code "200" then "" else status_code).

Definition doc_operation (a : ApiRow) (request response : obj (list Param)) : DocOperation :=
  mkDocOperation (ar_description a) (ar_name a)
    (List.concat (map (fun l => map (doc_parameter l) (at_location request l)) ["query"; "path"; "header"; "cookie"]))
    (match at_location request "body" with [] => None | _ => Some (request_component a) end)
    (map (fun r => (r.1, response_component a r.1)) response)
    (negb (ar_enabled a)).

(** The components an API registers. *)
Definition own_schemas (a : ApiRow) (request response : obj (list Param)) : obj schema :=
  match at_location request "body" with
  | [] => []
  | body_params => [(request_component a, build_root_schema body_params)]
  end ++ map (fun r => (response_component a r.1, build_root_schema r.2)) response.

(** An API with the rows of its parameters. *)
Record ApiRows := mkApiRows { the_api : ApiRow; the_requests : list ParamRow; the_responses : list ParamRow }.

Definition method_key (a : ApiRow) : string := to_lower (method_name (ar_method a)).

(** One round of the loop over [apis]. *)
Definition add_operation (doc : obj (obj DocOperation) * obj schema) (a : ApiRows)
    : obj (obj DocOperation) * obj schema :=
  let request := organizeReqParams (the_requests a) in
  let response := organizeRespParams (the_responses a) in
  let p := ar_path (the_api a) in
  let '(paths, schemas) := doc in
  (obj_set paths p (obj_set (default [] (obj_get paths p)) (method_key (the_api a)) (doc_operation (the_api a) request response)),
   foldl (fun o s => obj_set o s.1 s.2) schemas (own_schemas (the_api a) request response)).

Definition params_parse (a : ApiRows) : bool :=
  forallb (fun g => forallb defaults_ok g.2) (organizeReqParams (the_requests a)) &&
  forallb (fun g => forallb defaults_ok g.2) (organizeRespParams (the_responses a)).

(** [openapiTemplate], from what it reads of the service or iteration: its
    identifier, description, contact and version; [None] when a default fails. *)
Definition openapiTemplate (title : string) (description : option string) (contact : UserRow)
    (version : option string) (apis : list ApiRows) : option Document :=
  if forallb params_parse apis then
    let '(paths, schemas) := foldl add_operation ([], []) apis in
    Some (mkDocument title description (ur_username contact, ur_email contact) version paths schemas)
  else None.
