(* ===== verification/Backend.v ===== *)
(** * The back end: requests as transactions

    What the handlers of [BE-CAM/services/*.py] share: the reply they return, the
    session they work in (changes become visible to other requests by [commit],
    and are dropped when the handler ends without one or raises), the constraints
    the schema puts on a commit, and [checkServiceIterationPermission] of
    [services/utils.py]. *)

From S2P Require Import Prelude Tables JsNumber JsObject ApiTypes FeTypes Database ParamStore TsTypes Openapi.
From Stdlib Require Import Ascii String ZArith.

(** ** Replies *)

(** The members of a reply besides [status] and [message]. *)
Inductive Payload :=
| NoPayload
| PToken (access_token : string)
| PUser (user : UserProfile)
| PUsers (users : list UserProfile)
| PServices (services : list ServiceItem) (total : Z)
| PService (service : ServiceDetail)
| PAnyService (service : AnyService) (is_latest : bool)
| PVersions (versions : list (option string * bool))
| PIterationId (service_iteration_id : Z)
| PIteration (iteration : ServiceIterationDetail)
| PCommitted (service_id service_iteration_id : Z) (version : string)
| PMaintainer (is_current_maintainer : bool)
| POpenapi (openapi_object : Document) (is_latest : bool)
| PCategories (categories : list ApiCategory)
| PCategory (category : ApiCategory)
| PApis (apis : list ApiBrief)
| PApi (api : ApiDetail)
| PDraft (api : ApiBrief).

(** A dict returned by a handler; one path returns a dict without [status] and
    [message]. *)
Record Reply := mkReply { reply_status : option Z; reply_message : option string; reply_payload : Payload }.

Definition refused (status : Z) (message : string) : Reply := mkReply (Some status) (Some message) NoPayload.
Definition success (message : string) (p : Payload) : Reply := mkReply (Some 200%Z) (Some message) p.

(** ** What the handlers use of other code *)

(** [bcrypt], [jose.jwt], and the text comparisons of the database: [ilike] of a
    text and a pattern, and the order in which texts are listed. *)
Class Libraries := {
  hashpw : string -> string -> string;
  checkpw : string -> string -> bool;
  (** The token for an id, a name and an expiry time. *)
  jwt_encode : Z -> string -> Z -> string;
  (** The id in a token that is valid at a time. *)
  jwt_decode : Z -> string -> option Z;
  ilike : string -> string -> bool;
  collation : string -> string -> comparison;
  (** A query parameter as axios writes it and Robyn hands it over: percent-encoded. *)
  query_text : string -> string
}.

(** [unquote]: [%XY] is a byte. *)
Fixpoint unquote (s : string) : string :=
  match s with
  | String c s' =>
      match s' with
      | String x (String y r) =>
          match hex_digit x, hex_digit y with
          | Some a, Some b =>
              if Ascii.eqb c "%" then String (ascii_of_N (Z.to_N (16 * a + b))) (unquote r)
              else String c (unquote s')
          | _, _ => String c (unquote s')
          end
      | _ => String c (unquote s')
      end
  | EmptyString => ""
  end.

(** [.limit(page_size).offset((current_page - 1) * page_size).all()]; the database
    refuses negative numbers. *)
Definition page_of {S A} (page_size current_page : Z) (l : list A) : M S (list A) :=
  let offset := ((current_page - 1) * page_size)%Z in
  if ((page_size <? 0) || (offset <? 0))%Z
  then raise "DataError" "LIMIT and OFFSET must not be negative"
  else mret (take (Z.to_nat page_size) (drop (Z.to_nat offset) l)).

(** ** The session *)

(** What is handed to [send_email]. *)
Record Mail := mkMail { mail_to : gset string; mail_subject : string; mail_content : string }.

(** The session's view of the database, what is committed, and the mails sent. *)
Record Tx := mkTx { work : Db; committed : Db; outbox : list Mail }.

Notation TX := (M Tx).

Definition read {A} (f : Db -> A) : TX A := fun s => (Ret (f (work s)), s).
Definition write (f : Db -> Db) : TX unit := modify (fun s => mkTx (f (work s)) (committed s) (outbox s)).
Definition send_email (m : Mail) : TX unit := modify (fun s => mkTx (work s) (committed s) (outbox s ++ [m])).

(** Work on one table of parameters. *)
Definition in_table {A} (get : Db -> table ParamRow) (put : (table ParamRow -> table ParamRow) -> Db -> Db)
    (m : M (table ParamRow) A) : TX A := fun s =>
  let '(o, t) := m (get (work s)) in
  (o, mkTx (put (fun _ => t) (work s)) (committed s) (outbox s)).

#[global] Instance ApiRow_eq_dec : EqDecision ApiRow.
Proof. solve_decision. Defined.

(** The unique constraints; of the two declarations of [__table_args__] on [Api]
    and [ApiDraft] the second replaces the first, so that paths are not among
    them. *)
Definition unique_ok (d : Db) : bool :=
  bool_decide (NoDup (map ur_username (rows (users d)))) &&
  bool_decide (NoDup (map ur_email (rows (users d)))) &&
  bool_decide (NoDup (map sr_uuid (rows (services d)))) &&
  bool_decide (NoDup (map (fun c => (cr_service c, cr_name c)) (rows (categories d)))) &&
  bool_decide (NoDup (map (fun a => (ar_parent a, ar_method a, ar_name a)) (rows (db_apis d)))) &&
  bool_decide (NoDup (map (fun a => (ar_parent a, ar_method a, ar_name a)) (rows (drafts d)))).

(** [db.commit()]; the database checks a constraint when the rows are flushed,
    which is no later than here, and a violation ends the request either way. *)
Definition commit : TX unit := fun s =>
  if unique_ok (work s) then (Ret tt, mkTx (work s) (work s) (outbox s)) else IntegrityError s.

(** A request in a session of its own: what it answers, and the database and the
    mails it leaves. *)
Definition in_session (m : TX Reply) (d : Db) : outcome Reply * (Db * list Mail) :=
  let '(o, s) := m (mkTx d d []) in (o, (committed s, outbox s)).

(** ** Rights *)

Definition get_user (user_id : Z) : TX (option UserRow) := read (fun d => tget (users d) user_id).

(** [user.level.value != 0]. *)
Definition not_L0 (user : option UserRow) : TX bool :=
  match user with
  | Some u => mret (negb (ur_level u =? 0)%Z)
  | None => raise "AttributeError" "'NoneType' object has no attribute 'level'"
  end.

(** [condition and user.level.value != 0]. *)
Definition and_not_L0 (condition : bool) (user : option UserRow) : TX bool :=
  if condition then not_L0 user else mret false.

(** [user in service.maintainers]. *)
Definition maintains (user : option UserRow) (s : ServiceRow) : bool :=
  match user with Some u => bool_decide (ur_id u ∈ sr_maintainers s) | None => false end.

(** The object behind a foreign key that is never null. *)
Definition deref {A} (o : option A) (member : string) : TX A :=
  match o with
  | Some a => mret a
  | None => raise "AttributeError" ("'NoneType' object has no attribute '" +:+ member +:+ "'")
  end.

(** [checkServiceIterationPermission]: the iteration and the user, or the reply of
    [error].  Its second test of [is_committed] is never reached. *)
Definition checkServiceIterationPermission (service_iteration_id user_id : Z)
    : TX (IterationRow * option UserRow + Reply) :=
  it ← read (fun d => tget (iterations d) service_iteration_id);
  match it with
  | None => mret (inr (refused (-10) "Service iteration not found or committed"))
  | Some it =>
      if ir_committed it then mret (inr (refused (-10) "Service iteration not found or committed"))
      else
        user ← get_user user_id;
        s ← read (fun d => tget (services d) (ir_service it));
        s ← deref s "owner_id";
        denied ← and_not_L0 (negb (sr_owner s =? user_id)%Z && negb (ir_creator it =? user_id)%Z) user;
        if denied : bool
        then mret (inr (refused (-30) "You are neither the owner of this service, nor the creator of this service iteration"))
        else mret (inl (it, user))
  end.

(** Handlers that return the error as their reply. *)
Definition with_iteration (service_iteration_id user_id : Z) (k : IterationRow -> option UserRow -> TX Reply) : TX Reply :=
  check ← checkServiceIterationPermission service_iteration_id user_id;
  match check with
  | inr error => mret error
  | inl (it, user) => k it user
  end.
