(* ===== verification/Transaction.v ===== *)
(** * Reasoning about transactions

    [ends I P m d Q]: run in a session whose work is [d] and whose committed
    database satisfies [I], [m] leaves a committed database that satisfies [I],
    whether it returns or raises; when it returns, its value and its work satisfy
    [Q], and it raises only if [P].  There is one rule per construct of the
    handlers, and [tx] applies them. *)

From S2P Require Import Prelude Tables JsObject ApiTypes FeTypes Database ParamStore Backend.
From Stdlib Require Import String ZArith Lia.

Section Ends.
Context (I : Db -> Prop) (P : Prop).

Definition ends {A} (m : TX A) (d : Db) (Q : A -> Db -> Prop) : Prop := forall c outbox, I c ->
  let '(o, s) := m (mkTx d c outbox) in I (committed s) /\ match o with Ret a => Q a (work s) | _ => P end.

Lemma ends_ret {A} (a : A) d (Q : A -> Db -> Prop) : Q a d -> ends (mret a) d Q.
Proof. intros HQ c ml Hc. by split. Qed.

Lemma ends_raise {A} name msg d (Q : A -> Db -> Prop) : P -> ends (raise name msg) d Q.
Proof. intros HP c ml Hc. by split. Qed.

Lemma ends_bind {A B} (m : TX A) (f : A -> TX B) d (Q : B -> Db -> Prop) :
  ends m d (fun a d' => ends (f a) d' Q) -> ends (m ≫= f) d Q.
Proof.
  intros Hm c ml Hc. specialize (Hm c ml Hc). unfold mbind, M_bind.
  destruct (m _) as [[a|e|x] [w c' ml']]; cbn in *; destruct Hm as [Hc' Ha]; [by apply Ha|by split..].
Qed.

Lemma ends_read {A} (f : Db -> A) d (Q : A -> Db -> Prop) : Q (f d) d -> ends (read f) d Q.
Proof. intros HQ c ml Hc. by split. Qed.

Lemma ends_write (f : Db -> Db) d (Q : unit -> Db -> Prop) : Q tt (f d) -> ends (write f) d Q.
Proof. intros HQ c ml Hc. by split. Qed.

Lemma ends_send_email m d (Q : unit -> Db -> Prop) : Q tt d -> ends (send_email m) d Q.
Proof. intros HQ c ml Hc. by split. Qed.

Lemma ends_commit d (Q : unit -> Db -> Prop) : (unique_ok d = false -> P) -> (unique_ok d = true -> I d /\ Q tt d) ->
  ends commit d Q.
Proof. intros HP HQ c ml Hc. unfold commit. cbn [work]. destruct (unique_ok d); [by apply HQ|by split; [|apply HP]]. Qed.

Lemma ends_deref {A} (o : option A) member d (Q : A -> Db -> Prop) :
  (o = None -> P) -> (forall a, o = Some a -> Q a d) -> ends (deref o member) d Q.
Proof. intros HP HQ. destruct o as [a|]; [by apply ends_ret, HQ|by apply ends_raise, HP]. Qed.

(** Work on a table of parameters, by its outcome there. *)
Lemma ends_in_table {A} get put (m : M (table ParamRow) A) d (Q : A -> Db -> Prop) :
  (let '(o, t) := m (get d) in match o with Ret a => Q a (put (fun _ => t) d) | _ => P end) ->
  ends (in_table get put m) d Q.
Proof.
  intros HQ c ml Hc. unfold in_table. cbn [work]. destruct (m (get d)) as [o t]. by destruct o; split.
Qed.

Lemma ends_in_table_run {A} get put (m : M (table ParamRow) A) d (Q : A -> Db -> Prop) a t :
  m (get d) = (Ret a, t) -> Q a (put (fun _ => t) d) -> ends (in_table get put m) d Q.
Proof. intros E HQ. apply ends_in_table. by rewrite E. Qed.

Lemma ends_not_L0 user d (Q : bool -> Db -> Prop) : (user = None -> P) ->
  (forall u, user = Some u -> Q (negb (ur_level u =? 0)%Z) d) -> ends (not_L0 user) d Q.
Proof. intros HP HQ. destruct user as [u|]; [by apply ends_ret, HQ|by apply ends_raise, HP]. Qed.

Lemma ends_and_not_L0 b user d (Q : bool -> Db -> Prop) : (b = true -> user = None -> P) ->
  (b = false -> Q false d) -> (forall u, b = true -> user = Some u -> Q (negb (ur_level u =? 0)%Z) d) ->
  ends (and_not_L0 b user) d Q.
Proof. intros HP H1 H2. destruct b; [apply ends_not_L0; auto|by apply ends_ret, H1]. Qed.

(** When only the answer depends on the level. *)
Lemma ends_and_not_L0_any b user d (Q : bool -> Db -> Prop) : (user = None -> P) -> (forall b', Q b' d) ->
  ends (and_not_L0 b user) d Q.
Proof. intros HP HQ. apply ends_and_not_L0; auto. Qed.

Lemma ends_page_of {A} size current (l : list A) d (Q : list A -> Db -> Prop) :
  ((size < 0 \/ (current - 1) * size < 0)%Z -> P) ->
  Q (take (Z.to_nat size) (drop (Z.to_nat ((current - 1) * size)) l)) d -> ends (page_of size current l) d Q.
Proof.
  intros HP HQ. unfold page_of. destruct (_ || _) eqn:E; [apply ends_raise, HP; lia|by apply ends_ret].
Qed.

(** A loop, by what holds after the rounds for a part of the list. *)
Lemma ends_each_prefix {A} (body : A -> TX unit) (R : list A -> Db -> Prop) l d (Q : unit -> Db -> Prop) :
  R [] d ->
  (forall before x after d', l = before ++ x :: after -> R before d' -> ends (body x) d' (fun _ => R (before ++ [x]))) ->
  (forall d', R l d' -> Q tt d') -> ends (each body l) d Q.
Proof.
  intros H0 Hbody HQ.
  assert (H : forall after before d', l = before ++ after -> R before d' -> ends (each body after) d' Q).
  2: { by apply (H l []). }
  induction after as [|x after IH]; intros before d' El HR.
  - rewrite app_nil_r in El. subst. by apply ends_ret, HQ.
  - cbn [each]. apply ends_bind. intros c ml Hc. specialize (Hbody before x after d' El HR c ml Hc).
    destruct (body x _) as [[a|e|e] s]; destruct Hbody as [Hc' Hx]; split; try done.
    apply (IH (before ++ [x])); [by rewrite <-app_assoc|done].
Qed.

(** By what holds before each of its rounds. *)
Lemma ends_each {A} (body : A -> TX unit) (R : Db -> Prop) l d (Q : unit -> Db -> Prop) :
  R d -> (forall x d', x ∈ l -> R d' -> ends (body x) d' (fun _ => R)) -> (forall d', R d' -> Q tt d') ->
  ends (each body l) d Q.
Proof.
  intros H0 Hbody HQ. apply ends_each_prefix with (fun _ => R); [done| |done].
  intros before x after d' -> HR. apply Hbody; [|done]. apply elem_of_app. right. by left.
Qed.

Lemma ends_and {A} (m : TX A) d (Q Q' : A -> Db -> Prop) :
  ends m d Q -> ends m d Q' -> ends m d (fun a d' => Q a d' /\ Q' a d').
Proof.
  intros Hm Hm' c ml Hc. specialize (Hm c ml Hc). specialize (Hm' c ml Hc).
  destruct (m _) as [[a|e|e] s]; destruct Hm, Hm'; by split.
Qed.

Lemma ends_weaken {A} (m : TX A) d (Q Q' : A -> Db -> Prop) :
  ends m d Q -> (forall a d', Q a d' -> Q' a d') -> ends m d Q'.
Proof.
  intros Hm HQ c ml Hc. specialize (Hm c ml Hc). destruct (m _) as [[a|e|e] s]; destruct Hm; split; eauto.
Qed.

(** What a request leaves committed, and whether it raises. *)
Lemma ends_in_session m d Q : I d -> ends m d Q -> I (in_session m d).2.1.
Proof.
  intros Hd Hm. specialize (Hm d [] Hd). unfold in_session. destruct (m _) as [o s]. by destruct Hm.
Qed.

Lemma ends_returns m d Q : I d -> ends m d Q -> (exists r, (in_session m d).1 = Ret r) \/ P.
Proof.
  intros Hd Hm. specialize (Hm d [] Hd). unfold in_session. destruct (m _) as [[r|e|e] s]; destruct Hm as [_ Hm].
  - left. by exists r.
  - by right.
  - by right.
Qed.
End Ends.

(** Walk through a handler: the branches, with what was found on the way. *)
Ltac may_raise := intros; try exact Logic.I.
Ltac tx_step :=
  match goal with
  | |- ends _ _ (mret _) _ _ => apply ends_ret
  | |- ends _ _ (raise _ _) _ _ => apply ends_raise; may_raise
  | |- ends _ _ IntegrityError _ _ => apply ends_raise; may_raise
  | |- ends _ _ (_ ≫= _) _ _ => apply ends_bind
  | |- ends _ _ (read _) _ _ => apply ends_read
  | |- ends _ _ (get_user _) _ _ => apply ends_read
  | |- ends _ _ (write _) _ _ => apply ends_write
  | |- ends _ _ (send_email _) _ _ => apply ends_send_email
  | |- ends _ _ commit _ _ => apply ends_commit; [may_raise|intros ?]
  | |- ends _ _ (deref _ _) _ _ => apply ends_deref; [may_raise|intros ? ?]
  | |- ends _ _ (not_L0 _) _ _ => apply ends_not_L0; [may_raise|intros ? ?]
  | |- ends _ _ (and_not_L0 _ _) _ _ => apply ends_and_not_L0; [may_raise|intros ?|intros ? ? ?]
  | |- ends _ _ (page_of _ _ _) _ _ => apply ends_page_of; [may_raise|]
  | |- ends _ _ (match ?o with _ => _ end) _ _ => destruct o eqn:?
  end.
Ltac tx := repeat (cbv beta zeta; tx_step).
Tactic Notation "tx" "any" :=
  repeat (cbv beta zeta; first [apply ends_and_not_L0_any; [may_raise|intros ?]|tx_step]).

(** ** Running a handler step by step *)

(** A part that commits nothing and does not raise, run. *)
Lemma ends_run {A} (m : TX A) d c outbox (Q : A -> Db -> Prop) : ends (fun c' => c' = c) False m d Q ->
  exists a w outbox', m (mkTx d c outbox) = (Ret a, mkTx w c outbox') /\ Q a w.
Proof.
  intros Hm. specialize (Hm c outbox eq_refl). destruct (m _) as [[a|e|e] [w c' o']]; cbn in Hm; destruct Hm as [-> Hm]; [|done..].
  by exists a, w, o'.
Qed.

Section Run.
Context {A B : Type}.
Implicit Types (s : Tx) (d c : Db).

Lemma run_read (f : Db -> A) (k : A -> TX B) s : (read f ≫= k) s = k (f (work s)) s.
Proof. done. Qed.
Lemma run_ret (a : A) (k : A -> TX B) s : (mret a ≫= k) s = k a s.
Proof. done. Qed.
Lemma run_write f (k : unit -> TX B) d c o : (write f ≫= k) (mkTx d c o) = k tt (mkTx (f d) c o).
Proof. done. Qed.
Lemma run_send m (k : unit -> TX B) d c o : (send_email m ≫= k) (mkTx d c o) = k tt (mkTx d c (o ++ [m])).
Proof. done. Qed.
Lemma run_deref (a : A) member (k : A -> TX B) s : (deref (Some a) member ≫= k) s = k a s.
Proof. done. Qed.
Lemma run_commit (k : unit -> TX B) d c o : unique_ok d = true -> (commit ≫= k) (mkTx d c o) = k tt (mkTx d d o).
Proof. intros E. unfold mbind, M_bind, commit. cbn [work outbox]. by rewrite E. Qed.
Lemma run_in_table get put (m : M (table ParamRow) A) (k : A -> TX B) d c o a t : m (get d) = (Ret a, t) ->
  (in_table get put m ≫= k) (mkTx d c o) = k a (mkTx (put (fun _ => t) d) c o).
Proof. intros E. unfold mbind, M_bind, in_table. cbn [work committed outbox]. by rewrite E. Qed.
Lemma run_and_not_L0 b u (k : bool -> TX B) s : (and_not_L0 b (Some u) ≫= k) s = k (b && negb (ur_level u =? 0)%Z) s.
Proof. by destruct b. Qed.
End Run.

(** One rule, then the branch it decides. *)
Ltac step := first [ rewrite <-bind_assoc | rewrite run_read | rewrite run_ret | rewrite run_write | rewrite run_send
  | rewrite run_deref | rewrite run_and_not_L0 ]; cbv beta iota; cbn [work].
