(* ===== verification/BackendUser.v ===== *)
(** * The back end: users

    [BE-CAM/services/user.py]: one definition per handler.  [now] is the clock in
    microseconds, [salt] what [gensalt()] returns. *)

From S2P Require Import Prelude Tables JsObject ApiTypes FeTypes Database ParamStore Backend.
From Stdlib Require Import String ZArith.
From stdpp Require Import sorting.

Section User.
Context `{!Isoformat, !Libraries}.

(** [createAccessToken]: the token is valid for a day. *)
Definition createAccessToken (now : Z) (u : UserRow) : string :=
  jwt_encode (ur_id u) (ur_username u) (now + 24 * 3600 * 1000000).

Definition userGetUserById (id : Z) : TX Reply :=
  user ← get_user id;
  mret (match user with
        | None => refused (-1) "User not found"
        | Some u => success "Get user success" (PUser (user_json u))
        end).

(** [.order_by(User.nickname, User.username, User.email)]. *)
Definition listed_before (u v : UserRow) : bool :=
  match collation (ur_nickname u) (ur_nickname v) with
  | Lt => true
  | Gt => false
  | Eq => match collation (ur_username u) (ur_username v) with
          | Lt => true
          | Gt => false
          | Eq => match collation (ur_email u) (ur_email v) with Gt => false | _ => true end
          end
  end.

Definition userGetUserByUsernameOrNicknameOrEmail (username_or_nickname_or_email : string) : TX Reply :=
  let keyword := trim (unquote username_or_nickname_or_email) in
  let like s := ilike s ("%" +:+ keyword +:+ "%") in
  search_users ← read (fun d => merge_sort (fun u v => Is_true (listed_before u v))
    (select (users d) (fun u => like (ur_username u) || like (ur_nickname u) || like (ur_email u))));
  mret (success "Get users success" (PUsers (map user_json search_users))).

Definition userLogin (now : Z) (username password : string) : TX Reply :=
  user ← read (fun d => first_row (users d) (fun u =>
    String.eqb (ur_username u) username || String.eqb (ur_email u) username));
  mret (match user with
        | None => refused (-1) "User not found"
        | Some u =>
            if checkpw password (ur_password u)
            then success "Login success" (PToken (createAccessToken now u))
            else refused (-2) "Wrong password"
        end).

(** A new user is a guest unless the role is one of the ten, and of level L4. *)
Definition userRegister (now : Z) (salt username password nickname email role : string) : TX Reply :=
  existing_user ← read (fun d => first_row (users d) (fun u =>
    String.eqb (ur_username u) username || String.eqb (ur_email u) email));
  match existing_user with
  | Some _ => mret (refused (-1) "Username or email already registered")
  | None =>
      let user_role := if bool_decide (role ∈ all_roles) then role else "guest" in
      write (on_users (tadd (fun i =>
        mkUserRow i username (hashpw salt password) nickname email user_role 4 now))) ;;
      commit ;;
      mret (success "Register success" NoPayload)
  end.

Definition set_password (hash : string) (u : UserRow) : UserRow :=
  mkUserRow (ur_id u) (ur_username u) hash (ur_nickname u) (ur_email u) (ur_role u) (ur_level u) (ur_created u).

Definition userModifyPassword (salt : string) (id : Z) (old_password new_password : string) : TX Reply :=
  user ← get_user id;
  match user with
  | None => mret (refused (-1) "User not found")
  | Some u =>
      if checkpw old_password (ur_password u) then
        if String.eqb old_password new_password
        then mret (refused (-3) "New password cannot be the same as old password")
        else
          write (on_users (tupdate id (set_password (hashpw salt new_password)))) ;;
          commit ;;
          mret (success "Modify password success" NoPayload)
      else mret (refused (-2) "Wrong old password")
  end.
End User.
