(* ===== verification/BackendService.v ===== *)
(** * The back end: services and iterations

    [BE-CAM/services/service.py]: one definition per handler.  [now] is the clock
    in microseconds. *)

From S2P Require Import Prelude Tables JsObject ApiTypes FeTypes Database ParamStore TsTypes Openapi Backend.
From Stdlib Require Import String ZArith.
From stdpp Require Import sorting.

(** [.order_by(Service.id.desc())] and [.order_by(Service.deleted_at.desc())]. *)
Definition newest_first (l : list ServiceRow) : list ServiceRow := merge_sort (fun a b => Is_true (sr_id b <=? sr_id a)%Z) l.
Definition last_deleted_first (l : list ServiceRow) : list ServiceRow :=
  merge_sort (fun a b => Is_true (default 0 (sr_deleted_at b) <=? default 0 (sr_deleted_at a))%Z) l.

(** The queries of the lists: [live] is [~Service.is_deleted]. *)
Definition live (s : ServiceRow) : bool := negb (sr_deleted s).
Definition owned_by (user : Z) (s : ServiceRow) : bool := (sr_owner s =? user)%Z.
Definition maintained_by (user : Z) (s : ServiceRow) : bool := bool_decide (user ∈ sr_maintainers s).

(** The rows of a relationship of an API or draft. *)
Definition params_of (t : table ParamRow) (api : Z) : list ParamRow := select t (fun r => (pr_api r =? api)%Z).

(** ** Changes of rows *)

Definition set_maintainers (f : list Z -> list Z) (s : ServiceRow) : ServiceRow :=
  mkServiceRow (sr_id s) (sr_owner s) (f (sr_maintainers s)) (sr_uuid s) (sr_version s) (sr_description s)
    (sr_created s) (sr_deleted s) (sr_deleted_at s).
Definition set_deleted (deleted_at : option Z) (s : ServiceRow) : ServiceRow :=
  mkServiceRow (sr_id s) (sr_owner s) (sr_maintainers s) (sr_uuid s) (sr_version s) (sr_description s)
    (sr_created s) (bool_decide (is_Some deleted_at)) deleted_at.
Definition set_released (version : string) (description : option string) (s : ServiceRow) : ServiceRow :=
  mkServiceRow (sr_id s) (sr_owner s) (sr_maintainers s) (sr_uuid s) version description
    (sr_created s) (sr_deleted s) (sr_deleted_at s).
Definition set_iteration_description (description : string) (i : IterationRow) : IterationRow :=
  mkIterationRow (ir_id i) (ir_service i) (ir_creator i) (ir_version i) (Some description) (ir_committed i).
Definition set_committed (version : string) (i : IterationRow) : IterationRow :=
  mkIterationRow (ir_id i) (ir_service i) (ir_creator i) (Some version) (ir_description i) true.

(** The copy of an API as a draft, or of a draft as an API. *)
Definition copy_row (now parent : Z) (a : ApiRow) (i : Z) : ApiRow :=
  mkApiRow i parent (ar_owner a) (ar_category a) (ar_name a) (ar_method a) (ar_path a) (ar_description a)
    (ar_level a) (ar_enabled a) now now.

(** [db.query(Api).filter(Api.service_id == service.id).delete()]: the parameters
    go with their APIs. *)
Definition delete_apis (service : Z) (d : Db) : Db :=
  let gone r := bool_decide (pr_api r ∈ map ar_id (apis_of d service)) in
  on_apis (tdelete (fun a => (ar_parent a =? service)%Z)) (on_req_params (tdelete gone) (on_resp_params (tdelete gone) d)).

Section Service.
Context `{!Isoformat, !Libraries}.

(** ** Services *)

Definition serviceGetAllServices (user_id page_size current_page : Z) : TX Reply :=
  user ← get_user user_id;
  denied ← not_L0 user;
  if denied : bool then mret (refused (-1) "You don't have permission to view all services")
  else
    d ← read id;
    found ← page_of page_size current_page (newest_first (rows (services d)));
    mret (success "Get services success"
      (PServices (map (service_json d true true) found) (Z.of_nat (List.length (rows (services d)))))).

Definition serviceGetServiceById (id user_id : Z) : TX Reply :=
  d ← read (fun d => d);
  match tget (services d) id with
  | None => mret (refused (-1) "Service not found")
  | Some s =>
      user ← get_user user_id;
      denied ← and_not_L0 (negb (owned_by user_id s)) user;
      if denied : bool then mret (refused (-2) "You are not the owner of this service")
      else mret (success "Get service success" (PService (service_detail_json d s)))
  end.

(** One's own services are listed without the owner. *)
Definition serviceGetHisNewestServicesByOwnerId (owner_id my_id page_size current_page : Z) : TX Reply :=
  user ← get_user my_id;
  denied ← not_L0 user;
  if denied && negb (owner_id =? my_id)%Z
  then mret (refused (-1) "You are not the owner of these services")
  else
    d ← read id;
    let his := select (services d) (fun s => live s && owned_by owner_id s) in
    found ← page_of page_size current_page (newest_first his);
    mret (success "Get services success"
      (PServices (map (service_json d (negb (owner_id =? my_id)%Z) false) found) (Z.of_nat (List.length his)))).

Definition serviceGetHisMaintainedServicesByUserId (user_id my_id page_size current_page : Z) : TX Reply :=
  user ← get_user my_id;
  denied ← not_L0 user;
  if denied && negb (user_id =? my_id)%Z
  then mret (refused (-1) "You don't have authorization to view other users' maintained services")
  else
    d ← read id;
    let his := select (services d) (fun s => live s && maintained_by user_id s) in
    found ← page_of page_size current_page (newest_first his);
    mret (success "Get services success"
      (PServices (map (service_json d true false) found) (Z.of_nat (List.length his)))).

(** The service with an identifier that is not deleted. *)
Definition live_service (service_uuid : string) (d : Db) : option ServiceRow :=
  first_row (services d) (fun s => String.eqb (sr_uuid s) service_uuid && live s).

(** What [serviceGetServiceByUuidAndVersion] and
    [serviceExportOpenapiByUuidAndVersion] both begin with: the service and, for a
    version other than its own, the iteration, once the user may see it; or a
    refusal. *)
Definition version_seen_by (service_uuid version : string) (user_id : Z)
    : TX (ServiceRow * option IterationRow + Reply) :=
  curr_service ← read (live_service (trim (unquote service_uuid)));
  match curr_service with
  | None => mret (inr (refused (-1) "Service not found"))
  | Some s =>
      let is_latest := String.eqb (sr_version s) version || String.eqb version "latest" in
      past ← read (fun d => first_row (iterations d) (fun i =>
        (ir_service i =? sr_id s)%Z && bool_decide (ir_version i = Some version)));
      match (if is_latest then Some None else Some <$> past) with
      | None => mret (inr (refused (-2) "Service version not found"))
      | Some it =>
          user ← get_user user_id;
          outsider ← and_not_L0 (negb (owned_by user_id s) && negb (maintains user s)) user;
          mret (match it with
                | None =>
                    if outsider : bool
                    then inr (refused (-3) "You are neither the owner nor the maintainer of this service")
                    else inl (s, None)
                | Some i =>
                    if outsider && negb (ir_creator i =? user_id)%Z
                    then inr (refused (-4) "You are not the creator of this service iteration")
                    else inl (s, Some i)
                end)
      end
  end.

Definition serviceGetServiceByUuidAndVersion (service_uuid version : string) (user_id : Z) : TX Reply :=
  seen ← version_seen_by service_uuid version user_id;
  d ← read id;
  mret (match seen with
        | inr refusal => refusal
        | inl (s, None) => success "Get service success" (PAnyService (Latest (service_detail_json d s)) true)
        | inl (_, Some i) => success "Get service success" (PAnyService (Past (iteration_detail_json d i)) false)
        end).

(** The APIs of a service, and the drafts of an iteration, with their parameters. *)
Definition released (d : Db) (s : ServiceRow) : list ApiRows :=
  map (fun a => mkApiRows a (params_of (req_params d) (ar_id a)) (params_of (resp_params d) (ar_id a))) (apis_of d (sr_id s)).
Definition drafted (d : Db) (i : IterationRow) : list ApiRows :=
  map (fun a => mkApiRows a (params_of (req_drafts d) (ar_id a)) (params_of (resp_drafts d) (ar_id a))) (drafts_of d (ir_id i)).

(** [service.description or ...] of a past version. *)
Definition past_description (s : ServiceRow) (i : IterationRow) : option string :=
  match ir_description i with
  | Some t => if String.eqb t "" then sr_description s else Some t
  | None => sr_description s
  end.

Definition serviceExportOpenapiByUuidAndVersion (service_uuid version : string) (user_id : Z) : TX Reply :=
  seen ← version_seen_by service_uuid version user_id;
  d ← read id;
  match seen with
  | inr refusal => mret refusal
  | inl (s, past) =>
      contact ← deref (tget (users d) (match past with None => sr_owner s | Some i => ir_creator i end)) "username";
      let openapi :=
        match past with
        | None => openapiTemplate (sr_uuid s) (Some (default "" (sr_description s))) contact (Some (sr_version s)) (released d s)
        | Some i => openapiTemplate (sr_uuid s) (past_description s i) contact (ir_version i) (drafted d i)
        end in
      match openapi with
      | Some doc => mret (success "Get service success" (POpenapi doc (bool_decide (past = None))))
      | None => raise "ValueError" "invalid literal for a default value"
      end
  end.

Definition serviceGetAllVersionsByUuid (service_uuid : string) (user_id : Z) : TX Reply :=
  curr_service ← read (live_service (trim (unquote service_uuid)));
  match curr_service with
  | None => mret (refused (-1) "Service not found")
  | Some s =>
      service_iterations ← read (fun d => merge_sort (fun a b => Is_true (ir_id b <=? ir_id a)%Z)
        (select (iterations d) (fun i => (ir_service i =? sr_id s)%Z)));
      user ← get_user user_id;
      denied ← and_not_L0 (negb (owned_by user_id s) && negb (maintains user s)) user;
      if denied : bool
      then mret (refused (-2) "You are neither the owner nor the maintainer of this service")
      else mret (success "Get service versions success" (PVersions ((Some (sr_version s), true) ::
        map (fun i => (ir_version i, false))
          (List.filter (fun i => negb (bool_decide (ir_version i = Some (sr_version s)))) service_iterations))))
  end.

Definition serviceCreateNewService (now : Z) (service_uuid : string) (owner_id : Z) (description : string) : TX Reply :=
  existing_service ← read (fun d => first_row (services d) (fun s => String.eqb (sr_uuid s) service_uuid));
  match existing_service with
  | Some _ => mret (refused (-1) "Service UUID already exists")
  | None =>
      i ← read (fun d => next_id (services d));
      write (on_services (tadd (fun i =>
        mkServiceRow i owner_id [] service_uuid "0.0.1" (Some description) now false None))) ;;
      commit ;;
      d ← read id;
      s ← deref (tget (services d) i) "toJson";
      mret (success "Create service success" (PService (service_detail_json d s)))
  end.

Definition serviceGetAllDeletedServicesByUserId (user_id page_size current_page : Z) : TX Reply :=
  d ← read id;
  let his := select (services d) (fun s => sr_deleted s && owned_by user_id s) in
  found ← page_of page_size current_page (last_deleted_first his);
  mret (success "Get deleted services success"
    (PServices (map (service_json d false true) found) (Z.of_nat (List.length his)))).

(** [serviceIsMaintainer]; nobody is [None]. *)
Definition serviceIsMaintainer (service_id user_id candidate_id : Z) : TX Reply :=
  service ← read (fun d => tget (services d) service_id);
  match service with
  | None => mret (refused (-1) "Service not found")
  | Some s =>
      user ← get_user user_id;
      denied ← and_not_L0 (negb (owned_by user_id s)) user;
      if denied : bool then mret (refused (-2) "You are not the owner of this service")
      else
        candidate ← get_user candidate_id;
        mret (success "Check service maintainer success" (PMaintainer (maintains candidate s)))
  end.

Definition serviceAddOrRemoveServiceMaintainerById (service_id user_id candidate_id : Z) : TX Reply :=
  service ← read (fun d => tget (services d) service_id);
  match service with
  | None => mret (refused (-1) "Service not found")
  | Some s =>
      user ← get_user user_id;
      denied ← and_not_L0 (negb (owned_by user_id s)) user;
      if denied : bool then mret (refused (-2) "You are not the owner of this service")
      else if owned_by candidate_id s then mret (refused (-4) "Service owner cannot be added as a maintainer")
      else
        candidate ← get_user candidate_id;
        match candidate with
        | None => mret (refused (-3) "Candidate not found")
        | Some c =>
            let present := maintains (Some c) s in
            write (on_services (tupdate service_id (set_maintainers (fun l =>
              if present then List.filter (fun m => negb (m =? ur_id c)%Z) l else l ++ [ur_id c])))) ;;
            commit ;;
            mret (success (if present then "Remove service maintainer success" else "Add service maintainer success")
                    (PMaintainer (negb present)))
        end
  end.

Definition serviceDeleteServiceById (now id user_id : Z) : TX Reply :=
  service ← read (fun d => tget (services d) id);
  match service with
  | None => mret (refused (-1) "Service not found")
  | Some s =>
      user ← get_user user_id;
      denied ← and_not_L0 (negb (owned_by user_id s)) user;
      if denied : bool then mret (refused (-2) "You are not the owner of this service")
      else
        write (on_services (tupdate id (set_deleted (Some now)))) ;;
        commit ;;
        mret (success "Delete service success" NoPayload)
  end.

Definition serviceRestoreServiceById (id user_id : Z) : TX Reply :=
  service ← read (fun d => tget (services d) id);
  match service with
  | None => mret (refused (-1) "Service not found")
  | Some s =>
      user ← get_user user_id;
      denied ← and_not_L0 (negb (owned_by user_id s)) user;
      if denied : bool then mret (refused (-2) "You are not the owner of this service")
      else if live s then mret (refused (-3) "Service is not deleted")
      else
        write (on_services (tupdate id (set_deleted None))) ;;
        commit ;;
        mret (success "Restore service success" NoPayload)
  end.

(** The drafts of a deleted iteration are told to have none, which their column
    refuses. *)
Definition serviceDeleteIterationById (service_iteration_id user_id : Z) : TX Reply :=
  service_iteration ← read (fun d => tget (iterations d) service_iteration_id);
  match service_iteration with
  | None => mret (refused (-1) "No service iteration found")
  | Some it =>
      user ← get_user user_id;
      s ← read (fun d => tget (services d) (ir_service it));
      s ← deref s "owner_id";
      denied ← and_not_L0 (negb (owned_by user_id s) && negb (ir_creator it =? user_id)%Z) user;
      if denied : bool
      then mret (refused (-2) "You are neither the owner of this service, nor the creator of this service iteration")
      else
        orphans ← read (fun d => drafts_of d service_iteration_id);
        match orphans with
        | _ :: _ => IntegrityError
        | [] =>
            write (on_iterations (tdelete (fun i => (ir_id i =? service_iteration_id)%Z))) ;;
            commit ;;
            mret (success "Delete service iteration success" NoPayload)
        end
  end.

(** ** Iterations *)

Definition serviceGetServiceIterationById (id user_id : Z) : TX Reply :=
  d ← read (fun d => d);
  match tget (iterations d) id with
  | None => mret (refused (-1) "Service iteration not found")
  | Some it =>
      user ← get_user user_id;
      owns ← (if negb (ir_creator it =? user_id)%Z
              then s ← deref (tget (services d) (ir_service it)) "owner_id"; mret (owned_by user_id s)
              else mret true);
      denied ← and_not_L0 (negb owns) user;
      if denied : bool
      then mret (refused (-2) "You are neither the owner of this service, nor the creator of this service iteration")
      else if ir_committed it then mret (refused (-3) "Service iteration has been committed")
      else mret (success "Get service iteration success" (PIteration (iteration_detail_json d it)))
  end.

(** One step of the loop of [serviceStartIteration]: an API as a draft, with its
    parameters. *)
Definition draft_of_api (now iteration : Z) (api : ApiRow) : TX unit :=
  api_draft ← read (fun d => next_id (drafts d));
  write (on_drafts (tadd (copy_row now iteration api))) ;;
  request_params ← read (fun d => params_of (req_params d) (ar_id api));
  in_table req_drafts on_req_drafts (clone_params api_draft request_params) ;;
  response_params ← read (fun d => params_of (resp_params d) (ar_id api));
  in_table resp_drafts on_resp_drafts (clone_params api_draft response_params).

Definition open_iteration (service creator : Z) (i : IterationRow) : bool :=
  (ir_service i =? service)%Z && negb (ir_committed i) && (ir_creator i =? creator)%Z.

Definition serviceStartIteration (now service_id user_id : Z) : TX Reply :=
  curr_service ← read (fun d => tget (services d) service_id);
  match curr_service with
  | None => mret (refused (-1) "Service not found")
  | Some s =>
      user ← get_user user_id;
      denied ← and_not_L0 (negb (owned_by user_id s) && negb (maintains user s)) user;
      if denied : bool
      then mret (refused (-2) "You are neither the owner nor the maintainer of this service")
      else
        existing_new_iteration ← read (fun d => first_row (iterations d) (open_iteration service_id user_id));
        match existing_new_iteration with
        | Some it => mret (mkReply (Some 201%Z) (Some "You have an uncommitted service iteration in progress")
                       (PIterationId (ir_id it)))
        | None =>
            new_iteration ← read (fun d => next_id (iterations d));
            write (on_iterations (tadd (fun i => mkIterationRow i service_id user_id None None false))) ;;
            apis ← read (fun d => apis_of d service_id);
            each (draft_of_api now new_iteration) apis ;;
            commit ;;
            mret (success "Start service iteration success" (PIterationId new_iteration))
        end
  end.

(** One step of the loop of [serviceCommitIteration]: a draft as an API, with its
    parameters. *)
Definition api_of_draft (now service : Z) (api_draft : ApiRow) : TX unit :=
  new_api ← read (fun d => next_id (db_apis d));
  write (on_apis (tadd (copy_row now service api_draft))) ;;
  request_params ← read (fun d => params_of (req_drafts d) (ar_id api_draft));
  in_table req_params on_req_params (clone_params new_api request_params) ;;
  response_params ← read (fun d => params_of (resp_drafts d) (ar_id api_draft));
  in_table resp_params on_resp_params (clone_params new_api response_params).

(** The mail that announces a version; [operator] is who released it. *)
Definition release_mail (owner operator : UserRow) (maintainers : list UserRow) (uuid new_version : string) : Mail :=
  mkMail ({[ ur_email owner ]} ∪ list_to_set (List.filter (fun e => negb (String.eqb e "")) (map ur_email maintainers)))
    ("服务 " +:+ uuid +:+ " 版本更新")
    ("您好！您负责 / 维护的服务 " +:+ uuid +:+ " 已更新到版本 " +:+ new_version +:+ "。" +:+ newline +:+
     "可通过 https://cam-api.com/service?uuid=" +:+ uuid +:+ " 查看详情。" +:+ newline +:+ newline +:+
     "操作人：" +:+ ur_nickname operator +:+ " (" +:+ ur_username operator +:+ ") - " +:+ ur_email operator +:+ newline).

(** The refusal of the permission check is wrapped once more, so that it has no
    [status]. *)
Definition serviceCommitIteration (now service_iteration_id : Z) (new_version : string) (user_id : Z) : TX Reply :=
  check_res ← checkServiceIterationPermission service_iteration_id user_id;
  match check_res with
  | inr _ => mret (mkReply None None NoPayload)
  | inl (it, user) =>
      s ← read (fun d => tget (services d) (ir_service it));
      s ← deref s "version";
      if String.eqb new_version (sr_version s)
      then mret (refused (-1) "New version is the same as current version")
      else
        write (on_services (tupdate (sr_id s) (set_released new_version (ir_description it)))) ;;
        write (delete_apis (sr_id s)) ;;
        api_drafts ← read (fun d => drafts_of d service_iteration_id);
        each (api_of_draft now (sr_id s)) api_drafts ;;
        write (on_iterations (tupdate service_iteration_id (set_committed new_version))) ;;
        commit ;;
        owner ← get_user (sr_owner s);
        owner ← deref owner "email";
        operator ← deref user "nickname";
        maintainers ← read (fun d => omap (tget (users d)) (sr_maintainers s));
        send_email (release_mail owner operator maintainers (sr_uuid s) new_version) ;;
        mret (success "Commit service iteration success" (PCommitted (sr_id s) service_iteration_id new_version))
  end.

Definition serviceUpdateDescription (service_iteration_id : Z) (description : string) (user_id : Z) : TX Reply :=
  with_iteration service_iteration_id user_id (fun _ _ =>
    write (on_iterations (tupdate service_iteration_id (set_iteration_description description))) ;;
    commit ;;
    mret (success "Update service description success" NoPayload)).
End Service.
