(* ===== verification/BackendApi.v ===== *)
(** * The back end: categories, APIs and drafts

    [BE-CAM/services/api.py]: one definition per handler.  [now] is the clock in
    microseconds. *)

From S2P Require Import Prelude Tables JsObject ApiTypes FeTypes Database ParamStore Backend BackendService.
From Stdlib Require Import String ZArith.
From stdpp Require Import sorting.

(** ** Changes of rows *)

Definition set_category_row (name : string) (description : option string) (c : CategoryRow) : CategoryRow :=
  mkCategoryRow (cr_id c) (cr_service c) name description.
Definition set_api_category (category : option Z) (a : ApiRow) : ApiRow :=
  mkApiRow (ar_id a) (ar_parent a) (ar_owner a) category (ar_name a) (ar_method a) (ar_path a) (ar_description a)
    (ar_level a) (ar_enabled a) (ar_created a) (ar_updated a).
Definition set_api (name : string) (method : HttpMethod) (path description : string) (level : ApiLevel)
    (a : ApiRow) : ApiRow :=
  mkApiRow (ar_id a) (ar_parent a) (ar_owner a) (ar_category a) name method path (Some description) level
    (ar_enabled a) (ar_created a) (ar_updated a).
Definition set_updated (now : Z) (a : ApiRow) : ApiRow :=
  mkApiRow (ar_id a) (ar_parent a) (ar_owner a) (ar_category a) (ar_name a) (ar_method a) (ar_path a)
    (ar_description a) (ar_level a) (ar_enabled a) (ar_created a) now.

(** [onupdate=func.now()]: when a column changes. *)
Definition touch (now : Z) (f : ApiRow -> ApiRow) (a : ApiRow) : ApiRow :=
  if bool_decide (f a = a) then a else set_updated now (f a).

(** [db.delete(category)]: the APIs and drafts in it are told to have none. *)
Definition leave_category (now category : Z) : ApiRow -> ApiRow :=
  touch now (fun a => if bool_decide (ar_category a = Some category) then set_api_category None a else a).
Definition delete_category (now category : Z) (d : Db) : Db :=
  on_categories (tdelete (fun c => (cr_id c =? category)%Z))
    (on_apis (tmap (leave_category now category)) (on_drafts (tmap (leave_category now category)) d)).

(** The parameters of a draft. *)
Definition delete_draft_params (api_draft : Z) (d : Db) : Db :=
  let its r := (pr_api r =? api_draft)%Z in
  on_req_drafts (tdelete its) (on_resp_drafts (tdelete its) d).
Definition delete_draft (api_draft : Z) (d : Db) : Db :=
  on_drafts (tdelete (fun a => (ar_id a =? api_draft)%Z)) (delete_draft_params api_draft d).

(** The same method with the same name or path. *)
Definition clashes (parent : Z) (method : HttpMethod) (name path : string) (a : ApiRow) : bool :=
  (ar_parent a =? parent)%Z && bool_decide (ar_method a = method) &&
  (String.eqb (ar_path a) path || String.eqb (ar_name a) name).

Section Api.
Context `{!Isoformat, !Libraries}.

(** ** Categories and the APIs of a service *)

Definition apiGetAllCategoriesByServiceId (service_id user_id : Z) : TX Reply :=
  service ← read (fun d => tget (services d) service_id);
  match service with
  | None => mret (refused (-1) "Service not found")
  | Some s =>
      user ← get_user user_id;
      denied ← and_not_L0 (negb (owned_by user_id s)) user;
      if denied : bool then mret (refused (-2) "You are not the owner of this service")
      else
        found ← read (fun d => merge_sort (fun a b => Is_true (cr_id a <=? cr_id b)%Z) (categories_of d service_id));
        mret (success "Get all categories success" (PCategories (map category_json found)))
  end.

(** [Api] has no [is_deleted]. *)
Definition apiGetAllApisByServiceId (service_id user_id : Z) : TX Reply :=
  service ← read (fun d => tget (services d) service_id);
  match service with
  | None => mret (refused (-1) "Service not found")
  | Some s =>
      user ← get_user user_id;
      denied ← and_not_L0 (negb (owned_by user_id s)) user;
      if denied : bool then mret (refused (-2) "You are not the owner of this service")
      else raise "AttributeError" "type object 'Api' has no attribute 'is_deleted'"
  end.

Definition api_detail_json (d : Db) (a : ApiRow) (request_params response_params : list ParamRow) : ApiDetail :=
  mkApiDetail (api_json a) (user_ref d (ar_owner a)) (Some (isoformat (ar_created a))) (Some (isoformat (ar_updated a)))
    (Some (organizeReqParams request_params)) (Some (organizeRespParams response_params)).

(** Whether the user may see a released API, and a draft. *)
Definition sees_api (d : Db) (a : ApiRow) (u : UserRow) : TX bool :=
  s ← deref (tget (services d) (ar_parent a)) "owner_id";
  mret (owned_by (ur_id u) s || maintains (Some u) s).
Definition sees_draft (d : Db) (a : ApiRow) (u : UserRow) : TX bool :=
  it ← deref (tget (iterations d) (ar_parent a)) "creator_id";
  s ← deref (tget (services d) (ir_service it)) "maintainers";
  mret ((ir_creator it =? ur_id u)%Z || maintains (Some u) s || owned_by (ur_id u) s).

Definition apiGetApiById (api_id user_id : Z) (is_latest : bool) : TX Reply :=
  d ← read id;
  match (if is_latest then tget (db_apis d) api_id else tget (drafts d) api_id) with
  | None => mret (refused (-1) "Api not found")
  | Some a =>
      match tget (users d) user_id with
      | None => mret (refused (-2) "User not found")
      | Some u =>
          sees ← (if (ur_level u =? 0)%Z then mret true
                  else if is_latest then sees_api d a u else sees_draft d a u);
          mret (if sees : bool then
                  success "Get api success" (PApi (api_detail_json d a
                    (params_of (if is_latest then req_params d else req_drafts d) api_id)
                    (params_of (if is_latest then resp_params d else resp_drafts d) api_id)))
                else if is_latest
                then refused (-3) "You are neither the owner nor the maintainer of this service"
                else refused (-4) "You are neither the owner nor the maintainer of this service, nor the creator of this service iteration")
      end
  end.

Definition apiAddCategoryByServiceId (service_id user_id : Z) (category_name : string) (description : option string)
    : TX Reply :=
  service ← read (fun d => tget (services d) service_id);
  match service with
  | None => mret (refused (-1) "Service not found")
  | Some s =>
      user ← get_user user_id;
      denied ← and_not_L0 (negb (owned_by user_id s) && negb (maintains user s)) user;
      if denied : bool
      then mret (refused (-2) "You are neither the owner nor the maintainer of this service")
      else
        existing_category ← read (fun d => first_row (categories d) (fun c =>
          (cr_service c =? service_id)%Z && String.eqb (cr_name c) category_name));
        match existing_category with
        | Some _ => mret (refused (-3) "Category name already exists")
        | None =>
            i ← read (fun d => next_id (categories d));
            let category := mkCategoryRow i service_id category_name description in
            write (on_categories (tadd (fun _ => category))) ;;
            commit ;;
            mret (success "Add category success" (PCategory (category_json category)))
        end
  end.

Definition apiDeleteCategoryById (now category_id user_id : Z) : TX Reply :=
  category ← read (fun d => tget (categories d) category_id);
  match category with
  | None => mret (refused (-1) "Category not found")
  | Some c =>
      user ← get_user user_id;
      match user with
      | None => mret (refused (-2) "User not found")
      | Some u =>
          s ← read (fun d => tget (services d) (cr_service c));
          s ← deref s "owner_id";
          denied ← and_not_L0 (negb (owned_by user_id s) && negb (maintains user s)) user;
          if denied : bool
          then mret (refused (-3) "You are neither the owner nor the maintainer of this service")
          else
            write (delete_category now category_id) ;;
            commit ;;
            mret (success "Delete category success" NoPayload)
      end
  end.

(** A missing name passes the checks and is refused by its column. *)
Definition apiUpdateCategoryById (category_id user_id : Z) (category_name description : option string) : TX Reply :=
  category ← read (fun d => tget (categories d) category_id);
  match category with
  | None => mret (refused (-1) "Category not found")
  | Some c =>
      user ← get_user user_id;
      match user with
      | None => mret (refused (-2) "User not found")
      | Some u =>
          s ← read (fun d => tget (services d) (cr_service c));
          s ← deref s "owner_id";
          denied ← and_not_L0 (negb (owned_by user_id s)) user;
          if denied : bool then mret (refused (-3) "You are not the owner of this service")
          else if bool_decide (category_name = None) && bool_decide (description = None)
          then mret (refused (-4) "Category name or description is required")
          else if bool_decide (category_name = Some (cr_name c)) && bool_decide (description = cr_description c)
          then mret (refused (-5) "Category name or description not changed")
          else
            existing_category ← read (fun d => first_row (categories d) (fun c' =>
              (cr_service c' =? cr_service c)%Z && bool_decide (Some (cr_name c') = category_name)));
            match existing_category, category_name with
            | Some _, _ => mret (refused (-6) "Category name already exists")
            | None, None => IntegrityError
            | None, Some name =>
                write (on_categories (tupdate category_id (set_category_row name description))) ;;
                commit ;;
                mret (success "Update category success" (PCategory (category_json (set_category_row name description c))))
            end
      end
  end.

Definition apiUpdateApiCategory (now api_id category_id user_id : Z) : TX Reply :=
  api ← read (fun d => tget (db_apis d) api_id);
  match api with
  | None => mret (refused (-1) "Api not found")
  | Some a =>
      user ← get_user user_id;
      match user with
      | None => mret (refused (-2) "User not found")
      | Some u =>
          s ← read (fun d => tget (services d) (ar_parent a));
          s ← deref s "owner_id";
          denied ← and_not_L0 (negb (owned_by user_id s) && negb (maintains user s)) user;
          if denied : bool
          then mret (refused (-3) "You are neither the owner nor the maintainer of this service")
          else if bool_decide (ar_category a = Some category_id)
          then mret (refused (-4) "Api category not changed")
          else if (category_id =? -1)%Z then
            write (on_apis (tupdate api_id (touch now (set_api_category None)))) ;;
            commit ;;
            mret (success "Update api category success" NoPayload)
          else
            category ← read (fun d => tget (categories d) category_id);
            match category with
            | None => mret (refused (-5) "Category not found")
            | Some c =>
                if (cr_service c =? ar_parent a)%Z then
                  write (on_apis (tupdate api_id (touch now (set_api_category (Some category_id))))) ;;
                  commit ;;
                  mret (success "Update api category success" NoPayload)
                else mret (refused (-6) "Category not belongs to this service")
            end
      end
  end.

(** ** Drafts *)

(** The database knows no method but the five; the levels have a default. *)
Definition apiAddApi (now service_iteration_id user_id : Z) (name method path description level : string)
    (category_id : option Z) : TX Reply :=
  with_iteration service_iteration_id user_id (fun it _ =>
    match enum_of method_name all_methods method with
    | None => raise "StatementError" (method +:+ " is not among the defined enum values")
    | Some api_method =>
        existing_api ← read (fun d => first_row (db_apis d) (clashes (ir_service it) api_method name path));
        existing_api_draft ← read (fun d => first_row (drafts d) (clashes service_iteration_id api_method name path));
        if bool_decide (is_Some existing_api) || bool_decide (is_Some existing_api_draft)
        then mret (refused (-1) "Api method and name/path already exists in this service")
        else
          let api_level := default P2 (enum_of level_name all_levels level) in
          category ← (match category_id with
                      | None => mret (inl tt)
                      | Some c =>
                          category ← read (fun d => tget (categories d) c);
                          mret (match category with
                                | None => inr (refused (-2) "Category not found")
                                | Some c =>
                                    if (cr_service c =? ir_service it)%Z then inl tt
                                    else inr (refused (-3) "Category not belongs to this service")
                                end)
                      end);
          match category with
          | inr refusal => mret refusal
          | inl _ =>
              i ← read (fun d => next_id (drafts d));
              let api_draft := mkApiRow i service_iteration_id user_id category_id name api_method path
                (Some description) api_level true now now in
              write (on_drafts (tadd (fun _ => api_draft))) ;;
              commit ;;
              mret (success "Add api success" (PDraft (api_json api_draft)))
          end
    end).

(** What three handlers begin with: the draft, if it belongs to the iteration. *)
Definition with_draft (service_iteration_id api_draft_id user_id : Z) (k : ApiRow -> TX Reply) : TX Reply :=
  with_iteration service_iteration_id user_id (fun _ _ =>
    api_draft ← read (fun d => tget (drafts d) api_draft_id);
    match api_draft with
    | None => mret (refused (-1) "Api draft not found")
    | Some a =>
        if (ar_parent a =? service_iteration_id)%Z then k a
        else mret (refused (-2) "Api draft not belongs to this service iteration")
    end).

(** The copy's name and path carry the time in seconds. *)
Definition copied_row (now service_iteration_id user_id : Z) (a : ApiRow) (i : Z) : ApiRow :=
  let suffix := "-copy-" +:+ show_int (now / 1000000) in
  mkApiRow i service_iteration_id user_id (ar_category a) (ar_name a +:+ suffix) (ar_method a) (ar_path a +:+ suffix)
    (ar_description a) (ar_level a) (ar_enabled a) now now.

Definition apiCopyApiByApiDraftId (now service_iteration_id api_draft_id user_id : Z) : TX Reply :=
  with_draft service_iteration_id api_draft_id user_id (fun a =>
    new_api_draft ← read (fun d => next_id (drafts d));
    write (on_drafts (tadd (copied_row now service_iteration_id user_id a))) ;;
    request_params ← read (fun d => params_of (req_drafts d) api_draft_id);
    in_table req_drafts on_req_drafts (copy_params new_api_draft request_params) ;;
    response_params ← read (fun d => params_of (resp_drafts d) api_draft_id);
    in_table resp_drafts on_resp_drafts (copy_params new_api_draft response_params) ;;
    commit ;;
    mret (success "Copy api success" NoPayload)).

Definition apiDeleteApiByApiDraftId (service_iteration_id api_draft_id user_id : Z) : TX Reply :=
  with_draft service_iteration_id api_draft_id user_id (fun _ =>
    write (delete_draft api_draft_id) ;;
    commit ;;
    mret (success "Delete api success" NoPayload)).

Definition apiUpdateApiByApiDraftId (now service_iteration_id api_draft_id user_id : Z)
    (name method path description level : string) (req_params resp_params : list ParamInput) : TX Reply :=
  with_draft service_iteration_id api_draft_id user_id (fun _ =>
    let api_method := default GET (enum_of method_name all_methods method) in
    let api_level := default P2 (enum_of level_name all_levels level) in
    write (on_drafts (tupdate api_draft_id (touch now (set_api name api_method path description api_level)))) ;;
    write (delete_draft_params api_draft_id) ;;
    in_table req_drafts on_req_drafts (process_params RequestParamDraft api_draft_id req_params) ;;
    in_table resp_drafts on_resp_drafts (process_params ResponseParamDraft api_draft_id resp_params) ;;
    commit ;;
    mret (success "Update api success" NoPayload)).
End Api.
