(* ===== verification/Integrity.v ===== *)
(** * What the database always satisfies

    [db_ok]: the keys of every table are distinct, every foreign key refers to a
    row, owners do not maintain their own services, categories belong to the
    service of what is in them, parameters form trees within their API and sit in
    the table of their kind, a version has been committed exactly when the
    iteration says so, and a user has at most one open iteration of a service.
    The lemmas say that every change the handlers make keeps it. *)

From S2P Require Import Prelude Tables JsObject ApiTypes FeTypes Database ParamStore Backend Transaction BackendUser.
From S2P Require Import BackendService BackendApi.
From Stdlib Require Import String ZArith Lia.

(** ** Tables whose rows satisfy a condition *)

Definition has {R} `{!HasId R} (t : table R) (i : Z) : Prop := is_Some (tget t i).

Definition table_with {R} `{!HasId R} (P : R -> Prop) (t : table R) : Prop :=
  table_ok t /\ forall r, r ∈ rows t -> P r.

(** The keys of [t] are keys of [t'], with the same [f]. *)
Definition keeps {R K} `{!HasId R} (f : R -> K) (t t' : table R) : Prop :=
  forall i r, tget t i = Some r -> exists r', tget t' i = Some r' /\ f r' = f r.

Section TableWith.
Context {R : Type} `{!HasId R}.
Implicit Types (P : R -> Prop) (t : table R).

Lemma with_impl P P' t : (forall r, r ∈ rows t -> P r -> P' r) -> table_with P t -> table_with P' t.
Proof. intros H [Hok HP]. split; [done|]. intros r Hr. apply H; auto. Qed.

Lemma with_get P t i r : table_with P t -> tget t i = Some r -> P r.
Proof. intros [_ HP] [Hr _]%tget_Some. by apply HP. Qed.

Lemma with_tadd P make t : id_of (make (next_id t)) = next_id t -> P (make (next_id t)) ->
  table_with P t -> table_with P (tadd make t).
Proof.
  intros Hid Hnew [Hok HP]. split; [by apply tadd_ok|]. intros r [Hr| ->]%elem_of_tadd; auto.
Qed.

Lemma with_tmap P f t : keeps_id f -> (forall r, r ∈ rows t -> P r -> P (f r)) -> table_with P t -> table_with P (tmap f t).
Proof.
  intros Hf HPf [Hok HP]. split; [by apply tmap_ok|]. intros r (x & -> & Hx)%elem_of_tmap. auto.
Qed.

Lemma with_tupdate P i f t : keeps_id f -> (forall r, tget t i = Some r -> P r -> P (f r)) -> table_with P t ->
  table_with P (tupdate i f t).
Proof.
  intros Hf HPf [Hok HP]. split; [by apply tupdate_ok|]. intros r (x & -> & Hx)%elem_of_tupdate.
  destruct (Z.eqb_spec (id_of x) i) as [<-|]; [|auto]. apply HPf; [by apply tget_unique|auto].
Qed.

Lemma with_tdelete P q t : table_with P t -> table_with P (tdelete q t).
Proof. intros [Hok HP]. split; [by apply tdelete_ok|]. intros r [Hr _]%elem_of_tdelete. auto. Qed.

Lemma keeps_refl {K} (f : R -> K) t : keeps f t t.
Proof. intros i r Hr. by exists r. Qed.

Lemma keeps_tadd {K} (f : R -> K) make t : id_of (make (next_id t)) = next_id t -> table_ok t -> keeps f t (tadd make t).
Proof.
  intros Hid Hok i r Hr. exists r. split; [|done]. rewrite tget_tadd by done.
  destruct (Z.eqb_spec i (next_id t)) as [->|]; [|done]. apply tget_Some in Hr as [Hr Hi].
  pose proof (keys_below _ Hok) as Hb. rewrite Forall_forall in Hb. specialize (Hb r Hr). cbn in Hb. lia.
Qed.

Lemma keeps_tmap {K} (f : R -> K) g t : keeps_id g -> (forall r, f (g r) = f r) -> keeps f t (tmap g t).
Proof. intros Hg Hf i r Hr. exists (g r). by rewrite tget_tmap, Hr. Qed.

Lemma keeps_tupdate {K} (f : R -> K) j g t : keeps_id g -> (forall r, f (g r) = f r) -> keeps f t (tupdate j g t).
Proof.
  intros Hg Hf. rewrite tupdate_map. apply keeps_tmap; intros r; by destruct (_ =? j)%Z.
Qed.

Lemma keeps_has {K} (f : R -> K) t t' i : keeps f t t' -> has t i -> has t' i.
Proof. intros Hk [r Hr]. destruct (Hk i r Hr) as (r' & ? & _). by exists r'. Qed.
End TableWith.

(** ** The invariant *)

(** [category_id] is null or a category of the service. *)
Definition in_service (d : Db) (service : Z) (category : option Z) : Prop :=
  forall i, category = Some i -> exists c, tget (categories d) i = Some c /\ cr_service c = service.

Definition service_ok (d : Db) (s : ServiceRow) : Prop :=
  has (users d) (sr_owner s) /\ Forall (has (users d)) (sr_maintainers s) /\
  NoDup (sr_owner s :: sr_maintainers s) /\ (sr_deleted s = true <-> is_Some (sr_deleted_at s)).
Definition iteration_ok (d : Db) (i : IterationRow) : Prop :=
  has (services d) (ir_service i) /\ has (users d) (ir_creator i) /\
  (ir_committed i = true <-> is_Some (ir_version i)).
Definition category_ok (d : Db) (c : CategoryRow) : Prop := has (services d) (cr_service c).
Definition api_ok (d : Db) (a : ApiRow) : Prop :=
  has (services d) (ar_parent a) /\ has (users d) (ar_owner a) /\ in_service d (ar_parent a) (ar_category a).
Definition draft_ok (d : Db) (a : ApiRow) : Prop :=
  has (users d) (ar_owner a) /\
  exists it, tget (iterations d) (ar_parent a) = Some it /\ in_service d (ir_service it) (ar_category a).

Definition placed (k : param_class) (d : ParamData) : Prop :=
  match k, pd_place d with
  | RequestParamDraft, RowRequest _ _ | ResponseParamDraft, RowResponse _ => True
  | _, _ => False
  end.

(** A parameter has an API, and its parent is an earlier row of the same API. *)
Definition param_ok (k : param_class) (apis : table ApiRow) (l : list ParamRow) (r : ParamRow) : Prop :=
  has apis (pr_api r) /\ placed k (pr_data r) /\
  forall p, pr_parent r = Some p -> (p < pr_id r)%Z /\ exists q, q ∈ l /\ pr_id q = p /\ pr_api q = pr_api r.

Definition params_ok (k : param_class) (apis : table ApiRow) (t : table ParamRow) : Prop :=
  table_with (param_ok k apis (rows t)) t.

Definition open_once (t : table IterationRow) : Prop := forall i j, i ∈ rows t -> j ∈ rows t ->
  ir_committed i = false -> ir_committed j = false -> ir_service i = ir_service j -> ir_creator i = ir_creator j -> i = j.

Record db_ok (d : Db) : Prop := mkDbOk {
  ok_users : table_ok (users d);
  ok_services : table_with (service_ok d) (services d);
  ok_iterations : table_with (iteration_ok d) (iterations d);
  ok_open : open_once (iterations d);
  ok_categories : table_with (category_ok d) (categories d);
  ok_apis : table_with (api_ok d) (db_apis d);
  ok_drafts : table_with (draft_ok d) (drafts d);
  ok_req_params : params_ok RequestParamDraft (db_apis d) (req_params d);
  ok_resp_params : params_ok ResponseParamDraft (db_apis d) (resp_params d);
  ok_req_drafts : params_ok RequestParamDraft (drafts d) (req_drafts d);
  ok_resp_drafts : params_ok ResponseParamDraft (drafts d) (resp_drafts d)
}.
#[global] Hint Resolve ok_users ok_services ok_iterations ok_open ok_categories ok_apis ok_drafts ok_req_params
  ok_resp_params ok_req_drafts ok_resp_drafts : core.

(** With the unique constraints, which a commit checks. *)
Definition committed_ok (d : Db) : Prop := db_ok d /\ unique_ok d = true.

Lemma empty_db_ok : committed_ok empty_db.
Proof.
  split; [|reflexivity]. split; try (split; [apply empty_table_ok|by intros r ?%not_elem_of_nil]).
  - apply empty_table_ok.
  - by intros i j ?%not_elem_of_nil.
Qed.

Ltac db_simpl := cbn [on_users on_services on_iterations on_categories on_apis on_drafts on_req_params on_resp_params
  on_req_drafts on_resp_drafts users services iterations categories db_apis drafts req_params resp_params req_drafts
  resp_drafts].

(** ** Rows stay well-formed when the tables they refer to keep their keys *)

Record refers (d d' : Db) : Prop := mkRefers {
  refers_users : keeps (fun _ => tt) (users d) (users d');
  refers_services : keeps (fun _ => tt) (services d) (services d');
  refers_iterations : keeps ir_service (iterations d) (iterations d');
  refers_categories : keeps cr_service (categories d) (categories d')
}.

Lemma in_service_mono d d' s c : keeps cr_service (categories d) (categories d') -> in_service d s c -> in_service d' s c.
Proof. intros Hk H i Hi. destruct (H i Hi) as (r & Hr & <-). destruct (Hk i r Hr) as (r' & ? & ?). by exists r'. Qed.

Lemma service_ok_mono d d' s : keeps (fun _ => tt) (users d) (users d') -> service_ok d s -> service_ok d' s.
Proof.
  intros Hk (H1 & H2 & H3 & H4). split; [by eapply keeps_has|]. split; [|done].
  eapply Forall_impl; [exact H2|]. intros i. by apply (keeps_has _ _ _ i Hk).
Qed.

Lemma iteration_ok_mono d d' i : keeps (fun _ => tt) (users d) (users d') ->
  keeps (fun _ => tt) (services d) (services d') -> iteration_ok d i -> iteration_ok d' i.
Proof. intros Hu Hs (H1 & H2 & H3). split; [by eapply keeps_has|]. split; [by eapply keeps_has|done]. Qed.

Lemma category_ok_mono d d' c : keeps (fun _ => tt) (services d) (services d') -> category_ok d c -> category_ok d' c.
Proof. intros Hs H. by eapply keeps_has. Qed.

Lemma api_ok_mono d d' a : refers d d' -> api_ok d a -> api_ok d' a.
Proof.
  intros [Hu Hs _ Hc] (H1 & H2 & H3). split; [by eapply keeps_has|]. split; [by eapply keeps_has|].
  by eapply in_service_mono.
Qed.

Lemma draft_ok_mono d d' a : refers d d' -> draft_ok d a -> draft_ok d' a.
Proof.
  intros [Hu Hs Hi Hc] (H1 & it & H2 & H3). split; [by eapply keeps_has|].
  destruct (Hi _ it H2) as (it' & Hit & E). exists it'. split; [done|]. rewrite E. by eapply in_service_mono.
Qed.

Lemma params_ok_mono k apis apis' t : (forall i, has apis i -> has apis' i) -> params_ok k apis t -> params_ok k apis' t.
Proof. intros Hk. apply with_impl. intros r _ (H1 & H2). split; [by apply Hk|done]. Qed.

(** Users, services, iterations and categories may change as long as what refers to
    them is kept. *)
Lemma db_ok_refers d u s i c :
  let d' := mkDb u s i c (db_apis d) (drafts d) (req_params d) (resp_params d) (req_drafts d) (resp_drafts d) in
  refers d d' -> table_ok u ->
  table_with (service_ok d') s -> table_with (iteration_ok d') i -> open_once i -> table_with (category_ok d') c ->
  db_ok d -> db_ok d'.
Proof.
  intros d' Hr Hu Hs Hi Ho Hc Hd. split; auto.
  - eapply with_impl; [intros a _; apply api_ok_mono, Hr|]. apply (ok_apis d Hd).
  - eapply with_impl; [intros a _; apply draft_ok_mono, Hr|]. apply (ok_drafts d Hd).
  - apply (ok_req_params d Hd).
  - apply (ok_resp_params d Hd).
  - apply (ok_req_drafts d Hd).
  - apply (ok_resp_drafts d Hd).
Qed.

(** ** Changes of users *)

Lemma add_user_ok make d : (forall i, id_of (make i) = i) -> db_ok d -> db_ok (on_users (tadd make) d).
Proof.
  intros Hid Hd. assert (Hk : keeps (fun _ => tt) (users d) (tadd make (users d))) by (apply keeps_tadd; auto).
  apply db_ok_refers; auto using tadd_ok.
  - split; [done|apply keeps_refl..].
  - eapply with_impl; [|apply (ok_services d Hd)]. intros r _. by apply service_ok_mono.
  - eapply with_impl; [|apply (ok_iterations d Hd)]. intros r _. apply iteration_ok_mono; [done|apply keeps_refl].
  - apply (ok_categories d Hd).
Qed.

Lemma update_user_ok i f d : keeps_id f -> db_ok d -> db_ok (on_users (tupdate i f) d).
Proof.
  intros Hf Hd. assert (Hk : keeps (fun _ => tt) (users d) (tupdate i f (users d))) by by apply keeps_tupdate.
  apply db_ok_refers; auto using tupdate_ok.
  - split; [done|apply keeps_refl..].
  - eapply with_impl; [|apply (ok_services d Hd)]. intros r _. by apply service_ok_mono.
  - eapply with_impl; [|apply (ok_iterations d Hd)]. intros r _. apply iteration_ok_mono; [done|apply keeps_refl].
  - apply (ok_categories d Hd).
Qed.

(** ** Changes of services, iterations and categories *)

Lemma add_service_ok make d : (forall i, id_of (make i) = i) -> service_ok d (make (next_id (services d))) ->
  db_ok d -> db_ok (on_services (tadd make) d).
Proof.
  intros Hid Hnew Hd. assert (Hk : keeps (fun _ => tt) (services d) (tadd make (services d))).
  { apply keeps_tadd; [done|apply (ok_services d Hd)]. }
  apply db_ok_refers; auto.
  - by split; try apply keeps_refl.
  - by apply with_tadd; [..|apply (ok_services d Hd)].
  - eapply with_impl; [|apply (ok_iterations d Hd)]. intros r _. by apply iteration_ok_mono; [apply keeps_refl|].
  - eapply with_impl; [|apply (ok_categories d Hd)]. intros r _. by apply category_ok_mono.
Qed.

Lemma update_service_ok i f d : keeps_id f -> (forall s, tget (services d) i = Some s -> service_ok d s -> service_ok d (f s)) ->
  db_ok d -> db_ok (on_services (tupdate i f) d).
Proof.
  intros Hf Hs Hd. assert (Hk : keeps (fun _ => tt) (services d) (tupdate i f (services d))) by by apply keeps_tupdate.
  apply db_ok_refers; auto.
  - by split; try apply keeps_refl.
  - by apply with_tupdate; [..|apply (ok_services d Hd)].
  - eapply with_impl; [|apply (ok_iterations d Hd)]. intros r _. by apply iteration_ok_mono; [apply keeps_refl|].
  - eapply with_impl; [|apply (ok_categories d Hd)]. intros r _. by apply category_ok_mono.
Qed.

Lemma add_iteration_ok make d : (forall i, id_of (make i) = i) ->
  iteration_ok d (make (next_id (iterations d))) ->
  (forall i, i ∈ rows (iterations d) ->
     open_iteration (ir_service (make (next_id (iterations d)))) (ir_creator (make (next_id (iterations d)))) i = false) ->
  db_ok d -> db_ok (on_iterations (tadd make) d).
Proof.
  intros Hid Hnew Hopen Hd. assert (Hk : keeps ir_service (iterations d) (tadd make (iterations d))).
  { apply keeps_tadd; [done|apply (ok_iterations d Hd)]. }
  apply db_ok_refers; auto.
  - by split; try apply keeps_refl.
  - apply (ok_services d Hd).
  - by apply with_tadd; [..|apply (ok_iterations d Hd)].
  - assert (Hno : forall i, i ∈ rows (iterations d) -> ir_committed i = false ->
      ir_service i = ir_service (make (next_id (iterations d))) ->
      ir_creator i = ir_creator (make (next_id (iterations d))) -> False).
    { intros i Hi Hc Es Ec. specialize (Hopen i Hi). unfold open_iteration in Hopen.
      by rewrite Es, Ec, Hc, !Z.eqb_refl in Hopen. }
    intros i j [Hi| ->]%elem_of_tadd [Hj| ->]%elem_of_tadd ????; [by apply (ok_open d Hd)|exfalso..|done]; eauto.
  - apply (ok_categories d Hd).
Qed.

Lemma update_iteration_ok i f d : keeps_id f ->
  (forall r, iteration_ok d r -> iteration_ok d (f r) /\ ir_service (f r) = ir_service r /\ ir_creator (f r) = ir_creator r) ->
  (forall r, ir_committed (f r) = false -> ir_committed r = false) ->
  db_ok d -> db_ok (on_iterations (tupdate i f) d).
Proof.
  intros Hf Hok Hc Hd. pose proof (ok_iterations d Hd) as [Ht Hrows].
  apply db_ok_refers; auto.
  - split; try apply keeps_refl. intros j r Hr. cbn [on_iterations iterations]. rewrite tget_tupdate, Hr by done.
    pose proof (Hok r (with_get _ _ _ _ (ok_iterations d Hd) Hr)) as (_ & Es & _).
    destruct (j =? i)%Z; eexists; (split; [done|]); done.
  - apply (ok_services d Hd).
  - apply with_tupdate; [done| |apply (ok_iterations d Hd)]. intros r _ Hr. apply (Hok r Hr).
  - assert (Hg : forall x, x ∈ rows (iterations d) ->
      let y := if (id_of x =? i)%Z then f x else x in
      ir_service y = ir_service x /\ ir_creator y = ir_creator x /\ (ir_committed y = false -> ir_committed x = false)).
    { intros x Hx. destruct (id_of x =? i)%Z; [|done]. destruct (Hok x (Hrows x Hx)) as (_ & ? & ?). eauto. }
    intros a b (x & -> & Hx)%elem_of_tupdate (y & -> & Hy)%elem_of_tupdate Ha Hb Es Ec.
    destruct (Hg x Hx) as (Ex & Ex' & Hx'), (Hg y Hy) as (Ey & Ey' & Hy'). cbn in *.
    rewrite (ok_open d Hd x y Hx Hy); auto; congruence.
  - apply (ok_categories d Hd).
Qed.

Lemma delete_iteration_ok i d : drafts_of d i = [] -> db_ok d ->
  db_ok (on_iterations (tdelete (fun r => (ir_id r =? i)%Z)) d).
Proof.
  intros Hno Hd. pose proof (ok_iterations d Hd) as Hit. split; db_simpl; auto.
  - apply (ok_services d Hd).
  - by apply with_tdelete.
  - intros x y [Hx _]%elem_of_tdelete [Hy _]%elem_of_tdelete. by apply (ok_open d Hd).
  - apply (ok_categories d Hd).
  - apply (ok_apis d Hd).
  - eapply with_impl; [|apply (ok_drafts d Hd)]. intros a Ha (H1 & it & H2 & H3). split; [done|]. exists it.
    split; [|done]. cbn [on_iterations iterations]. rewrite tget_tdelete by apply Hit. rewrite H2.
    destruct (Z.eqb_spec (ir_id it) i) as [E|]; [|done]. apply tget_Some in H2 as [_ H2].
    assert (Hin : a ∈ drafts_of d i). { apply elem_of_select. split; [done|]. apply Z.eqb_eq. by rewrite <-E. }
    rewrite Hno in Hin. by apply not_elem_of_nil in Hin.
Qed.

Lemma add_category_ok make d : (forall i, id_of (make i) = i) -> category_ok d (make (next_id (categories d))) ->
  db_ok d -> db_ok (on_categories (tadd make) d).
Proof.
  intros Hid Hnew Hd. assert (Hk : keeps cr_service (categories d) (tadd make (categories d))).
  { apply keeps_tadd; [done|apply (ok_categories d Hd)]. }
  apply db_ok_refers; auto.
  - by split; try apply keeps_refl.
  - apply (ok_services d Hd).
  - apply (ok_iterations d Hd).
  - by apply with_tadd; [..|apply (ok_categories d Hd)].
Qed.

Lemma update_category_ok i f d : keeps_id f -> (forall c, cr_service (f c) = cr_service c) ->
  db_ok d -> db_ok (on_categories (tupdate i f) d).
Proof.
  intros Hf Hs Hd. assert (Hk : keeps cr_service (categories d) (tupdate i f (categories d))) by by apply keeps_tupdate.
  apply db_ok_refers; auto.
  - by split; try apply keeps_refl.
  - apply (ok_services d Hd).
  - apply (ok_iterations d Hd).
  - apply with_tupdate; [done| |apply (ok_categories d Hd)]. intros c _ Hc. unfold category_ok. by rewrite Hs.
Qed.

(** ** Changes of APIs and drafts *)

(** A change of an API that keeps its key, parent and owner. *)
Definition keeps_place (f : ApiRow -> ApiRow) : Prop :=
  forall a, ar_id (f a) = ar_id a /\ ar_parent (f a) = ar_parent a /\ ar_owner (f a) = ar_owner a.

Lemma touch_id now f a : ar_id (f a) = ar_id a -> ar_id (touch now f a) = ar_id a.
Proof. intros E. unfold touch. by destruct (bool_decide _). Qed.

Lemma touch_place now f : keeps_place f -> keeps_place (touch now f).
Proof. intros Hf a. unfold touch. destruct (bool_decide _); [done|]. apply (Hf a). Qed.

Lemma touch_category now f a : ar_category (touch now f a) = ar_category (f a).
Proof. unfold touch. case_bool_decide as E; [by rewrite E|done]. Qed.

Lemma leave_category_place now c : keeps_place (leave_category now c).
Proof. apply touch_place. intros a. by destruct (bool_decide _). Qed.

Lemma leave_category_other now c a : ar_category (leave_category now c a) =
  if bool_decide (ar_category a = Some c) then None else ar_category a.
Proof. unfold leave_category. rewrite touch_category. by destruct (bool_decide _). Qed.

Lemma place_id f : keeps_place f -> keeps_id f.
Proof. intros Hf a. apply (Hf a). Qed.
#[global] Hint Resolve place_id : core.

Lemma has_tmap f t i : keeps_id f -> has t i -> has (tmap (R := ApiRow) f t) i.
Proof. intros Hf [r Hr]. exists (f r). by rewrite tget_tmap, Hr. Qed.

Lemma delete_category_ok now c d : db_ok d -> db_ok (delete_category now c d).
Proof.
  intros Hd. pose proof (leave_category_place now c) as Hf. pose proof (ok_categories d Hd) as Hcat.
  assert (Hin : forall s o, in_service d s o -> in_service (delete_category now c d) s
                              (if bool_decide (o = Some c) then None else o)).
  { intros s o H i. case_bool_decide as Eo; [done|]. intros Ei. destruct (H i Ei) as (r & Hr & <-). exists r. split; [|done].
    cbn [delete_category on_categories categories on_apis on_drafts]. rewrite tget_tdelete, Hr by apply Hcat.
    apply tget_Some in Hr as [_ Hr]. destruct (Z.eqb_spec (cr_id r) c) as [E|]; [|done].
    destruct Eo. rewrite Ei. f_equal. by rewrite <-E. }
  assert (Hparams : forall k t l, params_ok k t l -> params_ok k (tmap (leave_category now c) t) l).
  { intros k t l. apply params_ok_mono. intros i. apply has_tmap. auto. }
  unfold delete_category in *. split; db_simpl; try apply Hparams; auto.
  - apply (ok_services d Hd).
  - apply (ok_iterations d Hd).
  - by apply with_tdelete.
  - pose proof (ok_apis d Hd) as [Ht Hrows]. split; [by apply tmap_ok; auto|]. intros r (a & -> & Ha)%elem_of_tmap.
    destruct (Hrows a Ha) as (H1 & H2 & H3), (Hf a) as (_ & Ep & Eo). split; [by rewrite Ep|]. split; [by rewrite Eo|].
    rewrite Ep, leave_category_other. by apply Hin.
  - pose proof (ok_drafts d Hd) as [Ht Hrows]. split; [by apply tmap_ok; auto|]. intros r (a & -> & Ha)%elem_of_tmap.
    destruct (Hrows a Ha) as (H1 & it & H2 & H3), (Hf a) as (_ & Ep & Eo). split; [by rewrite Eo|]. exists it.
    rewrite Ep, leave_category_other. split; [done|]. by apply Hin.
Qed.

(** Only the APIs, or only the drafts, change. *)
Lemma apis_ok f d : table_with (api_ok d) (f (db_apis d)) -> (forall i, has (db_apis d) i -> has (f (db_apis d)) i) ->
  db_ok d -> db_ok (on_apis f d).
Proof.
  intros Ha Hhas Hd. split; db_simpl; auto.
  - apply (ok_services d Hd).
  - apply (ok_iterations d Hd).
  - apply (ok_categories d Hd).
  - apply (ok_drafts d Hd).
  - eapply params_ok_mono; [exact Hhas|apply (ok_req_params d Hd)].
  - eapply params_ok_mono; [exact Hhas|apply (ok_resp_params d Hd)].
Qed.

Lemma drafts_ok f d : table_with (draft_ok d) (f (drafts d)) -> (forall i, has (drafts d) i -> has (f (drafts d)) i) ->
  db_ok d -> db_ok (on_drafts f d).
Proof.
  intros Ha Hhas Hd. split; db_simpl; auto.
  - apply (ok_services d Hd).
  - apply (ok_iterations d Hd).
  - apply (ok_categories d Hd).
  - apply (ok_apis d Hd).
  - eapply params_ok_mono; [exact Hhas|apply (ok_req_drafts d Hd)].
  - eapply params_ok_mono; [exact Hhas|apply (ok_resp_drafts d Hd)].
Qed.

Lemma has_tadd make (t : table ApiRow) i : (forall i, ar_id (make i) = i) -> table_ok t -> has t i -> has (tadd make t) i.
Proof.
  intros Hid Ht. apply (keeps_has (fun _ => tt)). by apply keeps_tadd.
Qed.

Lemma add_api_ok make d : (forall i, ar_id (make i) = i) -> api_ok d (make (next_id (db_apis d))) -> db_ok d ->
  db_ok (on_apis (tadd make) d).
Proof.
  intros Hid Hnew Hd. pose proof (ok_apis d Hd) as Hapis. apply apis_ok; [by apply with_tadd| |done].
  intros i. apply has_tadd; [done|apply Hapis].
Qed.

Lemma add_draft_ok make d : (forall i, ar_id (make i) = i) -> draft_ok d (make (next_id (drafts d))) -> db_ok d ->
  db_ok (on_drafts (tadd make) d).
Proof.
  intros Hid Hnew Hd. pose proof (ok_drafts d Hd) as Hdrafts. apply drafts_ok; [by apply with_tadd| |done].
  intros i. apply has_tadd; [done|apply Hdrafts].
Qed.

Lemma has_tupdate j f (t : table ApiRow) i : keeps_id f -> has t i -> has (tupdate j f t) i.
Proof. intros Hf. apply (keeps_has (fun _ => tt)). by apply keeps_tupdate. Qed.

Lemma update_api_ok i f d : keeps_place f ->
  (forall a, tget (db_apis d) i = Some a -> api_ok d a -> in_service d (ar_parent a) (ar_category (f a))) ->
  db_ok d -> db_ok (on_apis (tupdate i f) d).
Proof.
  intros Hf Hc Hd. apply apis_ok; [|by intros; apply has_tupdate; auto|done].
  apply with_tupdate; [auto| |apply (ok_apis d Hd)]. intros a Hi Ha. destruct (Hf a) as (_ & Ep & Eo).
  destruct Ha as (H1 & H2 & H3). split; [by rewrite Ep|]. split; [by rewrite Eo|]. rewrite Ep. by apply Hc.
Qed.

Lemma update_draft_ok i f d : keeps_place f -> (forall a, ar_category (f a) = ar_category a) ->
  db_ok d -> db_ok (on_drafts (tupdate i f) d).
Proof.
  intros Hf Hc Hd. apply drafts_ok; [|by intros; apply has_tupdate; auto|done].
  apply with_tupdate; [auto| |apply (ok_drafts d Hd)]. intros a Hi (H1 & it & H2 & H3).
  destruct (Hf a) as (_ & Ep & Eo). split; [by rewrite Eo|]. exists it. by rewrite Ep, Hc.
Qed.

(** ** Changes of parameters *)

(** Deleting the parameters of some APIs: those of the others keep their parents. *)
Lemma delete_params_ok k apis apis' (gone : Z -> bool) t :
  (forall i, gone i = false -> has apis i -> has apis' i) -> params_ok k apis t ->
  params_ok k apis' (tdelete (fun r => gone (pr_api r)) t).
Proof.
  intros Hhas [Ht Hrows]. split; [by apply tdelete_ok|]. intros r [Hr Hg]%elem_of_tdelete.
  destruct (Hrows r Hr) as (H1 & H2 & H3). split; [by apply Hhas|]. split; [done|]. intros p Ep.
  destruct (H3 p Ep) as (Hlt & q & Hq & Hi & Ha). split; [done|]. exists q. split; [|done].
  apply elem_of_tdelete. by rewrite Ha.
Qed.

Lemma delete_apis_ok s d : db_ok d -> db_ok (delete_apis s d).
Proof.
  intros Hd. pose proof (ok_apis d Hd) as Hapis.
  assert (Hhas : forall i, bool_decide (i ∈ map ar_id (apis_of d s)) = false -> has (db_apis d) i ->
    has (tdelete (fun a => (ar_parent a =? s)%Z) (db_apis d)) i).
  { intros i Hi%bool_decide_eq_false [a Ha]. exists a. rewrite tget_tdelete, Ha by apply Hapis.
    destruct (Z.eqb_spec (ar_parent a) s) as [E|]; [|done]. destruct Hi. apply tget_Some in Ha as [Ha <-].
    apply list_elem_of_fmap. exists a. split; [done|]. apply elem_of_select. by rewrite E, Z.eqb_refl. }
  unfold delete_apis. split; db_simpl; auto.
  - apply (ok_services d Hd).
  - apply (ok_iterations d Hd).
  - apply (ok_categories d Hd).
  - by apply with_tdelete.
  - apply (ok_drafts d Hd).
  - exact (delete_params_ok RequestParamDraft _ _ _ _ Hhas (ok_req_params d Hd)).
  - exact (delete_params_ok ResponseParamDraft _ _ _ _ Hhas (ok_resp_params d Hd)).
Qed.

Lemma delete_draft_params_ok a d : db_ok d -> db_ok (delete_draft_params a d).
Proof.
  intros Hd. unfold delete_draft_params. split; db_simpl; auto.
  - apply (ok_services d Hd).
  - apply (ok_iterations d Hd).
  - apply (ok_categories d Hd).
  - apply (ok_apis d Hd).
  - apply (ok_drafts d Hd).
  - apply delete_params_ok with (gone := fun i => (i =? a)%Z) (apis := drafts d); auto.
  - apply delete_params_ok with (gone := fun i => (i =? a)%Z) (apis := drafts d); auto.
Qed.

Lemma delete_draft_ok a d : db_ok d -> db_ok (delete_draft a d).
Proof.
  intros Hd. pose proof (ok_drafts d Hd) as Hdrafts.
  assert (Hhas : forall i, (i =? a)%Z = false -> has (drafts d) i -> has (tdelete (fun x => (ar_id x =? a)%Z) (drafts d)) i).
  { intros i Hi [x Hx]. exists x. rewrite tget_tdelete, Hx by apply Hdrafts. apply tget_Some in Hx as [_ Hx].
    change (ar_id x = i) in Hx. by rewrite Hx, Hi. }
  unfold delete_draft, delete_draft_params. split; db_simpl; auto.
  - apply (ok_services d Hd).
  - apply (ok_iterations d Hd).
  - apply (ok_categories d Hd).
  - apply (ok_apis d Hd).
  - by apply with_tdelete.
  - apply delete_params_ok with (gone := fun i => (i =? a)%Z) (apis := drafts d); auto.
  - apply delete_params_ok with (gone := fun i => (i =? a)%Z) (apis := drafts d); auto.
Qed.

Lemma seqZ_sorted n m : StronglySorted Z.lt (seqZ n m).
Proof.
  destruct (decide (0 < m)%Z) as [Hm|]; [|rewrite seqZ_nil by lia; constructor].
  revert n. pattern m. apply Zlt_0_ind; [|lia]. clear m Hm. intros m IH Hm n.
  destruct (decide (m = 0)%Z) as [->|]; [constructor|]. rewrite seqZ_cons by lia. constructor; [apply IH; lia|].
  apply Forall_forall. intros i Hi%elem_of_seqZ. lia.
Qed.

(** Rows added after all others: numbered in order, of one API, with earlier parents
    among them. *)
Lemma append_params_ok k apis api t l : has apis api ->
  (forall r, r ∈ l -> pr_api r = api /\ placed k (pr_data r) /\
     forall p, pr_parent r = Some p -> (p < pr_id r)%Z /\ exists q, q ∈ l /\ pr_id q = p) ->
  map pr_id l = seqZ (next_id t) (Z.of_nat (List.length l)) -> params_ok k apis t ->
  params_ok k apis (mkTable (rows t ++ l) (next_id t + Z.of_nat (List.length l))).
Proof.
  intros Hapi Hl Hseq [Ht Hrows]. pose proof (keys_below _ Ht) as Hb. rewrite Forall_forall in Hb.
  pose proof (counter_positive _ Ht) as Hpos.
  assert (Hid : forall r, r ∈ l -> (next_id t <= pr_id r < next_id t + Z.of_nat (List.length l))%Z).
  { intros r Hr. apply elem_of_seqZ. rewrite <-Hseq. apply list_elem_of_fmap. by exists r. }
  split.
  - split; cbn [rows next_id]; [| |lia].
    + rewrite map_app. apply sorted_app; [apply Ht|change (map id_of l) with (map pr_id l); rewrite Hseq; apply seqZ_sorted|].
      intros i j (r & -> & Hr)%list_elem_of_fmap (r' & -> & Hr')%list_elem_of_fmap.
      specialize (Hb r Hr). specialize (Hid r' Hr'). unfold id_of, param_id_of in *. lia.
    + apply Forall_app. split; apply Forall_forall; intros r Hr; [specialize (Hb r Hr); lia|].
      specialize (Hid r Hr). unfold id_of, param_id_of. lia.
  - cbn [rows]. intros r [Hr|Hr]%elem_of_app.
    + destruct (Hrows r Hr) as (H1 & H2 & H3). split; [done|]. split; [done|]. intros p Ep.
      destruct (H3 p Ep) as (? & q & ? & ?). split; [done|]. exists q. split; [|done]. apply elem_of_app. by left.
    + destruct (Hl r Hr) as (H2 & H3 & H4). split; [by rewrite H2|]. split; [done|]. intros p Ep.
      destruct (H4 p Ep) as (? & q & Hq & ?). split; [done|]. exists q. split; [apply elem_of_app; by right|].
      split; [done|]. rewrite H2. by apply Hl.
Qed.

(** The rows of a block. *)
Lemma flat_ids t : forall api parent start, map pr_id (flat api parent start t) = seqZ start (Z.of_nat (tree_size t)).
Proof.
  induction t as [d cs IH] using tree_nested_ind. intros api parent start.
  rewrite flat_node, tree_size_node. cbn [map pr_id]. rewrite seqZ_cons by lia. f_equal.
  replace (Z.pred (Z.of_nat (S (forest_size cs)))) with (Z.of_nat (forest_size cs)) by lia.
  change (Z.succ start) with (start + 1)%Z. generalize (start + 1)%Z. clear -IH.
  induction IH as [|c cs Hc _ IHcs]; intros s; [done|].
  rewrite flat_list_cons, map_app, forest_size_cons, Nat2Z.inj_add, seqZ_app by lia. by rewrite Hc, IHcs.
Qed.

Lemma flat_list_ids ts : forall api parent start,
  map pr_id (flat_list api parent start ts) = seqZ start (Z.of_nat (forest_size ts)).
Proof.
  induction ts as [|t ts IH]; intros api parent start; [done|].
  rewrite flat_list_cons, map_app, flat_ids, IH, forest_size_cons, Nat2Z.inj_add, seqZ_app by lia. done.
Qed.

Lemma flat_list_length ts api parent start : List.length (flat_list api parent start ts) = forest_size ts.
Proof.
  rewrite <-(List.length_map pr_id), flat_list_ids.
  change (@List.length Z) with (@base.length Z). rewrite length_seqZ. lia.
Qed.

Definition all_placed (k : param_class) (ts : list (tree ParamData)) : Prop :=
  forall t d, t ∈ ts -> d ∈ tree_nodes t -> placed k d.

Lemma flat_data t : forall api parent start r, r ∈ flat api parent start t -> pr_data r ∈ tree_nodes t.
Proof.
  induction t as [d cs IH] using tree_nested_ind. intros api parent start r. rewrite flat_node. cbn [tree_nodes].
  rewrite !elem_of_cons. intros [->|Hr]; [by left|right]. revert Hr. generalize (start + 1)%Z. clear -IH.
  induction IH as [|c cs Hc _ IHcs]; intros s; [by intros ?%not_elem_of_nil|].
  rewrite flat_list_cons. cbn [map List.concat]. rewrite !elem_of_app. intros [Hr|Hr]; [left; by eapply Hc|right; by eapply IHcs].
Qed.

Lemma flat_list_data ts api parent start r : r ∈ flat_list api parent start ts ->
  exists t, t ∈ ts /\ pr_data r ∈ tree_nodes t.
Proof.
  revert start. induction ts as [|t ts IH]; intros start; [by intros ?%not_elem_of_nil|].
  rewrite flat_list_cons, elem_of_app. intros [Hr|Hr].
  - exists t. split; [by left|by eapply flat_data].
  - destruct (IH _ Hr) as (t' & ? & ?). exists t'. split; [by right|done].
Qed.

Lemma flat_parents t : forall api parent start r, r ∈ flat api parent start t ->
  pr_parent r = parent \/ exists p q, pr_parent r = Some p /\ q ∈ flat api parent start t /\ pr_id q = p.
Proof.
  induction t as [d cs IH] using tree_nested_ind. intros api parent start r. rewrite flat_node, elem_of_cons.
  intros [->|Hr]; [by left|right].
  assert (H : forall s, r ∈ flat_list api (Some start) s cs ->
    pr_parent r = Some start \/ exists p q, pr_parent r = Some p /\ q ∈ flat_list api (Some start) s cs /\ pr_id q = p).
  { clear Hr. induction IH as [|c cs Hc _ IHcs]; intros s; [by intros ?%not_elem_of_nil|].
    rewrite flat_list_cons, elem_of_app. setoid_rewrite elem_of_app. intros [Hr|Hr].
    - destruct (Hc api (Some start) s r Hr) as [?|(p & q & ? & ? & ?)]; [by left|right; exists p, q; auto].
    - destruct (IHcs _ Hr) as [?|(p & q & ? & ? & ?)]; [by left|right; exists p, q; auto]. }
  destruct (H _ Hr) as [E|(p & q & ? & ? & ?)].
  - exists start, (mkParamRow start api parent d). split; [done|]. split; [by left|done].
  - exists p, q. split; [done|]. split; [by right|done].
Qed.

Lemma flat_list_parents ts api parent : forall start r, r ∈ flat_list api parent start ts ->
  pr_parent r = parent \/ exists p q, pr_parent r = Some p /\ q ∈ flat_list api parent start ts /\ pr_id q = p.
Proof.
  induction ts as [|t ts IH]; intros start r; [by intros ?%not_elem_of_nil|].
  rewrite flat_list_cons, elem_of_app. setoid_rewrite elem_of_app. intros [Hr|Hr].
  - destruct (flat_parents _ _ _ _ _ Hr) as [?|(p & q & ? & ? & ?)]; [by left|right; exists p, q; auto].
  - destruct (IH _ _ Hr) as [?|(p & q & ? & ? & ?)]; [by left|right; exists p, q; auto].
Qed.

Lemma with_block_ok k apis api ts t : has apis api -> all_placed k ts -> params_ok k apis t ->
  params_ok k apis (with_block api None ts t).
Proof.
  intros Hapi Hts Ht. unfold with_block. rewrite <-(flat_list_length ts api None (next_id t)) at 1.
  apply append_params_ok with api; [done| |by rewrite flat_list_ids, flat_list_length|done].
  intros r Hr. destruct (flat_list_rows ts api None _ r Hr) as (Hi & Ha & Hp). split; [done|]. split.
  { destruct (flat_list_data _ _ _ _ _ Hr) as (tr & ? & ?). by eapply Hts. }
  intros p Ep. destruct Hp as [E|(p' & E & ?)]; rewrite Ep in E; simplify_eq. split; [lia|].
  destruct (flat_list_parents _ _ _ _ _ Hr) as [E|(p'' & q & E & Hq & Hqi)]; rewrite Ep in E; simplify_eq. by exists q.
Qed.

(** ** The trees written are of the table's kind *)

Lemma process_data_placed k loc p d : process_data k loc p = Some d -> placed k d.
Proof. unfold process_data, placed. destruct k; [|destruct (input_place p) as [|[]]]; by intros [= <-]. Qed.

Lemma input_tree_placed k p : forall loc, storable k loc p = true -> forall d, d ∈ tree_nodes (input_tree k loc p) -> placed k d.
Proof.
  induction p as [p IH] using input_nested_ind. intros loc.
  destruct p as [n ty pl r df ds ex ac cs]. cbn [storable input_tree tree_nodes input_children] in *.
  unfold sent_data. destruct (process_data k loc _) as [d0|] eqn:E; [|done]. cbn [from_option id]. intros Hs d.
  rewrite elem_of_cons. intros [->|Hd]; [by eapply process_data_placed|].
  destruct (stores_children d0); [|by apply not_elem_of_nil in Hd]. destruct cs as [cs|]; [|by apply not_elem_of_nil in Hd].
  cbn [from_option id] in IH. rewrite Forall_forall in IH. rewrite forallb_forall in Hs.
  apply list_elem_of_In, in_concat in Hd as (l & Hl & Hd). rewrite map_map in Hl. apply in_map_iff in Hl as (c & <- & Hc).
  apply (IH c) with (param_location loc (mkParamInput n ty pl r df ds ex ac (Some cs))).
  - by apply list_elem_of_In.
  - by apply Hs.
  - by apply list_elem_of_In.
Qed.

Lemma nest_nodes fuel l : forall r, r ∈ l -> forall d, d ∈ tree_nodes (tree_map pr_data (nest fuel l r)) ->
  exists x, x ∈ l /\ d = pr_data x.
Proof.
  induction fuel as [|n IH]; intros r Hr d; cbn [nest tree_map tree_nodes]; rewrite elem_of_cons.
  - intros [->|H]; [by exists r|by apply not_elem_of_nil in H].
  - intros [->|Hd]; [by exists r|]. apply list_elem_of_In, in_concat in Hd as (ds & Hds & Hd).
    rewrite !map_map in Hds. apply in_map_iff in Hds as (c & <- & [Hc _]%filter_In).
    apply (IH c); by apply list_elem_of_In.
Qed.

Lemma forest_placed k l : (forall r, r ∈ l -> placed k (pr_data r)) -> all_placed k (map (tree_map pr_data) (forest l)).
Proof.
  intros Hl t d Ht Hd. unfold forest in Ht. rewrite map_map in Ht. apply list_elem_of_fmap in Ht as (r & -> & Hr).
  apply list_elem_of_In, filter_In in Hr as [Hr%list_elem_of_In _].
  destruct (nest_nodes _ _ _ Hr _ Hd) as (x & Hx & ->). by apply Hl.
Qed.

(** ** Copies *)

Lemma params_of_sorted t a : table_ok t -> StronglySorted Z.lt (map pr_id (params_of t a)).
Proof. intros Ht. unfold params_of, select. apply (sorted_filter pr_id), (keys_grow _ Ht). Qed.

Lemma params_of_linked k apis t a : params_ok k apis t -> params_linked (params_of t a).
Proof.
  intros [Ht Hrows]. split; [by apply sorted_distinct, params_of_sorted|].
  intros r p [Hr Ha%Z.eqb_eq]%elem_of_select Ep. destruct (Hrows r Hr) as (_ & _ & H3).
  destruct (H3 p Ep) as (_ & q & Hq & <- & Hqa). apply list_elem_of_fmap. exists q. split; [done|].
  apply elem_of_select. split; [done|]. apply Z.eqb_eq. congruence.
Qed.

Lemma fresh_mono l : StronglySorted Z.lt (map pr_id l) -> forall n i j,
  i ∈ map pr_id l -> j ∈ map pr_id l -> (i < j)%Z -> (fresh n l i < fresh n l j)%Z.
Proof.
  induction l as [|r l IH]; intros Hs n i j Hi Hj Hij; [by apply not_elem_of_nil in Hi|].
  cbn [map] in *. apply StronglySorted_inv in Hs as [Hs Hr]. rewrite Forall_forall in Hr. cbn [fresh].
  apply elem_of_cons in Hi as [->|Hi], Hj as [->|Hj].
  - lia.
  - rewrite Z.eqb_refl. destruct (Z.eqb_spec (pr_id r) j); [lia|]. pose proof (fresh_bounds l (n + 1)%Z j Hj). lia.
  - specialize (Hr i Hi). lia.
  - pose proof (Hr i Hi). pose proof (Hr j Hj).
    destruct (Z.eqb_spec (pr_id r) i), (Z.eqb_spec (pr_id r) j); try lia. by apply IH.
Qed.

Lemma fresh_ids l : NoDup (map pr_id l) -> forall n,
  map (fresh n l) (map pr_id l) = seqZ n (Z.of_nat (List.length l)).
Proof.
  induction l as [|r l IH]; intros Hnd n; [done|]. cbn [map] in *. apply NoDup_cons in Hnd as [Hr Hnd].
  cbn [fresh List.length]. rewrite Z.eqb_refl, seqZ_cons by lia. f_equal.
  replace (Z.pred (Z.of_nat (S (List.length l)))) with (Z.of_nat (List.length l)) by lia.
  rewrite <-IH by done. change (Z.succ n) with (n + 1)%Z. apply map_ext_in. intros i Hi%list_elem_of_In.
  destruct (Z.eqb_spec (pr_id r) i) as [<-|]; done.
Qed.

(** Copying the parameters of an API of one table into another never fails. *)
Lemma clone_ok k apis apis' t t' a api : params_ok k apis t -> params_ok k apis' t' -> has apis' api ->
  let l := params_of t a in
  clone_params api l t' = (Ret tt,
    mkTable (rows t' ++ map (renamed (fresh (next_id t') l) api) l) (next_id t' + Z.of_nat (List.length l))) /\
  params_ok k apis' (mkTable (rows t' ++ map (renamed (fresh (next_id t') l) api) l)
    (next_id t' + Z.of_nat (List.length l))).
Proof.
  intros Ht Ht' Hapi l. pose proof (params_of_linked _ _ _ a Ht) as Hl. split; [apply clone_params_run; [done|apply Ht']|].
  pose proof (params_of_sorted t a (proj1 Ht)) as Hsort. fold l in Hsort, Hl.
  rewrite <-(List.length_map (renamed (fresh (next_id t') l) api) l).
  apply append_params_ok with api; [done| | |done].
  - intros x (r & -> & Hr)%list_elem_of_fmap. pose proof Hr as [Hrt Hra%Z.eqb_eq]%elem_of_select.
    destruct Ht as [Htok Hrows]. destruct (Hrows r Hrt) as (_ & Hp & H3). split; [done|]. split; [done|].
    intros p Ep. cbn [renamed pr_parent] in Ep. destruct (pr_parent r) as [p0|] eqn:Ep0; [|done]. injection Ep as <-.
    destruct (H3 p0 eq_refl) as (Hlt & _). assert (Hin : p0 ∈ map pr_id l) by by apply (proj2 Hl r).
    split; [apply fresh_mono; [done..| |done]; apply list_elem_of_fmap; by exists r|].
    apply list_elem_of_fmap in Hin as (q & -> & Hq). exists (renamed (fresh (next_id t') l) api q). split; [|done].
    apply list_elem_of_fmap. by exists q.
  - rewrite map_map, List.length_map. rewrite <-fresh_ids by apply Hl. rewrite map_map. done.
Qed.

Lemma req_params_ok f d : params_ok RequestParamDraft (db_apis d) (f (req_params d)) -> db_ok d -> db_ok (on_req_params f d).
Proof. intros Hf Hd. by destruct Hd. Qed.
Lemma resp_params_ok f d : params_ok ResponseParamDraft (db_apis d) (f (resp_params d)) -> db_ok d -> db_ok (on_resp_params f d).
Proof. intros Hf Hd. by destruct Hd. Qed.
Lemma req_drafts_ok f d : params_ok RequestParamDraft (drafts d) (f (req_drafts d)) -> db_ok d -> db_ok (on_req_drafts f d).
Proof. intros Hf Hd. by destruct Hd. Qed.
Lemma resp_drafts_ok f d : params_ok ResponseParamDraft (drafts d) (f (resp_drafts d)) -> db_ok d -> db_ok (on_resp_drafts f d).
Proof. intros Hf Hd. by destruct Hd. Qed.

(** What the copying loops leave alone. *)
Record same_base (d d' : Db) : Prop := mkSameBase {
  same_users : users d' = users d;
  same_services : services d' = services d;
  same_iterations : iterations d' = iterations d;
  same_categories : categories d' = categories d
}.

#[global] Instance same_base_preorder : PreOrder same_base.
Proof. split; [done|]. intros a b c [] []. split; by etrans. Qed.

Lemma in_service_same d d' s c : same_base d d' -> in_service d s c -> in_service d' s c.
Proof. intros [_ _ _ E] H. unfold in_service. by rewrite E. Qed.

Lemma has_new make (t : table ApiRow) : (forall i, ar_id (make i) = i) -> table_ok t -> has (tadd make t) (next_id t).
Proof. intros Hid Ht. exists (make (next_id t)). by rewrite tget_tadd, Z.eqb_refl. Qed.

Section Handlers.
Context `{!Isoformat, !Libraries}.
(** A round of the loop of [serviceStartIteration]; it never raises. *)
Lemma draft_of_api_ok I P now iteration a d : db_ok d -> api_ok d a ->
  (exists it, tget (iterations d) iteration = Some it /\ ir_service it = ar_parent a) ->
  ends I P (draft_of_api now iteration a) d (fun _ d' => db_ok d' /\ same_base d d' /\ db_apis d' = db_apis d).
Proof.
  intros Hd (_ & Ho & Hc) (it & Hit & Es). set (d1 := on_drafts (tadd (copy_row now iteration a)) d).
  assert (H1 : db_ok d1). { apply add_draft_ok; [done| |done]. split; [done|]. exists it. rewrite Es. done. }
  assert (Hnew : has (drafts d1) (next_id (drafts d))) by (apply has_new; [done|apply (ok_drafts d Hd)]).
  unfold draft_of_api. tx.
  destruct (clone_ok _ _ _ _ _ (ar_id a) (next_id (drafts d)) (ok_req_params d1 H1) (ok_req_drafts d1 H1) Hnew) as [E1 Ht1].
  eapply ends_in_table_run; [exact E1|]. tx.
  set (d2 := on_req_drafts _ _). assert (H2 : db_ok d2) by by apply req_drafts_ok.
  destruct (clone_ok _ _ _ _ _ (ar_id a) (next_id (drafts d)) (ok_resp_params d2 H2) (ok_resp_drafts d2 H2) Hnew) as [E2 Ht2].
  eapply ends_in_table_run; [exact E2|].
  split; [by apply resp_drafts_ok|]. done.
Qed.

(** A round of the loop of [serviceCommitIteration]. *)
Lemma api_of_draft_ok I P now service a d : db_ok d -> has (users d) (ar_owner a) -> has (services d) service ->
  in_service d service (ar_category a) ->
  ends I P (api_of_draft now service a) d (fun _ d' => db_ok d' /\ same_base d d' /\ drafts d' = drafts d).
Proof.
  intros Hd Ho Hs Hc. set (d1 := on_apis (tadd (copy_row now service a)) d).
  assert (H1 : db_ok d1) by by apply add_api_ok.
  assert (Hnew : has (db_apis d1) (next_id (db_apis d))) by (apply has_new; [done|apply (ok_apis d Hd)]).
  unfold api_of_draft. tx.
  destruct (clone_ok _ _ _ _ _ (ar_id a) (next_id (db_apis d)) (ok_req_drafts d1 H1) (ok_req_params d1 H1) Hnew) as [E1 Ht1].
  eapply ends_in_table_run; [exact E1|]. tx.
  set (d2 := on_req_params _ _). assert (H2 : db_ok d2) by by apply req_params_ok.
  destruct (clone_ok _ _ _ _ _ (ar_id a) (next_id (db_apis d)) (ok_resp_drafts d2 H2) (ok_resp_params d2 H2) Hnew) as [E2 Ht2].
  eapply ends_in_table_run; [exact E2|].
  split; [by apply resp_params_ok|]. done.
Qed.

(** ** The handlers *)

Local Notation ends := (ends committed_ok True).

Ltac leaf := repeat match goal with
  | |- committed_ok _ /\ _ => split; [split; [|assumption]|tx]
  | |- True => exact Logic.I
  end.

Lemma register_ok now salt u p n e r d : db_ok d -> ends (userRegister now salt u p n e r) d (fun _ _ => True).
Proof. intros Hd. unfold userRegister. tx; leaf. by apply add_user_ok. Qed.

Lemma modify_password_ok salt i o n d : db_ok d -> ends (userModifyPassword salt i o n) d (fun _ _ => True).
Proof. intros Hd. unfold userModifyPassword. tx; leaf. by apply update_user_ok. Qed.

Lemma create_service_ok now u o descr d : has (users d) o -> db_ok d ->
  ends (serviceCreateNewService now u o descr) d (fun _ _ => True).
Proof.
  intros Ho Hd. unfold serviceCreateNewService. tx; leaf. apply add_service_ok; [done| |done].
  split; [done|]. split; [constructor|]. split; [apply NoDup_singleton|]. by split; [|intros []].
Qed.

Lemma maintainer_ok s u c d : db_ok d -> ends (serviceAddOrRemoveServiceMaintainerById s u c) d (fun _ _ => True).
Proof.
  intros Hd. unfold serviceAddOrRemoveServiceMaintainerById. tx any; leaf. rename u0 into cand.
  match goal with E : tget (users d) c = Some cand |- _ => rename E into Hc end.
  match goal with E : owned_by c s0 = false |- _ => rename E into Hown end.
  apply update_service_ok; [done| |done]. intros r Hr (Ho & Hm & Hnd & Hdel). simplify_eq.
  split; [done|]. cbn [set_maintainers sr_owner sr_maintainers]. apply NoDup_cons in Hnd as [Hout Hnd].
  pose proof (tget_Some _ _ _ Hc) as [_ Ec]. change (ur_id cand = c) in Ec. subst c. cbn [maintains].
  case_bool_decide as Hin.
  - assert (Hsub : forall m, m ∈ List.filter (fun m => negb (m =? ur_id cand)%Z) (sr_maintainers s0) -> m ∈ sr_maintainers s0).
    { intros m [Hm' _]%list_elem_of_In%filter_In. by apply list_elem_of_In. }
    rewrite Forall_forall in Hm |- *. split; [auto|]. split; [|done]. apply NoDup_cons. split; [auto|].
    by apply NoDup_ListNoDup, List.NoDup_filter, NoDup_ListNoDup.
  - split; [apply Forall_app; split; [done|]; apply Forall_singleton; by exists cand|]. split; [|done].
    apply Z.eqb_neq in Hown. apply NoDup_cons. rewrite elem_of_app, list_elem_of_singleton. split; [naive_solver|].
    apply NoDup_app. split; [done|]. split; [|apply NoDup_singleton]. intros m Hm'. rewrite list_elem_of_singleton. naive_solver.
Qed.

Lemma set_deleted_ok d at_ s : service_ok d s -> service_ok d (set_deleted at_ s).
Proof. intros (Ho & Hm & Hnd & _). split; [done|]. split; [done|]. split; [done|]. cbn. apply bool_decide_eq_true. Qed.

Lemma delete_service_ok now i u d : db_ok d -> ends (serviceDeleteServiceById now i u) d (fun _ _ => True).
Proof.
  intros Hd. unfold serviceDeleteServiceById. tx any; leaf. apply update_service_ok; auto using set_deleted_ok. done.
Qed.

Lemma restore_service_ok i u d : db_ok d -> ends (serviceRestoreServiceById i u) d (fun _ _ => True).
Proof.
  intros Hd. unfold serviceRestoreServiceById. tx any; leaf. apply update_service_ok; auto using set_deleted_ok. done.
Qed.

Lemma delete_iteration_request_ok i u d : db_ok d -> ends (serviceDeleteIterationById i u) d (fun _ _ => True).
Proof. intros Hd. unfold serviceDeleteIterationById. tx any; leaf. by apply delete_iteration_ok. Qed.

Lemma ends_with_iteration i u (k : IterationRow -> option UserRow -> TX Reply) d Q :
  (forall e, Q e d) -> (forall it user, tget (iterations d) i = Some it -> ir_committed it = false ->
    user = tget (users d) u -> ends (k it user) d Q) -> ends (with_iteration i u k) d Q.
Proof.
  intros He Hk. unfold with_iteration, checkServiceIterationPermission. tx any; auto.
Qed.

Lemma description_ok i t u d : db_ok d -> ends (serviceUpdateDescription i t u) d (fun _ _ => True).
Proof.
  intros Hd. apply ends_with_iteration; [done|]. intros it user Hit Hc _. tx any; leaf.
  by apply update_iteration_ok.
Qed.

Lemma start_iteration_ok now s u d : has (users d) u -> db_ok d ->
  ends (serviceStartIteration now s u) d (fun _ _ => True).
Proof.
  intros Hu Hd. unfold serviceStartIteration. tx any; auto.
  match goal with E : tget (services d) s = Some ?r |- _ => assert (Hs : has (services d) s) by by exists r end.
  match goal with E : first_row _ _ = None |- _ => rename E into Hopen end.
  set (new := fun i => mkIterationRow i s u None None false). set (d1 := on_iterations (tadd new) d).
  assert (H1 : db_ok d1).
  { apply add_iteration_ok; [done| |by apply first_row_None|done]. split; [done|]. split; [done|]. by split; [|intros []]. }
  set (it := new (next_id (iterations d))).
  assert (Hit : tget (iterations d1) (next_id (iterations d)) = Some it).
  { cbn [d1 on_iterations iterations]. rewrite tget_tadd, Z.eqb_refl; [done..|]. apply (ok_iterations d Hd). }
  apply ends_each with (R := fun d' => db_ok d' /\ same_base d1 d' /\ db_apis d' = db_apis d1); [done| |].
  - intros a d' [Ha Hp%Z.eqb_eq]%elem_of_select (Hd' & Hb & Ea). pose proof (ok_apis d' Hd') as [_ Hrows].
    eapply ends_weaken; [apply draft_of_api_ok; [done| |]|].
    + apply Hrows. by rewrite Ea.
    + exists it. rewrite (same_iterations _ _ Hb). split; [done|by rewrite Hp].
    + intros _ d2 (Hd2 & Hb2 & Ea2). split; [done|]. split; [by etrans|by rewrite Ea2].
  - cbn. intros d' (Hd' & _). tx. leaf. done.
Qed.

Lemma commit_iteration_ok now i v u d : db_ok d -> ends (serviceCommitIteration now i v u) d (fun _ _ => True).
Proof.
  intros Hd. unfold serviceCommitIteration, checkServiceIterationPermission. tx any; auto.
  repeat match goal with E : inl _ = inl _ |- _ => injection E as <- <- end.
  simplify_eq. match goal with E : tget (iterations d) i = Some ?x |- _ => rename E into Hi, x into it end.
  match goal with E : tget (services d) _ = Some ?y |- _ => rename E into Hs, y into sv end.
  set (d0 := on_services _ d). set (d1 := delete_apis _ d0).
  assert (H0' : db_ok d0).
  { apply update_service_ok; [done| |done]. intros r _ (Ho & Hm & Hnd & Hdel). done. }
  assert (H1' : db_ok d1) by by apply delete_apis_ok.
  pose proof (tget_Some _ _ _ Hs) as [_ Es]. change (sr_id sv = ir_service it) in Es.
  assert (Hsv : has (services d1) (sr_id sv)).
  { apply (keeps_has (fun _ => tt) (services d)); [by apply keeps_tupdate|]. exists sv. by rewrite Es. }
  apply ends_each with (R := fun d' => db_ok d' /\ same_base d1 d' /\ drafts d' = drafts d1); [done| |].
  - intros a d' [Ha Hp%Z.eqb_eq]%elem_of_select (Hd' & Hb & Ea).
    pose proof (ok_drafts d' Hd') as [_ Hrows]. destruct (Hrows a) as (Ho & it' & Hit' & Hcat); [by rewrite Ea|].
    rewrite Hp, (same_iterations _ _ Hb) in Hit'. change (tget (iterations d) i = Some it') in Hit'. simplify_eq.
    eapply ends_weaken; [apply api_of_draft_ok; [done|done|by rewrite (same_services _ _ Hb)|by rewrite Es]|].
    intros _ d2 (Hd2 & Hb2 & Ea2). split; [done|]. split; [by etrans|by rewrite Ea2].
  - cbn beta. intros d' (Hd' & _). tx. leaf. apply update_iteration_ok; [done| |done|done].
    intros r (Hr1 & Hr2 & _). split; [|done]. split; [done|]. split; [done|]. by split.
Qed.

Lemma add_category_request_ok s u n t d : db_ok d -> ends (apiAddCategoryByServiceId s u n t) d (fun _ _ => True).
Proof.
  intros Hd. unfold apiAddCategoryByServiceId. tx any; leaf.
  set (c := mkCategoryRow _ _ _ _). change (on_categories _ d) with (on_categories (tadd (fun _ => c)) d).
  (* the row made does not depend on the key it is given *)
  replace (on_categories (tadd (fun _ => c)) d) with
    (on_categories (tadd (fun i => mkCategoryRow i s n t)) d) by done.
  apply add_category_ok; [done| |done]. by eexists.
Qed.

Lemma delete_category_request_ok now c u d : db_ok d -> ends (apiDeleteCategoryById now c u) d (fun _ _ => True).
Proof. intros Hd. unfold apiDeleteCategoryById. tx any; leaf. by apply delete_category_ok. Qed.

Lemma update_category_request_ok c u n t d : db_ok d -> ends (apiUpdateCategoryById c u n t) d (fun _ _ => True).
Proof. intros Hd. unfold apiUpdateCategoryById. tx any; leaf. by apply update_category_ok. Qed.

Lemma update_api_category_ok now a c u d : db_ok d -> ends (apiUpdateApiCategory now a c u) d (fun _ _ => True).
Proof.
  intros Hd. unfold apiUpdateApiCategory. tx any; leaf.
  - apply update_api_ok; [by apply touch_place| |done]. intros r _ _. by rewrite touch_category.
  - apply update_api_ok; [by apply touch_place| |done]. intros r Hr _. rewrite touch_category. simplify_eq.
    intros j [= <-]. eexists. split; [done|]. by apply Z.eqb_eq.
Qed.

Lemma add_api_request_ok now i u n m p t l c d : has (users d) u -> db_ok d ->
  ends (apiAddApi now i u n m p t l c) d (fun _ _ => True).
Proof.
  intros Hu Hd. apply ends_with_iteration; [done|]. intros it user Hit Hc _. tx any; leaf; try done.
  all: simplify_eq; match goal with |- db_ok (on_drafts (tadd (fun _ => mkApiRow _ ?p ?o ?c ?n ?m ?pa ?t ?l ?e ?x ?y)) ?d) =>
    change (db_ok (on_drafts (tadd (fun i => mkApiRow i p o c n m pa t l e x y)) d)) end;
    apply add_draft_ok; [done| |done]; split; [done|]; exists it; (split; [done|]).
  - intros j [= <-]. match goal with E : _ = inl _ |- _ => revert E end.
    destruct (tget (categories d) z) as [r|]; [|done]. destruct (Z.eqb_spec (cr_service r) (ir_service it)); [|done].
    intros _. by exists r.
  - done.
Qed.

Lemma ends_with_draft i a u (k : ApiRow -> TX Reply) d Q :
  (forall e, Q e d) -> (forall it r, tget (iterations d) i = Some it -> ir_committed it = false ->
    tget (drafts d) a = Some r -> ar_parent r = i -> ends (k r) d Q) -> ends (with_draft i a u k) d Q.
Proof.
  intros He Hk. apply ends_with_iteration; [done|]. intros it user Hit Hc _. tx any; auto.
  eapply Hk; [done..|]. by apply Z.eqb_eq.
Qed.

(** Parameters added to a draft: what [process_params] and [copy_params] do. *)
Lemma add_draft_params_ok k a ts d : has (drafts d) a -> all_placed k ts -> db_ok d ->
  db_ok (match k with RequestParamDraft => on_req_drafts | ResponseParamDraft => on_resp_drafts end
           (fun t => with_block a None ts t) d).
Proof.
  intros Ha Hts Hd. destruct k.
  - apply req_drafts_ok; [by apply with_block_ok; auto|done].
  - apply resp_drafts_ok; [by apply with_block_ok; auto|done].
Qed.

Lemma copy_api_ok now i a u d : has (users d) u -> db_ok d -> ends (apiCopyApiByApiDraftId now i a u) d (fun _ _ => True).
Proof.
  intros Hu Hd. apply ends_with_draft; [done|]. intros it r Hit Hc Hr Hp. tx any.
  set (d1 := on_drafts _ d). assert (H1 : db_ok d1).
  { apply add_draft_ok; [done| |done]. pose proof (with_get _ _ _ _ (ok_drafts d Hd) Hr) as (_ & it' & Hit' & Hcat).
    split; [done|]. exists it'. by rewrite <-Hp. }
  assert (Hnew : has (drafts d1) (next_id (drafts d))) by (apply has_new; [done|apply (ok_drafts d Hd)]).
  eapply ends_in_table_run; [apply copy_params_run|]. tx any.
  set (d2 := on_req_drafts _ d1). assert (H2 : db_ok d2).
  { apply (add_draft_params_ok RequestParamDraft); [done| |done]. apply forest_placed.
    intros x [Hx _]%elem_of_select. by apply (ok_req_drafts d1 H1). }
  eapply ends_in_table_run; [apply copy_params_run|]. tx any; leaf.
  apply (add_draft_params_ok ResponseParamDraft); [done| |done]. apply forest_placed.
  intros x [Hx _]%elem_of_select. by apply (ok_resp_drafts d2 H2).
Qed.

Lemma delete_api_ok i a u d : db_ok d -> ends (apiDeleteApiByApiDraftId i a u) d (fun _ _ => True).
Proof.
  intros Hd. apply ends_with_draft; [done|]. intros it r Hit Hc Hr Hp. tx any; leaf. by apply delete_draft_ok.
Qed.

Lemma ends_process I P k get put a ps d (Q : unit -> Db -> Prop) :
  (forallb (storable k "") ps = false -> P) ->
  (forallb (storable k "") ps = true -> Q tt (put (fun _ => with_block a None (map (input_tree k "") ps) (get d)) d)) ->
  Transaction.ends I P (in_table get put (process_params k a ps)) d Q.
Proof.
  intros HP HQ. apply ends_in_table. destruct (forallb (storable k "") ps) eqn:E.
  - rewrite process_params_run by done. by apply HQ.
  - destruct (process_params_fails k a ps (get d) E) as (t' & Et). rewrite Et. by apply HP.
Qed.

Lemma inputs_placed k ps : forallb (storable k "") ps = true -> all_placed k (map (input_tree k "") ps).
Proof.
  intros Hs t d (p & -> & Hp)%list_elem_of_fmap. rewrite forallb_forall in Hs. apply input_tree_placed.
  by apply Hs, list_elem_of_In.
Qed.

Lemma update_draft_request_ok now i a u n m p t l rq rs d : db_ok d ->
  ends (apiUpdateApiByApiDraftId now i a u n m p t l rq rs) d (fun _ _ => True).
Proof.
  intros Hd. apply ends_with_draft; [done|]. intros it r Hit Hc Hr Hp. tx any.
  set (d1 := on_drafts _ d). set (d2 := delete_draft_params a d1).
  assert (H2 : db_ok d2).
  { apply delete_draft_params_ok, update_draft_ok; [by apply touch_place|intros x; by rewrite touch_category|done]. }
  assert (Ha : has (drafts d2) a).
  { apply (has_tupdate a); [apply place_id; by apply touch_place|by exists r]. }
  apply ends_process; [done|]. intros Hrq. tx any.
  set (d3 := on_req_drafts _ d2).
  assert (H3 : db_ok d3) by (apply (add_draft_params_ok RequestParamDraft); [done|by apply inputs_placed|done]).
  apply ends_process; [done|]. intros Hrs. tx any; leaf.
  apply (add_draft_params_ok ResponseParamDraft); [done|by apply inputs_placed|done].
Qed.
End Handlers.
