(* ===== verification/Copies.v ===== *)
(** * What starting and committing an iteration copies

    [draft_of_api] and [api_of_draft] are one computation between two sides, the
    released tables and those of the drafts.  A run of it appends a row per API
    and gives it parameters that form the same trees. *)

From S2P Require Import Prelude Tables JsObject ApiTypes FeTypes Database ParamStore Backend Transaction BackendUser.
From S2P Require Import BackendService BackendApi Integrity.
From Stdlib Require Import String ZArith Lia.

(** ** Two sides *)

Record Side := mkSide {
  s_apis : Db -> table ApiRow; s_req : Db -> table ParamRow; s_resp : Db -> table ParamRow;
  put_apis : (table ApiRow -> table ApiRow) -> Db -> Db;
  put_req : (table ParamRow -> table ParamRow) -> Db -> Db;
  put_resp : (table ParamRow -> table ParamRow) -> Db -> Db }.

Definition released_side : Side := mkSide db_apis req_params resp_params on_apis on_req_params on_resp_params.
Definition drafted_side : Side := mkSide drafts req_drafts resp_drafts on_drafts on_req_drafts on_resp_drafts.

Definition copy_api (from to : Side) (now parent : Z) (a : ApiRow) : TX unit :=
  i ← read (fun d => next_id (s_apis to d));
  write (put_apis to (tadd (copy_row now parent a))) ;;
  request_params ← read (fun d => params_of (s_req from d) (ar_id a));
  in_table (s_req to) (put_req to) (clone_params i request_params) ;;
  response_params ← read (fun d => params_of (s_resp from d) (ar_id a));
  in_table (s_resp to) (put_resp to) (clone_params i response_params).

Lemma draft_of_api_copies now iteration a : draft_of_api now iteration a = copy_api released_side drafted_side now iteration a.
Proof. done. Qed.
Lemma api_of_draft_copies now service a : api_of_draft now service a = copy_api drafted_side released_side now service a.
Proof. done. Qed.

(** The trees of an API's parameters, requests and responses. *)
Definition trees (t : table ParamRow) (api : Z) : list (tree ParamData) := map (tree_map pr_data) (forest (params_of t api)).

(** The sides are apart: writing one is seen there, and nowhere on the other. *)
Record apart (from to : Side) : Prop := mkApart {
  apart_apis : forall f d, s_apis to (put_apis to f d) = f (s_apis to d) /\ s_req to (put_apis to f d) = s_req to d /\
    s_resp to (put_apis to f d) = s_resp to d;
  apart_req : forall f d, s_apis to (put_req to f d) = s_apis to d /\ s_req to (put_req to f d) = f (s_req to d) /\
    s_resp to (put_req to f d) = s_resp to d;
  apart_resp : forall f d, s_apis to (put_resp to f d) = s_apis to d /\ s_req to (put_resp to f d) = s_req to d /\
    s_resp to (put_resp to f d) = f (s_resp to d);
  apart_from : forall d f g h, let d' := put_resp to h (put_req to g (put_apis to f d)) in
    s_apis from d' = s_apis from d /\ s_req from d' = s_req from d /\ s_resp from d' = s_resp from d /\ same_base d d';
  apart_from_req : forall f d, s_req from (put_apis to f d) = s_req from d;
  apart_from_resp : forall f g d, s_resp from (put_req to g (put_apis to f d)) = s_resp from d
}.

Lemma released_apart : apart drafted_side released_side.
Proof. by split. Qed.
Lemma drafted_apart : apart released_side drafted_side.
Proof. by split. Qed.

(** ** Trees of tables with copies *)

Lemma params_of_app t l a n : params_of (mkTable (rows t ++ l) n) a = params_of t a ++ List.filter (fun r => (pr_api r =? a)%Z) l.
Proof. unfold params_of, select. cbn [rows]. apply List.filter_app. Qed.

Lemma trees_other t l api n a : (forall r, r ∈ l -> pr_api r = api) -> a <> api -> trees (mkTable (rows t ++ l) n) a = trees t a.
Proof.
  intros Hl Hne. unfold trees. rewrite params_of_app, filter_none; [by rewrite app_nil_r|].
  intros r Hr. rewrite (Hl r Hr). by apply Z.eqb_neq.
Qed.

Lemma renamed_api f api l r : r ∈ map (renamed f api) l -> pr_api r = api.
Proof. by intros (x & -> & _)%list_elem_of_fmap. Qed.

Lemma filter_same_api l api : (forall r, r ∈ l -> pr_api r = api) -> List.filter (fun r => (pr_api r =? api)%Z) l = l.
Proof.
  intros Hl. apply forallb_filter_id, forallb_forall. intros r Hr%list_elem_of_In. by rewrite (Hl r Hr), Z.eqb_refl.
Qed.

(** The copy of the rows of one API, as the only rows of another. *)
Lemma trees_cloned k apis t t' a api n : params_ok k apis t -> params_of t' api = [] ->
  trees (mkTable (rows t' ++ map (renamed (fresh (next_id t') (params_of t a)) api) (params_of t a)) n) api = trees t a.
Proof.
  intros Ht Hnone. unfold trees. rewrite params_of_app, Hnone, filter_same_api by apply renamed_api. cbn [app].
  apply forest_renamed; [by eapply params_of_linked|]. intros i j. apply fresh_inj.
Qed.

Lemma params_of_new k apis t api : params_ok k apis t -> ~ has apis api -> params_of t api = [].
Proof.
  intros [_ Hrows] Hno. apply filter_none. intros r Hr. apply Z.eqb_neq. intros <-. destruct Hno. apply Hrows, Hr.
Qed.

Lemma next_is_new {R} `{!HasId R} (t : table R) : table_ok t -> ~ has t (next_id t).
Proof.
  intros Ht [r Hr]. apply tget_Some in Hr as [Hr E]. pose proof (keys_below _ Ht) as Hb. rewrite Forall_forall in Hb.
  specialize (Hb r Hr). cbn in Hb. lia.
Qed.

(** ** One round *)

Record side_ok (s : Side) (d : Db) : Prop := mkSideOk {
  side_apis_ok : table_ok (s_apis s d);
  side_req_ok : params_ok RequestParamDraft (s_apis s d) (s_req s d);
  side_resp_ok : params_ok ResponseParamDraft (s_apis s d) (s_resp s d)
}.

Lemma released_ok d : db_ok d -> side_ok released_side d.
Proof. intros Hd. split; [apply (ok_apis d Hd)|apply (ok_req_params d Hd)|apply (ok_resp_params d Hd)]. Qed.
Lemma drafted_ok d : db_ok d -> side_ok drafted_side d.
Proof. intros Hd. split; [apply (ok_drafts d Hd)|apply (ok_req_drafts d Hd)|apply (ok_resp_drafts d Hd)]. Qed.

(** What a round leaves: the new row, its trees, and everything else. *)
Record copied (from to : Side) (d d' : Db) : Prop := mkCopied {
  copied_req : forall i, has (s_apis to d) i -> trees (s_req to d') i = trees (s_req to d) i;
  copied_resp : forall i, has (s_apis to d) i -> trees (s_resp to d') i = trees (s_resp to d) i;
  copied_from : s_apis from d' = s_apis from d /\ s_req from d' = s_req from d /\ s_resp from d' = s_resp from d;
  copied_base : same_base d d'
}.

Lemma copy_api_run I P from to now parent a d : apart from to -> side_ok from d -> side_ok to d ->
  ends I P (copy_api from to now parent a) d (fun _ d' =>
    s_apis to d' = tadd (copy_row now parent a) (s_apis to d) /\
    trees (s_req to d') (next_id (s_apis to d)) = trees (s_req from d) (ar_id a) /\
    trees (s_resp to d') (next_id (s_apis to d)) = trees (s_resp from d) (ar_id a) /\ copied from to d d').
Proof.
  intros Hap [Hfa Hfq Hfs] [Hta Htq Hts]. set (n := next_id (s_apis to d)).
  pose proof (next_is_new _ Hta) as Hnew. fold n in Hnew.
  pose proof (has_new (copy_row now parent a) (s_apis to d) ltac:(done) Hta) as Hn. fold n in Hn.
  set (d1 := put_apis to (tadd (copy_row now parent a)) d).
  destruct (apart_apis _ _ Hap (tadd (copy_row now parent a)) d) as (E1 & E2 & E3). fold d1 in E1, E2, E3.
  assert (Hmono : forall i, has (s_apis to d) i -> has (s_apis to d1) i) by (intros i Hi; rewrite E1; by apply has_tadd).
  pose proof (params_ok_mono _ _ _ _ Hmono Htq) as Htq1. rewrite <-E2 in Htq1.
  unfold copy_api. tx. fold n d1.
  destruct (clone_ok _ _ _ _ _ (ar_id a) n Hfq Htq1 ltac:(by rewrite E1)) as [Ec1 _].
  pose proof (apart_from_req _ _ Hap (tadd (copy_row now parent a)) d) as Eq. fold d1 in Eq.
  eapply ends_in_table_run; [rewrite Eq; exact Ec1|]. tx.
  set (g := fun _ : table ParamRow => _). set (d2 := put_req to g d1).
  destruct (apart_req _ _ Hap g d1) as (F1 & F2 & F3). fold d2 in F1, F2, F3.
  pose proof (params_ok_mono _ _ _ _ Hmono Hts) as Hts2. rewrite <-E3, <-F3, <-F1 in Hts2.
  destruct (clone_ok _ _ _ _ _ (ar_id a) n Hfs Hts2 ltac:(by rewrite F1, E1)) as [Ec2 _].
  pose proof (apart_from_resp _ _ Hap (tadd (copy_row now parent a)) g d) as Es. fold d1 d2 in Es.
  eapply ends_in_table_run; [rewrite Es; exact Ec2|].
  set (h := fun _ : table ParamRow => _). set (d3 := put_resp to h d2).
  destruct (apart_resp _ _ Hap h d2) as (G1 & G2 & G3). fold d3 in G1, G2, G3.
  destruct (apart_from _ _ Hap d (tadd (copy_row now parent a)) g h) as (H1 & H2 & H3 & H4). fold d1 d2 d3 in H1, H2, H3, H4.
  assert (Hne : forall i, has (s_apis to d) i -> i <> n) by (intros i Hi ->; done).
  split; [by rewrite G1, F1, E1|]. rewrite G2, F2, G3. unfold g, h. repeat split; try done.
  - rewrite E2. eapply trees_cloned; [exact Hfq|by eapply params_of_new].
  - rewrite F3, E3. eapply trees_cloned; [exact Hfs|by eapply params_of_new].
  - intros i Hi. rewrite G2, F2. unfold g. rewrite (trees_other _ _ n); [by rewrite E2|apply renamed_api|auto].
  - intros i Hi. rewrite G3. unfold h. rewrite (trees_other _ _ n); [by rewrite F3, E3|apply renamed_api|auto].
  - apply H4.
  - apply H4.
  - apply H4.
  - apply H4.
Qed.

(** ** All rounds *)

(** The rows the rounds append, numbered from [n]. *)
Fixpoint copies (now parent n : Z) (l : list ApiRow) : list ApiRow :=
  match l with
  | [] => []
  | a :: l' => copy_row now parent a n :: copies now parent (n + 1) l'
  end.

Lemma copies_app now parent l k : forall n,
  copies now parent n (l ++ k) = copies now parent n l ++ copies now parent (n + Z.of_nat (List.length l)) k.
Proof.
  induction l as [|a l IH]; intros n; [cbn; by rewrite Z.add_0_r|]. cbn [app copies List.length]. rewrite IH. f_equal.
  f_equal. f_equal. lia.
Qed.

Lemma copies_lookup now parent l : forall n (j : nat),
  copies now parent n l !! j = (fun a => copy_row now parent a (n + Z.of_nat j)) <$> (l !! j).
Proof.
  induction l as [|a l IH]; intros n j; [done|]. destruct j as [|j]; cbn; [by rewrite Z.add_0_r|].
  rewrite IH. destruct (l !! j); cbn; [|done]. do 2 f_equal. lia.
Qed.

Lemma copies_map {K} (f : ApiRow -> K) now parent l n :
  (forall a i, f (copy_row now parent a i) = f a) -> map f (copies now parent n l) = map f l.
Proof. intros Hf. revert n. induction l as [|a l IH]; intros n; [done|]. cbn [copies map]. by rewrite Hf, IH. Qed.

(** The copies of [l], with the trees of each. *)
Record all_copied (from to : Side) (now parent : Z) (l : list ApiRow) (d d' : Db) : Prop := mkAllCopied {
  new_rows : s_apis to d' =
    mkTable (rows (s_apis to d) ++ copies now parent (next_id (s_apis to d)) l) (next_id (s_apis to d) + Z.of_nat (List.length l));
  new_req : forall (j : nat) a, l !! j = Some a ->
    trees (s_req to d') (next_id (s_apis to d) + Z.of_nat j) = trees (s_req from d) (ar_id a);
  new_resp : forall (j : nat) a, l !! j = Some a ->
    trees (s_resp to d') (next_id (s_apis to d) + Z.of_nat j) = trees (s_resp from d) (ar_id a);
  old_trees : copied from to d d'
}.

Lemma copied_refl from to d : copied from to d d.
Proof. by split. Qed.

Section Rounds.
Context (I : Db -> Prop) (P : Prop) (from to : Side) (now parent : Z) (l : list ApiRow) (d : Db).
Hypothesis Hapart : apart from to.
Hypothesis Hsides : forall d', db_ok d' -> side_ok from d' /\ side_ok to d'.
Hypothesis Hround : forall a d', a ∈ l -> db_ok d' -> same_base d d' -> s_apis from d' = s_apis from d ->
  ends I P (copy_api from to now parent a) d' (fun _ => db_ok).

Lemma old_key before d' i : s_apis to d' =
    mkTable (rows (s_apis to d) ++ copies now parent (next_id (s_apis to d)) before)
      (next_id (s_apis to d) + Z.of_nat (List.length before)) ->
  has (s_apis to d) i -> has (s_apis to d') i.
Proof.
  intros E [r Hr]. exists r. rewrite E. unfold tget in *. cbn [rows]. rewrite find_app. by rewrite Hr.
Qed.

Lemma copy_round before a after d' : l = before ++ a :: after -> db_ok d' ->
  all_copied from to now parent before d d' ->
  ends I P (copy_api from to now parent a) d' (fun _ d'' => db_ok d'' /\ all_copied from to now parent (before ++ [a]) d d'').
Proof.
  intros El Hd' [Erows Hreq Hresp Hold]. destruct (Hsides d' Hd') as [Hfrom Hto].
  destruct Hold as [Oq Os (F1 & F2 & F3) Ob].
  assert (Ha : a ∈ l) by (rewrite El; apply elem_of_app; right; by left).
  eapply ends_weaken; [apply ends_and; [by apply Hround|by apply copy_api_run]|].
  intros _ d'' (Hd'' & E & Tq & Ts & [Oq' Os' (F1' & F2' & F3') Ob']). split; [done|].
  set (n := next_id (s_apis to d)) in *.
  assert (En : next_id (s_apis to d') = (n + Z.of_nat (List.length before))%Z) by by rewrite Erows.
  assert (Hhas : forall (j : nat) x, before !! j = Some x -> has (s_apis to d') (n + Z.of_nat j)).
  { intros j x Hj. exists (copy_row now parent x (n + Z.of_nat j)).
    assert (K : tget (s_apis to d') (ar_id (copy_row now parent x (n + Z.of_nat j))) =
      Some (copy_row now parent x (n + Z.of_nat j))); [|exact K]. apply tget_unique; [apply Hto|].
    rewrite Erows. cbn [rows]. apply elem_of_app. right. apply list_elem_of_lookup. exists j. by rewrite copies_lookup, Hj. }
  split.
  - rewrite E, Erows. unfold tadd. cbn [rows next_id]. rewrite copies_app, <-app_assoc, List.length_app. cbn [copies List.length].
    f_equal. lia.
  - intros j x [Hj|[Hge Hj]]%lookup_app_Some.
    + rewrite Oq' by by eapply Hhas. by apply Hreq.
    + apply list_lookup_singleton_Some in Hj as [Hj <-]. fold n. replace (n + Z.of_nat j)%Z with (next_id (s_apis to d')).
      * by rewrite Tq, F2.
      * rewrite En. lia.
  - intros j x [Hj|[Hge Hj]]%lookup_app_Some.
    + rewrite Os' by by eapply Hhas. by apply Hresp.
    + apply list_lookup_singleton_Some in Hj as [Hj <-]. fold n. replace (n + Z.of_nat j)%Z with (next_id (s_apis to d')).
      * by rewrite Ts, F3.
      * rewrite En. lia.
  - split.
    + intros i Hi. rewrite Oq' by by eapply old_key. by apply Oq.
    + intros i Hi. rewrite Os' by by eapply old_key. by apply Os.
    + split_and!; congruence.
    + by etrans.
Qed.

Lemma copy_rounds : db_ok d ->
  ends I P (each (copy_api from to now parent) l) d (fun _ d' => db_ok d' /\ all_copied from to now parent l d d').
Proof.
  intros Hd. apply ends_each_prefix with (R := fun before d' => db_ok d' /\ all_copied from to now parent before d d').
  - split; [done|]. split; [cbn; rewrite app_nil_r, Z.add_0_r; by destruct (s_apis to d)|done|done|by split].
  - intros before a after d' El [Hd' Hc]. by eapply copy_round.
  - done.
Qed.
End Rounds.

(** The two loops. *)
Lemma start_rounds I P now iteration it l d : db_ok d -> tget (iterations d) iteration = Some it ->
  (forall a, a ∈ l -> a ∈ rows (db_apis d) /\ ar_parent a = ir_service it) ->
  ends I P (each (draft_of_api now iteration) l) d (fun _ d' =>
    db_ok d' /\ all_copied released_side drafted_side now iteration l d d').
Proof.
  intros Hd Hit Hl. apply (copy_rounds I P released_side drafted_side now iteration l d drafted_apart); [| |done].
  - intros d' Hd'. split; [by apply released_ok|by apply drafted_ok].
  - intros a d' Ha Hd' Hb Ea. cbn in Ea. destruct (Hl a Ha) as [Hrow Hp]. rewrite <-draft_of_api_copies.
    eapply ends_weaken; [apply draft_of_api_ok; [done| |]|by intros _ d'' (? & _)].
    + apply (ok_apis d' Hd'). by rewrite Ea.
    + exists it. rewrite (same_iterations _ _ Hb). by rewrite Hp.
Qed.

Lemma commit_rounds I P now service l d : db_ok d -> has (services d) service ->
  (forall a, a ∈ l -> exists it, a ∈ rows (drafts d) /\ tget (iterations d) (ar_parent a) = Some it /\ ir_service it = service) ->
  ends I P (each (api_of_draft now service) l) d (fun _ d' =>
    db_ok d' /\ all_copied drafted_side released_side now service l d d').
Proof.
  intros Hd Hs Hl. apply (copy_rounds I P drafted_side released_side now service l d released_apart); [| |done].
  - intros d' Hd'. split; [by apply drafted_ok|by apply released_ok].
  - intros a d' Ha Hd' Hb Ea. cbn in Ea. destruct (Hl a Ha) as (it & Hrow & Hit & Es). rewrite <-api_of_draft_copies.
    pose proof (ok_drafts d' Hd') as [_ Hrows]. destruct (Hrows a) as (Ho & it' & Hit' & Hc); [by rewrite Ea|].
    rewrite (same_iterations _ _ Hb), Hit in Hit'. simplify_eq.
    eapply ends_weaken; [apply api_of_draft_ok; [done..| |done]|by intros _ d'' (? & _)].
    by rewrite (same_services _ _ Hb).
Qed.
