(* ===== verification/BackendRoutes.v ===== *)
(** * The back end: routes

    [BE-CAM/subRouters/v1/*.py] and [authentication.py]: an HTTP request is let in
    by its token, decoded to the operation of a handler, run in a session, and
    answered.  [Operation] has a constructor per route, named like the route's
    function.  [backend_server] is the server the front-end model is given: it
    answers from the database that the requests sent so far have left. *)

From S2P Require Import Prelude Tables JsObject ApiTypes FeTypes Database ParamStore Openapi Backend BackendUser.
From S2P Require Import BackendService BackendApi FeHttp.
From Stdlib Require Import Ascii String ZArith.

(** ** Operations *)

Inductive Operation :=
| login (username password : string)
| register (username password nickname email role : string)
| getUserById (id : Z)
| getMyInfo
| getUserByUsernameOrNicknameOrEmail (username_or_nickname_or_email : string)
| modifyPassword (old_password new_password : string)
| getServiceById (id : Z)
| getAllServices (page_size current_page : Z)
| getHisNewestServicesByOwnerId (owner_id : option Z) (page_size current_page : Z)
| getHisMaintainedServicesByUserId (user_id : option Z) (page_size current_page : Z)
| getServiceByUuidAndVersion (service_uuid version : string)
| getAllVersionsByUuid (service_uuid : string)
| createNewService (service_uuid description : string)
| getAllDeletedServicesByUserId (page_size current_page : Z)
| isServiceMaintainer (service_id candidate_id : Z)
| addOrRemoveServiceMaintainerById (service_id candidate_id : Z)
| deleteServiceById (id : Z)
| restoreServiceById (id : Z)
| deleteIterationById (service_iteration_id : Z)
| getIterationById (id : Z)
| startIteration (service_id : Z)
| commitIteration (service_iteration_id : Z) (new_version : string)
| updateDescription (service_iteration_id : Z) (description : string)
| exportOpenapiByUuidAndVersion (service_uuid version : string)
| getAllCategoriesByServiceId (service_id : Z)
| getAllApisByServiceId (service_id category_id : Z)
| getApiById (api_id : Z) (is_latest : bool)
| addCategoryByServiceId (service_id : Z) (category_name : string) (description : option string)
| deleteCategoryById (category_id : Z)
| updateCategoryById (category_id : Z) (category_name description : option string)
| updateApiCategoryById (api_id category_id : Z)
| addApi (service_iteration_id : Z) (name method path description level : string) (category_id : option Z)
| copyApiByApiDraftId (service_iteration_id api_draft_id : Z)
| deleteApiByApiDraftId (service_iteration_id api_draft_id : Z)
| updateApiByApiDraftId (service_iteration_id api_draft_id : Z) (name method path description level : string)
    (req_params resp_params : list ParamInput).

(** What a request finds besides the database: the clock in microseconds, and the
    salt of the next hash. *)
Record Moment := mkMoment { now : Z; salt : string }.

Section Routes.
Context `{!Isoformat, !Libraries}.

(** The handler a route calls, for the user of the token. *)
Definition handle (m : Moment) (me : Z) (op : Operation) : TX Reply :=
  match op with
  | login u p => userLogin (now m) u p
  | register u p n e r => userRegister (now m) (salt m) u p n e r
  | getUserById i => userGetUserById i
  | getMyInfo => userGetUserById me
  | getUserByUsernameOrNicknameOrEmail q => userGetUserByUsernameOrNicknameOrEmail q
  | modifyPassword o n => userModifyPassword (salt m) me o n
  | getServiceById i => serviceGetServiceById i me
  | getAllServices s c => serviceGetAllServices me s c
  | getHisNewestServicesByOwnerId o s c => serviceGetHisNewestServicesByOwnerId (default me o) me s c
  | getHisMaintainedServicesByUserId u s c => serviceGetHisMaintainedServicesByUserId (default me u) me s c
  | getServiceByUuidAndVersion u v => serviceGetServiceByUuidAndVersion u v me
  | getAllVersionsByUuid u => serviceGetAllVersionsByUuid u me
  | createNewService u t => serviceCreateNewService (now m) u me t
  | getAllDeletedServicesByUserId s c => serviceGetAllDeletedServicesByUserId me s c
  | isServiceMaintainer s c => serviceIsMaintainer s me c
  | addOrRemoveServiceMaintainerById s c => serviceAddOrRemoveServiceMaintainerById s me c
  | deleteServiceById i => serviceDeleteServiceById (now m) i me
  | restoreServiceById i => serviceRestoreServiceById i me
  | deleteIterationById i => serviceDeleteIterationById i me
  | getIterationById i => serviceGetServiceIterationById i me
  | startIteration s => serviceStartIteration (now m) s me
  | commitIteration i v => serviceCommitIteration (now m) i v me
  | updateDescription i t => serviceUpdateDescription i t me
  | exportOpenapiByUuidAndVersion u v => serviceExportOpenapiByUuidAndVersion u v me
  | getAllCategoriesByServiceId s => apiGetAllCategoriesByServiceId s me
  | getAllApisByServiceId s c => apiGetAllApisByServiceId s me
  | getApiById i l => apiGetApiById i me l
  | addCategoryByServiceId s n t => apiAddCategoryByServiceId s me n t
  | deleteCategoryById c => apiDeleteCategoryById (now m) c me
  | updateCategoryById c n t => apiUpdateCategoryById c me n t
  | updateApiCategoryById a c => apiUpdateApiCategory (now m) a c me
  | addApi i n me' p t l c => apiAddApi (now m) i me n me' p t l c
  | copyApiByApiDraftId i a => apiCopyApiByApiDraftId (now m) i a me
  | deleteApiByApiDraftId i a => apiDeleteApiByApiDraftId i a me
  | updateApiByApiDraftId i a n me' p t l rq rs => apiUpdateApiByApiDraftId (now m) i a me n me' p t l rq rs
  end.

(** ** Decoding *)

(** A request is refused with a status, or answered with 500 when decoding it
    raises; else it is an operation. *)
Notation Decoded A := (Z + A)%type.
Definition decoded {A B} (r : Decoded A) (k : A -> Decoded B) : Decoded B := match r with inl s => inl s | inr a => k a end.
Notation "'let?' x := r 'in' k" := (decoded r (fun x => k)) (at level 200, x name, r at level 100, k at level 200).
Definition required_by {A} (status : Z) (o : option A) : Decoded A := match o with Some a => inr a | None => inl status end.

(** [request.query_params.get(k)]: a parameter as its text arrived. *)
Definition query_text_of (j : json) : option string :=
  match j with
  | JNum z => Some (show_int z)
  | JBool b => Some (if b then "true" else "false")
  | JStr s => Some (query_text s)
  | _ => None
  end.
Definition query_get (r : HttpRequest) (k : string) : option string := obj_get (data r) k ≫= query_text_of.

(** [if not text: return Response(status_code=400)]. *)
Definition query_required (r : HttpRequest) (k : string) : Decoded string :=
  match query_get r k with
  | Some s => if String.eqb s "" then inl 400%Z else inr s
  | None => inl 400%Z
  end.

Definition text_int (s : string) : Decoded Z := required_by 500 (py_int s).
Definition query_int (r : HttpRequest) (k : string) : Decoded Z := let? s := query_required r k in text_int s.

(** [int(text) if text else default]. *)
Definition query_page (r : HttpRequest) (k : string) (dflt : Z) : Decoded Z :=
  match query_get r k with
  | Some s => if String.eqb s "" then inr dflt else text_int s
  | None => inr dflt
  end.

(** [json.loads(text.lower())] as a condition; only literals and integers are
    covered. *)
Definition text_true (s : string) : Decoded bool :=
  let t := to_lower s in
  if String.eqb t "true" then inr true
  else if String.eqb t "false" || String.eqb t "null" then inr false
  else let? z := text_int t in inr (negb (z =? 0)%Z).

(** [data[k]], as a number, as a text, and as a text or null. *)
Definition body_int (r : HttpRequest) (k : string) : Decoded Z :=
  match obj_get (data r) k with
  | Some (JNum z) => inr z
  | Some (JStr s) => text_int s
  | _ => inl 500%Z
  end.
Definition body_str (r : HttpRequest) (k : string) : Decoded string :=
  match obj_get (data r) k with Some (JStr s) => inr s | _ => inl 500%Z end.
Definition body_nullable (r : HttpRequest) (k : string) : Decoded (option string) :=
  match obj_get (data r) k with Some (JStr s) => inr (Some s) | Some JNull => inr None | _ => inl 500%Z end.

(** [int(data.get(k)) if data.get(k) else None]. *)
Definition body_optional_int (r : HttpRequest) (k : string) : Decoded (option Z) :=
  match obj_get (data r) k with
  | None | Some JNull => inr None
  | Some (JNum z) => inr (if (z =? 0)%Z then None else Some z)
  | Some (JStr s) => if String.eqb s "" then inr None else let? z := text_int s in inr (Some z)
  | Some _ => inl 500%Z
  end.

(** *** Parameters *)

Definition member_str (o : obj json) (k : string) : option (option string) :=
  match obj_get o k with
  | Some (JStr s) => Some (Some s)
  | Some JNull | None => Some None
  | _ => None
  end.

(** The place a parameter of a kind asks for. *)
Definition member_place (k : param_class) (o : obj json) : option InputPlace :=
  match k with
  | RequestParamDraft =>
      match obj_get o "location" with
      | Some (JStr l) => Some (AtLocation l)
      | None => Some (AtLocation "body")
      | _ => None
      end
  | ResponseParamDraft =>
      match obj_get o "status_code" with
      | Some (JNum c) => Some (AtStatus (Some c))
      | Some JNull => Some (AtStatus None)
      | None => Some (AtStatus (Some 200%Z))
      | _ => None
      end
  end.

Fixpoint all_some {A} (l : list (option A)) : option (list A) :=
  match l with
  | [] => Some []
  | o :: l' => a ← o; r ← all_some l'; Some (a :: r)
  end.

(** The members [_process_params_recursively] reads of a dict; members of other
    types than the clients send are not covered. *)
Fixpoint input_of_json (k : param_class) (j : json) : option ParamInput :=
  match j with
  | JObj o =>
      name ← match obj_get o "name" with Some (JStr s) => Some s | _ => None end;
      type ← match obj_get o "type" with Some (JStr s) => Some s | _ => None end;
      place ← member_place k o;
      required ← match obj_get o "required" with Some (JBool b) => Some b | None => Some false | _ => None end;
      dflt ← member_str o "default_value";
      descr ← member_str o "description";
      example ← member_str o "example";
      child ← member_str o "array_child_type";
      children ← (fix find (m : obj json) : option (option (list ParamInput)) :=
        match m with
        | [] => Some None
        | (n, v) :: m' =>
            if String.eqb "children" n then
              match v with
              | JArr l => Some <$> all_some (map (input_of_json k) l)
              | JNull => Some None
              | _ => None
              end
            else find m'
        end) o;
      Some (mkParamInput name type place required dflt descr example child children)
  | _ => None
  end.

(** [json.loads(data[k])]. *)
Definition body_params (r : HttpRequest) (key : string) (k : param_class) : Decoded (list ParamInput) :=
  match obj_get (data r) key with
  | Some (Stringified (JArr l)) => required_by 500 (all_some (map (input_of_json k) l))
  | _ => inl 500%Z
  end.

(** ** Routes *)

Definition route_user (r : HttpRequest) (name : string) : option (Decoded Operation) :=
  match verb r with
  | HttpGet =>
      if String.eqb name "getUserById" then Some (let? i := query_int r "id" in inr (getUserById i))
      else if String.eqb name "getMyInfo" then Some (inr getMyInfo)
      else if String.eqb name "getUserByUsernameOrNicknameOrEmail" then
        Some (let? q := query_required r "username_or_nickname_or_email" in inr (getUserByUsernameOrNicknameOrEmail q))
      else None
  | HttpPost =>
      if String.eqb name "login" then
        Some (let? u := body_str r "username" in let? p := body_str r "password" in inr (login u p))
      else if String.eqb name "register" then
        Some (let? u := body_str r "username" in let? p := body_str r "password" in let? n := body_str r "nickname" in
              let? e := body_str r "email" in let? o := body_str r "role" in inr (register u p n e o))
      else if String.eqb name "modifyPassword" then
        Some (let? o := body_str r "old_password" in let? n := body_str r "new_password" in inr (modifyPassword o n))
      else None
  end.

(** [page_size] and [current_page], 10 and 1 when missing or empty. *)
Definition paged {A} (r : HttpRequest) (f : Z -> Z -> A) : Decoded A :=
  let? s := query_page r "page_size" 10 in let? c := query_page r "current_page" 1 in inr (f s c).

Definition route_service (r : HttpRequest) (name : string) : option (Decoded Operation) :=
  match verb r with
  | HttpGet =>
      if String.eqb name "getServiceById" then Some (let? i := query_int r "id" in inr (getServiceById i))
      else if String.eqb name "getAllServices" then Some (paged r getAllServices)
      else if String.eqb name "getHisNewestServicesByOwnerId" then
        Some (let? mine := text_true (default "true" (query_get r "is_my_services")) in
              if mine : bool then paged r (getHisNewestServicesByOwnerId None)
              else let? o := query_int r "owner_id" in paged r (getHisNewestServicesByOwnerId (Some o)))
      else if String.eqb name "getHisMaintainedServicesByUserId" then
        Some (match query_get r "user_id" with
              | None => paged r (getHisMaintainedServicesByUserId None)
              | Some s => let? u := text_int s in paged r (getHisMaintainedServicesByUserId (Some u))
              end)
      else if String.eqb name "getServiceByUuidAndVersion" then
        Some (let? u := query_required r "service_uuid" in let? v := query_required r "version" in
              inr (getServiceByUuidAndVersion u v))
      else if String.eqb name "getAllVersionsByUuid" then
        Some (let? u := query_required r "service_uuid" in inr (getAllVersionsByUuid u))
      else if String.eqb name "getAllDeletedServicesByUserId" then Some (paged r getAllDeletedServicesByUserId)
      else if String.eqb name "isServiceMaintainer" then
        Some (let? s := query_required r "service_id" in let? c := query_required r "candidate_id" in
              let? s := text_int s in let? c := text_int c in inr (isServiceMaintainer s c))
      else if String.eqb name "getIterationById" then Some (let? i := query_int r "id" in inr (getIterationById i))
      else if String.eqb name "exportOpenapiByUuidAndVersion" then
        Some (let? u := query_required r "service_uuid" in let? v := query_required r "version" in
              inr (exportOpenapiByUuidAndVersion u v))
      else None
  | HttpPost =>
      if String.eqb name "createNewService" then
        Some (let? u := body_str r "service_uuid" in let? t := body_str r "description" in inr (createNewService u t))
      else if String.eqb name "addOrRemoveServiceMaintainerById" then
        Some (let? s := body_int r "service_id" in let? c := body_int r "candidate_id" in
              inr (addOrRemoveServiceMaintainerById s c))
      else if String.eqb name "deleteServiceById" then Some (let? i := body_int r "id" in inr (deleteServiceById i))
      else if String.eqb name "restoreServiceById" then Some (let? i := body_int r "id" in inr (restoreServiceById i))
      else if String.eqb name "deleteIterationById" then
        Some (let? i := body_int r "service_iteration_id" in inr (deleteIterationById i))
      else if String.eqb name "startIteration" then Some (let? s := body_int r "service_id" in inr (startIteration s))
      else if String.eqb name "commitIteration" then
        Some (let? i := body_int r "service_iteration_id" in let? v := body_str r "new_version" in inr (commitIteration i v))
      else if String.eqb name "updateDescription" then
        Some (let? i := body_int r "service_iteration_id" in let? t := body_str r "description" in inr (updateDescription i t))
      else None
  end.

Definition route_api (r : HttpRequest) (name : string) : option (Decoded Operation) :=
  match verb r with
  | HttpGet =>
      if String.eqb name "getAllCategoriesByServiceId" then
        Some (let? s := query_int r "service_id" in inr (getAllCategoriesByServiceId s))
      else if String.eqb name "getAllApisByServiceId" then
        Some (let? s := query_required r "service_id" in let? c := query_required r "category_id" in
              let? s := text_int s in let? c := text_int c in inr (getAllApisByServiceId s c))
      else if String.eqb name "getApiById" then
        Some (let? i := query_int r "api_id" in
              inr (getApiById i (String.eqb (to_lower (default "true" (query_get r "is_latest"))) "true")))
      else None
  | HttpPost =>
      if String.eqb name "addCategoryByServiceId" then
        Some (let? s := body_int r "service_id" in let? n := body_str r "category_name" in
              let? t := body_nullable r "description" in inr (addCategoryByServiceId s n t))
      else if String.eqb name "deleteCategoryById" then
        Some (let? c := body_int r "category_id" in inr (deleteCategoryById c))
      else if String.eqb name "updateCategoryById" then
        Some (let? c := body_int r "category_id" in let? n := body_nullable r "category_name" in
              let? t := body_nullable r "description" in inr (updateCategoryById c n t))
      else if String.eqb name "updateApiCategoryById" then
        Some (let? a := body_int r "api_id" in let? c := body_int r "category_id" in inr (updateApiCategoryById a c))
      else if String.eqb name "addApi" then
        Some (let? i := body_int r "service_iteration_id" in let? n := body_str r "name" in let? m := body_str r "method" in
              let? p := body_str r "path" in let? t := body_str r "description" in let? l := body_str r "level" in
              let? c := body_optional_int r "category_id" in inr (addApi i n m p t l c))
      else if String.eqb name "copyApiByApiDraftId" then
        Some (let? i := body_int r "service_iteration_id" in let? a := body_int r "api_draft_id" in
              inr (copyApiByApiDraftId i a))
      else if String.eqb name "deleteApiByApiDraftId" then
        Some (let? i := body_int r "service_iteration_id" in let? a := body_int r "api_draft_id" in
              inr (deleteApiByApiDraftId i a))
      else if String.eqb name "updateApiByApiDraftId" then
        Some (let? i := body_int r "service_iteration_id" in let? a := body_int r "api_draft_id" in
              let? n := body_str r "name" in let? m := body_str r "method" in let? p := body_str r "path" in
              let? t := body_str r "description" in let? l := body_str r "level" in
              let? rq := body_params r "req_params" RequestParamDraft in
              let? rs := body_params r "resp_params" ResponseParamDraft in
              inr (updateApiByApiDraftId i a n m p t l rq rs))
      else None
  end.

(** The routers by their prefix. *)
Definition route (r : HttpRequest) : option (Decoded Operation) :=
  match split_on "/" (url r) with
  | [""; "v1"; "user"; name] => route_user r name
  | [""; "v1"; "service"; name] => route_service r name
  | [""; "v1"; "api"; name] => route_api r name
  | _ => None
  end.

(** ** Authentication *)

(** Every route but the two that make a token. *)
Definition auth_required (url : string) : bool :=
  negb (String.eqb url "/v1/user/login" || String.eqb url "/v1/user/register").

(** [API_PERMISSION_MAP]: routes for users of level L0. *)
Definition L0_routes : list string := ["/v1/user/getUserById"].

(** [AuthHandler.authenticate]: the user, or the status of the refusal. *)
Definition authenticate (time : Z) (d : Db) (token : option string) (url : string) : Decoded Z :=
  match jwt_decode time (default "" token) with
  | None => inl 401%Z
  | Some id =>
      match tget (users d) id with
      | None => inl 500%Z
      | Some u => if bool_decide (url ∈ L0_routes) && (0 <? ur_level u)%Z then inl 401%Z else inr id
      end
  end.

(** ** A request, from the wire to the wire *)

Inductive Answered := Json (r : Reply) | HttpStatus (code : Z).

Definition serve (m : Moment) (d : Db) (token : option string) (r : HttpRequest) : Answered * (Db * list Mail) :=
  match route r with
  | None => (HttpStatus 404, (d, []))
  | Some op =>
      match (if auth_required (url r) then authenticate (now m) d token (url r) else inr 0%Z) with
      | inl status => (HttpStatus status, (d, []))
      | inr me =>
          match op with
          | inl status => (HttpStatus status, (d, []))
          | inr op =>
              let '(o, rest) := in_session (handle m me op) d in
              (match o with Ret reply => Json reply | _ => HttpStatus 500 end, rest)
          end
      end
  end.

(** ** What the clients receive *)

(** A reply as the response of an endpoint; a missing [status] is none of the
    statuses the clients test for. *)
Definition typed {P} (f : Payload -> P) (r : Reply) : Response P :=
  mkResponse (default 0%Z (reply_status r)) (default "" (reply_message r)) (f (reply_payload r)).

Definition the_list (p : Payload) : ServiceListResponse :=
  match p with PServices l n => mkServiceListResponse (Some l) (Some n) | _ => mkServiceListResponse None None end.
Definition nothing (p : Payload) : unit := tt.

(** [JSON.parse] of the body, by endpoint; the pages do not tell a version that is
    null from one that is empty. *)
Definition body_of {T} (dump : Document -> string) (e : Endpoint T) : Reply -> T :=
  match e in Endpoint T return Reply -> T with
  | UserLogin _ => typed (fun p => match p with PToken t => t | _ => "" end)
  | UserRegister _ | UserModifyPassword _ | CreateNewService _ _ | DeleteServiceById _ | RestoreServiceById _
  | DeleteIterationById _ | CommitIteration _ _ | UpdateDescription _ _ | DeleteCategoryById _ | UpdateApiCategoryById _ _
  | AddApi _ | CopyApiByApiDraftId _ _ | DeleteApiByApiDraftId _ _ | UpdateApiByApiDraftId _ _ => typed nothing
  | GetUserById _ | GetMyInfo => typed (fun p => match p with PUser u => Some u | _ => None end)
  | GetUserByUsernameOrNicknameOrEmail _ => typed (fun p => match p with PUsers l => Some l | _ => None end)
  | GetMyNewestServices _ _ | GetMyMaintainedServices _ _ | GetAllServices _ _ | GetHisNewestServicesByOwnerId _ _ _
  | GetAllDeletedServicesByUserId _ _ => typed the_list
  | GetServiceById _ => typed (fun p => match p with PService s => Some s | _ => None end)
  | GetServiceByUuidAndVersion _ _ => typed (fun p =>
      match p with PAnyService s l => mkGetServiceResponse (Some s) l | _ => mkGetServiceResponse None false end)
  | GetAllVersionsByUuid _ => typed (fun p =>
      match p with PVersions l => Some (map (fun v => mkServiceVersion (default "" v.1) v.2) l) | _ => None end)
  | GetIterationById _ => typed (fun p => match p with PIteration i => Some i | _ => None end)
  | StartIteration _ => typed (fun p => match p with PIterationId i => i | _ => 0%Z end)
  | IsServiceMaintainer _ _ | AddOrRemoveServiceMaintainerById _ _ =>
      typed (fun p => match p with PMaintainer b => b | _ => false end)
  | ExportOpenapiByUuidAndVersion _ _ => typed (fun p => match p with POpenapi doc _ => dump doc | _ => "" end)
  | GetAllCategoriesByServiceId _ => typed (fun p => match p with PCategories l => Some l | _ => None end)
  | GetAllApisByServiceId _ _ => typed (fun p => match p with PApis l => Some l | _ => None end)
  | GetApiById _ _ => typed (fun p => match p with PApi a => Some a | _ => None end)
  | AddCategoryByServiceId _ _ _ | UpdateCategoryById _ _ _ => typed (fun p =>
      match p with PCategory c => c | _ => mkApiCategory 0 "" None end)
  end.

(** axios rejects a response whose status is not 2xx. *)
Definition received {T} (dump : Document -> string) (e : Endpoint T) (a : Answered) : net T :=
  match a with
  | Json r => NetOk (body_of dump e r)
  | HttpStatus c => NetErr false (Some c) ("Request failed with status code " +:+ show_int c)
  end.

(** The database after the requests of a history, the [n]th of them at the [n]th
    moment. *)
Fixpoint replay (moments : nat -> Moment) (n : nat) (d : Db) (history : list sent_request) : Db :=
  match history with
  | [] => d
  | (token, r) :: h => replay moments (S n) (serve (moments n) d token r).2.1 h
  end.

Definition backend_server (dump : Document -> string) (moments : nat -> Moment) (d : Db) : Server := fun T history token e =>
  received dump e (serve (moments (List.length history)) (replay moments 0 d history) token (encode e)).1.
End Routes.
