(* ===== verification/BackendSafety.v ===== *)
(** * What every request keeps

    No sequence of requests, whoever sends them, breaks the database
    ([Integrity]): the requests are decoded, let in and run as [BackendRoutes]
    says, and each runs in a session of its own. *)

From S2P Require Import Prelude Tables JsNumber JsObject ApiTypes FeTypes Database ParamStore Openapi Backend.
From S2P Require Import Transaction BackendUser BackendService BackendApi Integrity FeHttp BackendRoutes.
From Stdlib Require Import Ascii String ZArith Lia.

(** Libraries to evaluate the model with: a token is the id it stands for, a hash
    shows its password. *)
Definition sample_libraries : Libraries := {|
  hashpw salt password := "#" +:+ password;
  checkpw password hash := String.eqb hash ("#" +:+ password);
  jwt_encode id _ _ := show_int id;
  jwt_decode _ token := if String.eqb token "" then None else to_number token;
  ilike text pattern := includes text (String.substring 1 (String.length pattern - 2) pattern);
  collation := String.compare;
  query_text s := s
|}.
Definition sample_isoformat : Isoformat := show_int.

Definition sample_moment : Moment := mkMoment 0 "".
Definition sample_request {T} (token : option string) (e : Endpoint T) : sent_request := (token, encode e).

(** Two users, a service with a category and an API in its open iteration. *)
Definition sample_history : list sent_request :=
  [ sample_request None (UserRegister (mkRegisterRequest "ada" "pw" "Ada" "ada@x.org" "backend"));
    sample_request None (UserRegister (mkRegisterRequest "bob" "pw" "Bob" "bob@x.org" "qa"));
    sample_request (Some "1") (CreateNewService "team/shop" "A shop");
    sample_request (Some "1") (AddCategoryByServiceId (Some 1%Z) "orders" (Some ""));
    sample_request (Some "1") (StartIteration (Some 1%Z));
    sample_request (Some "1") (AddApi (mkAddApiRequest 1 "list" GET "/orders" "" P2 (Some 1%Z))) ].

Definition sample_replay (h : list sent_request) : Db :=
  @replay sample_isoformat sample_libraries (fun _ => sample_moment) 0 empty_db h.

Section Safety.
Context `{!Isoformat, !Libraries}.

(** A route without authentication makes or checks a password, whoever asks. *)
Definition open_operation (op : Operation) : bool :=
  match op with login _ _ | register _ _ _ _ _ => true | _ => false end.

Lemma open_routes r op : auth_required (url r) = false -> route r = Some (inr op) -> open_operation op = true.
Proof.
  unfold auth_required, route. rewrite negb_false_iff, orb_true_iff, !String.eqb_eq.
  intros [E|E]; rewrite E; cbn [split_on]; unfold route_user; destruct (verb r); try done.
  all: cbn; unfold body_str; repeat (case_match; try done); cbn [decoded]; by intros [= <-].
Qed.

Lemma handle_ok m me op d : db_ok d -> (open_operation op = true \/ has (users d) me) ->
  ends committed_ok True (handle m me op) d (fun _ _ => True).
Proof.
  intros Hd Hme. assert (Hhas : open_operation op = false -> has (users d) me).
  { intros E. destruct Hme as [E'|]; [by rewrite E' in E|done]. }
  destruct op; cbn [handle open_operation] in *.
  all: auto using register_ok, modify_password_ok, create_service_ok, maintainer_ok, delete_service_ok, restore_service_ok,
    delete_iteration_request_ok, description_ok, start_iteration_ok, commit_iteration_ok, add_category_request_ok,
    delete_category_request_ok, update_category_request_ok, update_api_category_ok, add_api_request_ok, copy_api_ok,
    delete_api_ok, update_draft_request_ok.
  all: clear; unfold userLogin, userGetUserById, userGetUserByUsernameOrNicknameOrEmail, serviceGetServiceById,
    serviceGetAllServices, serviceGetHisNewestServicesByOwnerId, serviceGetHisMaintainedServicesByUserId,
    serviceGetServiceByUuidAndVersion, serviceGetAllVersionsByUuid, serviceGetAllDeletedServicesByUserId, serviceIsMaintainer,
    serviceGetServiceIterationById, serviceExportOpenapiByUuidAndVersion, apiGetAllCategoriesByServiceId,
    apiGetAllApisByServiceId, apiGetApiById, sees_api, sees_draft, version_seen_by; by tx any.
Qed.

Lemma authenticate_has time d token u me : authenticate time d token u = inr me -> has (users d) me.
Proof.
  unfold authenticate. destruct (jwt_decode _ _) as [i|]; [|done]. destruct (tget (users d) i) as [r|] eqn:E; [|done].
  case_match; [done|]. intros [= <-]. by exists r.
Qed.

Lemma serve_ok m d token r : committed_ok d -> committed_ok (serve m d token r).2.1.
Proof.
  intros Hd. unfold serve. destruct (route r) as [[status|op]|] eqn:Er; [by case_match| |done].
  destruct (if auth_required (url r) then _ else _) as [status|me] eqn:Ea; [done|].
  destruct (in_session (handle m me op) d) as [o rest] eqn:Es. cbn [snd].
  replace rest with (in_session (handle m me op) d).2 by by rewrite Es.
  apply ends_in_session with True (fun _ _ => True); [done|]. apply handle_ok; [apply Hd|].
  destruct (auth_required (url r)) eqn:E; [right; by eapply authenticate_has|left; by eapply open_routes].
Qed.

Lemma replay_ok moments h : forall n d, committed_ok d -> committed_ok (replay moments n d h).
Proof. induction h as [|[token r] h IH]; intros n d Hd; [done|]. cbn [replay]. by apply IH, serve_ok. Qed.
End Safety.

(** ** Properties *)

(** C4. Whatever requests arrive, with whatever tokens and in whatever order, a
    sound database stays sound: keys are distinct and every foreign key refers to a
    row, owners do not maintain their own services, an API and its category belong
    to one service, the parameters of an API form trees, a user has at most one open
    iteration of a service, and the unique constraints hold. *)
Theorem database_stays_ok `{!Isoformat, !Libraries} moments d h :
  committed_ok d -> committed_ok (replay moments 0 d h) /\
  forall m token r, committed_ok (serve m (replay moments 0 d h) token r).2.1.
Proof. intros Hd. pose proof (replay_ok moments h 0 d Hd) as Hr. split; [done|]. intros m token r. by apply serve_ok. Qed.

Lemma database_stays_ok_witness : committed_ok (sample_replay sample_history) /\
  List.length (rows (drafts (sample_replay sample_history))) = 1%nat.
Proof.
  split; [|vm_compute; reflexivity].
  exact (proj1 (@database_stays_ok sample_isoformat sample_libraries (fun _ => sample_moment) empty_db sample_history empty_db_ok)).
Defined.
