(* ===== verification/Failures.v ===== *)
(** * When a request fails

    [may_fail] lists the requests that can end in an exception, and so in status
    500.  No other one does on a sound database: keys and parents are found where
    the handlers dereference them, the copies of an iteration are always complete,
    and what the handlers check before they write is what the unique constraints
    ask for. *)

From S2P Require Import Prelude Tables JsNumber JsObject ApiTypes FeTypes Database ParamStore Openapi Backend.
From S2P Require Import Transaction BackendUser BackendService BackendApi Integrity Copies FeHttp BackendRoutes.
From S2P Require Import BackendSafety.
From Stdlib Require Import Ascii String ZArith Lia.

(** ** The unique constraints *)

(** What is unique among the APIs of a service and the drafts of an iteration. *)
Definition api_key (a : ApiRow) : Z * HttpMethod * string := (ar_parent a, ar_method a, ar_name a).

Record unique (d : Db) : Prop := mkUnique {
  unique_usernames : NoDup (map ur_username (rows (users d)));
  unique_emails : NoDup (map ur_email (rows (users d)));
  unique_uuids : NoDup (map sr_uuid (rows (services d)));
  unique_categories : NoDup (map (fun c => (cr_service c, cr_name c)) (rows (categories d)));
  unique_apis : NoDup (map api_key (rows (db_apis d)));
  unique_drafts : NoDup (map api_key (rows (drafts d)))
}.

Lemma unique_ok_iff d : unique_ok d = true <-> unique d.
Proof.
  unfold unique_ok. rewrite !andb_true_iff, !bool_decide_eq_true. split.
  - intros [[[[[]]]]]. by split.
  - by intros [].
Qed.

Section NoDup.
Context {R K : Type} `{!HasId R} (f : R -> K).

Lemma nodup_tadd make (t : table R) : (forall r, r ∈ rows t -> f r <> f (make (next_id t))) ->
  NoDup (map f (rows t)) -> NoDup (map f (rows (tadd make t))).
Proof.
  intros Hnew Hnd. cbn [tadd rows]. rewrite map_app. apply NoDup_app. split; [done|]. split; [|apply NoDup_singleton].
  intros k (r & -> & Hr)%list_elem_of_fmap. cbn [map]. rewrite list_elem_of_singleton. by apply Hnew.
Qed.

Lemma nodup_tdelete q (t : table R) : NoDup (map f (rows t)) -> NoDup (map f (rows (tdelete q t))).
Proof.
  cbn [tdelete rows]. induction (rows t) as [|r l IH]; [done|]. cbn [map List.filter]. intros [Hr Hnd]%NoDup_cons.
  destruct (negb (q r)); [|by apply IH]. cbn [map]. apply NoDup_cons. split; [|by apply IH].
  intros (x & E & [Hx _]%list_elem_of_In%filter_In)%list_elem_of_fmap. apply Hr, list_elem_of_fmap. exists x.
  split; [done|by apply list_elem_of_In].
Qed.

Lemma map_tmap g (t : table R) : (forall r, f (g r) = f r) -> map f (rows (tmap g t)) = map f (rows t).
Proof. intros Hg. cbn [tmap rows]. rewrite map_map. apply map_ext. exact Hg. Qed.

Lemma map_tupdate i g (t : table R) : (forall r, f (g r) = f r) -> map f (rows (tupdate i g t)) = map f (rows t).
Proof. intros Hg. apply map_tmap. intros r. by destruct (_ =? i)%Z. Qed.

(** The row [i] takes a value no other row has. *)
Lemma nodup_tupdate i g (t : table R) : table_ok t ->
  (forall r x, r ∈ rows t -> x ∈ rows t -> id_of x = i -> id_of r <> i -> f r <> f (g x)) ->
  NoDup (map f (rows t)) -> NoDup (map f (rows (tupdate i g t))).
Proof.
  intros Hok Hother. pose proof (keys_distinct _ Hok) as Hids. cbn [tupdate rows]. clear Hok.
  induction (rows t) as [|r l IH]; [done|]. cbn [map] in *. intros [Hr Hnd]%NoDup_cons. apply NoDup_cons in Hids as [Hri Hids].
  apply NoDup_cons. split; [|apply IH; [|done..]; intros a b ??; apply Hother; by right].
  intros (x' & E & (x & -> & Hx)%list_elem_of_fmap)%list_elem_of_fmap.
  assert (Hxr : id_of x <> id_of r) by (intros Ei; apply Hri, list_elem_of_fmap; by exists x).
  destruct (Z.eqb_spec (id_of r) i) as [Er|Er], (Z.eqb_spec (id_of x) i) as [Ex|Ex]; [congruence| | |].
  - apply (Hother x r); [by right|by left|done|done|done].
  - apply (Hother r x); [by left|by right|done|done|done].
  - apply Hr, list_elem_of_fmap. by exists x.
Qed.
End NoDup.

Lemma api_key_copy now parent a i : api_key (copy_row now parent a i) = (parent, ar_method a, ar_name a).
Proof. done. Qed.

(** Copies of rows with one parent, under a parent that has none yet. *)
Lemma nodup_copies now parent from_parent (t from : table ApiRow) l n :
  NoDup (map api_key (rows t)) -> (forall a, a ∈ rows t -> ar_parent a <> parent) ->
  l = select from (fun a => (ar_parent a =? from_parent)%Z) -> NoDup (map api_key (rows from)) ->
  NoDup (map api_key (rows t ++ copies now parent n l)).
Proof.
  intros Ht Hnone -> Hfrom. rewrite map_app. apply NoDup_app. split; [done|]. split.
  - intros k (a & -> & Ha)%list_elem_of_fmap (c & E & Hc)%list_elem_of_fmap.
    apply list_elem_of_lookup in Hc as (j & Hj). rewrite copies_lookup in Hj.
    destruct (_ !! j) as [x|]; [|done]. cbn in Hj. injection Hj as <-. rewrite api_key_copy in E.
    apply (Hnone a Ha). by injection E.
  - set (q := fun a => _).
    assert (Hl : NoDup (map api_key (select from q))).
    { unfold select. pose proof (nodup_tdelete api_key (fun r => negb (q r)) from Hfrom) as H. cbn [tdelete rows] in H.
      erewrite List.filter_ext in H; [exact H|]. intros r. cbn. by rewrite negb_involutive. }
    assert (Hp : forall a, a ∈ select from q -> ar_parent a = from_parent).
    { intros a [_ Ha%Z.eqb_eq]%elem_of_select. done. }
    revert n. induction (select from q) as [|a l IH]; intros n; [constructor|]. cbn [copies map] in *.
    apply NoDup_cons in Hl as [Ha Hl]. apply NoDup_cons. split; [|apply IH; [done|]; intros; apply Hp; by right].
    intros (c & E & Hc)%list_elem_of_fmap. apply list_elem_of_lookup in Hc as (j & Hj). rewrite copies_lookup in Hj.
    destruct (l !! j) as [x|] eqn:Ex; [|done]. cbn in Hj. injection Hj as <-. rewrite !api_key_copy in E.
    apply Ha, list_elem_of_fmap. exists x. unfold api_key. apply list_elem_of_lookup_2 in Ex.
    rewrite (Hp a) by (by left). rewrite (Hp x) by (by right). injection E as -> ->. by split.
Qed.

(** ** The requests that can fail *)

Definition copied_name (time : Z) (a : ApiRow) : string := ar_name (copied_row time 0 0 a 0).

Definition negative_page (page_size current_page : Z) : Prop := (page_size < 0 \/ (current_page - 1) * page_size < 0)%Z.

(** Another draft of the iteration than [except] has the method and the name; no
    key is [0]. *)
Definition name_taken (d : Db) (iteration except : Z) (method : HttpMethod) (name : string) : bool :=
  existsb (fun x => negb (ar_id x =? except)%Z && bool_decide (ar_method x = method) && String.eqb (ar_name x) name)
    (drafts_of d iteration).

Definition may_fail (m : Moment) (d : Db) (op : Operation) : Prop :=
  match op with
  (* a page before the first *)
  | getAllServices s c | getHisNewestServicesByOwnerId _ s c | getHisMaintainedServicesByUserId _ s c
  | getAllDeletedServicesByUserId s c => negative_page s c
  (* [Api.is_deleted] does not exist *)
  | getAllApisByServiceId _ _ => True
  (* the drafts of the iteration would be left without one *)
  | deleteIterationById i => drafts_of d i <> []
  (* a category without a name *)
  | updateCategoryById _ name _ => name = None
  (* a method the database does not know *)
  | addApi _ _ method _ _ _ _ => enum_of method_name all_methods method = None
  (* a copy made in the same second *)
  | copyApiByApiDraftId i a =>
      exists r, tget (drafts d) a = Some r /\ name_taken d i 0 (ar_method r) (copied_name (now m) r) = true
  (* a null status code, or the name of another draft *)
  | updateApiByApiDraftId i a name method _ _ _ _ resp_params =>
      forallb (storable ResponseParamDraft "") resp_params = false \/
      name_taken d i a (default GET (enum_of method_name all_methods method)) name = true
  (* a default value that does not parse *)
  | exportOpenapiByUuidAndVersion _ _ =>
      (exists s, s ∈ rows (services d) /\ forallb params_parse (released d s) = false) \/
      (exists i, i ∈ rows (iterations d) /\ forallb params_parse (drafted d i) = false)
  | _ => False
  end.

Lemma name_free d iteration except method name x : name_taken d iteration except method name = false ->
  x ∈ rows (drafts d) -> ar_id x <> except -> api_key x <> (iteration, method, name).
Proof.
  intros Hno Hx Hne [= E1 E2 E3]. apply not_true_iff_false in Hno. apply Hno, existsb_exists. exists x. split.
  - apply list_elem_of_In, elem_of_select. split; [done|]. by apply Z.eqb_eq.
  - apply Z.eqb_neq in Hne. by rewrite Hne, E2, E3, bool_decide_eq_true_2, String.eqb_refl.
Qed.

Section Failures.
Context `{!Isoformat, !Libraries}.
Context (d : Db) (Hd : db_ok d) (Hu : unique d).

Lemma found {R} `{!HasId R} (t : table R) i : has t i -> tget t i = None -> False.
Proof. intros [r Hr]. by rewrite Hr. Qed.

Lemma service_of_iteration i it : tget (iterations d) i = Some it -> has (services d) (ir_service it).
Proof. intros Hit. apply (with_get _ _ _ _ (ok_iterations d Hd) Hit). Qed.
Lemma service_of_api i a : tget (db_apis d) i = Some a -> has (services d) (ar_parent a).
Proof. intros Ha. apply (with_get _ _ _ _ (ok_apis d Hd) Ha). Qed.
Lemma service_of_category i c : tget (categories d) i = Some c -> has (services d) (cr_service c).
Proof. intros Hc. apply (with_get _ _ _ _ (ok_categories d Hd) Hc). Qed.
Lemma iteration_of_draft i a : tget (drafts d) i = Some a -> has (iterations d) (ar_parent a).
Proof. intros Ha. destruct (with_get _ _ _ _ (ok_drafts d Hd) Ha) as (_ & it & Hit & _). by exists it. Qed.
Lemma owner_of_service i s : tget (services d) i = Some s -> has (users d) (sr_owner s).
Proof. intros Hs. apply (with_get _ _ _ _ (ok_services d Hd) Hs). Qed.
Lemma creator_of_iteration i it : tget (iterations d) i = Some it -> has (users d) (ir_creator it).
Proof. intros Hit. apply (with_get _ _ _ _ (ok_iterations d Hd) Hit). Qed.

Lemma first_get {R} `{!HasId R} (t : table R) q r : table_ok t -> first_row t q = Some r -> tget t (id_of r) = Some r.
Proof. intros Ht [Hr _]%first_row_Some. by apply tget_unique. Qed.

Context (m : Moment) (me : Z) (Hme : has (users d) me).
Local Notation ends P := (ends (fun _ => True) P).

(** Lookups that always find their row. *)
Ltac lookup :=
  match goal with
  | H : tget (users d) me = None |- _ => by destruct (found _ _ Hme H)
  | H : tget (iterations d) _ = Some ?it, H' : tget (services d) (ir_service ?it) = None |- _ =>
      by destruct (found _ _ (service_of_iteration _ _ H) H')
  | H : tget (db_apis d) _ = Some ?a, H' : tget (services d) (ar_parent ?a) = None |- _ =>
      by destruct (found _ _ (service_of_api _ _ H) H')
  | H : tget (categories d) _ = Some ?c, H' : tget (services d) (cr_service ?c) = None |- _ =>
      by destruct (found _ _ (service_of_category _ _ H) H')
  | H : tget (drafts d) _ = Some ?a, H' : tget (iterations d) (ar_parent ?a) = None |- _ =>
      by destruct (found _ _ (iteration_of_draft _ _ H) H')
  | H : tget (services d) _ = Some ?s, H' : tget (users d) (sr_owner ?s) = None |- _ =>
      by destruct (found _ _ (owner_of_service _ _ H) H')
  end.

Ltac run := repeat (cbv beta zeta; first
  [ apply ends_and_not_L0_any; [may_raise|intros ?] | tx_step | match goal with |- True /\ _ => split; [exact Logic.I|] end ]);
  unfold Datatypes.id in *; try done; try (exfalso; lookup).

Lemma readers_answer op :
  match op with
  | getUserById _ | getMyInfo | getUserByUsernameOrNicknameOrEmail _ | getServiceById _ | getAllServices _ _
  | getHisNewestServicesByOwnerId _ _ _ | getHisMaintainedServicesByUserId _ _ _ | getServiceByUuidAndVersion _ _
  | getAllVersionsByUuid _ | getAllDeletedServicesByUserId _ _ | isServiceMaintainer _ _ | getIterationById _
  | getAllCategoriesByServiceId _ | getAllApisByServiceId _ _ | getApiById _ _ =>
      ends (may_fail m d op) (handle m me op) d (fun _ _ => True)
  | _ => True
  end.
Proof.
  destruct op; try exact Logic.I; cbn [handle may_fail]; unfold userLogin, userGetUserById,
    userGetUserByUsernameOrNicknameOrEmail, serviceGetServiceById,
    serviceGetAllServices, serviceGetHisNewestServicesByOwnerId, serviceGetHisMaintainedServicesByUserId,
    serviceGetServiceByUuidAndVersion, serviceGetAllVersionsByUuid, serviceGetAllDeletedServicesByUserId, serviceIsMaintainer,
    serviceGetServiceIterationById, apiGetAllCategoriesByServiceId,
    apiGetAllApisByServiceId, apiGetApiById, sees_api, sees_draft, version_seen_by; run.
Qed.

(** ** Writers *)

Lemma unique_holds d' : unique d' -> unique_ok d' = false -> False.
Proof. intros U E. apply unique_ok_iff in U. congruence. Qed.

Ltac constraints_hold := match goal with
  | H : unique_ok _ = false |- _ => exfalso; refine (unique_holds _ _ H); clear H; split; db_simpl; try apply Hu end.

Lemma login_answers u p : ends False (handle m me (login u p)) d (fun _ _ => True).
Proof. cbn [handle]. unfold userLogin. run. Qed.

Lemma register_answers u p n e r : ends False (handle m me (register u p n e r)) d (fun _ _ => True).
Proof.
  cbn [handle]. unfold userRegister. run. constraints_hold.
  all: match goal with E : first_row _ _ = None |- _ => pose proof (proj1 (first_row_None _ _) E) as Hno end.
  all: apply nodup_tadd; [|apply Hu]; intros x Hx; cbn; specialize (Hno x Hx); cbn in Hno; apply orb_false_iff in Hno as [H1 H2].
  - by apply String.eqb_neq.
  - by apply String.eqb_neq.
Qed.

Lemma modify_password_answers o n : ends False (handle m me (modifyPassword o n)) d (fun _ _ => True).
Proof.
  cbn [handle]. unfold userModifyPassword. run. constraints_hold.
  all: rewrite map_tupdate by done; apply Hu.
Qed.

Lemma create_service_answers u t : ends False (handle m me (createNewService u t)) d (fun _ _ => True).
Proof.
  cbn [handle]. unfold serviceCreateNewService. run.
  - constraints_hold. match goal with E : first_row _ _ = None |- _ => pose proof (proj1 (first_row_None _ _) E) as Hno end.
    apply nodup_tadd; [|apply Hu]. intros x Hx. cbn. apply String.eqb_neq. exact (Hno x Hx).
  - match goal with E : tget _ _ = None |- _ => revert E end. unfold Datatypes.id. cbn [on_services services].
    rewrite tget_tadd, Z.eqb_refl; [done..|]. apply (ok_services d Hd).
Qed.

Lemma maintainer_answers s c : ends False (handle m me (addOrRemoveServiceMaintainerById s c)) d (fun _ _ => True).
Proof.
  cbn [handle]. unfold serviceAddOrRemoveServiceMaintainerById. run. constraints_hold.
  rewrite map_tupdate by done. apply Hu.
Qed.

Lemma delete_service_answers i : ends False (handle m me (deleteServiceById i)) d (fun _ _ => True).
Proof.
  cbn [handle]. unfold serviceDeleteServiceById. run. constraints_hold.
  rewrite map_tupdate by done. apply Hu.
Qed.

Lemma restore_service_answers i : ends False (handle m me (restoreServiceById i)) d (fun _ _ => True).
Proof.
  cbn [handle]. unfold serviceRestoreServiceById. run. constraints_hold.
  rewrite map_tupdate by done. apply Hu.
Qed.

Lemma delete_iteration_answers i : ends (drafts_of d i <> []) (handle m me (deleteIterationById i)) d (fun _ _ => True).
Proof.
  cbn [handle]. unfold serviceDeleteIterationById. run. constraints_hold.
Qed.

(** Handlers behind the permission check. *)
Lemma with_iteration_answers P i (k : IterationRow -> option UserRow -> TX Reply) :
  (forall it, tget (iterations d) i = Some it -> ir_committed it = false ->
    ends P (k it (tget (users d) me)) d (fun _ _ => True)) ->
  ends P (with_iteration i me k) d (fun _ _ => True).
Proof.
  intros Hk. unfold with_iteration, checkServiceIterationPermission. run; auto.
Qed.

Lemma with_draft_answers P i a (k : ApiRow -> TX Reply) :
  (forall it r, tget (iterations d) i = Some it -> tget (drafts d) a = Some r -> ar_parent r = i ->
    ends P (k r) d (fun _ _ => True)) ->
  ends P (with_draft i a me k) d (fun _ _ => True).
Proof.
  intros Hk. apply with_iteration_answers. intros it Hit _. run. eapply Hk; [done..|]. by apply Z.eqb_eq.
Qed.

Lemma description_answers i t : ends False (handle m me (updateDescription i t)) d (fun _ _ => True).
Proof. apply with_iteration_answers. intros it Hit _. run. constraints_hold. Qed.

Lemma add_category_answers s n t : ends False (handle m me (addCategoryByServiceId s n t)) d (fun _ _ => True).
Proof.
  cbn [handle]. unfold apiAddCategoryByServiceId. run. constraints_hold.
  match goal with E : first_row _ _ = None |- _ => pose proof (proj1 (first_row_None _ _) E) as Hno end.
  apply nodup_tadd; [|apply Hu]. intros x Hx [= E1 E2]. specialize (Hno x Hx). cbn in Hno.
  by rewrite E1, E2, Z.eqb_refl, String.eqb_refl in Hno.
Qed.

Lemma leave_category_key time c a : api_key (leave_category time c a) = api_key a.
Proof. unfold leave_category, touch. repeat case_match; done. Qed.

Lemma delete_category_answers c : ends False (handle m me (deleteCategoryById c)) d (fun _ _ => True).
Proof.
  cbn [handle]. unfold apiDeleteCategoryById, delete_category. run. constraints_hold.
  - apply nodup_tdelete, Hu.
  - rewrite map_tmap by (intros; apply leave_category_key). apply Hu.
  - rewrite map_tmap by (intros; apply leave_category_key). apply Hu.
Qed.

Lemma update_category_answers c n t : ends (n = None) (handle m me (updateCategoryById c n t)) d (fun _ _ => True).
Proof.
  cbn [handle]. unfold apiUpdateCategoryById. run. constraints_hold.
  match goal with E : first_row _ _ = None |- _ => pose proof (proj1 (first_row_None _ _) E) as Hno end.
  match goal with E : tget (categories d) c = Some ?x |- _ => rename E into Hc, x into cat end.
  apply nodup_tupdate; [apply (ok_categories d Hd)| |apply Hu]. intros x y Hx Hy Ey Ex [= E1 E2].
  specialize (Hno x Hx). cbn in Hno. pose proof (tget_unique _ _ (proj1 (ok_categories d Hd)) Hy) as Hy'.
  rewrite Ey, Hc in Hy'. injection Hy' as ->. rewrite E1, E2, Z.eqb_refl in Hno. cbn in Hno.
  by rewrite bool_decide_eq_true_2 in Hno.
Qed.

Lemma update_api_category_answers a c : ends False (handle m me (updateApiCategoryById a c)) d (fun _ _ => True).
Proof.
  assert (Hkey : forall o r, api_key (touch (now m) (set_api_category o) r) = api_key r).
  { intros o r. unfold touch. by case_match. }
  cbn [handle]. unfold apiUpdateApiCategory. run; constraints_hold.
  all: rewrite map_tupdate by (intros; apply Hkey); apply Hu.
Qed.

Lemma add_api_answers i n me' p t l c :
  ends (enum_of method_name all_methods me' = None) (handle m me (addApi i n me' p t l c)) d (fun _ _ => True).
Proof.
  apply with_iteration_answers. intros it Hit _. run; constraints_hold.
  all: match goal with E : _ || _ = false |- _ => apply orb_false_iff in E as [_ Hno%bool_decide_eq_false] end.
  all: apply nodup_tadd; [|apply Hu]; intros x Hx [= E1 E2 E3]; apply Hno.
  all: destruct (first_row _ _) as [y|] eqn:E; [by eexists|].
  all: pose proof (proj1 (first_row_None _ _) E x Hx) as Hq; unfold clashes in Hq.
  all: by rewrite E1, E2, E3, Z.eqb_refl, bool_decide_eq_true_2, String.eqb_refl, orb_true_r in Hq.
Qed.

Lemma delete_api_answers i a : ends False (handle m me (deleteApiByApiDraftId i a)) d (fun _ _ => True).
Proof.
  apply with_draft_answers. intros it r Hit Hr Hp. unfold delete_draft, delete_draft_params. run. constraints_hold.
  apply nodup_tdelete, Hu.
Qed.

Lemma copy_answers i a : ends (may_fail m d (copyApiByApiDraftId i a)) (handle m me (copyApiByApiDraftId i a)) d (fun _ _ => True).
Proof.
  apply with_draft_answers. intros it r Hit Hr Hp. run.
  eapply ends_in_table_run; [apply copy_params_run|]. run. eapply ends_in_table_run; [apply copy_params_run|]. run.
  destruct (name_taken d i 0 (ar_method r) (copied_name (now m) r)) eqn:Hn; [by exists r|].
  constraints_hold. apply nodup_tadd; [|apply Hu]. intros x Hx. apply (name_free _ _ _ _ _ _ Hn Hx).
  pose proof (keys_below _ (proj1 (ok_drafts d Hd))) as Hb. rewrite Forall_forall in Hb. specialize (Hb x Hx). cbn in Hb.
  unfold id_of, api_id_of in Hb. lia.
Qed.

Lemma touch_key time f a : api_key (touch time f a) = api_key (f a).
Proof. unfold touch. case_bool_decide as E; [by rewrite E|done]. Qed.

Lemma renamed_draft_unique i a r method name time path descr level : tget (drafts d) a = Some r -> ar_parent r = i ->
  name_taken d i a method name = false ->
  NoDup (map api_key (rows (tupdate a (touch time (set_api name method path descr level)) (drafts d)))).
Proof.
  intros Hr Hp Hn. apply nodup_tupdate; [apply (ok_drafts d Hd)| |apply Hu]. intros x y Hx Hy Ey Ex.
  rewrite touch_key. pose proof (tget_unique _ _ (proj1 (ok_drafts d Hd)) Hy) as Hy'. rewrite Ey, Hr in Hy'. injection Hy' as <-.
  intros E. apply (name_free _ _ _ _ _ _ Hn Hx Ex). rewrite E. unfold api_key. cbn. by rewrite Hp.
Qed.

Lemma update_draft_answers i a n me' p t l rq rs :
  ends (may_fail m d (updateApiByApiDraftId i a n me' p t l rq rs)) (handle m me (updateApiByApiDraftId i a n me' p t l rq rs))
    d (fun _ _ => True).
Proof.
  apply with_draft_answers. intros it r Hit Hr Hp. run.
  apply ends_process; [|intros _; run; apply ends_process; [by left|intros _]].
  { intros E. apply not_true_iff_false in E. destruct E. apply forallb_forall. intros x _. apply request_storable. }
  run. destruct (name_taken d i a (default GET (enum_of method_name all_methods me')) n) eqn:Hn; [by right|].
  constraints_hold. by apply (renamed_draft_unique i a r).
Qed.

(** The copies of an iteration's start, and of its commit, keep names unique. *)
Lemma started_unique time s d1 d' : drafts d1 = drafts d -> db_apis d1 = db_apis d -> users d1 = users d ->
  services d1 = services d -> categories d1 = categories d ->
  all_copied released_side drafted_side time (next_id (iterations d)) (apis_of d1 s) d1 d' -> unique d'.
Proof.
  intros E1 E2 E3 E4 E5 [E _ _ [_ _ (Ea & _) [Eu Es Ei Ec]]]. cbn in E, Ea. rewrite E1 in E.
  split; rewrite ?Eu, ?Es, ?Ec, ?Ea, ?E2, ?E3, ?E4, ?E5; try apply Hu.
  rewrite E. cbn [rows]. eapply nodup_copies; [apply Hu| |unfold apis_of; by rewrite E2|apply Hu].
  intros a Ha Hp. destruct (proj2 (ok_drafts d Hd) a Ha) as (_ & it & Hit & _).
  apply (next_is_new (iterations d)); [apply (ok_iterations d Hd)|]. exists it. by rewrite <-Hp.
Qed.

Lemma released_unique time s v descr i d' :
  let d1 := delete_apis s (on_services (tupdate s (set_released v descr)) d) in
  all_copied drafted_side released_side time s (drafts_of d1 i) d1 d' -> unique d'.
Proof.
  intros d1 [E _ _ [_ _ (Ea & _) [Eu Es Ei Ec]]]. cbn in E, Ea.
  assert (Hgone : NoDup (map api_key (rows (db_apis d1)))) by apply nodup_tdelete, Hu.
  split; rewrite ?Eu, ?Es, ?Ec, ?Ea; try apply Hu.
  - change (NoDup (map sr_uuid (rows (tupdate s (set_released v descr) (services d))))).
    rewrite map_tupdate by done. apply Hu.
  - rewrite E. apply (nodup_copies time s i (db_apis d1) (drafts d)); [exact Hgone| |done|apply Hu].
    intros a [_ Ha%Z.eqb_neq]%elem_of_tdelete. done.
Qed.

Lemma start_answers s : ends False (handle m me (startIteration s)) d (fun _ _ => True).
Proof.
  cbn [handle]. unfold serviceStartIteration. run.
  match goal with E : tget (services d) s = Some ?r |- _ => rename E into Hs, r into sv end.
  match goal with E : first_row _ _ = None |- _ => rename E into Hopen end.
  set (new := fun i => mkIterationRow i s me None None false). set (d1 := on_iterations (tadd new) d).
  set (n := next_id (iterations d)).
  assert (H1 : db_ok d1).
  { apply add_iteration_ok; [done| |by apply first_row_None|done]. split; [by eexists|]. split; [done|]. by split; [|intros []]. }
  assert (Hit : tget (iterations d1) n = Some (new n)).
  { cbn [d1 on_iterations iterations]. rewrite tget_tadd; [by rewrite Z.eqb_refl|done|]. apply (ok_iterations d Hd). }
  eapply ends_weaken; [apply (start_rounds _ _ _ _ (new n)); [done..|]|].
  { intros a [Ha Hp%Z.eqb_eq]%elem_of_select. by split. }
  cbn beta. intros _ d' [Hd' Hc]. run. eapply unique_holds; [|eassumption]. by eapply (started_unique (now m) s d1).
Qed.

Lemma commit_answers i v : ends False (handle m me (commitIteration i v)) d (fun _ _ => True).
Proof.
  cbn [handle]. unfold serviceCommitIteration, checkServiceIterationPermission. run. simplify_eq.
  match goal with E : tget (iterations d) i = Some ?x |- _ => rename E into Hi, x into it end.
  match goal with E : tget (services d) _ = Some ?y |- _ => rename E into Hs, y into sv end.
  pose proof (tget_Some _ _ _ Hs) as [_ Es]. change (sr_id sv = ir_service it) in Es.
  set (d0 := on_services _ d). set (d1 := delete_apis _ d0).
  assert (H1 : db_ok d1).
  { apply delete_apis_ok, update_service_ok; [done| |done]. by intros r _ (Ho & Hm & Hnd & Hdel). }
  assert (Hsv : has (services d1) (sr_id sv)).
  { apply (keeps_has (fun _ => tt) (services d)); [by apply keeps_tupdate|]. exists sv. by rewrite Es. }
  eapply ends_weaken; [apply commit_rounds; [done..|]|].
  { intros a [Ha Hp%Z.eqb_eq]%elem_of_select. exists it. by rewrite Hp. }
  cbn beta. intros _ d' [Hd' Hc]. run.
  - eapply unique_holds; [|eassumption]. pose proof (released_unique _ _ _ _ _ _ Hc) as [U1 U2 U3 U4 U5 U6]. by split.
  - match goal with E : tget (users _) (sr_owner sv) = None |- _ => revert E end. db_simpl.
    rewrite (same_users _ _ (copied_base _ _ _ _ (old_trees _ _ _ _ _ _ _ Hc))). intros E.
    by destruct (found _ _ (owner_of_service _ _ Hs) E).
Qed.

(** What [version_seen_by] found is in the database. *)
Lemma version_seen_found P u v :
  ends P (version_seen_by u v me) d (fun seen d' => d' = d /\
    forall s past, seen = inl (s, past) -> s ∈ rows (services d) /\
      forall i, past = Some i -> i ∈ rows (iterations d) /\ ir_service i = sr_id s).
Proof.
  unfold version_seen_by. run. all: try (split; [done|]; by intros ?? [=]).
  match goal with E : live_service _ _ = Some ?x |- _ => rename E into Hs, x into sv end.
  match goal with E : _ = Some ?x |- context [match ?x with Some _ => _ | None => _ end] => rename E into Hpast, x into past end.
  split; [done|]. intros s' past' E.
  assert (s' = sv /\ past' = past) as [-> ->].
  { destruct past as [i|], b'; cbn in E; [destruct (negb _)|..]; by simplify_eq. }
  apply first_row_Some in Hs as [Hs _]. split; [done|]. intros i ->. revert Hpast. clear E.
  destruct (_ || _); [done|]. destruct (first_row _ _) as [j|] eqn:Ej; cbn; [|done]. intros [= ->].
  apply first_row_Some in Ej as [Hj Ej].
  apply andb_true_iff in Ej as [Ej%Z.eqb_eq _]. done.
Qed.

Lemma export_answers u v :
  ends (may_fail m d (exportOpenapiByUuidAndVersion u v)) (handle m me (exportOpenapiByUuidAndVersion u v)) d (fun _ _ => True).
Proof.
  cbn [handle]. unfold serviceExportOpenapiByUuidAndVersion. apply ends_bind.
  eapply ends_weaken; [apply version_seen_found|]. intros [[s past]|e] d'; [|intros [-> _]; run].
  cbn beta. intros [-> Hseen]. destruct (Hseen s past eq_refl) as [Hs Hi]. run.
  - exfalso. destruct past as [i|].
    + destruct (Hi i eq_refl) as [Hi' _]. destruct (proj2 (ok_iterations d Hd) i Hi') as (_ & Hc & _).
      by apply (found _ _ Hc).
    + destruct (proj2 (ok_services d Hd) s Hs) as (Ho & _). by apply (found _ _ Ho).
  - unfold openapiTemplate in *. destruct past as [i|].
    + right. exists i. split; [by apply Hi|]. destruct (forallb _ _); [|done]. by destruct (foldl _ _ _).
    + left. exists s. split; [done|]. destruct (forallb _ _); [|done]. by destruct (foldl _ _ _).
Qed.

(** Every request of a user that exists. *)
Lemma handle_answers op : ends (may_fail m d op) (handle m me op) d (fun _ _ => True).
Proof.
  pose proof (readers_answer op) as Hr. destruct op; try exact Hr; clear Hr; cbn [may_fail].
  all: auto using login_answers, register_answers, modify_password_answers, create_service_answers, maintainer_answers,
      delete_service_answers, restore_service_answers, delete_iteration_answers, description_answers, add_category_answers,
      delete_category_answers, update_category_answers, update_api_category_answers, add_api_answers, delete_api_answers,
      start_answers, commit_answers.
  - apply export_answers.
  - apply copy_answers.
  - apply update_draft_answers.
Qed.
End Failures.

(** ** A request that raises changes nothing *)

(** [quiet m] commits nothing; [atomic m] commits nothing if it raises. *)
Definition quiet {A} (m : TX A) : Prop := forall s, committed (m s).2 = committed s.
Definition atomic {A} (m : TX A) : Prop := forall s,
  match (m s).1 with Ret _ => True | _ => committed (m s).2 = committed s end.

Lemma quiet_atomic {A} (m : TX A) : quiet m -> atomic m.
Proof. intros H s. specialize (H s). by destruct (m s).1. Qed.

Lemma quiet_ret {A} (a : A) : quiet (mret a).
Proof. done. Qed.
Lemma quiet_raise {A} n msg : quiet (raise n msg : TX A).
Proof. done. Qed.
Lemma quiet_read {A} (f : Db -> A) : quiet (read f).
Proof. done. Qed.
Lemma quiet_write f : quiet (write f).
Proof. done. Qed.
Lemma quiet_send m : quiet (send_email m).
Proof. done. Qed.
Lemma quiet_in_table {A} get put (m : M (table ParamRow) A) : quiet (in_table get put m).
Proof. intros s. unfold in_table. by destruct (m _). Qed.
Lemma quiet_page_of {A} size current (l : list A) : quiet (page_of size current l).
Proof. intros s. unfold page_of. by destruct (_ || _). Qed.
Lemma quiet_bind {A B} (m : TX A) (f : A -> TX B) : quiet m -> (forall a, quiet (f a)) -> quiet (m ≫= f).
Proof.
  intros Hm Hf s. specialize (Hm s). unfold mbind, M_bind. destruct (m s) as [[a|e|e] s']; cbn in *; [by rewrite Hf|done..].
Qed.
Lemma quiet_each {A} (body : A -> TX unit) l : (forall x, quiet (body x)) -> quiet (each body l).
Proof. intros Hb. induction l as [|x l IH]; [done|]. by apply quiet_bind. Qed.
Lemma atomic_bind {A B} (m : TX A) (f : A -> TX B) : quiet m -> (forall a, atomic (f a)) -> atomic (m ≫= f).
Proof.
  intros Hm Hf s. specialize (Hm s). unfold mbind, M_bind. destruct (m s) as [[a|e|e] s']; cbn in *; [|done..].
  specialize (Hf a s'). destruct (f a s') as [[b|e|e] s'']; cbn in *; by rewrite ?Hf.
Qed.
Lemma atomic_commit {A} (a : A) : atomic (commit ≫= fun _ => mret a).
Proof. intros s. unfold commit, mbind, M_bind. by destruct (unique_ok _). Qed.

Ltac quiet := repeat first
  [ apply quiet_ret | apply quiet_raise | apply quiet_read | apply quiet_write | apply quiet_send | apply quiet_in_table | apply quiet_page_of
  | apply quiet_each; intros ? | apply quiet_bind; [|intros ?]
  | match goal with |- quiet (match ?x with _ => _ end) => destruct x end
  | match goal with |- quiet (?f _) => unfold f | |- quiet (?f _ _) => unfold f | |- quiet (?f _ _ _) => unfold f end ].
Ltac atomic := repeat (cbv beta zeta; first
  [ apply atomic_commit | apply quiet_atomic; solve [quiet]
  | apply atomic_bind; [solve [quiet]|intros ?]
  | match goal with |- atomic (match ?x with _ => _ end) => destruct x end ]).

(** The handlers' bodies. *)
Ltac handlers := unfold userLogin, userRegister, userModifyPassword, userGetUserById,
  userGetUserByUsernameOrNicknameOrEmail, serviceGetServiceById,
  serviceGetAllServices, serviceGetHisNewestServicesByOwnerId, serviceGetHisMaintainedServicesByUserId,
  serviceGetServiceByUuidAndVersion, serviceGetAllVersionsByUuid, serviceGetAllDeletedServicesByUserId, serviceIsMaintainer,
  serviceAddOrRemoveServiceMaintainerById, serviceDeleteServiceById, serviceRestoreServiceById, serviceDeleteIterationById,
  serviceGetServiceIterationById, serviceStartIteration, serviceUpdateDescription, serviceExportOpenapiByUuidAndVersion,
  apiGetAllCategoriesByServiceId, apiGetAllApisByServiceId, apiGetApiById, apiAddCategoryByServiceId, apiDeleteCategoryById,
  apiUpdateCategoryById, apiUpdateApiCategory, apiAddApi, apiCopyApiByApiDraftId, apiDeleteApiByApiDraftId,
  apiUpdateApiByApiDraftId, with_draft, with_iteration.

Lemma handle_atomic `{!Isoformat, !Libraries} m me op :
  match op with createNewService _ _ | commitIteration _ _ => True | _ => atomic (handle m me op) end.
Proof.
  destruct op; try exact Logic.I; cbn [handle].
  all: handlers.
  all: solve [atomic].
Qed.

(** ** A request that is refused changes nothing *)

(** [succeeds m] answers with success if it answers; [accepts m] does so if it has
    committed anything. *)
Definition succeeds (m : TX Reply) : Prop := forall s, match (m s).1 with Ret r => reply_status r = Some 200%Z | _ => True end.
Definition accepts (m : TX Reply) : Prop := forall s,
  match (m s).1 with Ret r => reply_status r = Some 200%Z \/ committed (m s).2 = committed s | _ => True end.

Lemma succeeds_ret message p : succeeds (mret (success message p)).
Proof. done. Qed.
Lemma succeeds_bind {A} (m : TX A) (f : A -> TX Reply) : (forall a, succeeds (f a)) -> succeeds (m ≫= f).
Proof. intros Hf s. unfold mbind, M_bind. destruct (m s) as [[a|e|e] s']; [apply Hf|done..]. Qed.

Lemma accepts_succeeds m : succeeds m -> accepts m.
Proof. intros H s. specialize (H s). destruct (m s).1; [by left|done..]. Qed.
Lemma accepts_quiet m : quiet m -> accepts m.
Proof. intros H s. specialize (H s). destruct (m s).1; [by right|done..]. Qed.
Lemma accepts_bind {A} (m : TX A) (f : A -> TX Reply) : quiet m -> (forall a, accepts (f a)) -> accepts (m ≫= f).
Proof.
  intros Hm Hf s. specialize (Hm s). unfold mbind, M_bind. destruct (m s) as [[a|e|e] s']; cbn in *; [|done..].
  specialize (Hf a s'). destruct (f a s') as [[b|e|e] s'']; cbn in *; [|done..]. by rewrite <-Hm.
Qed.

Ltac succeeds := repeat (cbv beta zeta; first [ apply succeeds_ret | apply succeeds_bind; intros ?
  | match goal with |- succeeds (match ?x with _ => _ end) => destruct x end ]).
Ltac accepts := repeat (cbv beta zeta; first
  [ apply accepts_bind; [solve [quiet]|intros ?]
  | match goal with |- accepts (match ?x with _ => _ end) => destruct x end
  | apply accepts_succeeds; solve [succeeds] | apply accepts_quiet; solve [quiet] ]).

Lemma handle_accepts `{!Isoformat, !Libraries} m me op : accepts (handle m me op).
Proof.
  destruct op; cbn [handle]; handlers; unfold serviceCreateNewService, serviceCommitIteration.
  all: solve [accepts].
Qed.

Lemma handle_raises `{!Isoformat, !Libraries} m d me op : db_ok d -> unique d ->
  (open_operation op = true \/ has (users d) me) -> (forall r, (in_session (handle m me op) d).1 <> Ret r) ->
  may_fail m d op /\ (in_session (handle m me op) d).2.1 = d.
Proof.
  intros Hd Hu Hme Hno.
  assert (Hf : may_fail m d op).
  { assert (He : ends (fun _ => True) (may_fail m d op) (handle m me op) d (fun _ _ => True)).
    { destruct Hme as [Ho|Hme]; [|by apply handle_answers]. destruct op; try done; auto using login_answers, register_answers. }
    destruct (ends_returns _ _ _ _ _ Logic.I He) as [[r Hr]|]; [by destruct (Hno r)|done]. }
  split; [done|]. pose proof (handle_atomic m me op) as Ha. unfold in_session in *.
  assert (Hat : atomic (handle m me op)) by by destruct op. specialize (Hat (mkTx d d [])).
  destruct (handle m me op _) as [[r|e|e] s]; cbn in *; [by destruct (Hno r)|done..].
Qed.

Lemma authenticate_fails `{!Libraries} time d token u : authenticate time d token u = inl 500%Z ->
  exists id, jwt_decode time (default "" token) = Some id /\ tget (users d) id = None.
Proof.
  unfold authenticate. destruct (jwt_decode _ _) as [i|]; [|done]. destruct (tget (users d) i) eqn:E; [by case_match|].
  intros _. by exists i.
Qed.

(** How a request is answered, and what it leaves. *)
Lemma serve_cases `{!Isoformat, !Libraries} m d token r : committed_ok d ->
  match serve m d token r with
  | (Json reply, (d', _)) => reply_status reply = Some 200%Z \/ d' = d
  | (HttpStatus code, (d', _)) => d' = d /\ (code = 500%Z ->
      route r = Some (inl 500%Z) \/
      (exists id, jwt_decode (now m) (default "" token) = Some id /\ tget (users d) id = None) \/
      (exists op, route r = Some (inr op) /\ may_fail m d op))
  end.
Proof.
  intros [Hd Hu%unique_ok_iff]. unfold serve. destruct (route r) as [rt|] eqn:Er; [|done].
  destruct (if auth_required (url r) then _ else _) as [st|me] eqn:Ea.
  { split; [done|]. intros ->. right. left. destruct (auth_required (url r)); [|done]. by eapply authenticate_fails. }
  destruct rt as [status|op]; [split; [done|]; intros ->; by left|].
  assert (Hme : open_operation op = true \/ has (users d) me).
  { destruct (auth_required (url r)) eqn:E; [right; by eapply authenticate_has|left; by eapply open_routes]. }
  pose proof (handle_raises m d me op Hd Hu Hme) as Hf. pose proof (handle_accepts m me op (mkTx d d [])) as Ha.
  unfold in_session in *. destruct (handle m me op (mkTx d d [])) as [[reply|e|e] [w c ml]]; cbn in *; [done|..].
  all: destruct Hf as [Hf ->]; [done|]; split; [done|]; intros _; right; right; by exists op.
Qed.

(** ** Properties *)

(** C13. On a sound database a request is answered with status 500 only if it could
    not be decoded, or its token names a user that does not exist, or [may_fail]
    lists it: no handler meets a dangling key, and what the handlers check before
    they write is what the unique constraints ask for.  And a request that is not
    answered with success, but fails or is refused, leaves the database as it was. *)
Theorem failure_causes `{!Isoformat, !Libraries} m d token r : committed_ok d ->
  ((serve m d token r).1 = HttpStatus 500 ->
   route r = Some (inl 500%Z) \/
   (exists id, jwt_decode (now m) (default "" token) = Some id /\ tget (users d) id = None) \/
   (exists op, route r = Some (inr op) /\ may_fail m d op)) /\
  ((exists reply, (serve m d token r).1 = Json reply /\ reply_status reply = Some 200%Z) \/ (serve m d token r).2.1 = d).
Proof.
  intros Hd. pose proof (serve_cases m d token r Hd) as Hc. destruct (serve m d token r) as [[reply|code] [d' ml]]; cbn [fst snd] in *.
  - split; [done|]. destruct Hc as [Hc|Hc]; [left; by exists reply|by right].
  - destruct Hc as [-> Hc]. split; [|by right]. intros [= ->]. by apply Hc.
Qed.

Lemma failure_causes_witness :
  let d := sample_replay sample_history in
  let r := encode (GetAllDeletedServicesByUserId 10 0) in
  (@serve sample_isoformat sample_libraries sample_moment d (Some "1") r).1 = HttpStatus 500 /\
  (@serve sample_isoformat sample_libraries sample_moment d (Some "1") r).2.1 = d.
Proof.
  cbv zeta. assert (E : (@serve sample_isoformat sample_libraries sample_moment (sample_replay sample_history) (Some "1")
    (encode (GetAllDeletedServicesByUserId 10 0))).1 = HttpStatus 500) by (vm_compute; reflexivity).
  split; [exact E|].
  destruct (proj2 (@failure_causes sample_isoformat sample_libraries sample_moment (sample_replay sample_history) (Some "1")
    (encode (GetAllDeletedServicesByUserId 10 0)) (replay_ok _ _ _ _ empty_db_ok))) as [(reply & Hr & _)|Hd]; [|exact Hd].
  rewrite E in Hr. discriminate Hr.
Defined.
