(* ===== verification/Wire.v ===== *)
(** * The front-end's requests, as the back end reads them

    [asked] says which operation each request function of [FeTypes] asks for;
    [routes_agree] says that decoding what it sends gives exactly that operation.
    The texts of a query arrive encoded; [meant] is what [asked] would be if they did
    not, and [asked_plain] says for which texts that makes no difference.
    The places where it does not are refusals with status 400 and 500: an
    [undefined] member of a body is left out and missed. *)

From S2P Require Import Prelude Tables JsNumber JsObject ApiTypes FeTypes Database ParamStore Openapi Backend FeHttp.
From S2P Require Import BackendRoutes BackendSafety.
From Stdlib Require Import Ascii String ZArith Lia.

(** How axios writes a query parameter, by its documentation: [+] for a space, other
    characters as they are or percent-encoded. *)
Fixpoint plus_spaces (s : string) : string :=
  match s with
  | String c s' => String (if Ascii.eqb c " " then "+"%char else c) (plus_spaces s')
  | EmptyString => ""
  end.

Definition unreserved (c : ascii) : bool :=
  alphanumeric c || Ascii.eqb c "-" || Ascii.eqb c "." || Ascii.eqb c "_" || Ascii.eqb c "~".

Class AxiosQuery `{!Libraries} : Prop := {
  query_text_decodes : forall s, unquote (query_text s) = plus_spaces s;
  query_text_plain : forall s, str_forallb unreserved s = true -> query_text s = s
}.

(** ** What a request asks for *)

(** A parameter as it is read in a list of the kind [k]; one of the other kind gets
    the location or the status that is taken when none is given. *)
Fixpoint as_received (k : param_class) (p : ParamInput) : ParamInput :=
  match p with
  | mkParamInput n t pl r df ds ex ac cs =>
      mkParamInput n t
        (match k, pl with
         | RequestParamDraft, AtLocation l => AtLocation l
         | RequestParamDraft, AtStatus _ => AtLocation "body"
         | ResponseParamDraft, AtStatus c => AtStatus c
         | ResponseParamDraft, AtLocation _ => AtStatus (Some 200%Z)
         end)
        r (match pl with AtLocation _ => df | AtStatus _ => None end) ds ex ac
        (match cs with Some l => Some (map (as_received k) l) | None => None end)
  end.

(** The texts of a query. *)
Definition query_texts (r : HttpRequest) : list string :=
  match verb r with
  | HttpGet => omap (fun kv => match kv.2 with JStr s => Some s | _ => None end) (data r)
  | HttpPost => []
  end.

Section Wire.
Context `{!Libraries}.

Definition needs_text (s : string) (k : string -> Z + Operation) : Z + Operation :=
  if String.eqb s "" then inl 400%Z else k (query_text s).
Definition needs {A} (status : Z) (o : option A) (k : A -> Z + Operation) : Z + Operation :=
  match o with Some a => k a | None => inl status end.

(** The operation a request asks for: the texts of a query as they arrive, a category 0
    as none. *)
Definition asked {T} (e : Endpoint T) : Z + Operation :=
  match e with
  | UserLogin d => inr (login (login_username d) (login_password d))
  | UserRegister d =>
      inr (register (reg_username d) (reg_password d) (reg_nickname d) (reg_email d) (reg_role d))
  | UserModifyPassword d => inr (modifyPassword (old_password d) (new_password d))
  | GetUserById i => inr (getUserById i)
  | GetMyInfo => inr getMyInfo
  | GetUserByUsernameOrNicknameOrEmail q => needs_text q (fun q => inr (getUserByUsernameOrNicknameOrEmail q))
  | GetMyNewestServices s c => inr (getHisNewestServicesByOwnerId None s c)
  | GetMyMaintainedServices s c => inr (getHisMaintainedServicesByUserId None s c)
  | GetAllServices s c => inr (getAllServices s c)
  | GetHisNewestServicesByOwnerId o s c => inr (getHisNewestServicesByOwnerId (Some o) s c)
  | GetAllDeletedServicesByUserId s c => inr (getAllDeletedServicesByUserId s c)
  | GetServiceById i => inr (getServiceById i)
  | GetServiceByUuidAndVersion u v =>
      needs_text u (fun u => needs_text v (fun v => inr (getServiceByUuidAndVersion u v)))
  | GetAllVersionsByUuid u => needs_text u (fun u => inr (getAllVersionsByUuid u))
  | CreateNewService u t => inr (createNewService u t)
  | DeleteServiceById i => inr (deleteServiceById i)
  | RestoreServiceById i => inr (restoreServiceById i)
  | DeleteIterationById i => inr (deleteIterationById i)
  | GetIterationById i => inr (getIterationById i)
  | StartIteration s => needs 500 s (fun s => inr (startIteration s))
  | CommitIteration i v => inr (commitIteration i v)
  | UpdateDescription i t => inr (updateDescription i t)
  | IsServiceMaintainer s c => needs 400 s (fun s => inr (isServiceMaintainer s c))
  | AddOrRemoveServiceMaintainerById s c => needs 500 s (fun s => inr (addOrRemoveServiceMaintainerById s c))
  | ExportOpenapiByUuidAndVersion u v =>
      needs_text u (fun u => needs_text v (fun v => inr (exportOpenapiByUuidAndVersion u v)))
  | GetAllCategoriesByServiceId s => inr (getAllCategoriesByServiceId s)
  | GetAllApisByServiceId s c => inr (getAllApisByServiceId s c)
  | GetApiById i l => inr (getApiById i (default true l))
  | AddCategoryByServiceId s n t =>
      needs 500 s (fun s => needs 500 t (fun t => inr (addCategoryByServiceId s n (Some t))))
  | DeleteCategoryById c => inr (deleteCategoryById c)
  | UpdateCategoryById c n t =>
      needs 500 n (fun n => needs 500 t (fun t => inr (updateCategoryById c (Some n) (Some t))))
  | UpdateApiCategoryById a c => inr (updateApiCategoryById a c)
  | AddApi d =>
      inr (addApi (add_iteration_id d) (add_name d) (method_name (add_method d)) (add_path d) (add_description d)
        (level_name (add_level d)) (add_category_id d ≫= fun c => if (c =? 0)%Z then None else Some c))
  | CopyApiByApiDraftId i a => inr (copyApiByApiDraftId i a)
  | DeleteApiByApiDraftId i a => inr (deleteApiByApiDraftId i a)
  | UpdateApiByApiDraftId i d =>
      inr (updateApiByApiDraftId i (upd_draft_id d) (upd_name d) (method_name (upd_method d)) (upd_path d)
        (upd_description d) (level_name (upd_level d)) (map (as_received RequestParamDraft) (FeTypes.req_params d))
        (map (as_received ResponseParamDraft) (FeTypes.resp_params d)))
  end.

(** ** Lemmas *)

Lemma text_int_show z : text_int (show_int z) = inr z.
Proof.
  assert (E : py_int (show_int z) = Some z); [|unfold text_int; by rewrite E].
  unfold py_int. destruct (String.eqb_spec (trim (show_int z)) "") as [E|_]; [|apply to_number_show_int].
  exfalso. revert E. destruct z as [|p|p].
  - by vm_compute.
  - unfold show_int. rewrite trim_id by apply show_nat_no_space. cbn [Z.to_N].
    destruct (show_nat_head (N.pos p)) as (c & s & -> & _). done.
  - unfold show_int. rewrite trim_id; [done|]. pose proof (show_nat_no_space (N.pos p)) as Hs.
    unfold str_existsb in *. exact Hs.
Qed.

Lemma show_int_nonempty z : String.eqb (show_int z) "" = false.
Proof.
  destruct (String.eqb_spec (show_int z) "") as [E|]; [|done]. destruct z as [|p|p]; [done| |done].
  cbn in E. destruct (show_nat_head (N.pos p)) as (c & s & Es & _). by rewrite Es in E.
Qed.

Lemma all_some_map {A B} (f : A -> option B) (g : A -> B) l : (forall x, x ∈ l -> f x = Some (g x)) ->
  all_some (map f l) = Some (map g l).
Proof.
  induction l as [|x l IH]; intros Hf; [done|]. cbn [map all_some]. rewrite Hf by by left. cbn.
  rewrite IH by (intros y Hy; apply Hf; by right). done.
Qed.

Lemma input_received k p : input_of_json k (input_json p) = Some (as_received k p).
Proof.
  induction p as [p IH] using input_nested_ind. destruct p as [n t pl r df ds ex ac cs].
  cbn [input_children] in IH.
  assert (Hcs : forall l, cs = Some l -> all_some (map (input_of_json k) (map input_json l)) = Some (map (as_received k) l)).
  { intros l ->. cbn [from_option id] in IH. rewrite map_map. apply all_some_map. rewrite Forall_forall in IH. exact IH. }
  destruct pl as [l|[c|]], k, df, ds, ex, ac, cs as [cs|]; try reflexivity;
    cbn; rewrite (Hcs _ eq_refl); reflexivity.
Qed.

Lemma inputs_received k l : all_some (map (input_of_json k) (map input_json l)) = Some (map (as_received k) l).
Proof. rewrite map_map. apply all_some_map. intros x _. apply input_received. Qed.

Context `{!AxiosQuery}.

Lemma query_text_empty s : String.eqb (query_text s) "" = String.eqb s "".
Proof.
  destruct (String.eqb_spec s "") as [->|Hs]; [by rewrite query_text_plain|].
  destruct (String.eqb_spec (query_text s) "") as [E|]; [|done].
  pose proof (query_text_decodes s) as Hd. rewrite E in Hd. by destruct s.
Qed.

Lemma query_required_text r k s : obj_get (data r) k = Some (JStr s) ->
  query_required r k = if String.eqb s "" then inl 400%Z else inr (query_text s).
Proof. intros E. unfold query_required, query_get. rewrite E. cbn. by rewrite query_text_empty. Qed.

Lemma query_required_num r k z : obj_get (data r) k = Some (JNum z) -> query_required r k = inr (show_int z).
Proof. intros E. unfold query_required, query_get. rewrite E. cbn. by rewrite show_int_nonempty. Qed.

Lemma query_int_num r k z : obj_get (data r) k = Some (JNum z) -> query_int r k = inr z.
Proof.
  intros E. unfold query_int, query_required, query_get. rewrite E. cbn. rewrite show_int_nonempty. apply text_int_show.
Qed.

Lemma query_page_num r k z n : obj_get (data r) k = Some (JNum z) -> query_page r k n = inr z.
Proof.
  intros E. unfold query_page, query_get. rewrite E. cbn. rewrite show_int_nonempty. apply text_int_show.
Qed.

Lemma paged_sent {A} r (f : Z -> Z -> A) s c : obj_get (data r) "page_size" = Some (JNum s) ->
  obj_get (data r) "current_page" = Some (JNum c) -> paged r f = inr (f s c).
Proof. intros Es Ec. unfold paged. by rewrite (query_page_num _ _ _ _ Es), (query_page_num _ _ _ _ Ec). Qed.

Lemma body_params_sent r key k l : obj_get (data r) key = Some (Stringified (JArr (map input_json l))) ->
  body_params r key k = inr (map (as_received k) l).
Proof. intros E. unfold body_params. by rewrite E, inputs_received. Qed.

End Wire.

(** Evaluate a route, but for the members it reads. *)
Ltac known := lazy -[query_int query_required query_get paged text_true text_int body_params as_received query_text show_int
  default String.eqb needs_text needs method_name level_name Z.eqb].
Ltac literal := match goal with |- context [String.eqb ?a ?b] =>
  let v := eval lazy in (String.eqb a b) in
  lazymatch v with true => change (String.eqb a b) with true | false => change (String.eqb a b) with false end; cbv iota end.
Ltac decode := known; repeat (first
  [ literal | erewrite query_int_num by reflexivity | erewrite query_required_text by reflexivity
  | erewrite query_required_num by reflexivity | rewrite text_int_show | erewrite paged_sent by reflexivity | erewrite body_params_sent by reflexivity ]; known).

Section Agreement.
Context `{!Libraries, !AxiosQuery}.

(** The libraries, with queries that carry texts as they are; and what a request would
    then ask for. *)
Definition plain_queries : Libraries := {|
  hashpw := hashpw; checkpw := checkpw; jwt_encode := jwt_encode; jwt_decode := jwt_decode; ilike := ilike;
  collation := collation; query_text := fun s => s |}.
Definition meant {T} (e : Endpoint T) : Z + Operation := @asked plain_queries T e.

Lemma wire_agrees {T} (e : Endpoint T) : route (encode e) = Some (asked e).
Proof.
  destruct e; try reflexivity.
  all: repeat match goal with o : option _ |- _ => destruct o | b : bool |- _ => destruct b | d : AddApiRequest |- _ => destruct d end.
  all: decode; try reflexivity.
  all: unfold needs_text; repeat match goal with |- context [String.eqb ?q ""] => destruct (String.eqb q "") end.
  all: known; reflexivity.
Qed.

(** Texts of unreserved characters are handed over as they are. *)
Lemma asked_plain {T} (e : Endpoint T) : Forall (fun s => str_forallb unreserved s = true) (query_texts (encode e)) ->
  asked e = meant e.
Proof.
  unfold meant. destruct e; try done; cbn; rewrite ?Forall_cons; intros Hs; unfold needs_text.
  all: repeat match goal with H : _ /\ _ |- _ => destruct H end.
  all: by rewrite ?query_text_plain by done.
Qed.

End Agreement.

(** An encoding with the two laws. *)
Definition hex_char (n : N) : ascii := ascii_of_N (if (n <? 10)%N then 48 + n else 55 + n).
Fixpoint percent_encode (s : string) : string :=
  match s with
  | EmptyString => ""
  | String c s' =>
      if unreserved c then String c (percent_encode s')
      else if Ascii.eqb c " " then String "+" (percent_encode s')
      else let n := N_of_ascii c in
           String "%" (String (hex_char (n / 16)) (String (hex_char (n mod 16)) (percent_encode s')))
  end.

Definition sample_client : Libraries := {|
  hashpw := @hashpw sample_libraries; checkpw := @checkpw sample_libraries; jwt_encode := @jwt_encode sample_libraries;
  jwt_decode := @jwt_decode sample_libraries; ilike := @ilike sample_libraries; collation := @collation sample_libraries;
  query_text := percent_encode |}.

Lemma unquote_plain c s : Ascii.eqb c "%" = false -> unquote (String c s) = String c (unquote s).
Proof.
  intros E. destruct s as [|x [|y r]]; [done|done|]. cbn [unquote].
  destruct (hex_digit x), (hex_digit y); by rewrite ?E.
Qed.

Lemma percent_round c s :
  unquote (String "%" (String (hex_char (N_of_ascii c / 16)) (String (hex_char (N_of_ascii c mod 16)) s))) = String c (unquote s).
Proof. destruct c as [[][][][][][][][]]; reflexivity. Qed.

#[global] Instance sample_axios : @AxiosQuery sample_client.
Proof.
  split.
  - intros s. cbn [query_text sample_client]. induction s as [|c s IH]; [done|]. cbn [percent_encode plus_spaces].
    destruct (unreserved c) eqn:Eu; [|destruct (Ascii.eqb c " ") eqn:Es].
    + assert (Ascii.eqb c "%" = false /\ Ascii.eqb c " " = false) as [E1 E2].
      { split; [by destruct (Ascii.eqb_spec c "%") as [->|]|by destruct (Ascii.eqb_spec c " ") as [->|]]. }
      by rewrite unquote_plain, IH, E2.
    + by rewrite unquote_plain, IH.
    + cbv zeta. by rewrite percent_round, IH.
  - intros s. cbn [query_text sample_client]. induction s as [|c s IH]; [done|]. cbn [str_forallb percent_encode].
    intros [Hc Hs]%andb_true_iff. rewrite Hc, IH; done.
Qed.

