(* ===== verification/EndToEnd.v ===== *)
(** * The front-end and the back end together

    What the pages send, answered by the back end of this library: the parameters
    of the front-end model's server are instantiated with [backend_server], so that
    the theorems speak about what a user sees after what a user did. *)

From S2P Require Import Prelude Tables JsNumber JsObject ApiTypes FeTypes Database ParamStore Openapi Backend.
From S2P Require Import Transaction BackendUser BackendService BackendApi Integrity Copies FeHttp BackendRoutes.
From S2P Require Import BackendSafety Failures Wire.
From Stdlib Require Import Ascii String ZArith Lia.

Section EndToEnd.
Context `{!Isoformat, !Libraries, !AxiosQuery}.
Context (dump : Document -> string).

(** ** Asking the back end *)

(** A request to a database: what the client receives, and the database after it. *)
Definition ask {T} (m : Moment) (d : Db) (token : option string) (e : Endpoint T) : net T * Db :=
  let '(a, (d', _)) := serve m d token (encode e) in (received dump e a, d').

(** The token is the user's, and the user exists. *)
Record signed_in (m : Moment) (d : Db) (token : option string) (u : UserRow) : Prop := mkSignedIn {
  signed_token : jwt_decode (now m) (default "" token) = Some (ur_id u);
  signed_user : tget (users d) (ur_id u) = Some u
}.

Lemma serve_run m d token u (r : HttpRequest) op reply s : signed_in m d token u -> route r = Some (inr op) ->
  auth_required (url r) = true -> bool_decide (url r ∈ L0_routes) = false ->
  handle m (ur_id u) op (mkTx d d []) = (Ret reply, s) -> serve m d token r = (Json reply, (committed s, outbox s)).
Proof.
  intros [Ht Hu] Hr Hauth Hl0 Hrun. unfold serve. rewrite Hr, Hauth. unfold authenticate.
  rewrite Ht, Hu, Hl0. cbn [andb]. unfold in_session. by rewrite Hrun.
Qed.

Lemma ask_run {T} m d token u (e : Endpoint T) op r s : signed_in m d token u -> asked e = inr op ->
  auth_required (url (encode e)) = true -> bool_decide (url (encode e) ∈ L0_routes) = false ->
  handle m (ur_id u) op (mkTx d d []) = (Ret r, s) -> ask m d token e = (NetOk (body_of dump e r), committed s).
Proof.
  intros Hin Ha Hauth Hl0 Hrun. unfold ask. rewrite (serve_run m d token u (encode e) op r s); [done..| |done|done|done].
  by rewrite wire_agrees, Ha.
Qed.

Lemma replay_app moments h k : forall n d,
  replay moments n d (h ++ k) = replay moments (n + List.length h) (replay moments n d h) k.
Proof.
  induction h as [|[t r] h IH]; intros n d; [cbn; by rewrite Nat.add_0_r|].
  cbn [app replay List.length]. rewrite IH. f_equal. lia.
Qed.

(** The server of the front-end model is the back end after the history. *)
Lemma server_ask {T} moments d0 h token (e : Endpoint T) :
  backend_server dump moments d0 T h token e = (ask (moments (List.length h)) (replay moments 0 d0 h) token e).1.
Proof. unfold backend_server, ask. by destruct (serve _ _ _ _) as [a [d ml]]. Qed.

Lemma replay_ask {T} moments d0 h token (e : Endpoint T) :
  replay moments 0 d0 (h ++ [(token, encode e)]) = (ask (moments (List.length h)) (replay moments 0 d0 h) token e).2.
Proof. rewrite replay_app. cbn [replay]. unfold ask. by destruct (serve _ _ _ _) as [a [d ml]]. Qed.

(** ** Rights *)

(** Who may change an open iteration, and who may see its drafts. *)
Definition may_edit (d : Db) (it : IterationRow) (u : UserRow) : bool :=
  (ur_level u =? 0)%Z || (ir_creator it =? ur_id u)%Z ||
  match tget (services d) (ir_service it) with Some s => owned_by (ur_id u) s | None => false end.
Definition may_see (d : Db) (it : IterationRow) (u : UserRow) : bool :=
  may_edit d it u || match tget (services d) (ir_service it) with Some s => maintains (Some u) s | None => false end.

Lemma permission_run d i it u s : db_ok d -> work s = d -> tget (iterations d) i = Some it ->
  ir_committed it = false -> tget (users d) (ur_id u) = Some u -> may_edit d it u = true ->
  checkServiceIterationPermission i (ur_id u) s = (Ret (inl (it, Some u)), s).
Proof.
  intros Hd Hw Hit Hc Hu He. destruct (service_of_iteration d Hd i it Hit) as [sv Hs].
  unfold checkServiceIterationPermission, get_user.
  repeat step. rewrite Hw, Hit. cbv iota beta. rewrite Hc. repeat step. rewrite Hw, Hu, Hs. repeat step.
  unfold may_edit in He. rewrite Hs in He. unfold owned_by in He.
  destruct (sr_owner sv =? ur_id u)%Z, (ir_creator it =? ur_id u)%Z, (ur_level u =? 0)%Z; done.
Qed.

Lemma with_iteration_run d i it u k s : db_ok d -> work s = d -> tget (iterations d) i = Some it ->
  ir_committed it = false -> tget (users d) (ur_id u) = Some u -> may_edit d it u = true ->
  with_iteration i (ur_id u) k s = k it (Some u) s.
Proof.
  intros Hd Hw Hit Hc Hu He. unfold with_iteration.
  by rewrite (bind_Ret _ _ _ _ _ (permission_run d i it u s Hd Hw Hit Hc Hu He)).
Qed.

(** Who may start an iteration. *)
Definition may_start (s : ServiceRow) (u : UserRow) : bool := (ur_level u =? 0)%Z || owned_by (ur_id u) s || maintains (Some u) s.

(** ** Saving a draft *)

(** The database once a draft has been saved. *)
Definition saved (time a : Z) (data : UpdateApiRequest) (d : Db) : Db :=
  let d1 := delete_draft_params a (on_drafts (tupdate a (touch time
    (set_api (upd_name data) (upd_method data) (upd_path data) (upd_description data) (upd_level data)))) d) in
  on_resp_drafts (fun t => with_block a None (map (input_tree ResponseParamDraft "") (FeTypes.resp_params data)) t)
    (on_req_drafts (fun t => with_block a None (map (input_tree RequestParamDraft "") (FeTypes.req_params data)) t) d1).

Definition sendable_data (data : UpdateApiRequest) : Prop :=
  Forall (sendable RequestParamDraft) (FeTypes.req_params data) /\ Forall (sendable ResponseParamDraft) (FeTypes.resp_params data).

Lemma received_as_sent place k p : well_typed place p = true -> place_class place = Some k -> as_received k p = p.
Proof.
  induction p as [p IH] using input_nested_ind. destruct p as [n t pl r df ds ex ac cs].
  cbn [well_typed input_children] in *. rewrite !andb_true_iff. intros [[[[->%bool_decide_eq_true _] _] Hdf] Hcs] Hk.
  cbn [as_received]. assert (E : match cs with Some l => Some (map (as_received k) l) | None => None end = cs).
  { destruct cs as [[|c cs]|]; [done| |done]. apply andb_true_iff in Hcs as [_ Hcs]. f_equal.
    rewrite <-(map_id (c :: cs)) at 2. apply map_ext_in. intros x Hx%list_elem_of_In. cbn [from_option id] in IH.
    rewrite Forall_forall in IH. change (forallb (well_typed place) (c :: cs) = true) in Hcs. rewrite forallb_forall in Hcs.
    apply IH; [done|by apply Hcs, list_elem_of_In|done]. }
  rewrite E. destruct place as [l|[c|]], k; try done; cbn [place_class] in Hk.
  - by case_bool_decide.
  - by rewrite (proj1 (bool_decide_eq_true _) Hdf).
Qed.

Lemma sendable_received k l : Forall (sendable k) l -> map (as_received k) l = l.
Proof.
  intros Hl. rewrite <-(map_id l) at 2. apply map_ext_in. intros p Hp%list_elem_of_In. rewrite Forall_forall in Hl.
  destruct (Hl p Hp) as (place & Hw & Hk). by eapply received_as_sent.
Qed.

Lemma with_draft_run d i it a row u k s : db_ok d -> work s = d -> tget (iterations d) i = Some it ->
  ir_committed it = false -> tget (users d) (ur_id u) = Some u -> may_edit d it u = true ->
  tget (drafts d) a = Some row -> ar_parent row = i -> with_draft i a (ur_id u) k s = k row s.
Proof.
  intros Hd Hw Hit Hc Hu He Hrow Hp. unfold with_draft. rewrite (with_iteration_run d i it) by done. repeat step.
  by rewrite Hw, Hrow, Hp, Z.eqb_refl.
Qed.

(** The row, and the parameters, once a draft has been saved. *)
Lemma saved_row time a data d row : tget (drafts d) a = Some row ->
  tget (drafts (saved time a data d)) a = Some (touch time
    (set_api (upd_name data) (upd_method data) (upd_path data) (upd_description data) (upd_level data)) row).
Proof.
  intros Hrow. change (drafts (saved time a data d)) with (tupdate a (touch time
    (set_api (upd_name data) (upd_method data) (upd_path data) (upd_description data) (upd_level data))) (drafts d)).
  rewrite tget_tupdate, Z.eqb_refl, Hrow; [done|]. intros r. by apply touch_id.
Qed.

Lemma params_of_deleted t a : params_of (tdelete (fun r => (pr_api r =? a)%Z) t) a = [].
Proof.
  apply filter_none. intros r [_ Hr]%elem_of_tdelete. done.
Qed.

Lemma params_of_block t a ts : params_of (with_block a None ts (tdelete (fun r => (pr_api r =? a)%Z) t)) a =
  flat_list a None (next_id t) ts.
Proof.
  unfold params_of. rewrite (select_block a) by done.
  change (select ?t' _) with (params_of t' a). by rewrite params_of_deleted.
Qed.

Lemma saved_req time a data d : params_of (req_drafts (saved time a data d)) a =
  flat_list a None (next_id (req_drafts d)) (map (input_tree RequestParamDraft "") (FeTypes.req_params data)).
Proof. exact (params_of_block (req_drafts d) a _). Qed.
Lemma saved_resp time a data d : params_of (resp_drafts (saved time a data d)) a =
  flat_list a None (next_id (resp_drafts d)) (map (input_tree ResponseParamDraft "") (FeTypes.resp_params data)).
Proof. exact (params_of_block (resp_drafts d) a _). Qed.

Lemma saved_unique time i a data d row : committed_ok d -> tget (drafts d) a = Some row -> ar_parent row = i ->
  name_taken d i a (upd_method data) (upd_name data) = false -> unique_ok (saved time a data d) = true.
Proof.
  intros [Hd Hu%unique_ok_iff] Hrow Hp Hn. apply unique_ok_iff. split; try apply Hu.
  apply (renamed_draft_unique d Hd Hu i a row (upd_method data) (upd_name data)); done.
Qed.

(** The request that saves, run. *)
Definition update_of (i : Z) (data : UpdateApiRequest) : Operation :=
  updateApiByApiDraftId i (upd_draft_id data) (upd_name data) (method_name (upd_method data)) (upd_path data)
    (upd_description data) (level_name (upd_level data)) (FeTypes.req_params data) (FeTypes.resp_params data).

Lemma update_run m d i it u row data : committed_ok d -> tget (iterations d) i = Some it -> ir_committed it = false ->
  tget (users d) (ur_id u) = Some u -> may_edit d it u = true -> tget (drafts d) (upd_draft_id data) = Some row ->
  ar_parent row = i -> name_taken d i (upd_draft_id data) (upd_method data) (upd_name data) = false -> sendable_data data ->
  let d' := saved (now m) (upd_draft_id data) data d in
  handle m (ur_id u) (update_of i data) (mkTx d d []) = (Ret (success "Update api success" NoPayload), mkTx d' d' []).
Proof.
  intros Hok Hit Hc Hu He Hrow Hp Hn [Hrq Hrs] d'. pose proof Hok as [Hd _].
  cbn [handle update_of]. unfold apiUpdateApiByApiDraftId. rewrite (with_draft_run d i it _ row) by done.
  rewrite parse_method_name, parse_level_name. cbn [from_option]. unfold Datatypes.id. repeat step.
  erewrite run_in_table by apply process_params_run, sendable_storable, Hrq.
  erewrite run_in_table by apply process_params_run, sendable_storable, Hrs.
  rewrite run_commit; [done|]. by apply (saved_unique (now m) i _ data d row).
Qed.

(** What is shown of a draft. *)
Definition draft_detail (d : Db) (a : ApiRow) : FeTypes.ApiDetail :=
  api_detail_json d a (params_of (req_drafts d) (ar_id a)) (params_of (resp_drafts d) (ar_id a)).

(** Reading a draft, by someone who may. *)
Lemma draft_run m d u a row it : db_ok d -> tget (users d) (ur_id u) = Some u -> tget (drafts d) a = Some row ->
  tget (iterations d) (ar_parent row) = Some it -> may_see d it u = true ->
  handle m (ur_id u) (getApiById a false) (mkTx d d []) =
    (Ret (success "Get api success" (PApi (draft_detail d row))), mkTx d d []).
Proof.
  intros Hd Hu Hrow Hit Hs. unfold draft_detail. replace (ar_id row) with a by (symmetry; apply (tget_Some _ _ _ Hrow)).
  destruct (service_of_iteration d Hd _ it Hit) as [sv Hsv].
  cbn [handle]. unfold apiGetApiById. repeat step. unfold Datatypes.id. rewrite Hrow, Hu.
  unfold may_see, may_edit in Hs. rewrite Hsv in Hs. unfold sees_draft. rewrite Hit.
  destruct (ur_level u =? 0)%Z; repeat step; [done|]. rewrite Hsv. repeat step. cbn [orb] in Hs.
  assert (E : (ir_creator it =? ur_id u)%Z || maintains (Some u) sv || owned_by (ur_id u) sv = true)
    by (destruct (ir_creator it =? ur_id u)%Z, (maintains (Some u) sv), (owned_by (ur_id u) sv); done).
  by rewrite E.
Qed.

(** What is shown is what was saved, but for the ids the parameters are given. *)
Record shows (data : UpdateApiRequest) (api : FeTypes.ApiDetail) : Prop := mkShows {
  shows_name : api_name (detail_api api) = upd_name data;
  shows_method : api_method (detail_api api) = upd_method data;
  shows_path : api_path (detail_api api) = upd_path data;
  shows_description : api_description (detail_api api) = Some (upd_description data);
  shows_level : api_level (detail_api api) = Some (upd_level data);
  shows_requests : forall l,
    map forget_ids <$> obj_get (default [] (request_params_by_location api)) (location_name l) =
    Some (map as_param (List.filter (fun p => bool_decide (input_place p = AtLocation (location_name l))) (FeTypes.req_params data)));
  shows_responses : forall c,
    default [] (map forget_ids <$> obj_get (default [] (response_params_by_status_code api)) (show_int c)) =
    map as_param (List.filter (fun p => bool_decide (input_place p = AtStatus (Some c))) (FeTypes.resp_params data))
}.

Lemma touched {K} (f : ApiRow -> K) time g a : (forall x, f (set_updated time x) = f x) -> f (touch time g a) = f (g a).
Proof. intros Hf. unfold touch. case_bool_decide as E; [by rewrite E|apply Hf]. Qed.

Lemma saved_shown time data d row : sendable_data data -> ar_id row = upd_draft_id data ->
  shows data (draft_detail (saved time (upd_draft_id data) data d) (touch time
    (set_api (upd_name data) (upd_method data) (upd_path data) (upd_description data) (upd_level data)) row)).
Proof.
  intros [Hrq Hrs] Hid. unfold draft_detail. rewrite (touched ar_id) by done. cbn [set_api ar_id].
  rewrite Hid, saved_req, saved_resp.
  split; cbn [detail_api api_detail_json request_params_by_location response_params_by_status_code from_option].
  1-5: unfold api_json; cbn [api_name api_method api_path api_description api_level].
  - by rewrite (touched ar_name).
  - by rewrite (touched ar_method).
  - by rewrite (touched ar_path).
  - by rewrite (touched ar_description).
  - by rewrite (touched ar_level).
  - intros l. by apply saved_requests_read.
  - intros c. by apply saved_responses_read.
Qed.

(** The second of two requests finds what the first has left. *)
Lemma next_answer {T T'} moments d0 h token token' (e : Endpoint T) (e' : Endpoint T') :
  let d := replay moments 0 d0 h in
  backend_server dump moments d0 T h token e = (ask (moments (List.length h)) d token e).1 /\
  backend_server dump moments d0 T' (h ++ [(token, encode e)]) token' e' =
    (ask (moments (S (List.length h))) (ask (moments (List.length h)) d token e).2 token' e').1.
Proof.
  split; [apply server_ask|]. rewrite server_ask, replay_ask, List.length_app. cbn [List.length].
  by rewrite Nat.add_1_r.
Qed.

End EndToEnd.

(** The history of [BackendSafety], answered by libraries with axios's encoding. *)
Definition sample_state : Db := @replay sample_isoformat sample_client (fun _ => sample_moment) 0 empty_db sample_history.
Definition sample_user : UserRow := default (mkUserRow 0 "" "" "" "" "" 0 0) (tget (users sample_state) 1).
Definition sample_draft : ApiRow := default (mkApiRow 0 0 0 None "" GET "" None P0 false 0 0) (tget (drafts sample_state) 1).
Definition sample_iteration : IterationRow := default (mkIterationRow 0 0 0 None None true) (tget (iterations sample_state) 1).
Definition sample_param (place : InputPlace) (name type : string) (children : option (list ParamInput)) : ParamInput :=
  mkParamInput name type place true None None None None children.
Definition sample_data : UpdateApiRequest :=
  mkUpdateApiRequest 1 "order" POST "/orders/{id}" "places an order" P1
    [sample_param (AtLocation "path") "id" "int" None;
     sample_param (AtLocation "body") "lines" "object" (Some [sample_param (AtLocation "body") "sku" "string" None])]
    [sample_param (AtStatus (Some 200%Z)) "ok" "boolean" None].

Lemma sample_data_sendable : sendable_data sample_data.
Proof.
  split; repeat constructor.
  - by exists (AtLocation "path").
  - by exists (AtLocation "body").
  - by exists (AtStatus (Some 200%Z)).
Qed.

