(* ===== verification/Answers.v ===== *)
(** * How the back end answers a page

    A page of the front-end sends its requests one after the other to the back end;
    [answered] says what can come of one: it is accepted and has an effect, it is
    refused, or it fails, and then nothing has changed.  [leaves] states the effect
    of a handler that answers with success. *)

From S2P Require Import Prelude Tables JsObject ApiTypes FeTypes FeHttp Database ParamStore Openapi Backend Transaction.
From S2P Require Import BackendUser BackendService BackendApi BackendRoutes Integrity BackendSafety Failures Wire EndToEnd.
From Stdlib Require Import String ZArith Lia.

(** ** What the handlers leave when they succeed *)

(** If [m] returns, then with [Q]. *)
Definition returns {A} (m : TX A) (s : Tx) (Q : A -> Tx -> Prop) : Prop :=
  match m s with (Ret a, s') => Q a s' | _ => True end.

Lemma returns_bind {A B} (m : TX A) (f : A -> TX B) s (Q : B -> Tx -> Prop) :
  returns m s (fun a s' => returns (f a) s' Q) -> returns (m ≫= f) s Q.
Proof. unfold returns, mbind, M_bind. by destruct (m s) as [[a|e|e] s']. Qed.
Lemma returns_ret {A} (a : A) s (Q : A -> Tx -> Prop) : Q a s -> returns (mret a) s Q.
Proof. done. Qed.
Lemma returns_raise {A} n t s (Q : A -> Tx -> Prop) : returns (raise n t) s Q.
Proof. done. Qed.
Lemma returns_read {A} (f : Db -> A) s (Q : A -> Tx -> Prop) : Q (f (work s)) s -> returns (read f) s Q.
Proof. done. Qed.
Lemma returns_write f s (Q : unit -> Tx -> Prop) : Q tt (mkTx (f (work s)) (committed s) (outbox s)) -> returns (write f) s Q.
Proof. done. Qed.
Lemma returns_send m s (Q : unit -> Tx -> Prop) : Q tt (mkTx (work s) (committed s) (outbox s ++ [m])) -> returns (send_email m) s Q.
Proof. done. Qed.
Lemma returns_commit s (Q : unit -> Tx -> Prop) : Q tt (mkTx (work s) (work s) (outbox s)) -> returns commit s Q.
Proof. unfold returns, commit. by destruct (unique_ok _). Qed.
Lemma returns_deref {A} (o : option A) t s (Q : A -> Tx -> Prop) : (forall a, o = Some a -> Q a s) -> returns (deref o t) s Q.
Proof. destruct o as [a|]; intros HQ; [by apply HQ|done]. Qed.
Lemma returns_and_not_L0 b u s (Q : bool -> Tx -> Prop) : (forall b', Q b' s) -> returns (and_not_L0 b u) s Q.
Proof. intros HQ. destruct b, u; try apply HQ; done. Qed.
Lemma returns_in_table {A} get put (m : M (table ParamRow) A) s (Q : A -> Tx -> Prop) :
  (forall a t, Q a (mkTx (put (fun _ => t) (work s)) (committed s) (outbox s))) -> returns (in_table get put m) s Q.
Proof. intros HQ. unfold returns, in_table. destruct (m _) as [[a|e|e] t]; [apply HQ|done..]. Qed.
Lemma returns_each {A} (body : A -> TX unit) (R : Tx -> Prop) l s (Q : unit -> Tx -> Prop) : R s ->
  (forall x s', R s' -> returns (body x) s' (fun _ => R)) -> (forall s', R s' -> Q tt s') -> returns (each body l) s Q.
Proof.
  intros HR Hb HQ. revert s HR. induction l as [|x l IH]; intros s HR; [by apply HQ|]. cbn [each]. apply returns_bind.
  specialize (Hb x s HR). unfold returns in *. by destruct (body x s) as [[[]|e|e] s']; [apply IH| |].
Qed.

Ltac returns := repeat (cbv beta zeta; first
  [ apply returns_ret | apply returns_raise | apply returns_bind | apply returns_read | apply returns_write | apply returns_send
  | apply returns_commit | apply returns_deref; intros ? ? | apply returns_and_not_L0; intros ? | apply returns_in_table; intros ? ?
  | match goal with |- returns (match ?o with _ => _ end) _ _ => destruct o eqn:? end ]; cbn [work committed outbox]).

(** What a handler leaves in the database when it answers with success. *)
Definition leaves (m : TX Reply) (d : Db) (Q : Payload -> Db -> Prop) : Prop :=
  returns m (mkTx d d []) (fun r s => reply_status r = Some 200%Z -> Q (reply_payload r) (committed s)).

Lemma leaves_impl m d (Q Q' : Payload -> Db -> Prop) : leaves m d Q -> (forall p d', Q p d' -> Q' p d') -> leaves m d Q'.
Proof. unfold leaves, returns. intros Hm HQ. destruct (m _) as [[r|x|x] s]; auto. Qed.

Ltac leaves := unfold leaves, get_user; returns; try by intros [=].

Section Answers.
Context `{!Isoformat, !Libraries, !AxiosQuery}.
Context (dump : Document -> string).

(** ** What the front-end is answered *)

Lemma asked_refusal {T} (e : Endpoint T) code : asked e = inl code -> code <> 401%Z.
Proof.
  destruct e; cbn [asked]; unfold needs, needs_text; repeat case_match; by intros [= <-].
Qed.

(** A request by somebody signed in: accepted, with an effect; refused, or failed,
    without. *)
Definition answered {T} (d : Db) (eff : T -> Db -> Prop) (a : net (Response T)) (d' : Db) : Prop :=
  match a with
  | NetOk res => (status res = 200%Z /\ eff (payload res) d') \/ (status res <> 200%Z /\ d' = d)
  | NetErr network code _ => network = false /\ code <> Some 401%Z /\ d' = d
  end.

Lemma ask_answered {T} m d token u (e : Endpoint (Response T)) (eff : T -> Db -> Prop) : committed_ok d ->
  signed_in m d token u -> auth_required (url (encode e)) = true -> bool_decide (url (encode e) ∈ L0_routes) = false ->
  (forall r, status (body_of dump e r) = default 0%Z (reply_status r)) ->
  (forall op, asked e = inr op -> leaves (handle m (ur_id u) op) d (fun p d' =>
     forall msg, eff (payload (body_of dump e (mkReply (Some 200%Z) msg p))) d')) ->
  answered d eff (ask dump m d token e).1 (ask dump m d token e).2.
Proof.
  intros Hd [Ht Hu] Hauth Hl0 Hbody Heff. pose proof (serve_cases m d token (encode e) Hd) as Hc. unfold ask, serve in *.
  rewrite wire_agrees, Hauth in *. unfold authenticate in *. rewrite Ht, Hu, Hl0 in *. cbn [andb] in *.
  destruct (asked e) as [code|op] eqn:Ea; cbn [fst snd received].
  { split; [done|]. split; [|done]. intros [= Hcode]. by apply (asked_refusal e code). }
  specialize (Heff op eq_refl). unfold leaves, returns, in_session in *.
  destruct (handle m (ur_id u) op (mkTx d d [])) as [[r|x|x] [w c ml]]; cbn [fst snd committed outbox received] in *.
  - unfold answered. rewrite Hbody. destruct r as [[n|] msg p]; cbn [reply_status reply_payload default from_option] in *; unfold Datatypes.id.
    + destruct (decide (n = 200%Z)) as [->|Hn]; [left; split; [done|by apply Heff]|right]. split; [done|].
      destruct Hc as [[= ->]|]; done.
    + right. split; [done|]. by destruct Hc.
  - destruct Hc as [-> _]. by repeat split.
  - destruct Hc as [-> _]. by repeat split.
Qed.

(** A request that reads. *)
Lemma read_answered {T} moments d0 d h token (e : Endpoint T) a : replay moments 0 d0 h = d ->
  ask dump (moments (List.length h)) d token e = (a, d) ->
  backend_server dump moments d0 T h token e = a /\ replay moments 0 d0 (h ++ [(token, encode e)]) = d.
Proof. intros <- Ha. by rewrite (server_ask dump), (replay_ask dump), Ha. Qed.

(** ** A page of somebody signed in *)

Section Page.
Context (moments : nat -> Moment) (d0 : Db) (u : UserRow).
Notation server := (backend_server dump moments d0).
Notation db b := (replay moments 0 d0 (sent b)).
Notation tok b := (getAccessToken b).

(** The database is sound, and the token stored is the user's at all times. *)
Definition live_session (b : Browser) : Prop := committed_ok (db b) /\ forall n, signed_in (moments n) (db b) (tok b) u.

Lemma live_same b b' : sent b' = sent b -> access_token b' = access_token b -> live_session b -> live_session b'.
Proof. intros Hs Ht. unfold live_session, getAccessToken. by rewrite Hs, Ht. Qed.

(** After one more request, which left the users as they were. *)
Lemma live_next {T} (e : Endpoint T) b b' (b1 := with_sent (tok b, encode e) b) : live_session b ->
  sent b' = sent b1 -> access_token b' = access_token b1 -> users (db b1) = users (db b) -> live_session b'.
Proof.
  intros [Hd Hin] Hs Ha Hu. apply (live_same b1); [done..|]. split.
  - unfold b1. cbn [with_sent sent]. rewrite replay_app. by apply replay_ok.
  - intros n. destruct (Hin n) as [Htok Hg]. split; [exact Htok|by rewrite Hu].
Qed.

(** A request of the page: what it is answered, and what is left. *)
Lemma request_answered {S T} (e : Endpoint (Response T)) (eff : T -> Db -> Prop) (s : Fe S) : live_session (browser s) ->
  auth_required (url (encode e)) = true -> bool_decide (url (encode e) ∈ L0_routes) = false ->
  (forall r, status (body_of dump e r) = default 0%Z (reply_status r)) ->
  (forall m op, asked e = inr op -> leaves (handle m (ur_id u) op) (db (browser s)) (fun p d' =>
     forall msg, eff (payload (body_of dump e (mkReply (Some 200%Z) msg p))) d')) ->
  let b := with_sent (tok (browser s), encode e) (browser s) in
  let d' := replay moments 0 d0 (sent b) in
  (exists res, request server e s = (Ret res, mkFe b (hook s)) /\ status res = 200%Z /\ eff (payload res) d') \/
  (exists res, request server e s = (Ret res, mkFe b (hook s)) /\ status res <> 200%Z /\ d' = db (browser s)) \/
  (exists err, request server e s = (Throw err, mkFe b (hook s)) /\ d' = db (browser s)).
Proof.
  intros [Hd Hin] Hauth Hl0 Hst Heff b d'. set (m := moments (List.length (sent (browser s)))).
  pose proof (ask_answered m (db (browser s)) (tok (browser s)) u e eff Hd (Hin _) Hauth Hl0 Hst (Heff m)) as Ha.
  unfold m in Ha. rewrite <-(server_ask dump), <-(replay_ask dump) in Ha.
  change (replay moments 0 d0 (sent (browser s) ++ [(tok (browser s), encode e)])) with d' in Ha.
  destruct (server _ (sent (browser s)) (tok (browser s)) e) as [res|n code msg] eqn:E; cbn [answered] in Ha.
  - pose proof (fe_request_NetOk (H := S) server e s res E) as Hr. fold b in Hr.
    destruct Ha as [[Hs He]|[Hs He]]; [left|right; left]; by exists res.
  - right; right. destruct Ha as (-> & Hc & He). unfold request. rewrite E. cbn [orb].
    rewrite bool_decide_eq_false_2 by done. by eexists.
Qed.

End Page.
End Answers.
