(* ===== verification/Releases.v ===== *)
(** * What an iteration releases

    Starting an iteration copies the APIs of its service as drafts; committing one
    replaces the APIs of the service by its drafts.  [shown] is what a side shows
    of a parent, without ids: the rows and the trees of their parameters. *)

From S2P Require Import Prelude Tables JsNumber JsObject ApiTypes FeTypes Database ParamStore Openapi Backend.
From S2P Require Import Transaction BackendUser BackendService BackendApi Integrity Copies FeHttp BackendRoutes.
From S2P Require Import BackendSafety Failures Wire EndToEnd.
From Stdlib Require Import Ascii String ZArith Lia.

(** ** What is shown of a service, or of an iteration *)

Definition content (a : ApiRow) :=
  (ar_owner a, ar_category a, ar_name a, ar_method a, ar_path a, ar_description a, ar_level a, ar_enabled a).
Definition shown_api (s : Side) (d : Db) (a : ApiRow) :=
  (content a, trees (s_req s d) (ar_id a), trees (s_resp s d) (ar_id a)).
Definition children (s : Side) (d : Db) (parent : Z) : list ApiRow :=
  select (s_apis s d) (fun a => (ar_parent a =? parent)%Z).
Definition shown (s : Side) (d : Db) (parent : Z) := map (shown_api s d) (children s d parent).

Lemma filter_all {A} (f : A -> bool) l : (forall x, x ∈ l -> f x = true) -> List.filter f l = l.
Proof. intros Hl. apply forallb_filter_id, forallb_forall. intros x Hx. by apply Hl, list_elem_of_In. Qed.

Lemma copies_parent now parent n l a : a ∈ copies now parent n l -> ar_parent a = parent.
Proof.
  revert n. induction l as [|x l IH]; intros n; [by intros ?%not_elem_of_nil|].
  cbn [copies]. rewrite elem_of_cons. intros [->|Ha]; [done|by eapply IH].
Qed.

Section Copied.
Context (from to : Side) (now parent : Z) (l : list ApiRow) (d d' : Db).
Hypothesis Hcopied : all_copied from to now parent l d d'.

(** A parent that had none shows what was copied. *)
Lemma copied_shown : (forall a, a ∈ rows (s_apis to d) -> ar_parent a <> parent) ->
  shown to d' parent = map (shown_api from d) l.
Proof.
  intros Hnone. destruct Hcopied as [E Hreq Hresp _]. unfold shown, children, select. rewrite E. cbn [rows].
  rewrite List.filter_app, filter_none, filter_all.
  2: { intros a Ha. by rewrite (copies_parent _ _ _ _ _ Ha), Z.eqb_refl. }
  2: { intros a Ha. by apply Z.eqb_neq, Hnone. }
  cbn [app]. apply list_eq. intros j. rewrite !list_lookup_fmap, copies_lookup.
  destruct (l !! j) as [a|] eqn:Ej; [|done]. cbn. f_equal. unfold shown_api. cbn [copy_row ar_id].
  by rewrite (Hreq j a Ej), (Hresp j a Ej).
Qed.

(** Other parents show what they showed. *)
Lemma others_shown p : table_ok (s_apis to d) -> p <> parent -> shown to d' p = shown to d p.
Proof.
  intros Hok Hne. destruct Hcopied as [E _ _ [Oq Os _ _]]. unfold shown, children, select. rewrite E. cbn [rows].
  rewrite List.filter_app, (filter_none _ (copies _ _ _ _)), app_nil_r.
  2: { intros a Ha. rewrite (copies_parent _ _ _ _ _ Ha). by apply Z.eqb_neq. }
  apply map_ext_in. intros a [Ha _]%filter_In. apply list_elem_of_In in Ha. unfold shown_api.
  assert (Hhas : has (s_apis to d) (ar_id a)) by (eexists; by apply (tget_unique _ a)).
  by rewrite Oq, Os.
Qed.
End Copied.

(** What the deletion of a service's APIs leaves of the others. *)
Lemma deleted_params t s d p : p <> s -> table_ok (db_apis d) -> forall a, a ∈ apis_of d p ->
  params_of (tdelete (fun r => bool_decide (pr_api r ∈ map ar_id (apis_of d s))) t) (ar_id a) = params_of t (ar_id a).
Proof.
  intros Hne Hok a [Ha Hp%Z.eqb_eq]%elem_of_select. unfold params_of, select. cbn [tdelete rows].
  induction (rows t) as [|r l IH]; [done|]. cbn [List.filter]. destruct (bool_decide _) eqn:Eg; cbn [negb List.filter].
  - rewrite IH. destruct (Z.eqb_spec (pr_api r) (ar_id a)) as [E|]; [|done].
    apply bool_decide_eq_true, list_elem_of_fmap in Eg as (b & Eb & [Hb Hps%Z.eqb_eq]%elem_of_select).
    rewrite E in Eb. pose proof (tget_unique _ _ Hok Ha) as Ga. pose proof (tget_unique _ _ Hok Hb) as Gb.
    change (id_of a) with (ar_id a) in Ga. change (id_of b) with (ar_id b) in Gb. rewrite Eb, Gb in Ga. congruence.
  - destruct (pr_api r =? ar_id a)%Z; by rewrite IH.
Qed.

Lemma delete_apis_shown s p d : p <> s -> table_ok (db_apis d) ->
  shown released_side (delete_apis s d) p = shown released_side d p.
Proof.
  intros Hne Hok. unfold shown.
  assert (E : children released_side (delete_apis s d) p = children released_side d p).
  { unfold children, select. cbn [released_side s_apis delete_apis on_apis db_apis tdelete rows on_req_params on_resp_params].
    induction (rows (db_apis d)) as [|a l IH]; [done|]. cbn [List.filter].
    destruct (Z.eqb_spec (ar_parent a) s) as [->|]; cbn [negb List.filter]; [|by rewrite IH].
    by rewrite IH, (proj2 (Z.eqb_neq _ _) (not_eq_sym Hne)). }
  rewrite E. apply map_ext_in. intros a Ha%list_elem_of_In. unfold shown_api, trees.
  cbn [released_side s_req s_resp delete_apis on_apis on_req_params on_resp_params req_params resp_params].
  by rewrite !(deleted_params _ s d p Hne Hok a Ha).
Qed.

(** ** The two handlers, run *)

Section Runs.
Context `{!Isoformat, !Libraries}.

Definition new_iteration (service creator i : Z) : IterationRow := mkIterationRow i service creator None None false.

(** The database with the new iteration, before the copies. *)
Definition opened (service creator : Z) (d : Db) : Db := on_iterations (tadd (new_iteration service creator)) d.

Lemma opened_ok s u d : db_ok d -> has (services d) s -> has (users d) u ->
  first_row (iterations d) (open_iteration s u) = None ->
  db_ok (opened s u d) /\ tget (iterations (opened s u d)) (next_id (iterations d)) = Some (new_iteration s u (next_id (iterations d))).
Proof.
  intros Hd Hs Hu Hopen. split.
  - apply add_iteration_ok; [done| |by apply first_row_None|done]. split; [done|]. split; [done|]. by split; [|intros []].
  - cbn [opened on_iterations iterations]. rewrite tget_tadd; [by rewrite Z.eqb_refl|done|]. apply (ok_iterations d Hd).
Qed.

Lemma iteration_start_run m d u s sv : committed_ok d -> tget (users d) (ur_id u) = Some u -> tget (services d) s = Some sv ->
  may_start sv u = true -> first_row (iterations d) (open_iteration s (ur_id u)) = None ->
  let n := next_id (iterations d) in
  exists d' ml, handle m (ur_id u) (startIteration s) (mkTx d d []) =
    (Ret (success "Start service iteration success" (PIterationId n)), mkTx d' d' ml) /\ db_ok d' /\
    all_copied released_side drafted_side (now m) n (apis_of d s) (opened s (ur_id u) d) d'.
Proof.
  intros [Hd Hun%unique_ok_iff] Hu Hs Hm Hopen n.
  destruct (opened_ok s (ur_id u) d Hd ltac:(by eexists) ltac:(by eexists) Hopen) as [H1 Hit].
  destruct (ends_run (each (draft_of_api (now m) n) (apis_of d s)) (opened s (ur_id u) d) d [] _
    (start_rounds _ _ (now m) n _ (apis_of d s) _ H1 Hit
      ltac:(intros a [Ha Hp%Z.eqb_eq]%elem_of_select; by split))) as ([] & d' & ml & Erun & Hd' & Hc).
  exists d', ml. split; [|done]. cbn [handle]. unfold serviceStartIteration. repeat step. rewrite Hs. repeat step.
  unfold get_user. repeat step. rewrite Hu. repeat step.
  assert (E : negb (owned_by (ur_id u) sv) && negb (maintains (Some u) sv) && negb (ur_level u =? 0)%Z = false).
  { unfold may_start in Hm. by destruct (ur_level u =? 0)%Z, (owned_by (ur_id u) sv), (maintains (Some u) sv). }
  rewrite E. repeat step. rewrite Hopen. repeat step.
  change (apis_of _ s) with (apis_of d s). rewrite (bind_Ret _ _ _ _ _ Erun).
  rewrite run_commit; [done|]. apply unique_ok_iff.
  by apply (started_unique d Hd Hun (now m) s (opened s (ur_id u) d)).
Qed.

(** The database with the service released and its APIs gone, before the copies. *)
Definition emptied (service : Z) (version : string) (description : option string) (d : Db) : Db :=
  delete_apis service (on_services (tupdate service (set_released version description)) d).

Lemma emptied_ok s v t d : db_ok d -> db_ok (emptied s v t d).
Proof.
  intros Hd. apply delete_apis_ok, update_service_ok; [done| |done]. by intros r _ (Ho & Hm & Hnd & Hdel).
Qed.

Lemma commit_run m d u i it sv v : committed_ok d -> tget (users d) (ur_id u) = Some u -> tget (iterations d) i = Some it ->
  ir_committed it = false -> may_edit d it u = true -> tget (services d) (ir_service it) = Some sv -> v <> sr_version sv ->
  let s := ir_service it in
  exists d2 ml, let d' := on_iterations (tupdate i (set_committed v)) d2 in
    handle m (ur_id u) (commitIteration i v) (mkTx d d []) =
    (Ret (success "Commit service iteration success" (PCommitted s i v)), mkTx d' d' ml) /\ db_ok d' /\
    all_copied drafted_side released_side (now m) s (drafts_of d i) (emptied s v (ir_description it) d) d2.
Proof.
  intros [Hd Hun%unique_ok_iff] Hu Hit Hc He Hs Hv s. pose proof (emptied_ok s v (ir_description it) d Hd) as H1.
  pose proof (tget_Some _ _ _ Hs) as [_ Es]. change (sr_id sv = s) in Es.
  assert (Hsv : has (services (emptied s v (ir_description it) d)) s).
  { apply (keeps_has (fun _ => tt) (services d)); [by apply keeps_tupdate|]. by exists sv. }
  destruct (ends_run (each (api_of_draft (now m) s) (drafts_of d i)) (emptied s v (ir_description it) d) d [] _
    (commit_rounds _ _ (now m) s (drafts_of d i) _ H1 Hsv
      ltac:(intros a [Ha Hp%Z.eqb_eq]%elem_of_select; exists it; by rewrite Hp))) as ([] & d2 & ml & Erun & Hd2 & Hcp).
  assert (Hun2 : unique d2) by by apply (released_unique d Hun (now m) s v (ir_description it) i).
  set (d' := on_iterations (tupdate i (set_committed v)) d2).
  assert (Hd' : db_ok d').
  { apply update_iteration_ok; [done| |done|done]. intros r (Hr1 & Hr2 & _). split; [|done]. split; [done|]. split; [done|]. by split. }
  destruct (owner_of_service d Hd _ _ Hs) as [o Ho].
  assert (Ho' : tget (users d') (sr_owner sv) = Some o).
  { change (users d') with (users d2). by rewrite (same_users _ _ (copied_base _ _ _ _ (old_trees _ _ _ _ _ _ _ Hcp))). }
  exists d2, (ml ++ [release_mail o u (omap (tget (users d')) (sr_maintainers sv)) (sr_uuid sv) v]). fold d'.
  split; [|done]. cbn [handle]. unfold serviceCommitIteration.
  rewrite (bind_Ret _ _ _ _ _ (permission_run d i it u (mkTx d d []) Hd eq_refl Hit Hc Hu He)). repeat step. rewrite Hs. repeat step.
  rewrite (proj2 (String.eqb_neq _ _) Hv), Es. repeat step. fold (emptied s v (ir_description it) d).
  change (drafts_of (emptied s v (ir_description it) d) i) with (drafts_of d i).
  rewrite (bind_Ret _ _ _ _ _ Erun). repeat step. fold d'. rewrite run_commit by (apply unique_ok_iff; by destruct Hun2).
  unfold get_user. repeat step. rewrite Ho'. by repeat step.
Qed.

(** ** What they leave *)

(** An iteration once it has been started. *)
Record started (d : Db) (service n : Z) (it : IterationRow) (d' : Db) : Prop := mkStarted {
  started_drafts : shown drafted_side d' n = shown released_side d service;
  started_others : forall p, p <> n -> shown drafted_side d' p = shown drafted_side d p;
  started_released : forall p, shown released_side d' p = shown released_side d p;
  started_iteration : tget (iterations d') n = Some it;
  started_users : users d' = users d;
  started_services : services d' = services d
}.

Lemma shown_from from to d d' p : copied from to d d' -> shown from d' p = shown from d p.
Proof. intros [_ _ (E1 & E2 & E3) _]. unfold shown, children, shown_api. by rewrite E1, E2, E3. Qed.

Lemma started_shown time s u d d' : db_ok d -> has (services d) s -> has (users d) u ->
  first_row (iterations d) (open_iteration s u) = None ->
  let n := next_id (iterations d) in
  all_copied released_side drafted_side time n (apis_of d s) (opened s u d) d' -> started d s n (new_iteration s u n) d'.
Proof.
  intros Hd Hs Hu Hopen n Hc. destruct (opened_ok s u d Hd Hs Hu Hopen) as [_ Hit].
  pose proof (old_trees _ _ _ _ _ _ _ Hc) as Hold. pose proof (copied_base _ _ _ _ Hold) as Hb.
  assert (Hnone : forall a, a ∈ rows (drafts d) -> ar_parent a <> n).
  { intros a Ha E. destruct (proj2 (ok_drafts d Hd) a Ha) as (_ & it & Hi & _). rewrite E in Hi.
    apply (next_is_new (iterations d)); [apply (ok_iterations d Hd)|by exists it]. }
  split.
  - by rewrite (copied_shown _ _ _ _ _ _ _ Hc).
  - intros p Hp. by rewrite (others_shown _ _ _ _ _ _ _ Hc p (proj1 (ok_drafts d Hd)) Hp).
  - intros p. by rewrite (shown_from _ _ _ _ _ Hold).
  - by rewrite (same_iterations _ _ Hb).
  - by rewrite (same_users _ _ Hb).
  - by rewrite (same_services _ _ Hb).
Qed.

(** A service once an iteration of it has been committed. *)
Record released_by (d : Db) (i : Z) (it : IterationRow) (sv : ServiceRow) (version : string) (d' : Db) : Prop := mkReleasedBy {
  released_apis : shown released_side d' (ir_service it) = shown drafted_side d i;
  released_others : forall p, p <> ir_service it -> shown released_side d' p = shown released_side d p;
  released_drafts : forall p, shown drafted_side d' p = shown drafted_side d p;
  released_service : tget (services d') (ir_service it) = Some (set_released version (ir_description it) sv);
  released_iteration : tget (iterations d') i = Some (set_committed version it)
}.

Lemma released_shown time d i it sv v d2 : db_ok d -> tget (iterations d) i = Some it ->
  tget (services d) (ir_service it) = Some sv ->
  all_copied drafted_side released_side time (ir_service it) (drafts_of d i) (emptied (ir_service it) v (ir_description it) d) d2 ->
  released_by d i it sv v (on_iterations (tupdate i (set_committed v)) d2).
Proof.
  intros Hd Hit Hs Hc. set (s := ir_service it) in *. set (d1 := emptied _ _ _ _) in *.
  pose proof (old_trees _ _ _ _ _ _ _ Hc) as Hold. pose proof (copied_base _ _ _ _ Hold) as Hb.
  assert (Hd1 : db_ok d1) by by apply emptied_ok.
  split; fold s.
  - apply (copied_shown _ _ _ _ _ _ _ Hc). intros a [_ Ha%Z.eqb_neq]%elem_of_tdelete. done.
  - intros p Hp. pose proof (others_shown _ _ _ _ _ _ _ Hc p (proj1 (ok_apis d1 Hd1)) Hp) as E.
    etrans; [exact E|]. by apply (delete_apis_shown s p (on_services (tupdate s (set_released v (ir_description it))) d)); [|apply (ok_apis d Hd)].
  - intros p. apply (shown_from _ _ _ _ _ Hold).
  - change (services (on_iterations _ d2)) with (services d2). rewrite (same_services _ _ Hb).
    change (services d1) with (tupdate s (set_released v (ir_description it)) (services d)).
    by rewrite tget_tupdate, Z.eqb_refl, Hs.
  - change (iterations (on_iterations ?f d2)) with (f (iterations d2)). rewrite (same_iterations _ _ Hb).
    change (iterations d1) with (iterations d). by rewrite tget_tupdate, Z.eqb_refl, Hit.
Qed.
End Runs.

(** ** Properties *)

Section Releases.
Context `{!Isoformat, !Libraries, !AxiosQuery}.
Context (dump : Document -> string).

(** C6. Committing an iteration releases exactly its drafts.  When a user who may
    edit an open iteration commits it under a version that differs from the
    service's, the request succeeds, and afterwards the service has the APIs of the
    iteration's drafts, in their order, each with the same owner, category, name,
    method, path, description, level and parameter trees; it carries the new version
    and the iteration's description; the iteration is the past version of that name
    and still shows its drafts; and no API of another service has changed. *)
Theorem commit_releases_drafts moments d0 h token u i it sv v :
  let d := replay moments 0 d0 h in
  let committing := CommitIteration i v in
  committed_ok d0 -> signed_in (moments (List.length h)) d token u ->
  tget (iterations d) i = Some it -> ir_committed it = false -> may_edit d it u = true ->
  tget (services d) (ir_service it) = Some sv -> v <> sr_version sv ->
  backend_server dump moments d0 _ h token committing =
    NetOk (mkResponse 200 "Commit service iteration success" tt) /\
  released_by d i it sv v (replay moments 0 d0 (h ++ [(token, encode committing)])).
Proof.
  intros d committing Hd0 Hin Hit Hc He Hs Hv. assert (Hd : committed_ok d) by by apply replay_ok.
  destruct (commit_run (moments (List.length h)) d u i it sv v Hd (signed_user _ _ _ _ Hin) Hit Hc He Hs Hv) as (d2 & ml & Erun & _ & Hcp).
  rewrite (server_ask dump), (replay_ask dump). fold d.
  rewrite (ask_run dump _ d token u committing _ _ _ Hin eq_refl eq_refl eq_refl Erun).
  split; [done|]. cbn [committed snd]. by apply (released_shown (now (moments (List.length h)))); [apply Hd|..].
Qed.

(** C7. An iteration that changes nothing releases what was there.  An L0 user, the
    owner or a maintainer of a service who has no open iteration of it starts one
    and commits it at once under a new version: both requests succeed, and the
    service has the APIs it had, in their order, with the parameter trees they had,
    as have all other services.  But its description is gone: the iteration was
    started without one. *)
Theorem unedited_iteration_releases_same moments d0 h token u s sv v :
  let d := replay moments 0 d0 h in
  let n := next_id (iterations d) in
  let server := backend_server dump moments d0 in
  let h' := h ++ [(token, encode (StartIteration (Some s)))] in
  let d' := replay moments 0 d0 (h' ++ [(token, encode (CommitIteration n v))]) in
  committed_ok d0 -> signed_in (moments (List.length h)) d token u ->
  jwt_decode (now (moments (S (List.length h)))) (default "" token) = Some (ur_id u) ->
  tget (services d) s = Some sv -> may_start sv u = true ->
  first_row (iterations d) (open_iteration s (ur_id u)) = None -> v <> sr_version sv ->
  server _ h token (StartIteration (Some s)) = NetOk (mkResponse 200 "Start service iteration success" n) /\
  server _ h' token (CommitIteration n v) = NetOk (mkResponse 200 "Commit service iteration success" tt) /\
  (forall p, shown released_side d' p = shown released_side d p) /\
  tget (services d') s = Some (set_released v None sv).
Proof.
  intros d n server h' d' Hd0 Hin Htok Hs Hm Hopen Hv. assert (Hd : committed_ok d) by by apply replay_ok.
  pose proof (signed_user _ _ _ _ Hin) as Hu.
  destruct (iteration_start_run (moments (List.length h)) d u s sv Hd Hu Hs Hm Hopen) as (d1 & ml1 & Erun1 & _ & Hc1).
  pose proof (started_shown _ s (ur_id u) d d1 (proj1 Hd) ltac:(by exists sv) ltac:(by exists u) Hopen Hc1) as [S1 S2 S3 S4 S5 S6].
  fold n in S1, S2, S4, Erun1.
  assert (E1 := ask_run dump _ d token u (StartIteration (Some s)) _ _ _ Hin eq_refl eq_refl eq_refl Erun1).
  cbn [committed] in E1. assert (Hd1 : replay moments 0 d0 h' = d1) by (unfold h'; rewrite (replay_ask dump); fold d; by rewrite E1).
  assert (Hok1 : committed_ok d1) by (rewrite <-Hd1; by apply replay_ok).
  assert (El : List.length h' = S (List.length h)) by (unfold h'; rewrite List.length_app; cbn; lia).
  assert (Hin1 : signed_in (moments (List.length h')) d1 token u) by (rewrite El; split; [done|by rewrite S5]).
  assert (Hs1 : tget (services d1) s = Some sv) by by rewrite S6.
  assert (He : may_edit d1 (new_iteration s (ur_id u) n) u = true).
  { unfold may_edit. cbn [new_iteration ir_creator]. rewrite Z.eqb_refl. by destruct (ur_level u =? 0)%Z. }
  destruct (commit_run (moments (List.length h')) d1 u n _ sv v Hok1 (signed_user _ _ _ _ Hin1) S4 eq_refl He Hs1 Hv) as (d2 & ml & Erun & _ & Hcp).
  pose proof (released_shown _ d1 n _ sv v d2 (proj1 Hok1) S4 Hs1 Hcp) as [R1 R2 R3 R4 _].
  cbn [new_iteration ir_service] in R1, R2.
  assert (E2 := ask_run dump _ d1 token u (CommitIteration n v) _ _ _ Hin1 eq_refl eq_refl eq_refl Erun).
  unfold server, d'. rewrite (server_ask dump _ _ h), (server_ask dump _ _ h'), (replay_ask dump), Hd1. fold d. rewrite E1, E2.
  split; [done|]. split; [done|]. split; [|exact R4]. cbn [committed snd]. intros p.
  destruct (Z.eq_dec p s) as [->|Hp]; [by rewrite R1, S1|by rewrite R2, S3].
Qed.
End Releases.

Definition sample_backend (h : list sent_request) : Db := @replay sample_isoformat sample_client (fun _ => sample_moment) 0 empty_db h.
Definition sample_service : ServiceRow := default (mkServiceRow 0 0 [] "" "" None 0 false None) (tget (services sample_state) 1).

Lemma commit_releases_drafts_witness :
  let d := sample_backend (sample_history ++ [(Some "1", encode (CommitIteration 1 "0.0.2"))]) in
  released_by sample_state 1 sample_iteration sample_service "0.0.2" d /\ List.length (shown released_side d 1) = 1%nat.
Proof.
  split; [|vm_compute; reflexivity].
  refine (proj2 (@commit_releases_drafts sample_isoformat sample_client sample_axios (fun _ => "") (fun _ => sample_moment) empty_db
    sample_history (Some "1") sample_user 1 sample_iteration sample_service "0.0.2" _ _ _ _ _ _ _)).
  - apply empty_db_ok.
  - split; vm_compute; reflexivity.
  - vm_compute; reflexivity.
  - vm_compute; reflexivity.
  - vm_compute; reflexivity.
  - vm_compute; reflexivity.
  - vm_compute; discriminate.
Defined.

(** The iteration of the history, released; then another, started and committed. *)
Definition released_history : list sent_request := sample_history ++ [(Some "1", encode (CommitIteration 1 "0.0.2"))].
Definition sample_released : ServiceRow := default sample_service (tget (services (sample_backend released_history)) 1).

Lemma unedited_iteration_releases_same_witness :
  let d := sample_backend ((released_history ++ [(Some "1", encode (StartIteration (Some 1%Z)))]) ++
    [(Some "1", encode (CommitIteration 2 "0.0.3"))]) in
  List.length (shown released_side d 1) = 1%nat /\
  (forall p, shown released_side d p = shown released_side (sample_backend released_history) p).
Proof.
  split; [vm_compute; reflexivity|].
  refine (proj1 (proj2 (proj2 (@unedited_iteration_releases_same sample_isoformat sample_client sample_axios (fun _ => "")
    (fun _ => sample_moment) empty_db released_history (Some "1") sample_user 1 sample_released "0.0.3" _ _ _ _ _ _ _)))).
  - apply empty_db_ok.
  - split; vm_compute; reflexivity.
  - vm_compute; reflexivity.
  - vm_compute; reflexivity.
  - vm_compute; reflexivity.
  - vm_compute; reflexivity.
  - vm_compute; discriminate.
Defined.
