(* ===== verification/Access.v ===== *)
(** * Who can change a service

    An insider of a service is a user of level L0, its owner, one of its maintainers
    or the creator of one of its iterations.  Requests with the tokens of others leave
    everything of the service as it is, and make nobody an insider. *)

From S2P Require Import Prelude Tables JsNumber JsObject ApiTypes FeTypes Database ParamStore Openapi Backend.
From S2P Require Import Transaction BackendUser BackendService BackendApi Integrity Copies FeHttp BackendRoutes.
From S2P Require Import BackendSafety Failures Wire EndToEnd Releases.
From Stdlib Require Import Ascii String ZArith Lia.

(** ** Rows that a change does not select *)

Section Select.
Context {R : Type} `{!HasId R}.
Implicit Types (t : table R) (q p : R -> bool).

Lemma select_tmap_same f t q : (forall r, r ∈ rows t -> q (f r) = q r /\ (q r = true -> f r = r)) -> select (tmap f t) q = select t q.
Proof.
  unfold select. cbn [tmap rows]. induction (rows t) as [|r l IH]; intros Hf; [done|]. cbn [map List.filter].
  destruct (Hf r ltac:(by left)) as [Hq Hr]. rewrite Hq, IH by (intros x Hx; apply Hf; by right).
  destruct (q r); [by rewrite Hr|done].
Qed.

Lemma select_tupdate_other i f t q : (forall r, tget t i = Some r -> q (f r) = false /\ q r = false) -> table_ok t ->
  select (tupdate i f t) q = select t q.
Proof.
  intros Hf Hok. rewrite tupdate_map. apply select_tmap_same. intros r Hr. destruct (Z.eqb_spec (id_of r) i) as [<-|]; [|done].
  destruct (Hf r) as [E1 E2]; [by apply tget_unique|]. by rewrite E1, E2.
Qed.

Lemma select_tdelete_other p t q : (forall r, r ∈ rows t -> p r = true -> q r = false) -> select (tdelete p t) q = select t q.
Proof.
  unfold select. cbn [tdelete rows]. induction (rows t) as [|r l IH]; intros Hp; [done|]. cbn [List.filter].
  assert (E : List.filter q (List.filter (fun r => negb (p r)) l) = List.filter q l) by (apply IH; intros x Hx; apply Hp; by right).
  destruct (p r) eqn:Er; cbn [negb List.filter]; rewrite E; [by rewrite Hp by (by left || done)|done].
Qed.

Lemma select_tadd_other make t q : q (make (next_id t)) = false -> select (tadd make t) q = select t q.
Proof. intros Hq. by rewrite select_tadd, Hq, app_nil_r. Qed.
End Select.

(** ** What belongs to a service *)

Definition iterations_of (d : Db) (s : Z) : list IterationRow := select (iterations d) (fun i => (ir_service i =? s)%Z).
Definition is_L0 (d : Db) (u : Z) : bool := match tget (users d) u with Some r => (ur_level r =? 0)%Z | None => false end.

Definition insider (d : Db) (s u : Z) : bool :=
  is_L0 d u ||
  match tget (services d) s with Some sv => owned_by u sv || maintained_by u sv | None => false end ||
  existsb (fun it => (ir_creator it =? u)%Z) (iterations_of d s).

(** The service and its categories, its APIs and the drafts of its iterations as they
    are shown; and who is of level L0. *)
Record untouched (s : Z) (d d' : Db) : Prop := mkUntouched {
  same_service : tget (services d') s = tget (services d) s;
  same_categories_of : categories_of d' s = categories_of d s;
  same_iterations_of : iterations_of d' s = iterations_of d s;
  same_apis : shown released_side d' s = shown released_side d s;
  same_drafts : forall it, it ∈ iterations_of d s -> shown drafted_side d' (ir_id it) = shown drafted_side d (ir_id it);
  same_levels : forall u, is_L0 d' u = is_L0 d u
}.

#[global] Instance untouched_preorder s : PreOrder (untouched s).
Proof.
  split; [by intros d; split|]. intros d1 d2 d3 [A1 A2 A3 A4 A5 A6] [B1 B2 B3 B4 B5 B6].
  split; [by rewrite B1|by rewrite B2|by rewrite B3|by rewrite B4| |intros u; by rewrite B6].
  intros it Hit. rewrite B5 by by rewrite A3. by apply A5.
Qed.

Lemma untouched_insider s d d' u : untouched s d d' -> insider d' s u = insider d s u.
Proof. intros [E1 _ E3 _ _ E6]. unfold insider. by rewrite E1, E3, E6. Qed.

Lemma shown_same side d d' p : children side d' p = children side d p ->
  (forall a, a ∈ children side d p -> params_of (s_req side d') (ar_id a) = params_of (s_req side d) (ar_id a) /\
    params_of (s_resp side d') (ar_id a) = params_of (s_resp side d) (ar_id a)) -> shown side d' p = shown side d p.
Proof.
  intros E Hp. unfold shown. rewrite E. apply map_ext_in. intros a Ha%list_elem_of_In. unfold shown_api, trees.
  by destruct (Hp a Ha) as [-> ->].
Qed.

(** ** Changes elsewhere *)

Section Outside.
Context `{!Isoformat, !Libraries}.
Context (m : Moment) (d : Db) (s me : Z).
Hypothesis Hd : db_ok d.
Hypothesis Hs : has (services d) s.
Hypothesis Hout : insider d s me = false.

Lemma outside_owner sv : tget (services d) s = Some sv -> owned_by me sv = false.
Proof. intros E. unfold insider in Hout. rewrite E, !orb_false_iff in Hout. tauto. Qed.

Lemma outside_level u : tget (users d) me = Some u -> (ur_level u =? 0)%Z = false.
Proof. intros E. unfold insider, is_L0 in Hout. rewrite E, !orb_false_iff in Hout. tauto. Qed.

Lemma outside_maintains sv : tget (services d) s = Some sv -> maintains (tget (users d) me) sv = false.
Proof.
  intros E. destruct (tget (users d) me) as [u|] eqn:Eu; [|done]. apply tget_Some in Eu as [_ Eu]. cbn. change (id_of u) with (ur_id u) in Eu.
  rewrite Eu. unfold insider in Hout. rewrite E, !orb_false_iff in Hout. tauto.
Qed.

Lemma outside_creator it i : tget (iterations d) i = Some it -> ir_service it = s -> (ir_creator it =? me)%Z = false.
Proof.
  intros [Hi _]%tget_Some E. unfold insider in Hout. rewrite !orb_false_iff in Hout. destruct Hout as [_ Hno].
  apply not_true_iff_false. intros Hc. apply not_true_iff_false in Hno. apply Hno, existsb_exists. exists it.
  split; [|done]. apply list_elem_of_In, elem_of_select. split; [done|by apply Z.eqb_eq].
Qed.

Local Notation ends := (ends (untouched s d) True).

(** A guard that refuses whoever is no insider of the service [x]. *)
Lemma ends_outside b x user (Q : bool -> Db -> Prop) : user = tget (users d) me -> (x = s -> b = true) -> Q true d ->
  (x <> s -> Q false d) -> ends (and_not_L0 b user) d Q.
Proof.
  intros Eu Hb Ht Hf. destruct (Z.eq_dec x s) as [E|Hne].
  - rewrite (Hb E). apply ends_not_L0; [done|]. intros u Hu. rewrite (outside_level u) by congruence. done.
  - apply ends_and_not_L0; [done|by intros _; apply Hf|]. intros u _ _. by destruct (negb _); auto.
Qed.

Ltac guarded :=
  match goal with
  | Hsv : tget (services d) ?x = Some ?sv |- Transaction.ends _ _ (and_not_L0 _ _) _ _ =>
      apply (ends_outside _ x); [done|intros E; rewrite E in Hsv; pose proof (outside_owner _ Hsv) as Ho;
        pose proof (outside_maintains _ Hsv) as Hm; unfold owned_by in *;
        repeat match goal with Hu : tget (users d) me = _ |- _ => rewrite Hu in Hm; clear Hu end; rewrite Ho, ?Hm;
        repeat match goal with Hi : tget (iterations d) _ = Some ?it |- _ => rewrite (outside_creator _ _ Hi E); clear Hi end;
        reflexivity| |intros Hx]
  end.
Ltac outside := repeat (cbv beta zeta; first [guarded | tx_step | match goal with |- untouched _ _ _ /\ _ => split end]);
  unfold Datatypes.id in *; try exact Logic.I.

(** One table changed. *)
Lemma users_untouched f : (forall u, is_L0 (on_users f d) u = is_L0 d u) -> untouched s d (on_users f d).
Proof. intros H'. by split. Qed.
Lemma services_untouched f : tget (f (services d)) s = tget (services d) s -> untouched s d (on_services f d).
Proof. intros H'. by split. Qed.
Lemma iterations_untouched f : select (f (iterations d)) (fun i => (ir_service i =? s)%Z) = iterations_of d s ->
  untouched s d (on_iterations f d).
Proof. intros H'. by split. Qed.
Lemma categories_untouched f : select (f (categories d)) (fun c => (cr_service c =? s)%Z) = categories_of d s ->
  untouched s d (on_categories f d).
Proof. intros H'. by split. Qed.

Lemma service_updated x f : x <> s -> keeps_id f -> untouched s d (on_services (tupdate x f) d).
Proof. intros Hx Hf. apply services_untouched. rewrite tget_tupdate by done. by destruct (Z.eqb_spec s x). Qed.

Lemma maintainer_outside x c : ends (handle m me (addOrRemoveServiceMaintainerById x c)) d (fun _ _ => True).
Proof. cbn [handle]. unfold serviceAddOrRemoveServiceMaintainerById. outside. by apply service_updated. Qed.
Lemma delete_service_outside x : ends (handle m me (deleteServiceById x)) d (fun _ _ => True).
Proof. cbn [handle]. unfold serviceDeleteServiceById. outside. by apply service_updated. Qed.
Lemma restore_service_outside x : ends (handle m me (restoreServiceById x)) d (fun _ _ => True).
Proof. cbn [handle]. unfold serviceRestoreServiceById. outside. by apply service_updated. Qed.
Lemma create_service_outside u t : ends (handle m me (createNewService u t)) d (fun _ _ => True).
Proof.
  cbn [handle]. unfold serviceCreateNewService. outside. apply services_untouched.
  rewrite tget_tadd by (done || apply (ok_services d Hd)). destruct (Z.eqb_spec s (next_id (services d))) as [->|]; [|done].
  by destruct (next_is_new (services d) (proj1 (ok_services d Hd))).
Qed.
Lemma register_outside u p n e r : ends (userRegister (now m) (salt m) u p n e r) d (fun _ _ => True).
Proof.
  unfold userRegister. outside. apply users_untouched. intros i. unfold is_L0. cbn [on_users users].
  rewrite tget_tadd by (done || apply (ok_users d Hd)). destruct (Z.eqb_spec i (next_id (users d))) as [->|]; [|done].
  destruct (tget (users d) (next_id (users d))) eqn:E; [|done]. destruct (next_is_new (users d)); [apply (ok_users d Hd)|by eexists].
Qed.
Lemma modify_password_outside o n : ends (handle m me (modifyPassword o n)) d (fun _ _ => True).
Proof.
  cbn [handle]. unfold userModifyPassword. outside. apply users_untouched. intros i. unfold is_L0. cbn [on_users users].
  rewrite tget_tupdate by done. destruct (i =? me)%Z; [|done]. by destruct (tget (users d) i).
Qed.

(** Iterations and categories of other services. *)
Lemma iteration_updated i f it : tget (iterations d) i = Some it -> ir_service it <> s ->
  (forall x, ir_service (f x) = ir_service x) -> untouched s d (on_iterations (tupdate i f) d).
Proof.
  intros Hi Hne Hf. apply iterations_untouched, select_tupdate_other; [|apply (ok_iterations d Hd)].
  intros r Hr. rewrite Hi in Hr. injection Hr as <-. rewrite Hf. split; by apply Z.eqb_neq.
Qed.

Lemma delete_iteration_outside i : ends (handle m me (deleteIterationById i)) d (fun _ _ => True).
Proof.
  cbn [handle]. unfold serviceDeleteIterationById. outside.
  match goal with E : tget (iterations d) i = Some ?x |- _ => rename E into Hi, x into it end.
  apply iterations_untouched, select_tdelete_other. intros r Hr Er%Z.eqb_eq.
  pose proof (tget_unique _ r (proj1 (ok_iterations d Hd)) Hr) as Hr'. change (id_of r) with (ir_id r) in Hr'. rewrite Er, Hi in Hr'.
  injection Hr' as <-. by apply Z.eqb_neq.
Qed.

Lemma with_iteration_outside i (k : IterationRow -> option UserRow -> TX Reply) :
  (forall it, tget (iterations d) i = Some it -> ir_service it <> s -> ends (k it (tget (users d) me)) d (fun _ _ => True)) ->
  ends (with_iteration i me k) d (fun _ _ => True).
Proof. intros Hk. unfold with_iteration, checkServiceIterationPermission. outside. by apply Hk. Qed.

Lemma with_draft_outside i a (k : ApiRow -> TX Reply) :
  (forall it r, tget (iterations d) i = Some it -> ir_service it <> s -> tget (drafts d) a = Some r -> ar_parent r = i ->
    ends (k r) d (fun _ _ => True)) ->
  ends (with_draft i a me k) d (fun _ _ => True).
Proof.
  intros Hk. apply with_iteration_outside. intros it Hi Hne. outside. eapply Hk; [done..|]. by apply Z.eqb_eq.
Qed.

Lemma description_outside i t : ends (handle m me (updateDescription i t)) d (fun _ _ => True).
Proof. apply with_iteration_outside. intros it Hi Hne. outside. by apply (iteration_updated i _ it). Qed.

Lemma add_category_outside x n t : ends (handle m me (addCategoryByServiceId x n t)) d (fun _ _ => True).
Proof.
  cbn [handle]. unfold apiAddCategoryByServiceId. outside. apply categories_untouched, select_tadd_other. by apply Z.eqb_neq.
Qed.

Lemma update_category_outside c n t : ends (handle m me (updateCategoryById c n t)) d (fun _ _ => True).
Proof.
  cbn [handle]. unfold apiUpdateCategoryById. outside.
  apply categories_untouched, select_tupdate_other; [|apply (ok_categories d Hd)]. intros r Hr.
  match goal with E : tget (categories d) c = Some ?x |- _ => rewrite E in Hr; injection Hr as <- end.
  split; by apply Z.eqb_neq.
Qed.

(** APIs and drafts. *)
Lemma apis_untouched f : select (f (db_apis d)) (fun a => (ar_parent a =? s)%Z) = apis_of d s -> untouched s d (on_apis f d).
Proof. intros E. split; try done. by apply shown_same. Qed.
Lemma drafts_untouched f : (forall it, it ∈ iterations_of d s ->
    select (f (drafts d)) (fun a => (ar_parent a =? ir_id it)%Z) = drafts_of d (ir_id it)) -> untouched s d (on_drafts f d).
Proof. intros E. split; try done. intros it Hit. apply shown_same; [by apply E|done]. Qed.

(** No API of the service and no draft of its iterations is in another's category. *)
Lemma category_elsewhere c cat a : tget (categories d) c = Some cat -> cr_service cat <> s ->
  in_service d s (ar_category a) -> leave_category (now m) c a = a.
Proof.
  intros Hc Hne Ha. unfold leave_category, touch. rewrite bool_decide_eq_true_2; [done|].
  case_bool_decide as E; [|done]. destruct (Ha c E) as (cat' & Hc' & E'). rewrite Hc in Hc'. congruence.
Qed.

Lemma delete_category_outside c : ends (handle m me (deleteCategoryById c)) d (fun _ _ => True).
Proof.
  cbn [handle]. unfold apiDeleteCategoryById. outside.
  match goal with E : tget (categories d) c = Some ?x |- _ => rename E into Hc, x into cat end.
  split; try done.
  - apply select_tdelete_other. intros r Hr Er%Z.eqb_eq.
    pose proof (tget_unique _ r (proj1 (ok_categories d Hd)) Hr) as Hr'. change (id_of r) with (cr_id r) in Hr'.
    rewrite Er, Hc in Hr'. injection Hr' as <-. by apply Z.eqb_neq.
  - apply shown_same; [|done]. apply select_tmap_same. intros r Hr. split; [by rewrite (proj1 (proj2 (leave_category_place (now m) c r)))|].
    intros Hp%Z.eqb_eq. apply (category_elsewhere c cat); [done..|]. rewrite <-Hp. by apply (ok_apis d Hd).
  - intros it [Hit Hsv%Z.eqb_eq]%elem_of_select. apply shown_same; [|done]. apply select_tmap_same. intros r Hr.
    split; [by rewrite (proj1 (proj2 (leave_category_place (now m) c r)))|].
    intros Hp%Z.eqb_eq. apply (category_elsewhere c cat); [done..|].
    destruct (proj2 (ok_drafts d Hd) r Hr) as (_ & it' & Hit' & Hcat). rewrite Hp in Hit'.
    pose proof (tget_unique _ it (proj1 (ok_iterations d Hd)) Hit) as E. change (id_of it) with (ir_id it) in E. rewrite E in Hit'. injection Hit' as <-. by rewrite <-Hsv.
Qed.

Lemma update_api_category_outside a c : ends (handle m me (updateApiCategoryById a c)) d (fun _ _ => True).
Proof.
  cbn [handle]. unfold apiUpdateApiCategory. outside.
  all: apply apis_untouched, select_tupdate_other; [|apply (ok_apis d Hd)]; intros r Hr.
  all: match goal with E : tget (db_apis d) _ = Some _ |- _ => rewrite E in Hr; injection Hr as <- end.
  all: rewrite (touched ar_parent) by done; split; by apply Z.eqb_neq.
Qed.

(** Drafts of an iteration of another service. *)
Lemma other_iteration i it it' : tget (iterations d) i = Some it -> ir_service it <> s -> it' ∈ iterations_of d s -> ir_id it' <> i.
Proof.
  intros Hi Hne [Hin Hsv%Z.eqb_eq]%elem_of_select <-.
  pose proof (tget_unique _ it' (proj1 (ok_iterations d Hd)) Hin) as E. change (id_of it') with (ir_id it') in E. congruence.
Qed.

Lemma add_api_outside i n me' p t l c : ends (handle m me (addApi i n me' p t l c)) d (fun _ _ => True).
Proof.
  apply with_iteration_outside. intros it Hi Hne. outside.
  all: apply drafts_untouched; intros it' Hit'; apply select_tadd_other; apply Z.eqb_neq; intros E.
  all: by destruct (other_iteration i it it' Hi Hne Hit').
Qed.

(** A draft that is none of the service's: its row, and its parameters. *)
Lemma draft_changed i it (f : table ApiRow -> table ApiRow) (g h : table ParamRow -> table ParamRow) a :
  tget (iterations d) i = Some it -> ir_service it <> s ->
  (forall p, p <> i -> select (f (drafts d)) (fun x => (ar_parent x =? p)%Z) = drafts_of d p) ->
  (forall x, x ∈ rows (drafts d) -> ar_parent x <> i -> ar_id x <> a) ->
  (forall b, b <> a -> params_of (g (req_drafts d)) b = params_of (req_drafts d) b) ->
  (forall b, b <> a -> params_of (h (resp_drafts d)) b = params_of (resp_drafts d) b) ->
  untouched s d (on_resp_drafts h (on_req_drafts g (on_drafts f d))).
Proof.
  intros Hi Hne Hf Ha Hg Hh. split; try done. intros it' Hit'. pose proof (other_iteration i it it' Hi Hne Hit') as Hne'.
  apply shown_same; [by apply Hf|]. intros x [Hx Hp%Z.eqb_eq]%elem_of_select. pose proof (Ha x Hx ltac:(by rewrite Hp)) as Hxa.
  split; [by apply Hg|by apply Hh].
Qed.

Lemma own_draft i a r : tget (drafts d) a = Some r -> ar_parent r = i ->
  forall x, x ∈ rows (drafts d) -> ar_parent x <> i -> ar_id x <> a.
Proof.
  intros Hr Hp x Hx Hne <-. pose proof (tget_unique _ x (proj1 (ok_drafts d Hd)) Hx) as E. change (id_of x) with (ar_id x) in E.
  rewrite Hr in E. injection E as ->. done.
Qed.

Lemma new_draft x : x ∈ rows (drafts d) -> ar_id x <> next_id (drafts d).
Proof.
  intros Hx E. apply (next_is_new (drafts d)); [apply (ok_drafts d Hd)|]. exists x. rewrite <-E.
  apply (tget_unique _ x (proj1 (ok_drafts d Hd)) Hx).
Qed.

Lemma params_of_other_block t a b ts : b <> a -> params_of (with_block a None ts t) b = params_of t b.
Proof. intros Hne. apply (select_block_other a b); [done|congruence]. Qed.
Lemma params_of_other_deleted t a b : b <> a -> params_of (tdelete (fun r => (pr_api r =? a)%Z) t) b = params_of t b.
Proof. intros Hne. apply select_tdelete_other. intros r _ Er%Z.eqb_eq. apply Z.eqb_neq. congruence. Qed.

Lemma copy_outside i a : ends (handle m me (copyApiByApiDraftId i a)) d (fun _ _ => True).
Proof.
  apply with_draft_outside. intros it r Hi Hne Hr Hp. outside.
  eapply ends_in_table_run; [apply copy_params_run|]. outside. eapply ends_in_table_run; [apply copy_params_run|]. outside.
  eapply (draft_changed i it (tadd _) (fun _ => _) (fun _ => _) (next_id (drafts d))); [done|done| | | |].
  - intros p Hpi. apply select_tadd_other. cbn. apply Z.eqb_neq. congruence.
  - intros x Hx _. by apply new_draft.
  - intros b Hb. by apply params_of_other_block.
  - intros b Hb. by apply params_of_other_block.
Qed.

Lemma delete_api_outside i a : ends (handle m me (deleteApiByApiDraftId i a)) d (fun _ _ => True).
Proof.
  apply with_draft_outside. intros it r Hi Hne Hr Hp. outside.
  apply (draft_changed i it (tdelete _) (tdelete _) (tdelete _) a); [done|done| | | |].
  - intros p Hpi. apply select_tdelete_other. intros x Hx Ex%Z.eqb_eq. apply Z.eqb_neq. intros E.
    by apply (own_draft i a r Hr Hp x Hx); [congruence|].
  - by apply (own_draft i a r).
  - intros b Hb. by apply params_of_other_deleted.
  - intros b Hb. by apply params_of_other_deleted.
Qed.

Lemma update_draft_outside i a n me' p t l rq rs :
  ends (handle m me (updateApiByApiDraftId i a n me' p t l rq rs)) d (fun _ _ => True).
Proof.
  apply with_draft_outside. intros it r Hi Hne Hr Hp. outside.
  apply ends_process; [done|intros _]. outside. apply ends_process; [done|intros _]. outside.
  apply (draft_changed i it (tupdate a (touch (now m) (set_api n _ p t _)))
    (fun q => with_block a None (map (input_tree RequestParamDraft "") rq) (tdelete (fun x => (pr_api x =? a)%Z) q))
    (fun q => with_block a None (map (input_tree ResponseParamDraft "") rs) (tdelete (fun x => (pr_api x =? a)%Z) q)) a); [done|done| | | |].
  - intros q Hq. apply select_tupdate_other; [|apply (ok_drafts d Hd)]. intros x Hx. rewrite Hr in Hx. injection Hx as <-.
    rewrite (touched ar_parent) by done. split; apply Z.eqb_neq; cbn; congruence.
  - by apply (own_draft i a r).
  - intros b Hb. rewrite params_of_other_block by done. by apply params_of_other_deleted.
  - intros b Hb. rewrite params_of_other_block by done. by apply params_of_other_deleted.
Qed.

Lemma opened_untouched x u : x <> s -> untouched s d (opened x u d).
Proof. intros Hx. apply iterations_untouched, select_tadd_other. by apply Z.eqb_neq. Qed.

Lemma start_outside x : has (users d) me -> ends (handle m me (startIteration x)) d (fun _ _ => True).
Proof.
  intros Hme. cbn [handle]. unfold serviceStartIteration. outside.
  match goal with E : tget (services d) x = Some ?r |- _ => rename E into Hx', r into sv end.
  match goal with E : first_row _ _ = None |- _ => rename E into Hopen end.
  destruct (opened_ok x me d Hd ltac:(by exists sv) Hme Hopen) as [H1 Hit].
  eapply ends_weaken; [apply (start_rounds _ _ (now m) (next_id (iterations d)) _ _ _ H1 Hit)|].
  { intros a [Ha Hp%Z.eqb_eq]%elem_of_select. by split. }
  cbn beta. intros _ d' [Hd' Hc]. outside.
  pose proof (started_shown (now m) x me d d' Hd ltac:(by exists sv) Hme Hopen Hc) as [S1 S2 S3 S4 S5 S6].
  pose proof (copied_base _ _ _ _ (old_trees _ _ _ _ _ _ _ Hc)) as Hb.
  pose proof (opened_untouched x me Hx) as [U1 U2 U3 U4 U5 U6].
  split; [by rewrite S6| | |by apply S3| |intros i; unfold is_L0; by rewrite S5].
  - unfold categories_of. by rewrite (same_categories _ _ Hb).
  - unfold iterations_of. rewrite (same_iterations _ _ Hb). exact U3.
  - intros it Hi. apply S2. intros E. apply elem_of_select in Hi as [Hi _].
    apply (next_is_new (iterations d)); [apply (ok_iterations d Hd)|]. exists it. rewrite <-E.
    apply (tget_unique _ it (proj1 (ok_iterations d Hd)) Hi).
Qed.

Lemma commit_outside i v : ends (handle m me (commitIteration i v)) d (fun _ _ => True).
Proof.
  cbn [handle]. unfold serviceCommitIteration, checkServiceIterationPermission. outside. simplify_eq.
  match goal with E : tget (iterations d) i = Some ?x |- _ => rename E into Hi, x into it end.
  match goal with E : tget (services d) _ = Some ?y |- _ => rename E into Hs', y into sv end.
  pose proof (tget_Some _ _ _ Hs') as [_ Es]. change (sr_id sv = ir_service it) in Es. rewrite Es.
  fold (emptied (ir_service it) v (ir_description it) d). set (d1 := emptied _ _ _ _).
  assert (H1 : db_ok d1) by by apply emptied_ok.
  eapply ends_weaken; [apply (commit_rounds _ _ (now m) (ir_service it) (drafts_of d i) d1 H1)|].
  { apply (keeps_has (fun _ => tt) (services d)); [by apply keeps_tupdate|]. by exists sv. }
  { intros a [Ha Hp%Z.eqb_eq]%elem_of_select. exists it. by rewrite Hp. }
  cbn beta. intros _ d2 [Hd2 Hc]. pose proof (copied_base _ _ _ _ (old_trees _ _ _ _ _ _ _ Hc)) as Hb.
  pose proof (released_shown (now m) d i it sv v d2 Hd Hi Hs' Hc) as [_ R2 R3 _ _]. outside.
  split; [|unfold categories_of; cbn; by rewrite (same_categories _ _ Hb)| |by apply R2|intros it' _; apply R3|].
  - cbn [on_iterations services]. rewrite (same_services _ _ Hb).
    change (services d1) with (tupdate (ir_service it) (set_released v (ir_description it)) (services d)).
    rewrite tget_tupdate by done. by rewrite (proj2 (Z.eqb_neq s (ir_service it)) (not_eq_sym Hx)).
  - unfold iterations_of. cbn [on_iterations iterations]. rewrite (same_iterations _ _ Hb).
    change (iterations d1) with (iterations d). by apply (same_iterations_of _ _ _ (iteration_updated i (set_committed v) it Hi Hx ltac:(done))).
  - intros u. unfold is_L0. cbn [on_iterations users]. by rewrite (same_users _ _ Hb).
Qed.

Lemma readers_outside op :
  match op with
  | login _ _ | getUserById _ | getMyInfo | getUserByUsernameOrNicknameOrEmail _ | getServiceById _ | getAllServices _ _
  | getHisNewestServicesByOwnerId _ _ _ | getHisMaintainedServicesByUserId _ _ _ | getServiceByUuidAndVersion _ _
  | getAllVersionsByUuid _ | getAllDeletedServicesByUserId _ _ | isServiceMaintainer _ _ | getIterationById _
  | exportOpenapiByUuidAndVersion _ _ | getAllCategoriesByServiceId _ | getAllApisByServiceId _ _ | getApiById _ _ =>
      ends (handle m me op) d (fun _ _ => True)
  | _ => True
  end.
Proof.
  destruct op; try exact Logic.I; cbn [handle].
  all: unfold userLogin, userGetUserById, userGetUserByUsernameOrNicknameOrEmail, serviceGetServiceById,
    serviceGetAllServices, serviceGetHisNewestServicesByOwnerId, serviceGetHisMaintainedServicesByUserId,
    serviceGetServiceByUuidAndVersion, serviceGetAllVersionsByUuid, serviceGetAllDeletedServicesByUserId, serviceIsMaintainer,
    serviceGetServiceIterationById, serviceExportOpenapiByUuidAndVersion, apiGetAllCategoriesByServiceId,
    apiGetAllApisByServiceId, apiGetApiById, sees_api, sees_draft, version_seen_by.
  all: clear Hd Hs Hout; by tx any.
Qed.

Lemma handle_outside op : has (users d) me -> ends (handle m me op) d (fun _ _ => True).
Proof.
  intros Hme. pose proof (readers_outside op) as Hr. destruct op; try exact Hr; clear Hr.
  all: auto using maintainer_outside, delete_service_outside, restore_service_outside, create_service_outside,
    modify_password_outside, delete_iteration_outside, description_outside, start_outside, commit_outside, add_category_outside,
    delete_category_outside, update_category_outside, update_api_category_outside, add_api_outside, copy_outside,
    delete_api_outside, update_draft_outside.
  exact (register_outside _ _ _ _ _).
Qed.
End Outside.

(** ** Histories *)

Section Histories.
Context `{!Isoformat, !Libraries}.

(** Logging in and registering. *)
Lemma open_outside m d s me op : db_ok d -> open_operation op = true -> ends (untouched s d) True (handle m me op) d (fun _ _ => True).
Proof.
  intros Hd Hop. destruct op; try done. exact (register_outside m d s Hd _ _ _ _ _).
Qed.

Lemma serve_outside m d s token r : db_ok d -> has (services d) s ->
  (forall u, jwt_decode (now m) (default "" token) = Some u -> insider d s u = false) ->
  untouched s d (serve m d token r).2.1.
Proof.
  intros Hd Hs Hout. unfold serve. destruct (route r) as [[status|op]|] eqn:Er; [by case_match| |done].
  destruct (if auth_required (url r) then _ else _) as [status|me] eqn:Ea; [done|].
  destruct (in_session (handle m me op) d) as [o rest] eqn:Es. cbn [snd].
  replace rest with (in_session (handle m me op) d).2 by by rewrite Es.
  apply ends_in_session with True (fun _ _ => True); [done|]. destruct (auth_required (url r)) eqn:E.
  - apply handle_outside; [done|done| |by eapply authenticate_has]. unfold authenticate in Ea.
    destruct (jwt_decode _ _) as [i|] eqn:Ej; [|done]. destruct (tget (users d) i); [|done].
    case_match; [done|]. injection Ea as <-. by apply Hout.
  - apply open_outside; [done|]. by eapply open_routes.
Qed.

(** No request of the history, at its moment, carries a token of an insider. *)
Fixpoint outsiders_only (moments : nat -> Moment) (n : nat) (d : Db) (s : Z) (h : list sent_request) : Prop :=
  match h with
  | [] => True
  | (token, _) :: h' =>
      (forall u, jwt_decode (now (moments n)) (default "" token) = Some u -> insider d s u = false) /\
      outsiders_only moments (S n) d s h'
  end.

Lemma outsiders_same moments d d' s h : (forall u, insider d' s u = insider d s u) ->
  forall n, outsiders_only moments n d s h -> outsiders_only moments n d' s h.
Proof.
  intros E. induction h as [|[token r] h IH]; intros n; [done|]. cbn [outsiders_only]. intros [H1 H2]. split; [|by apply IH].
  intros u Hu. rewrite E. by apply H1.
Qed.

(** C5. Only insiders change a service.  Whatever requests arrive, as long as none
    carries the valid token of a user of level L0, of the service's owner, of one of
    its maintainers or of the creator of one of its iterations, the service keeps its
    row with its version, description, owner and maintainers, its categories, its
    iterations, the APIs and drafts that are shown of them with all their
    parameters; and nobody else becomes an insider, by registering either. *)
Theorem outsiders_change_nothing moments d h s : committed_ok d -> has (services d) s -> outsiders_only moments 0 d s h ->
  untouched s d (replay moments 0 d h) /\ forall u, insider (replay moments 0 d h) s u = insider d s u.
Proof.
  intros Hd Hs Hout. assert (H' : untouched s d (replay moments 0 d h)); [|split; [done|intros u; by apply untouched_insider]].
  revert Hs Hout Hd. generalize 0%nat as n. revert d. induction h as [|[token r] h IH]; intros d n Hs Hout Hd; [done|].
  cbn [replay]. destruct Hout as [Hreq Hrest]. pose proof (serve_outside (moments n) d s token r (proj1 Hd) Hs Hreq) as Hu.
  etrans; [exact Hu|]. apply IH; [|eapply outsiders_same; [|exact Hrest]; intros u; by apply untouched_insider|by apply serve_ok].
  unfold has. by rewrite (same_service _ _ _ Hu).
Qed.
End Histories.

(** Bob is no insider of Ada's shop. *)
Definition bobs_history : list sent_request :=
  [ (Some "2", encode (DeleteServiceById 1)); (Some "2", encode (AddOrRemoveServiceMaintainerById (Some 1%Z) 2));
    (Some "2", encode (StartIteration (Some 1%Z))); (Some "2", encode (DeleteApiByApiDraftId 1 1));
    (None, encode (UserRegister (mkRegisterRequest "eve" "pw" "Eve" "eve@x.org" "qa"))) ].

Lemma outsiders_change_nothing_witness :
  let d := @replay sample_isoformat sample_client (fun _ => sample_moment) 0 sample_state bobs_history in
  insider sample_state 1 2 = false /\ insider d 1 3 = false /\ shown drafted_side d 1 = shown drafted_side sample_state 1.
Proof.
  pose proof (@outsiders_change_nothing sample_isoformat sample_client (fun _ => sample_moment) sample_state bobs_history 1) as Ht.
  destruct Ht as [[_ _ _ _ Hdrafts _] Hins].
  - apply replay_ok, empty_db_ok.
  - eexists; vm_compute; reflexivity.
  - cbn [outsiders_only bobs_history]. repeat split; intros u Hu; vm_compute in Hu; [injection Hu as <-; vm_compute; reflexivity..|done].
  - split; [vm_compute; reflexivity|]. cbv zeta. split; [rewrite Hins; vm_compute; reflexivity|].
    apply (Hdrafts sample_iteration). apply elem_of_select. split; [vm_compute; by left|vm_compute; reflexivity].
Defined.
