(* ===== verification/Listings.v ===== *)
(** * The pages of a listing

    The tabs of the service list ask for one page at a time ([ServiceHome]); the
    back end cuts pages out of an ordered query ([BackendService]). *)

From S2P Require Import Prelude Tables JsNumber JsObject ApiTypes FeTypes Database ParamStore Openapi Backend.
From S2P Require Import Transaction BackendUser BackendService BackendApi Integrity FeHttp BackendRoutes.
From S2P Require Import BackendSafety Failures Wire EndToEnd.
From Stdlib Require Import Ascii String ZArith Lia.
From stdpp Require Import sorting.

(** ** Pages of a list *)

Definition page {A} (n p : nat) (l : list A) : list A := take n (drop (p * n) l).

Lemma pages_prefix {A} n (l : list A) k : List.concat (map (fun p => page n p l) (seq 0 k)) = take (k * n) l.
Proof.
  induction k as [|k IH]; [done|]. rewrite seq_S, map_app, concat_app, IH. cbn [map List.concat]. rewrite app_nil_r.
  unfold page. cbn [plus]. rewrite take_take_drop. f_equal. lia.
Qed.

Lemma pages_all {A} n (l : list A) k : (List.length l <= k * n)%nat -> List.concat (map (fun p => page n p l) (seq 0 k)) = l.
Proof. intros Hl. rewrite pages_prefix. by apply firstn_all2. Qed.

Lemma page_of_run {S A} n p (l : list A) (s : S) : (0 <= n)%Z ->
  page_of n (Z.of_nat (p + 1)) l s = (Ret (page (Z.to_nat n) p l), s).
Proof.
  intros Hn. unfold page_of. assert (E : ((Z.of_nat (p + 1) - 1) * n = Z.of_nat p * n)%Z) by (f_equal; lia). rewrite E.
  rewrite (proj2 (Z.ltb_ge n 0) Hn), (proj2 (Z.ltb_ge (Z.of_nat p * n) 0)) by nia. cbn [orb].
  unfold page. by replace (Z.to_nat (Z.of_nat p * n)) with (p * Z.to_nat n)%nat by lia.
Qed.

(** ** The order of the listings *)

Definition newer (a b : ServiceRow) : Prop := Is_true (sr_id b <=? sr_id a)%Z.
#[local] Instance newer_dec : RelDecision newer.
Proof. intros a b. unfold newer. apply _. Defined.
#[local] Instance newer_total : Total newer.
Proof. intros a b. unfold newer. rewrite !Is_true_true. lia. Qed.
#[local] Instance newer_trans : Transitive newer.
Proof. intros a b c. unfold newer. rewrite !Is_true_true. lia. Qed.

Lemma newest_first_sorted l : Sorted newer (newest_first l) /\ newest_first l ≡ₚ l.
Proof. split; [apply (Sorted_merge_sort newer)|apply (merge_sort_Permutation newer)]. Qed.

Section Listings.
Context `{!Isoformat, !Libraries, !AxiosQuery}.
Context (dump : Document -> string).

(** What a user sees in "my services". *)
Definition my_services (d : Db) (me : Z) : list ServiceRow := select (services d) (fun s => live s && owned_by me s).

Lemma my_services_run m d token u n p : signed_in m d token u -> (0 <= n)%Z ->
  (ask dump m d token (GetMyNewestServices n (Z.of_nat (p + 1)))).1 =
  NetOk (mkResponse 200 "Get services success" (mkServiceListResponse
    (Some (map (service_json d false false) (page (Z.to_nat n) p (newest_first (my_services d (ur_id u))))))
    (Some (Z.of_nat (List.length (my_services d (ur_id u))))))).
Proof.
  intros Hin Hn. set (his := my_services d (ur_id u)).
  assert (E : handle m (ur_id u) (getHisNewestServicesByOwnerId None n (Z.of_nat (p + 1))) (mkTx d d []) =
    (Ret (success "Get services success" (PServices (map (service_json d false false) (page (Z.to_nat n) p (newest_first his)))
       (Z.of_nat (List.length his)))), mkTx d d [])).
  { cbn [handle default]. unfold serviceGetHisNewestServicesByOwnerId, get_user. repeat step.
    rewrite (signed_user _ _ _ _ Hin). unfold not_L0. repeat step. change (default (ur_id u) None) with (ur_id u).
    rewrite Z.eqb_refl, andb_false_r. repeat step. rewrite (bind_Ret _ _ _ _ _ (page_of_run n p _ _ Hn)). done. }
  by rewrite (ask_run dump m d token u (GetMyNewestServices n (Z.of_nat (p + 1))) _ _ _ Hin eq_refl eq_refl eq_refl E).
Qed.

(** C20. Paging through "my services" shows each of them exactly once.  For any page
    size, the first [k] pages succeed, all with the same total, and put together
    they list the services the user owns that are not deleted, the newest first,
    once the pages are enough for the total. *)
Theorem pages_show_each_once m d token u n k : signed_in m d token u -> (0 < n)%Z ->
  (List.length (my_services d (ur_id u)) <= k * Z.to_nat n)%nat ->
  exists pages : nat -> list ServiceRow,
    (forall p, (ask dump m d token (GetMyNewestServices n (Z.of_nat (p + 1)))).1 =
      NetOk (mkResponse 200 "Get services success" (mkServiceListResponse (Some (map (service_json d false false) (pages p)))
        (Some (Z.of_nat (List.length (my_services d (ur_id u)))))))) /\
    List.concat (map pages (seq 0 k)) ≡ₚ my_services d (ur_id u) /\
    Sorted newer (List.concat (map pages (seq 0 k))).
Proof.
  intros Hin Hn Hk. exists (fun p => page (Z.to_nat n) p (newest_first (my_services d (ur_id u)))).
  split; [intros p; apply my_services_run; [done|lia]|].
  destruct (newest_first_sorted (my_services d (ur_id u))) as [Hsorted Hperm].
  rewrite pages_all; [done|]. by rewrite Hperm.
Qed.
End Listings.

Lemma pages_show_each_once_witness : exists pages : nat -> list ServiceRow,
  List.concat (map pages (seq 0 1)) ≡ₚ @my_services sample_state 1 /\ List.length (@my_services sample_state 1) = 1%nat.
Proof.
  destruct (@pages_show_each_once sample_isoformat sample_client sample_axios (fun _ => "") sample_moment sample_state (Some "1")
    sample_user 10 1) as (pages & _ & Hperm & _).
  - split; vm_compute; reflexivity.
  - lia.
  - vm_compute. lia.
  - exists pages. split; [exact Hperm|vm_compute; reflexivity].
Defined.
