(* ===== verification/Exports.v ===== *)
(** * What an exported document holds

    The loop of [openapiTemplate] over the APIs of a version ([Openapi]), by what a
    reader of the document finds at a path and a method. *)

From S2P Require Import Prelude Tables JsNumber JsObject ApiTypes TsTypes FeTypes Database ParamStore Openapi Backend.
From S2P Require Import BackendService.
From Stdlib Require Import Ascii String ZArith Lia.

Definition operation_at (paths : obj (obj DocOperation)) (p method : string) : option DocOperation :=
  obj_get (default [] (obj_get paths p)) method.

Definition operation_of (a : ApiRows) : DocOperation :=
  doc_operation (the_api a) (organizeReqParams (the_requests a)) (organizeRespParams (the_responses a)).
Definition schemas_of (a : ApiRows) : obj schema :=
  own_schemas (the_api a) (organizeReqParams (the_requests a)) (organizeRespParams (the_responses a)).

Definition located (p method : string) (a : ApiRows) : bool :=
  String.eqb (ar_path (the_api a)) p && String.eqb (method_key (the_api a)) method.

(** ** Lemmas *)

Lemma add_operation_at doc a p method :
  operation_at (add_operation doc a).1 p method =
  if located p method a then Some (operation_of a) else operation_at doc.1 p method.
Proof.
  destruct doc as [paths schemas]. unfold operation_at, located. cbn [add_operation fst].
  destruct (String.eqb_spec (ar_path (the_api a)) p) as [<-|Hp]; cbn [andb].
  - rewrite obj_get_set_eq. match goal with |- context [default [] (Some ?x)] => change (default [] (Some x)) with x end.
    destruct (String.eqb_spec (method_key (the_api a)) method) as [<-|Hm]; [by rewrite obj_get_set_eq|by rewrite obj_get_set_ne].
  - by rewrite obj_get_set_ne.
Qed.

Lemma operations_at l p method : forall doc,
  operation_at (foldl add_operation doc l).1 p method =
  match List.find (located p method) (reverse l) with Some a => Some (operation_of a) | None => operation_at doc.1 p method end.
Proof.
  induction l as [|a l IH]; intros doc; [done|]. cbn [foldl]. rewrite IH, add_operation_at, reverse_cons.
  rewrite (find_app (R := ApiRows)). destruct (List.find _ (reverse l)); [done|]. cbn [List.find]. by destruct (located p method a).
Qed.

(** Schemas that are there stay there. *)
Lemma set_keeps {V} (o : obj V) k v c : is_Some (obj_get o c) -> is_Some (obj_get (obj_set o k v) c).
Proof. intros Ho. destruct (String.eqb_spec k c) as [->|Hne]; [by rewrite obj_get_set_eq|by rewrite obj_get_set_ne]. Qed.

Lemma sets_keep {V} (l : obj V) c : forall o, is_Some (obj_get o c) \/ c ∈ l.*1 ->
  is_Some (obj_get (foldl (fun o s => obj_set o s.1 s.2) o l) c).
Proof.
  induction l as [|[k v] l IH]; intros o; cbn [foldl fmap list_fmap].
  - intros [Ho|Hc]; [done|by apply not_elem_of_nil in Hc].
  - rewrite elem_of_cons. intros Hc. apply IH. destruct Hc as [Ho|[->|Hc]]; [left; by apply set_keeps|left|by right].
    by rewrite obj_get_set_eq.
Qed.

Lemma schemas_there l c : forall doc, is_Some (obj_get doc.2 c) \/ (exists a, a ∈ l /\ c ∈ (schemas_of a).*1) ->
  is_Some (obj_get (foldl add_operation doc l).2 c).
Proof.
  induction l as [|a l IH]; intros doc; cbn [foldl].
  - intros [Ho|(a & Ha & _)]; [done|by apply not_elem_of_nil in Ha].
  - intros Hc. apply IH. destruct doc as [paths schemas]. cbn [add_operation snd].
    destruct Hc as [Ho|(b & [->|Hb]%elem_of_cons & Hc)]; [left; apply sets_keep; by left| |right; by exists b].
    left. apply sets_keep. by right.
Qed.

(** The components an operation refers to are those its API registers. *)
Definition references (o : DocOperation) : list string :=
  match requestBody o with Some c => [c] | None => [] end ++ map snd (do_responses o).

Lemma references_registered a c : c ∈ references (operation_of a) -> c ∈ (schemas_of a).*1.
Proof.
  unfold references, operation_of, schemas_of, doc_operation, own_schemas. cbn [requestBody do_responses].
  rewrite fmap_app, !elem_of_app. intros [Hc|Hc].
  - left. destruct (at_location _ "body") as [|b bs]; [by apply not_elem_of_nil in Hc|]. exact Hc.
  - right. rewrite map_map in Hc. apply list_elem_of_fmap in Hc as (r & -> & Hr). apply list_elem_of_fmap.
    eexists. split; [|apply list_elem_of_fmap; by exists r]. done.
Qed.

(** ** Properties *)

(** C16. An exported document describes the version it was made from.  At a path and
    a method it holds the operation of the last API of the version with that path
    and method, and none when there is no such API, so that every API is described
    when no two share both; and every schema an operation refers to, as its request
    body or for one of its status codes, is among the document's components. *)
Theorem document_describes_apis title description contact version l doc :
  openapiTemplate title description contact version l = Some doc ->
  (forall p method, operation_at (doc_paths doc) p method = operation_of <$> List.find (located p method) (reverse l)) /\
  (forall p method o c, operation_at (doc_paths doc) p method = Some o -> c ∈ references o -> is_Some (obj_get (doc_schemas doc) c)) /\
  (NoDup (map (fun a => (ar_path (the_api a), method_key (the_api a))) l) -> forall a, a ∈ l ->
     operation_at (doc_paths doc) (ar_path (the_api a)) (method_key (the_api a)) = Some (operation_of a)).
Proof.
  unfold openapiTemplate. destruct (forallb params_parse l); [|done].
  pose proof (operations_at l) as Hops.
  destruct (foldl add_operation ([], []) l) as [paths schemas] eqn:E. intros [= <-]. cbn [doc_paths doc_schemas].
  assert (Hat : forall p method, operation_at paths p method = operation_of <$> List.find (located p method) (reverse l)).
  { intros p method. specialize (Hops p method ([], [])). rewrite E in Hops. cbn [fst] in Hops. rewrite Hops.
    by destruct (List.find _ _). }
  split; [exact Hat|]. split.
  - intros p method o c Ho Hc. rewrite Hat in Ho. destruct (List.find _ _) as [a|] eqn:Ef; [|done]. injection Ho as <-.
    apply find_some in Ef as [Ha _]. apply list_elem_of_In in Ha. rewrite elem_of_reverse in Ha.
    pose proof (schemas_there l c ([], [])) as Hsch. rewrite E in Hsch. apply Hsch. right. exists a. split; [done|by apply references_registered].
  - intros Hnd a Ha. rewrite Hat. destruct (List.find _ _) as [b|] eqn:Ef; cbn.
    + f_equal. f_equal. apply find_some in Ef as [Hb Hl]. apply list_elem_of_In in Hb. rewrite elem_of_reverse in Hb.
      unfold located in Hl. apply andb_true_iff in Hl as [Hp%String.eqb_eq Hm%String.eqb_eq].
      apply list_elem_of_lookup in Ha as [i Hi]. apply list_elem_of_lookup in Hb as [j Hj].
      assert (i = j); [|by subst; congruence]. eapply NoDup_lookup; [exact Hnd|by rewrite list_lookup_fmap, Hi|].
      rewrite list_lookup_fmap, Hj. cbn. by rewrite Hp, Hm.
    + exfalso. eapply find_none in Ef; [|apply list_elem_of_In, elem_of_reverse; exact Ha].
      unfold located in Ef. by rewrite !String.eqb_refl in Ef.
Qed.

(** The APIs of the history's iteration, twice under one path. *)
Definition sample_api_rows (i : Z) (name : string) (method : HttpMethod) : ApiRows :=
  mkApiRows (mkApiRow i 1 1 None name method "/orders" None P2 true 0 0)
    [mkParamRow 1 i None (mkParamData (RowRequest body None) "sku" TString true None None None)]
    [mkParamRow 1 i None (mkParamData (RowResponse 200) "ok" TBoolean true None None None)].
Definition sample_contact : UserRow := mkUserRow 1 "ada" "" "Ada" "ada@x.org" "backend" 4 0.

Lemma document_describes_apis_witness : exists doc,
  openapiTemplate "shop" None sample_contact None [sample_api_rows 1 "list" GET; sample_api_rows 2 "place order" POST] = Some doc /\
  operation_at (doc_paths doc) "/orders" "post" = Some (operation_of (sample_api_rows 2 "place order" POST)) /\
  is_Some (obj_get (doc_schemas doc) "PlaceOrderRequest").
Proof.
  destruct (openapiTemplate "shop" None sample_contact None [sample_api_rows 1 "list" GET; sample_api_rows 2 "place order" POST])
    as [doc|] eqn:E; [|vm_compute in E; done].
  exists doc. split; [done|]. destruct (document_describes_apis _ _ _ _ _ _ E) as (Hat & Href & Hall). split.
  - apply (Hall ltac:(apply (bool_decide_unpack _); vm_compute; exact Logic.I) (sample_api_rows 2 "place order" POST)). by right; left.
  - eapply (Href "/orders" "post"); [rewrite Hat; reflexivity|]. vm_compute. by left.
Defined.
