(* ===== verification/CliServices.v ===== *)
(** * The command-line tool's request functions

    [cam-fe-code-generator/src/services/apis/*]: a constructor per function of the
    three [index.ts], with the request records of the three [types.ts], and the HTTP
    request each sends.  The tool's commands call three of them ([CliWorld]); all of
    them are what it offers on the back end's routes. *)

From S2P Require Import Prelude JsNumber JsObject ApiTypes FeTypes Database ParamStore Backend BackendRoutes Wire.
From Stdlib Require Import Ascii String ZArith.

(** A member that may be [undefined]: it is left out, in a query and in a body. *)
Definition optional {A} (k : string) (f : A -> json) (o : option A) : list (string * json) :=
  match o with Some a => [(k, f a)] | None => [] end.

(** ** Users *)

Module CliUsers.
Record LoginRequest := mkLoginRequest { username : string; password : string }.
Record RegisterRequest := mkRegisterRequest {
  reg_username : string; reg_password : string; nickname : string; email : string; role : string }.
Record ModifyPasswordRequest := mkModifyPasswordRequest { old_password : string; new_password : string }.

Inductive UserCall :=
| UserLogin (data : LoginRequest)
| UserRegister (data : RegisterRequest)
| UserModifyPassword (data : ModifyPasswordRequest)
| GetUserById (id : Z)
| GetMyInfo
| GetUserByUsernameOrNicknameOrEmail (username_or_nickname_or_email : string).

Definition user_request (c : UserCall) : HttpRequest :=
  match c with
  | UserLogin d => mkHttpRequest HttpPost "/v1/user/login"
      [("username", JStr (username d)); ("password", JStr (password d))]
  | UserRegister d => mkHttpRequest HttpPost "/v1/user/register"
      [("username", JStr (reg_username d)); ("password", JStr (reg_password d)); ("nickname", JStr (nickname d));
       ("email", JStr (email d)); ("role", JStr (role d))]
  | UserModifyPassword d => mkHttpRequest HttpPost "/v1/user/modifyPassword"
      [("old_password", JStr (old_password d)); ("new_password", JStr (new_password d))]
  | GetUserById i => mkHttpRequest HttpGet "/v1/user/getUserById" [("id", JNum i)]
  | GetMyInfo => mkHttpRequest HttpGet "/v1/user/getMyInfo" []
  | GetUserByUsernameOrNicknameOrEmail q => mkHttpRequest HttpGet "/v1/user/getUserByUsernameOrNicknameOrEmail"
      [("username_or_nickname_or_email", JStr q)]
  end.
End CliUsers.

(** ** Services *)

Module CliService.
Record CreateNewServiceRequest := mkCreateNewServiceRequest { service_uuid : string; description : string }.
Record DeleteServiceByIdRequest := mkDeleteServiceByIdRequest { deleted_id : Z }.
Record RestoreServiceByIdRequest := mkRestoreServiceByIdRequest { restored_id : Z }.
Record DeleteIterationByIdRequest := mkDeleteIterationByIdRequest { deleted_iteration_id : Z }.
Record StartIterationRequest := mkStartIterationRequest { started_service_id : Z }.
Record CommitIterationRequest := mkCommitIterationRequest { committed_iteration_id : Z; new_version : string }.
Record UpdateDescriptionRequest := mkUpdateDescriptionRequest { described_iteration_id : Z; new_description : string }.

(** Page numbers are optional parameters. *)
Inductive ServiceCall :=
| GetMyNewestServices (page_size current_page : option Z)
| GetAllServices (page_size current_page : option Z)
| GetHisNewestServicesByOwnerId (owner_id : Z) (page_size current_page : option Z)
| GetServiceById (id : Z)
| GetServiceByUuidAndVersion (service_uuid version : string)
| GetAllVersionsByUuid (service_uuid : string)
| CreateNewService (data : CreateNewServiceRequest)
| GetAllDeletedServicesByUserId (page_size current_page : option Z)
| DeleteServiceById (data : DeleteServiceByIdRequest)
| RestoreServiceById (data : RestoreServiceByIdRequest)
| DeleteIterationById (data : DeleteIterationByIdRequest)
| GetIterationById (id : Z)
| StartIteration (data : StartIterationRequest)
| CommitIteration (data : CommitIterationRequest)
| UpdateDescription (data : UpdateDescriptionRequest).

Definition pages (page_size current_page : option Z) : list (string * json) :=
  optional "page_size" JNum page_size ++ optional "current_page" JNum current_page.

Definition service_request (c : ServiceCall) : HttpRequest :=
  match c with
  | GetMyNewestServices s p => mkHttpRequest HttpGet "/v1/service/getHisNewestServicesByOwnerId"
      (pages s p ++ [("is_my_services", JBool true)])
  | GetAllServices s p => mkHttpRequest HttpGet "/v1/service/getAllServices" (pages s p)
  | GetHisNewestServicesByOwnerId o s p => mkHttpRequest HttpGet "/v1/service/getHisNewestServicesByOwnerId"
      (pages s p ++ [("is_my_services", JBool false); ("owner_id", JNum o)])
  | GetServiceById i => mkHttpRequest HttpGet "/v1/service/getServiceById" [("id", JNum i)]
  | GetServiceByUuidAndVersion u v => mkHttpRequest HttpGet "/v1/service/getServiceByUuidAndVersion"
      [("service_uuid", JStr u); ("version", JStr v)]
  | GetAllVersionsByUuid u => mkHttpRequest HttpGet "/v1/service/getAllVersionsByUuid" [("service_uuid", JStr u)]
  | CreateNewService d => mkHttpRequest HttpPost "/v1/service/createNewService"
      [("service_uuid", JStr (service_uuid d)); ("description", JStr (description d))]
  | GetAllDeletedServicesByUserId s p => mkHttpRequest HttpGet "/v1/service/getAllDeletedServicesByUserId" (pages s p)
  | DeleteServiceById d => mkHttpRequest HttpPost "/v1/service/deleteServiceById" [("id", JNum (deleted_id d))]
  | RestoreServiceById d => mkHttpRequest HttpPost "/v1/service/restoreServiceById" [("id", JNum (restored_id d))]
  | DeleteIterationById d => mkHttpRequest HttpPost "/v1/service/deleteIterationById"
      [("service_iteration_id", JNum (deleted_iteration_id d))]
  | GetIterationById i => mkHttpRequest HttpGet "/v1/service/getIterationById" [("id", JNum i)]
  | StartIteration d => mkHttpRequest HttpPost "/v1/service/startIteration" [("service_id", JNum (started_service_id d))]
  | CommitIteration d => mkHttpRequest HttpPost "/v1/service/commitIteration"
      [("service_iteration_id", JNum (committed_iteration_id d)); ("new_version", JStr (new_version d))]
  | UpdateDescription d => mkHttpRequest HttpPost "/v1/service/updateDescription"
      [("service_iteration_id", JNum (described_iteration_id d)); ("description", JStr (new_description d))]
  end.
End CliService.

(** ** APIs *)

Module CliApi.
(** [description: string | null], always there. *)
Record AddCategoryByServiceIdRequest := mkAddCategoryByServiceIdRequest {
  service_id : Z; category_name : string; category_description : option string }.
Record DeleteCategoryByIdRequest := mkDeleteCategoryByIdRequest { deleted_category_id : Z }.
Record UpdateCategoryByIdRequest := mkUpdateCategoryByIdRequest {
  updated_category_id : Z; updated_name : option string; updated_description : option string }.
Record UpdateApiCategoryByIdRequest := mkUpdateApiCategoryByIdRequest { moved_api_id : Z; target_category_id : Z }.

(** [category_id?: number | null]. *)
Record AddApiRequest := mkAddApiRequest {
  service_iteration_id : Z; name : string; method : HttpMethod; path : string; description : string; level : ApiLevel;
  category_id : option (option Z) }.

Record DeleteApiByApiDraftIdRequest := mkDeleteApiByApiDraftIdRequest { deleted_iteration_id : Z; deleted_draft_id : Z }.

(** Members that may be absent, and null when present, are [option (option _)]. *)
Inductive ApiReqParamInput := mkReqParam {
  req_name : string; req_type : ParamType; req_location : option ParamLocation; req_required : option bool;
  req_default_value : option (option string); req_description : option (option string);
  req_example : option (option string); req_array_child_type : option (option ParamType);
  req_children : option (list ApiReqParamInput) }.

Inductive ApiRespParamInput := mkRespParam {
  resp_status_code : option Z; resp_name : string; resp_type : ParamType; resp_required : option bool;
  resp_description : option (option string); resp_example : option (option string);
  resp_array_child_type : option (option ParamType); resp_children : option (list ApiRespParamInput) }.

Record UpdateApiByApiDraftIdRequest := mkUpdateApiByApiDraftIdRequest {
  upd_iteration_id : Z; upd_draft_id : Z; upd_name : string; upd_method : HttpMethod; upd_path : string;
  upd_description : string; upd_level : ApiLevel; req_params : list ApiReqParamInput; resp_params : list ApiRespParamInput }.

Inductive ApiCall :=
| GetAllCategoriesByServiceId (service_id : Z)
| GetAllApisByServiceId (service_id category_id : Z)
| GetApiById (api_id : Z) (is_latest : option bool)
| AddCategoryByServiceId (data : AddCategoryByServiceIdRequest)
| DeleteCategoryById (data : DeleteCategoryByIdRequest)
| UpdateCategoryById (data : UpdateCategoryByIdRequest)
| UpdateApiCategoryById (data : UpdateApiCategoryByIdRequest)
| AddApi (data : AddApiRequest)
| DeleteApiByApiDraftId (data : DeleteApiByApiDraftIdRequest)
| UpdateApiByApiDraftId (data : UpdateApiByApiDraftIdRequest).

(** [JSON.stringify]: [undefined] members are left out. *)
Definition type_json (o : option ParamType) : json := json_opt (type_name <$> o).

Fixpoint req_json (p : ApiReqParamInput) : json :=
  let '(mkReqParam n t l r df ds ex ac cs) := p in
  JObj ([("name", JStr n); ("type", JStr (type_name t))] ++ optional "location" (fun l => JStr (location_name l)) l ++
    optional "required" JBool r ++ optional "default_value" json_opt df ++ optional "description" json_opt ds ++
    optional "example" json_opt ex ++ optional "array_child_type" type_json ac ++
    match cs with Some l => [("children", JArr (map req_json l))] | None => [] end).

Fixpoint resp_json (p : ApiRespParamInput) : json :=
  let '(mkRespParam c n t r ds ex ac cs) := p in
  JObj (optional "status_code" JNum c ++ [("name", JStr n); ("type", JStr (type_name t))] ++
    optional "required" JBool r ++ optional "description" json_opt ds ++ optional "example" json_opt ex ++
    optional "array_child_type" type_json ac ++
    match cs with Some l => [("children", JArr (map resp_json l))] | None => [] end).

Definition api_request (c : ApiCall) : HttpRequest :=
  match c with
  | GetAllCategoriesByServiceId s => mkHttpRequest HttpGet "/v1/api/getAllCategoriesByServiceId" [("service_id", JNum s)]
  | GetAllApisByServiceId s c => mkHttpRequest HttpGet "/v1/api/getAllApisByServiceId"
      [("service_id", JNum s); ("category_id", JNum c)]
  | GetApiById i l => mkHttpRequest HttpGet "/v1/api/getApiById" (("api_id", JNum i) :: optional "is_latest" JBool l)
  | AddCategoryByServiceId d => mkHttpRequest HttpPost "/v1/api/addCategoryByServiceId"
      [("service_id", JNum (service_id d)); ("category_name", JStr (category_name d));
       ("description", json_opt (category_description d))]
  | DeleteCategoryById d => mkHttpRequest HttpPost "/v1/api/deleteCategoryById" [("category_id", JNum (deleted_category_id d))]
  | UpdateCategoryById d => mkHttpRequest HttpPost "/v1/api/updateCategoryById"
      [("category_id", JNum (updated_category_id d)); ("category_name", json_opt (updated_name d));
       ("description", json_opt (updated_description d))]
  | UpdateApiCategoryById d => mkHttpRequest HttpPost "/v1/api/updateApiCategoryById"
      [("api_id", JNum (moved_api_id d)); ("category_id", JNum (target_category_id d))]
  | AddApi d => mkHttpRequest HttpPost "/v1/api/addApi"
      ([("service_iteration_id", JNum (service_iteration_id d)); ("name", JStr (name d)); ("method", JStr (method_name (method d)));
        ("path", JStr (path d)); ("description", JStr (description d)); ("level", JStr (level_name (level d)))] ++
       optional "category_id" (fun c => match c with Some z => JNum z | None => JNull end) (category_id d))
  | DeleteApiByApiDraftId d => mkHttpRequest HttpPost "/v1/api/deleteApiByApiDraftId"
      [("service_iteration_id", JNum (deleted_iteration_id d)); ("api_draft_id", JNum (deleted_draft_id d))]
  | UpdateApiByApiDraftId d => mkHttpRequest HttpPost "/v1/api/updateApiByApiDraftId"
      [("service_iteration_id", JNum (upd_iteration_id d)); ("api_draft_id", JNum (upd_draft_id d)); ("name", JStr (upd_name d));
       ("method", JStr (method_name (upd_method d))); ("path", JStr (upd_path d));
       ("description", JStr (upd_description d)); ("level", JStr (level_name (upd_level d)));
       ("req_params", Stringified (JArr (map req_json (req_params d))));
       ("resp_params", Stringified (JArr (map resp_json (resp_params d))))]
  end.
End CliApi.

(** ** What the back end reads *)

Section Agreement.
Context `{!Libraries, !AxiosQuery}.

(** The operations asked for; the texts of a query as they arrive ([needs_text]). *)
Definition user_asked (c : CliUsers.UserCall) : Z + Operation :=
  match c with
  | CliUsers.UserLogin d => inr (login (CliUsers.username d) (CliUsers.password d))
  | CliUsers.UserRegister d => inr (register (CliUsers.reg_username d) (CliUsers.reg_password d) (CliUsers.nickname d)
      (CliUsers.email d) (CliUsers.role d))
  | CliUsers.UserModifyPassword d => inr (modifyPassword (CliUsers.old_password d) (CliUsers.new_password d))
  | CliUsers.GetUserById i => inr (getUserById i)
  | CliUsers.GetMyInfo => inr getMyInfo
  | CliUsers.GetUserByUsernameOrNicknameOrEmail q => needs_text q (fun q => inr (getUserByUsernameOrNicknameOrEmail q))
  end.

(** Pages have ten entries, and the first is shown. *)
Definition service_asked (c : CliService.ServiceCall) : Z + Operation :=
  match c with
  | CliService.GetMyNewestServices s p => inr (getHisNewestServicesByOwnerId None (default 10 s) (default 1 p))
  | CliService.GetAllServices s p => inr (getAllServices (default 10 s) (default 1 p))
  | CliService.GetHisNewestServicesByOwnerId o s p => inr (getHisNewestServicesByOwnerId (Some o) (default 10 s) (default 1 p))
  | CliService.GetServiceById i => inr (getServiceById i)
  | CliService.GetServiceByUuidAndVersion u v =>
      needs_text u (fun u => needs_text v (fun v => inr (getServiceByUuidAndVersion u v)))
  | CliService.GetAllVersionsByUuid u => needs_text u (fun u => inr (getAllVersionsByUuid u))
  | CliService.CreateNewService d => inr (createNewService (CliService.service_uuid d) (CliService.description d))
  | CliService.GetAllDeletedServicesByUserId s p => inr (getAllDeletedServicesByUserId (default 10 s) (default 1 p))
  | CliService.DeleteServiceById d => inr (deleteServiceById (CliService.deleted_id d))
  | CliService.RestoreServiceById d => inr (restoreServiceById (CliService.restored_id d))
  | CliService.DeleteIterationById d => inr (deleteIterationById (CliService.deleted_iteration_id d))
  | CliService.GetIterationById i => inr (getIterationById i)
  | CliService.StartIteration d => inr (startIteration (CliService.started_service_id d))
  | CliService.CommitIteration d => inr (commitIteration (CliService.committed_iteration_id d) (CliService.new_version d))
  | CliService.UpdateDescription d => inr (updateDescription (CliService.described_iteration_id d) (CliService.new_description d))
  end%Z.

(** A parameter with what the back end takes for members that are missing. *)
Definition type_received (o : option (option ParamType)) : option string := type_name <$> default None o.
Fixpoint req_received (p : CliApi.ApiReqParamInput) : ParamInput :=
  let '(CliApi.mkReqParam n t l r df ds ex ac cs) := p in
  mkParamInput n (type_name t) (AtLocation (location_name (default ApiTypes.body l))) (default false r) (default None df)
    (default None ds) (default None ex) (type_received ac)
    (match cs with Some l => Some (map req_received l) | None => None end).
Fixpoint resp_received (p : CliApi.ApiRespParamInput) : ParamInput :=
  let '(CliApi.mkRespParam c n t r ds ex ac cs) := p in
  mkParamInput n (type_name t) (AtStatus (Some (default 200%Z c))) (default false r) None
    (default None ds) (default None ex) (type_received ac)
    (match cs with Some l => Some (map resp_received l) | None => None end).

Definition api_asked (c : CliApi.ApiCall) : Z + Operation :=
  match c with
  | CliApi.GetAllCategoriesByServiceId s => inr (getAllCategoriesByServiceId s)
  | CliApi.GetAllApisByServiceId s c => inr (getAllApisByServiceId s c)
  | CliApi.GetApiById i l => inr (getApiById i (default true l))
  | CliApi.AddCategoryByServiceId d =>
      inr (addCategoryByServiceId (CliApi.service_id d) (CliApi.category_name d) (CliApi.category_description d))
  | CliApi.DeleteCategoryById d => inr (deleteCategoryById (CliApi.deleted_category_id d))
  | CliApi.UpdateCategoryById d =>
      inr (updateCategoryById (CliApi.updated_category_id d) (CliApi.updated_name d) (CliApi.updated_description d))
  | CliApi.UpdateApiCategoryById d => inr (updateApiCategoryById (CliApi.moved_api_id d) (CliApi.target_category_id d))
  | CliApi.AddApi d =>
      inr (addApi (CliApi.service_iteration_id d) (CliApi.name d) (method_name (CliApi.method d)) (CliApi.path d)
        (CliApi.description d) (level_name (CliApi.level d))
        (default None (CliApi.category_id d) ≫= fun c => if (c =? 0)%Z then None else Some c))
  | CliApi.DeleteApiByApiDraftId d => inr (deleteApiByApiDraftId (CliApi.deleted_iteration_id d) (CliApi.deleted_draft_id d))
  | CliApi.UpdateApiByApiDraftId d =>
      inr (updateApiByApiDraftId (CliApi.upd_iteration_id d) (CliApi.upd_draft_id d) (CliApi.upd_name d)
        (method_name (CliApi.upd_method d)) (CliApi.upd_path d) (CliApi.upd_description d) (level_name (CliApi.upd_level d))
        (map req_received (CliApi.req_params d)) (map resp_received (CliApi.resp_params d)))
  end.

(** *** Lemmas *)

Section ReqInd.
Variable P : CliApi.ApiReqParamInput -> Prop.
Hypothesis Hparam : forall p, Forall P (default [] (CliApi.req_children p)) -> P p.
Fixpoint req_nested_ind (p : CliApi.ApiReqParamInput) : P p.
Proof.
  apply Hparam. destruct p as [n t l r df ds ex ac [cs|]]; cbn [CliApi.req_children default]; [|constructor].
  induction cs as [|c cs IH]; constructor; [apply req_nested_ind|exact IH].
Defined.
End ReqInd.

Section RespInd.
Variable P : CliApi.ApiRespParamInput -> Prop.
Hypothesis Hparam : forall p, Forall P (default [] (CliApi.resp_children p)) -> P p.
Fixpoint resp_nested_ind (p : CliApi.ApiRespParamInput) : P p.
Proof.
  apply Hparam. destruct p as [c n t r ds ex ac [cs|]]; cbn [CliApi.resp_children default]; [|constructor].
  induction cs as [|c' cs IH]; constructor; [apply resp_nested_ind|exact IH].
Defined.
End RespInd.

Lemma req_read p : input_of_json RequestParamDraft (CliApi.req_json p) = Some (req_received p).
Proof.
  induction p as [p IH] using req_nested_ind. destruct p as [n t l r df ds ex ac cs]. cbn [CliApi.req_children] in IH.
  assert (Hcs : forall k, cs = Some k -> all_some (map (input_of_json RequestParamDraft) (map CliApi.req_json k)) = Some (map req_received k)).
  { intros k ->. cbn [from_option id] in IH. rewrite map_map. apply all_some_map. by rewrite Forall_forall in IH. }
  destruct l, r, df as [[]|], ds as [[]|], ex as [[]|], ac as [[]|], cs as [cs|]; try reflexivity;
    cbn; rewrite (Hcs _ eq_refl); reflexivity.
Qed.

Lemma resp_read p : input_of_json ResponseParamDraft (CliApi.resp_json p) = Some (resp_received p).
Proof.
  induction p as [p IH] using resp_nested_ind. destruct p as [c n t r ds ex ac cs]. cbn [CliApi.resp_children] in IH.
  assert (Hcs : forall k, cs = Some k -> all_some (map (input_of_json ResponseParamDraft) (map CliApi.resp_json k)) = Some (map resp_received k)).
  { intros k ->. cbn [from_option id] in IH. rewrite map_map. apply all_some_map. by rewrite Forall_forall in IH. }
  destruct c, r, ds as [[]|], ex as [[]|], ac as [[]|], cs as [cs|]; try reflexivity;
    cbn; rewrite (Hcs _ eq_refl); reflexivity.
Qed.

Lemma req_params_read r key l : obj_get (data r) key = Some (Stringified (JArr (map CliApi.req_json l))) ->
  body_params r key RequestParamDraft = inr (map req_received l).
Proof.
  intros E. unfold body_params. rewrite E, map_map. rewrite (all_some_map _ req_received); [done|]. intros x _. apply req_read.
Qed.
Lemma resp_params_read r key l : obj_get (data r) key = Some (Stringified (JArr (map CliApi.resp_json l))) ->
  body_params r key ResponseParamDraft = inr (map resp_received l).
Proof.
  intros E. unfold body_params. rewrite E, map_map. rewrite (all_some_map _ resp_received); [done|]. intros x _. apply resp_read.
Qed.

Lemma paged_read {A} r (f : Z -> Z -> A) s p : obj_get (data r) "page_size" = JNum <$> s ->
  obj_get (data r) "current_page" = JNum <$> p -> paged r f = inr (f (default 10 s) (default 1 p))%Z.
Proof.
  intros Es Ep. unfold paged.
  assert (E : forall k o n, obj_get (data r) k = JNum <$> o -> query_page r k n = inr (default n o)).
  { intros k [z|] n Ek; [by apply query_page_num|]. unfold query_page, query_get. by rewrite Ek. }
  by rewrite (E _ _ _ Es), (E _ _ _ Ep).
Qed.

Lemma user_agrees c : route (CliUsers.user_request c) = Some (user_asked c).
Proof.
  destruct c; decode; try reflexivity.
  unfold needs_text. destruct (String.eqb _ ""); reflexivity.
Qed.

(** The four ways to give the pages. *)
Ltac pages := repeat match goal with |- context [paged ?r ?f] => first
  [ rewrite (paged_read r f None None eq_refl eq_refl) | rewrite (paged_read r f (Some _) None eq_refl eq_refl)
  | rewrite (paged_read r f None (Some _) eq_refl eq_refl) | rewrite (paged_read r f (Some _) (Some _) eq_refl eq_refl) ] end.

Lemma service_agrees c : route (CliService.service_request c) = Some (service_asked c).
Proof.
  destruct c as [s p|s p|o s p|i|u v|u|d|s p|d|d|d|i|d|d|d]; try (destruct s, p); try destruct d;
    decode; pages; known; try reflexivity.
  all: unfold needs_text; repeat match goal with |- context [String.eqb ?q ""] => destruct (String.eqb q "") end.
  all: known; reflexivity.
Qed.

Lemma api_agrees c : route (CliApi.api_request c) = Some (api_asked c).
Proof.
  destruct c as [s|s c|i [[]|]|[s n [t|]]|d|[c [n|] [t|]]|d|[i n m p t l [[c|]|]]|d|[i a n m p t l rq rs]]; try reflexivity.
  all: decode; try reflexivity.
  erewrite (req_params_read _ _ rq) by reflexivity. erewrite (resp_params_read _ _ rs) by reflexivity. reflexivity.
Qed.

End Agreement.

Section Texts.
Context `{!Libraries, !AxiosQuery}.

(** What the functions would ask for if queries carried texts as they are. *)
Definition user_meant (c : CliUsers.UserCall) : Z + Operation := @user_asked plain_queries c.
Definition service_meant (c : CliService.ServiceCall) : Z + Operation := @service_asked plain_queries c.

Notation plain_texts r := (Forall (fun s => str_forallb unreserved s = true) (query_texts r)).

Lemma user_plain c : plain_texts (CliUsers.user_request c) -> user_asked c = user_meant c.
Proof.
  unfold user_meant. destruct c; try done. cbn. rewrite Forall_cons. unfold needs_text. intros [Hs _]. by rewrite query_text_plain.
Qed.

Lemma service_plain c : plain_texts (CliService.service_request c) -> service_asked c = service_meant c.
Proof.
  unfold service_meant. destruct c; try done; cbn; rewrite ?Forall_cons; unfold needs_text.
  - intros (Hu & Hv & _). by rewrite !query_text_plain by done.
  - intros (Hu & _). by rewrite query_text_plain by done.
Qed.

End Texts.

