(* ===== verification/Dialogs.v ===== *)
(** * Dialogs and the clipboard

    The helpers of [FE-CAM/src/utils.tsx] that ask or tell the user something
    before or after an action: [handleConfirm], [inIterationWarning] and
    [copyToClipboard].  What the user answers is a parameter. *)

From S2P Require Import Prelude JsObject ApiTypes FeTypes FeHttp.
From Stdlib Require Import Ascii String ZArith.

(** ** Confirmation *)

Record ConfirmDialog := mkConfirmDialog { dialog_title : string; dialog_content : string; ok_danger : bool }.

Definition confirm_dialog (action confirmText : string) : ConfirmDialog :=
  mkConfirmDialog ("确认" +:+ str_or action "操作")
    (str_or confirmText ("是否确认" +:+ str_or action "执行此操作" +:+ "？"))
    (includes action "删除" || includes (to_lower action) "delete").

(** [handleConfirm]: [confirmed] is the answer of the user; a failing [onOk]
    closes the dialog. *)
Definition handleConfirm {H} (confirmed : bool) (onOk : UI H unit) : UI H unit :=
  if confirmed then try_catch onOk (fun _ => mret ()) else mret ().

(** ** The guard of an iteration *)

Inductive warning_type := AskFirst | Reject.

(** [inIterationWarning]: outside an iteration the action runs; inside one a
    dialog either lets the user go on ([confirmed]) or only says no. *)
Definition inIterationWarning {H} (action : UI H unit) (inIteration : bool) (type : warning_type)
    (confirmed : bool) : UI H unit :=
  if negb inIteration then action
  else match type with
  | AskFirst =>
      toast_up (Dialog "当前在迭代中，请确保已保存当前改动") ;;
      if confirmed then try_catch action (fun _ => mret ()) else mret ()
  | Reject => toast_up (Dialog "当前在迭代中，请先退出当前迭代")
  end.

(** ** The clipboard *)

(** What the browser offers: [navigator.clipboard] and the outcome of its
    [writeText], or [document.execCommand], which may throw too. *)
Inductive clipboard := AsyncClipboard (written : outcome unit) | ExecCommand (copied : outcome unit).

Definition copyToClipboard {H} (c : clipboard) : UI H unit :=
  try_catch (
    resume (match c with AsyncClipboard o => o | ExecCommand o => o end) ;;
    toast_up (Success "复制成功"))
    (fun _ => toast_up (Failure "复制失败")).
