(* ===== verification/ApiTree.v ===== *)
(** * The API tree of a service

    [treeData] and [iterationTreeData] of [FE-CAM/src/hooks/useService.tsx], and
    what [FE-CAM/src/components/ApiManagement/ApiList/index.tsx] computes from
    the tree: the first API, the selected API, and where a dragged API goes. *)

From S2P Require Import Prelude JsObject ApiTypes FeTypes.
From Stdlib Require Import Ascii String ZArith.

(** ** Sorting by method *)

(** [a.method.localeCompare(b.method)]: the position of the method's name in the
    alphabet. *)
Definition method_rank (m : HttpMethod) : nat :=
  match m with DELETE => 0 | GET => 1 | PATCH => 2 | POST => 3 | PUT => 4 end.

Definition method_le (a b : ApiBrief) : bool :=
  (method_rank (api_method a) <=? method_rank (api_method b))%nat.

Fixpoint insert_api (x : ApiBrief) (l : list ApiBrief) : list ApiBrief :=
  match l with
  | [] => [x]
  | y :: l' => if method_le x y then x :: l else y :: insert_api x l'
  end.

(** [apis.sort(...)]: stable, as [Array.prototype.sort] is. *)
Definition sort_apis (l : list ApiBrief) : list ApiBrief := foldr insert_api [] l.

(** ** The tree *)

Record Node := mkNode {
  node_key : string; node_method : HttpMethod; node_name : string; node_path : string }.

(** A category group; the title of the last one is [未分类]. *)
Record Group := mkGroup {
  group_key : string; group_category : option ApiCategory; children : list Node }.

Definition node_of (a : ApiBrief) : Node :=
  mkNode (show_int (api_id a)) (api_method a) (api_name a) (api_path a).

(** [Map<number, any>]: insertion order, [set] keeps the place of a key. *)
Fixpoint map_set {V} (m : list (Z * V)) (k : Z) (v : V) : list (Z * V) :=
  match m with
  | [] => [(k, v)]
  | (k', v') :: m' => if Z.eqb k k' then (k', v) :: m' else (k', v') :: map_set m' k v
  end.

Fixpoint map_get {V} (m : list (Z * V)) (k : Z) : option V :=
  match m with
  | [] => None
  | (k', v) :: m' => if Z.eqb k k' then Some v else map_get m' k
  end.

Definition category_key (c : Z) : string := "category-" +:+ show_int c.
Definition null_key : string := "category-null".

Definition push_child (n : Node) (g : Group) : Group :=
  mkGroup (group_key g) (group_category g) (children g ++ [n]).

(** [categoryMap] before the APIs are placed. *)
Definition category_map (cats : list ApiCategory) : list (Z * Group) :=
  foldl (fun m c => map_set m (cat_id c) (mkGroup (category_key (cat_id c)) (Some c) [])) [] cats.

(** The body of the loop over the APIs. *)
Definition place_api (st : list (Z * Group) * Group) (a : ApiBrief) : list (Z * Group) * Group :=
  let '(m, uncategorizedGroup) := st in
  let node := node_of a in
  match category_id a with
  | None => (m, push_child node uncategorizedGroup)
  | Some c =>
      match map_get m c with
      | Some group => (map_set m c (push_child node group), uncategorizedGroup)
      | None => (m, push_child node uncategorizedGroup)
      end
  end.

(** The source sorts the array of the component's state in place, when it renders; here
    the tree sorts a list of its own.  The two agree, since sorting twice is sorting
    once ([sort_apis_idem]); only the order of the array in the state differs, which
    [Iteration.draftsRendered] restores where it matters. *)
Definition treeData (cats : list ApiCategory) (apis : list ApiBrief) : list Group :=
  let '(m, uncategorizedGroup) :=
    foldl place_api (category_map cats, mkGroup null_key None []) (sort_apis apis) in
  map snd m ++ [uncategorizedGroup].

(** ** [ApiList] *)

(** [firstOptionKey]. *)
Definition firstOptionKey (tree : list Group) : string :=
  match filter (fun g => children g <> []) tree with
  | g :: _ => match children g with n :: _ => node_key n | [] => "" end
  | [] => ""
  end.

(** [handleSelectApi]: the API to select, and the keys shown as selected. *)
Definition selectApi (keys : list string) (selectedKeys : list string) : Z * list string :=
  match head keys ≫= to_number with
  | Some apiId => if (apiId <=? 0)%Z then ((-1)%Z, selectedKeys) else (apiId, keys)
  | None => ((-1)%Z, selectedKeys)
  end.

(** [key.replace("category-", "")] on a key that starts so. *)
Fixpoint drop_chars (n : nat) (s : string) : string :=
  match n, s with
  | S n', String _ s' => drop_chars n' s'
  | _, _ => s
  end.

Definition is_category_key (k : string) : bool := String.prefix "category-" k.

(** The category a key denotes ([None] is [NaN]). *)
Definition category_of_key (k : string) : option Z :=
  if String.eqb k null_key then Some (-1)%Z else to_number (drop_chars 9 k).

Record DragInfo := mkDragInfo {
  drag_key : string; drag_parent : option string;
  drop_key : string; drop_parent : option string }.

(** [handleDrag]: the arguments of [handleUpdateApiCategory], when it is called. *)
Definition handleDrag (inIteration isLatest : bool) (info : DragInfo) : option (Z * option Z) :=
  if inIteration then None
  else if negb isLatest then None
  else
    let target :=
      if is_category_key (drop_key info) then Some (category_of_key (drop_key info))
      else match drop_parent info with
           | Some category => if is_category_key category then Some (category_of_key category) else None
           | None => None
           end in
    match target with
    | None => None
    | Some categoryId =>
        match to_number (drag_key info) with
        | Some apiId =>
            if (apiId =? 0)%Z then None
            else if decide (drag_parent info = Some (drop_key info) \/ drag_parent info = drop_parent info)
            then None
            else Some (apiId, categoryId)
        | None => None
        end
    end.

(** [handleUpdateApiCategory]'s new list. *)
Definition set_category (api_id' category_id' : Z) (apis : list ApiBrief) : list ApiBrief :=
  map (fun a =>
    if (api_id a =? api_id')%Z
    then mkApiBrief (api_id a) (api_name a) (api_method a) (api_path a) (api_description a) (api_level a)
           (is_enabled a) (if (0 <=? category_id')%Z then Some category_id' else None)
    else a) apis.

(** ** Specification *)

(** The key of the group an API belongs to. *)
Definition group_of (cats : list ApiCategory) (a : ApiBrief) : string :=
  match category_id a with
  | Some c => if decide (c ∈ map cat_id cats) then category_key c else null_key
  | None => null_key
  end.

(** The keys of the groups: each category once, where it first occurs, then the
    uncategorised group. *)
Fixpoint first_ids (seen : list Z) (l : list Z) : list Z :=
  match l with
  | [] => []
  | x :: l' => if decide (x ∈ seen) then first_ids seen l' else x :: first_ids (x :: seen) l'
  end.

Definition group_keys (cats : list ApiCategory) : list string :=
  map category_key (first_ids [] (map cat_id cats)) ++ [null_key].

(** ** Lemmas: the sort *)

Lemma insert_api_Permutation x l : insert_api x l ≡ₚ x :: l.
Proof.
  induction l as [|y l IH]; simpl; [done|]. destruct (method_le x y); [done|].
  rewrite IH. by constructor.
Qed.

Lemma sort_apis_Permutation l : sort_apis l ≡ₚ l.
Proof. induction l as [|x l IH]; simpl; [done|]. by rewrite insert_api_Permutation, IH. Qed.

Lemma insert_api_sorted x l :
  StronglySorted method_le l -> StronglySorted method_le (insert_api x l).
Proof.
  induction 1 as [|y l Hl IH Hy]; simpl; [by repeat constructor|].
  destruct (method_le x y) eqn:E.
  - constructor; [by constructor|]. constructor; [by rewrite E|].
    eapply Forall_impl; [exact Hy|]. simpl. unfold method_le in *. intros z Hz.
    apply Is_true_true in Hz. apply Is_true_true. rewrite Nat.leb_le in *. lia.
  - constructor; [done|]. rewrite insert_api_Permutation. constructor; [|done].
    unfold method_le in *. apply Is_true_true, Nat.leb_le. apply Nat.leb_gt in E. lia.
Qed.

Lemma sort_apis_sorted l : StronglySorted method_le (sort_apis l).
Proof. induction l as [|x l IH]; simpl; [constructor|by apply insert_api_sorted]. Qed.

(** A list that is sorted already is left alone. *)
Lemma sort_apis_id l : StronglySorted method_le l -> sort_apis l = l.
Proof.
  induction 1 as [|x l Hl IH Hx]; [done|]. cbn [sort_apis foldr]. fold (sort_apis l). rewrite IH.
  destruct Hx as [|y l Hxy _]; [done|]. cbn [insert_api]. by rewrite (Is_true_true_1 _ Hxy).
Qed.

Lemma sort_apis_idem l : sort_apis (sort_apis l) = sort_apis l.
Proof. apply sort_apis_id, sort_apis_sorted. Qed.

(** The APIs of one method keep their order. *)
Lemma sort_apis_stable m l :
  filter (fun a => api_method a = m) (sort_apis l) = filter (fun a => api_method a = m) l.
Proof.
  assert (Hi : forall x l, filter (fun a => api_method a = m) (insert_api x l) =
    filter (fun a => api_method a = m) (x :: l)).
  { clear l. intros x l. induction l as [|y l IH]; [done|]. simpl insert_api.
    destruct (method_le x y) eqn:E; [done|]. rewrite filter_cons, IH, !filter_cons.
    repeat case_decide; try done. exfalso. unfold method_le in E.
    apply Nat.leb_gt in E. destruct x, y; simpl in *; subst; lia. }
  induction l as [|x l IH]; [done|]. simpl sort_apis. rewrite Hi, !filter_cons. by rewrite IH.
Qed.

(** ** Lemmas: keys *)

#[global] Instance show_int_inj : Inj (=) (=) show_int.
Proof. intros a b H. apply (f_equal to_number) in H. rewrite !to_number_show_int in H. congruence. Qed.

#[global] Instance category_key_inj : Inj (=) (=) category_key.
Proof. intros a b H. apply (f_equal (drop_chars 9)) in H. by apply show_int_inj. Qed.

Lemma category_key_not_null c : category_key c <> null_key.
Proof.
  intros H. apply (f_equal (drop_chars 9)) in H. change (show_int c = "null") in H.
  apply (f_equal to_number) in H. by rewrite to_number_show_int in H.
Qed.

(** ** Lemmas: the category map *)

Lemma map_set_keys {V} (m : list (Z * V)) k v :
  (map_set m k v).*1 = if decide (k ∈ m.*1) then m.*1 else m.*1 ++ [k].
Proof.
  induction m as [|[k' v'] m IH]; [done|]. cbn [map_set].
  destruct (Z.eqb_spec k k') as [-> |Hne]; rewrite !fmap_cons; simpl fst.
  - by rewrite decide_True by (by left).
  - rewrite IH. destruct (decide (k ∈ m.*1)).
    + by rewrite decide_True by (by right).
    + rewrite decide_False; [done|]. by rewrite elem_of_cons; intros [?|?].
Qed.

Lemma map_set_elem {V} (m : list (Z * V)) k v kv : kv ∈ map_set m k v -> kv = (k, v) \/ kv ∈ m.
Proof.
  induction m as [|[k' v'] m IH]; simpl.
  - intros ->%list_elem_of_singleton. by left.
  - destruct (Z.eqb_spec k k') as [-> |Hne]; rewrite !elem_of_cons; tauto.
Qed.

Lemma map_get_None {V} (m : list (Z * V)) k : map_get m k = None <-> k ∉ m.*1.
Proof.
  induction m as [|[k' v] m IH]; simpl; [split; [by intros _ ?%not_elem_of_nil|done]|].
  rewrite not_elem_of_cons, <-IH. destruct (Z.eqb_spec k k'); naive_solver.
Qed.

(** Updating a present key in place. *)
Lemma map_set_update (m : list (Z * Group)) k g n :
  NoDup m.*1 -> map_get m k = Some g ->
  map_set m k (push_child n g) = map (fun kv => if (kv.1 =? k)%Z then (kv.1, push_child n kv.2) else kv) m.
Proof.
  induction m as [|[k' v'] m IH]; simpl; [done|]. rewrite NoDup_cons. intros [Hk Hm].
  destruct (Z.eqb_spec k k') as [-> |Hne].
  - intros [= ->]. rewrite Z.eqb_refl. f_equal. rewrite <-(map_id m) at 1. apply map_ext_in.
    intros [k2 v2] Hin%list_elem_of_In. simpl. destruct (Z.eqb_spec k2 k') as [-> |]; [|done].
    destruct Hk. apply list_elem_of_fmap. by exists (k', v2).
  - intros Hg. rewrite (IH Hm Hg). destruct (Z.eqb_spec k' k); congruence.
Qed.

Lemma first_ids_ext s s' l : (forall x, x ∈ s <-> x ∈ s') -> first_ids s l = first_ids s' l.
Proof.
  revert s s'. induction l as [|x l IH]; intros s s' H; simpl; [done|].
  rewrite (decide_ext _ _ _ _ (H x)). destruct (decide (x ∈ s')); [by apply IH|].
  f_equal. apply IH. intros y. by rewrite !elem_of_cons, H.
Qed.

Lemma category_map_keys_gen cats m :
  (foldl (fun m c => map_set m (cat_id c) (mkGroup (category_key (cat_id c)) (Some c) [])) m cats).*1 =
  m.*1 ++ first_ids m.*1 (map cat_id cats).
Proof.
  revert m. induction cats as [|c cats IH]; intros m; simpl; [by rewrite app_nil_r|].
  rewrite IH, map_set_keys. case_decide; [done|]. rewrite <-app_assoc. simpl. do 2 f_equal.
  apply first_ids_ext. intros y. rewrite elem_of_app, list_elem_of_singleton, elem_of_cons. tauto.
Qed.

Lemma first_ids_NoDup s l : NoDup (first_ids s l) /\ forall x, x ∈ first_ids s l -> x ∉ s.
Proof.
  revert s. induction l as [|x l IH]; intros s; simpl; [split; [constructor|by intros ??%not_elem_of_nil]|].
  case_decide; [apply IH|]. destruct (IH (x :: s)) as [H1 H2]. split.
  - constructor; [|done]. intros Hx. apply (H2 x Hx). by left.
  - intros y. rewrite elem_of_cons. intros [-> |Hy]; [done|]. intros Hs. apply (H2 y Hy). by right.
Qed.

Lemma elem_of_first_ids s l x : x ∈ first_ids s l <-> x ∈ l /\ x ∉ s.
Proof.
  revert s. induction l as [|y l IH]; intros s; simpl.
  - split; [by intros ?%not_elem_of_nil|by intros [?%not_elem_of_nil _]].
  - case_decide; rewrite ?elem_of_cons, IH, ?elem_of_cons; [naive_solver|].
    destruct (decide (x = y)); naive_solver.
Qed.

Lemma category_map_keys cats : (category_map cats).*1 = first_ids [] (map cat_id cats).
Proof. apply (category_map_keys_gen cats []). Qed.

Lemma category_map_wf cats kv :
  kv ∈ category_map cats -> group_key kv.2 = category_key kv.1 /\ children kv.2 = [].
Proof.
  unfold category_map. assert (H : forall m, (forall kv, kv ∈ m -> group_key kv.2 = category_key kv.1 /\ children kv.2 = []) ->
    forall kv, kv ∈ foldl (fun m c => map_set m (cat_id c) (mkGroup (category_key (cat_id c)) (Some c) [])) m cats ->
    group_key kv.2 = category_key kv.1 /\ children kv.2 = []).
  { induction cats as [|c cats IH]; intros m Hm; simpl; [done|]. apply IH.
    intros kv' [-> |?]%map_set_elem; auto. }
  apply H. by intros ? ?%not_elem_of_nil.
Qed.

(** ** Lemmas: placing the APIs *)

Definition placed (c : Z) : list ApiBrief -> list ApiBrief :=
  filter (fun a => category_id a = Some c).

(** No group of [m] takes the API. *)
Definition unplaced (m : list (Z * Group)) (a : ApiBrief) : Prop :=
  match category_id a with Some c => map_get m c = None | None => True end.
#[global] Instance unplaced_dec m a : Decision (unplaced m a).
Proof. unfold unplaced. destruct (category_id a); [|apply _]. destruct (map_get m _); [right|left]; done. Defined.

Definition add_children (ns : list Node) (g : Group) : Group :=
  mkGroup (group_key g) (group_category g) (children g ++ ns).

Lemma place_apis l m u :
  NoDup m.*1 ->
  foldl place_api (m, u) l =
  (map (fun kv => (kv.1, add_children (map node_of (placed kv.1 l)) kv.2)) m,
   add_children (map node_of (filter (unplaced m) l)) u).
Proof.
  revert m u. induction l as [|a l IH]; intros m u Hm; simpl.
  { unfold placed, add_children. simpl. f_equal.
    - rewrite <-(map_id m) at 1. apply map_ext. intros [k []]. simpl. by rewrite app_nil_r.
    - destruct u. simpl. by rewrite app_nil_r. }
  assert (Hunc : unplaced m a -> foldl place_api (m, push_child (node_of a) u) l =
    (map (fun kv => (kv.1, add_children (map node_of (placed kv.1 (a :: l))) kv.2)) m,
     add_children (map node_of (filter (unplaced m) (a :: l))) u)).
  { intros Hu. rewrite IH by done. f_equal.
    - apply map_ext_in. intros [k g] Hin%list_elem_of_In. simpl. unfold placed. rewrite filter_cons.
      rewrite decide_False; [done|]. intros E. unfold unplaced in Hu. rewrite E in Hu.
      apply map_get_None in Hu. apply Hu, list_elem_of_fmap. by exists (k, g).
    - rewrite filter_cons, decide_True by done. unfold add_children, push_child. simpl. by rewrite <-app_assoc. }
  destruct (category_id a) as [c|] eqn:Ec; [|apply Hunc; unfold unplaced; by rewrite Ec].
  destruct (map_get m c) as [g|] eqn:Eg; [|apply Hunc; unfold unplaced; by rewrite Ec].
  rewrite (map_set_update m c g) by done. set (m' := map _ m).
  assert (Hk : m'.*1 = m.*1).
  { unfold m'. clear. induction m as [|[k v] m IH]; [done|]. cbn. rewrite <-IH. by destruct (k =? c)%Z. }
  rewrite IH by (by rewrite Hk). f_equal.
  - unfold m'. rewrite map_map. apply map_ext. intros [k v]. cbn [fst snd].
    unfold placed. rewrite filter_cons. destruct (Z.eqb_spec k c) as [-> |Hne]; cbn [fst snd].
    + rewrite decide_True by done. unfold add_children, push_child. cbn. by rewrite <-app_assoc.
    + rewrite decide_False; [done|]. rewrite Ec. congruence.
  - f_equal. rewrite filter_cons, decide_False by (unfold unplaced; by rewrite Ec, Eg). f_equal.
    apply list_filter_iff. intros x. unfold unplaced. destruct (category_id x); [|done].
    by rewrite !map_get_None, Hk.
Qed.

(** ** The tree, group by group *)

Lemma elem_of_category_map_keys cats c : c ∈ (category_map cats).*1 <-> c ∈ map cat_id cats.
Proof.
  rewrite category_map_keys, elem_of_first_ids. split; [tauto|]. intros; split; [done|].
  apply not_elem_of_nil.
Qed.

Lemma group_of_category cats a c :
  c ∈ map cat_id cats -> (group_of cats a = category_key c <-> category_id a = Some c).
Proof.
  intros Hc. unfold group_of. destruct (category_id a) as [c'|].
  - case_decide as H'; split.
    + by intros ->%category_key_inj.
    + by intros [= ->].
    + intros E. by destruct (category_key_not_null c).
    + by intros [= ->].
  - split; [|done]. intros E. by destruct (category_key_not_null c).
Qed.

Lemma group_of_null cats a :
  group_of cats a = null_key <-> unplaced (category_map cats) a.
Proof.
  unfold group_of, unplaced. destruct (category_id a) as [c|]; [|done].
  rewrite map_get_None, elem_of_category_map_keys. case_decide; [|tauto].
  split; [|tauto]. by intros ?%category_key_not_null.
Qed.

Lemma treeData_groups cats apis :
  map (fun g => (group_key g, children g)) (treeData cats apis) =
  map (fun k => (k, map node_of (filter (fun a => group_of cats a = k) (sort_apis apis)))) (group_keys cats).
Proof.
  unfold treeData. rewrite place_apis by (rewrite category_map_keys; apply first_ids_NoDup).
  unfold group_keys. rewrite !map_app. simpl. f_equal.
  - rewrite <-category_map_keys. change ((category_map cats).*1) with (map fst (category_map cats)).
    rewrite !map_map. apply map_ext_in. intros [c g] Hin%list_elem_of_In. cbn [fst snd].
    destruct (category_map_wf _ _ Hin) as [Hk Hc]. cbn [fst snd] in *. simpl. rewrite Hk, Hc. simpl.
    do 2 f_equal. apply list_filter_iff. intros a. symmetry. apply group_of_category.
    apply elem_of_category_map_keys, list_elem_of_fmap. by exists (c, g).
  - do 3 f_equal. apply list_filter_iff. intros a. symmetry. apply group_of_null.
Qed.

Lemma group_of_in_keys cats a : group_of cats a ∈ group_keys cats.
Proof.
  unfold group_keys. rewrite elem_of_app, list_elem_of_singleton.
  unfold group_of. destruct (category_id a) as [c|]; [|by right]. case_decide; [left|by right].
  apply list_elem_of_fmap. exists c. split; [done|]. apply elem_of_first_ids. split; [done|apply not_elem_of_nil].
Qed.

Lemma group_keys_NoDup cats : NoDup (group_keys cats).
Proof.
  unfold group_keys. apply NoDup_app. split; [|split; [|apply NoDup_singleton]].
  - apply NoDup_fmap_2; [apply _|]. apply first_ids_NoDup.
  - intros x (c & -> & _)%list_elem_of_fmap. rewrite list_elem_of_singleton. apply category_key_not_null.
Qed.

Lemma filter_comm {A} (P Q : A -> Prop) `{!forall x, Decision (P x), !forall x, Decision (Q x)} (l : list A) :
  filter P (filter Q l) = filter Q (filter P l).
Proof.
  rewrite !list_filter_filter. apply list_filter_iff. tauto.
Qed.

(** Cutting a list by the value of a function is a permutation of it. *)
Lemma filter_partition {A} (f : A -> string) ks (l : list A) :
  NoDup ks -> (forall a, a ∈ l -> f a ∈ ks) ->
  List.concat (map (fun k => filter (fun a => f a = k) l) ks) ≡ₚ l.
Proof.
  revert l. induction ks as [|k ks IH]; intros l Hnd Hl; simpl.
  - destruct l as [|a l]; [done|]. destruct (not_elem_of_nil (f a)). apply Hl. by left.
  - apply NoDup_cons in Hnd as [Hk Hks].
    assert (E : map (fun k => filter (fun a => f a = k) l) ks =
      map (fun k' => filter (fun a => f a = k') (filter (fun a => f a <> k) l)) ks).
    { apply map_ext_in. intros k' Hk'%list_elem_of_In. rewrite list_filter_filter.
      apply list_filter_iff. intros a. split; [|tauto]. intros <-. split; [done|]. by intros <-. }
    rewrite E, IH; [|done|].
    + clear. induction l as [|a l IH]; [done|]. rewrite !filter_cons.
      destruct (decide (f a = k)), (decide (f a <> k)); try tauto; simpl.
      * by rewrite IH.
      * by rewrite <-Permutation_middle, IH.
    + intros a [Hne Ha]%list_elem_of_filter. specialize (Hl a Ha).
      apply elem_of_cons in Hl as [?|?]; [done|done].
Qed.

(** ** Properties *)

(** C25. The tree shows every API exactly once: the groups are the categories, each
    once and in the order they first occur, followed by the uncategorised group,
    all with different keys; together their nodes are those of the APIs; and each
    group holds the APIs of its category (the uncategorised group those without
    one, or whose category is unknown), sorted by method with the original order
    kept among equals. *)
Theorem treeData_partition cats apis :
  map group_key (treeData cats apis) = group_keys cats /\ NoDup (group_keys cats) /\
  List.concat (map children (treeData cats apis)) ≡ₚ map node_of apis /\
  (forall g, g ∈ treeData cats apis -> exists l,
     children g = map node_of l /\ StronglySorted method_le l /\
     l ≡ₚ filter (fun a => group_of cats a = group_key g) apis /\
     forall m, filter (fun a => api_method a = m) l =
               filter (fun a => api_method a = m) (filter (fun a => group_of cats a = group_key g) apis)).
Proof.
  pose proof (treeData_groups cats apis) as H. split; [|split; [apply group_keys_NoDup|split]].
  - apply (f_equal (map fst)) in H. by rewrite !map_map, map_id in H.
  - apply (f_equal (map snd)) in H. rewrite !map_map in H. cbn [snd] in H.
    change (map (fun g => children g) (treeData cats apis)) with (map children (treeData cats apis)) in H.
    rewrite H, <-(map_map (fun k => filter (fun a => group_of cats a = k) (sort_apis apis)) (map node_of)).
    rewrite <-concat_map, filter_partition; [|apply group_keys_NoDup|intros; apply group_of_in_keys].
    by rewrite sort_apis_Permutation.
  - intros g Hg. exists (filter (fun a => group_of cats a = group_key g) (sort_apis apis)). split; [|split; [|split]].
    + assert (Hin : (group_key g, children g) ∈ map (fun g => (group_key g, children g)) (treeData cats apis))
        by (apply list_elem_of_fmap; eauto).
      rewrite H in Hin. by apply list_elem_of_fmap in Hin as (k & [= -> ->] & _).
    + assert (Hs : forall l, StronglySorted method_le l ->
        StronglySorted method_le (filter (fun a => group_of cats a = group_key g) l)); [|apply Hs, sort_apis_sorted].
      induction 1 as [|a l Hl IH Ha]; [constructor|]. rewrite filter_cons. case_decide; [|done].
      constructor; [done|]. rewrite Forall_forall in *. intros x [_ Hx]%list_elem_of_filter. by apply Ha.
    + by rewrite sort_apis_Permutation.
    + intros m. by rewrite filter_comm, sort_apis_stable, filter_comm.
Qed.

(** ** Lemmas: keys of nodes and groups *)

Lemma category_of_category_key c : category_of_key (category_key c) = Some c.
Proof.
  unfold category_of_key. rewrite (proj2 (String.eqb_neq _ _) (category_key_not_null c)).
  apply (to_number_show_int c).
Qed.

Lemma is_category_category_key c : is_category_key (category_key c) = true.
Proof. unfold is_category_key, category_key. by destruct (show_int c). Qed.

Lemma is_category_show_int z : is_category_key (show_int z) = false.
Proof.
  assert (Hn : forall n, is_category_key (show_nat n) = false).
  { intros n. pose proof (show_nat_digits n) as H. destruct (show_nat_head n) as (c & s & E & _).
    rewrite E in *. simpl in H. apply andb_true_iff in H as [H _]. unfold is_category_key.
    change (String.prefix "category-" (String c s)) with (if ascii_dec "c" c then String.prefix "ategory-" s else false).
    destruct (ascii_dec "c" c) as [<-|]; [by vm_compute in H|done]. }
  destruct z as [|p|p]; [apply Hn|apply Hn|done].
Qed.

Lemma group_keys_category cats k :
  k ∈ group_keys cats -> k = null_key \/ exists c, k = category_key c /\ c ∈ map cat_id cats.
Proof.
  unfold group_keys. rewrite elem_of_app, list_elem_of_singleton. intros [H| ->]; [right|by left].
  apply list_elem_of_fmap in H as (c & -> & Hc). exists c. split; [done|].
  by apply elem_of_first_ids in Hc as [].
Qed.

Lemma group_keys_is_category cats k : k ∈ group_keys cats -> is_category_key k = true.
Proof. intros [-> |(c & -> & _)]%group_keys_category; [done|apply is_category_category_key]. Qed.

(** The category id a drop on group [k] sends. *)
Definition target_id (k : string) : Z := default (-1)%Z (category_of_key k).

Lemma group_keys_target cats k :
  k ∈ group_keys cats -> category_of_key k = Some (target_id k).
Proof.
  intros [-> |(c & -> & _)]%group_keys_category; [done|].
  unfold target_id. by rewrite category_of_category_key.
Qed.

Lemma set_category_group cats apis i k a :
  Forall (fun c => (0 <= cat_id c)%Z) cats -> k ∈ group_keys cats ->
  a ∈ set_category i (target_id k) apis ->
  if (api_id a =? i)%Z then group_of cats a = k else a ∈ apis.
Proof.
  intros Hpos Hk (b & -> & Hb)%list_elem_of_fmap. destruct (Z.eqb_spec (api_id b) i) as [E|E].
  2:{ by rewrite (proj2 (Z.eqb_neq _ _) E). }
  simpl. rewrite (proj2 (Z.eqb_eq _ _) E).
  apply group_keys_category in Hk as [-> |(c & -> & Hc)]; [done|].
  unfold target_id. rewrite category_of_category_key. simpl.
  assert (Hc0 : (0 <=? c)%Z = true).
  { apply list_elem_of_fmap in Hc as (x & -> & Hx). rewrite Forall_forall in Hpos. by apply Z.leb_le, Hpos. }
  rewrite Hc0. unfold group_of. simpl. by rewrite decide_True.
Qed.

(** Dropping on the group [k]: on its title, or on an API in it. *)
Definition dropped_on (k : string) (info : DragInfo) : Prop :=
  (drop_key info = k /\ drop_parent info = None) \/
  (exists b, drop_key info = show_int b /\ drop_parent info = Some k).

(** Dragging an API moves it where it is dropped.  Within an iteration or on
    a past version nothing happens; dropping on the API's own group sends
    nothing; dropping on another group, or on an API of it, sends the update whose
    effect puts exactly that API into the group. *)
Theorem drag_moves_api cats apis a k inIteration isLatest info
  (Hpos : Forall (fun c => (0 <= cat_id c)%Z) cats) (Hid : api_id a <> 0%Z)
  (Hk : k ∈ group_keys cats) (Hdrop : dropped_on k info)
  (Hkey : drag_key info = show_int (api_id a)) (Hparent : drag_parent info = Some (group_of cats a)) :
  if inIteration || negb isLatest || bool_decide (group_of cats a = k)
  then handleDrag inIteration isLatest info = None
  else exists c, handleDrag inIteration isLatest info = Some (api_id a, Some c) /\
    forall b, b ∈ set_category (api_id a) c apis ->
      if (api_id b =? api_id a)%Z then group_of cats b = k else b ∈ apis.
Proof.
  unfold handleDrag. destruct inIteration; [done|]. destruct isLatest; [|done]. simpl orb.
  pose proof (group_keys_is_category _ _ Hk) as Hck. pose proof (group_keys_target _ _ Hk) as Ht.
  assert (Htarget : (if is_category_key (drop_key info) then Some (category_of_key (drop_key info))
    else match drop_parent info with
         | Some category => if is_category_key category then Some (category_of_key category) else None
         | None => None end) = Some (Some (target_id k)) /\
    (drag_parent info = Some (drop_key info) \/ drag_parent info = drop_parent info <-> group_of cats a = k)).
  { destruct Hdrop as [[-> ->]|(b & -> & ->)]; rewrite Hparent.
    - rewrite Hck, Ht. split; [done|]. split; [by intros [[= ?]|?]|]. intros ->. by left.
    - rewrite is_category_show_int, Hck, Ht. split; [done|]. split; [|intros ->; by right].
      intros [[= E]|[= ?]]; [|done].
      pose proof (group_keys_is_category _ _ (group_of_in_keys cats a)) as H.
      by rewrite E, is_category_show_int in H. }
  destruct Htarget as [-> Hsame]. rewrite Hkey, to_number_show_int, (proj2 (Z.eqb_neq _ _) Hid).
  simpl. rewrite (decide_ext _ _ _ _ Hsame). case_bool_decide; [by rewrite decide_True|].
  rewrite decide_False by done. exists (target_id k). split; [done|]. intros b Hb.
  by apply (set_category_group cats apis).
Qed.

Definition sample_cats : list ApiCategory := [mkApiCategory 3 "items" None; mkApiCategory 7 "carts" None].
Definition sample_brief (i : Z) (m : HttpMethod) (c : option Z) : ApiBrief :=
  mkApiBrief i ("api" +:+ show_int i) m "/p" None None None c.
Definition sample_apis : list ApiBrief :=
  [sample_brief 1 POST (Some 3%Z); sample_brief 2 GET None; sample_brief 4 GET (Some 3%Z)].

Lemma drag_moves_api_witness :
  exists c, handleDrag false true (mkDragInfo "1" (Some "category-3") "category-7" None) = Some (1%Z, Some c) /\
    Forall (fun b => api_id b = 1%Z -> group_of sample_cats b = "category-7") (set_category 1 c sample_apis).
Proof.
  destruct (drag_moves_api sample_cats sample_apis (sample_brief 1 POST (Some 3%Z)) "category-7" false true
    (mkDragInfo "1" (Some "category-3") "category-7" None)) as (c & H1 & H2);
    [repeat constructor; done|done|by apply (bool_decide_unpack _)|by left|done|done|].
  exists c. split; [exact H1|]. apply Forall_forall. intros b Hb E. specialize (H2 b Hb).
  by rewrite E in H2.
Defined.

(** The page opens on an API whenever the service has one: with positive
    ids, the key the list selects first is that of one of the APIs, and selecting
    it selects that API. *)
Theorem firstOption_selects cats apis
  (Hpos : Forall (fun a => (0 < api_id a)%Z) apis) (Hne : apis <> []) :
  exists a, a ∈ apis /\ firstOptionKey (treeData cats apis) = show_int (api_id a) /\
    selectApi [firstOptionKey (treeData cats apis)] [] = (api_id a, [show_int (api_id a)]).
Proof.
  assert (Hfirst : exists a, a ∈ apis /\ firstOptionKey (treeData cats apis) = show_int (api_id a)).
  { pose proof (treeData_groups cats apis) as H. unfold firstOptionKey.
    destruct (filter (fun g => children g <> []) (treeData cats apis)) as [|g gs] eqn:E.
    - destruct apis as [|a0 apis0]; [done|]. set (apis := a0 :: apis0) in *.
      assert (Hin : (group_of cats a0, map node_of (filter (fun a => group_of cats a = group_of cats a0) (sort_apis apis)))
        ∈ map (fun g => (group_key g, children g)) (treeData cats apis)).
      { rewrite H. apply list_elem_of_fmap. eexists. split; [done|]. apply group_of_in_keys. }
      apply list_elem_of_fmap in Hin as (g & [= _ Hc] & Hg).
      assert (Ha : a0 ∈ filter (fun a => group_of cats a = group_of cats a0) (sort_apis apis)).
      { apply list_elem_of_filter. split; [done|]. rewrite sort_apis_Permutation. by left. }
      destruct (filter (fun a => group_of cats a = _) _) as [|x l]; [by apply not_elem_of_nil in Ha|].
      assert (Hin : g ∈ filter (fun g => children g <> []) (treeData cats apis))
        by (apply list_elem_of_filter; rewrite <-Hc; done).
      rewrite E in Hin. by apply not_elem_of_nil in Hin.
    - assert (Hg : g ∈ filter (fun g => children g <> []) (treeData cats apis)) by (rewrite E; by left).
      apply list_elem_of_filter in Hg as [Hne' Hg].
      assert (Hin : (group_key g, children g) ∈ map (fun g => (group_key g, children g)) (treeData cats apis))
        by (apply list_elem_of_fmap; eauto).
      rewrite H in Hin. apply list_elem_of_fmap in Hin as (k & [= _ Hc] & _).
      destruct (filter _ (sort_apis apis)) as [|x l] eqn:Ef; [by rewrite Hc in Hne'|].
      exists x. rewrite Hc. split; [|done].
      assert (Hx : x ∈ filter (fun a => group_of cats a = k) (sort_apis apis)) by (rewrite Ef; by left).
      apply list_elem_of_filter in Hx as [_ Hx]. by rewrite sort_apis_Permutation in Hx. }
  destruct Hfirst as (a & Ha & E). exists a. split; [done|]. split; [done|].
  rewrite E. unfold selectApi. simpl. rewrite to_number_show_int. simpl.
  rewrite Forall_forall in Hpos. specialize (Hpos a Ha). by destruct (Z.leb_spec (api_id a) 0); [lia|].
Qed.

Lemma firstOption_selects_witness :
  firstOptionKey (treeData sample_cats sample_apis) = "4" /\
  exists a, a ∈ sample_apis /\ selectApi [firstOptionKey (treeData sample_cats sample_apis)] [] = (api_id a, [show_int (api_id a)]).
Proof.
  split; [vm_compute; reflexivity|].
  destruct (firstOption_selects sample_cats sample_apis) as (a & Ha & _ & H); [repeat constructor; done|done|].
  exists a. split; [exact Ha|exact H].
Defined.
