(* ===== verification/ThisService.v ===== *)
(** * The service page

    [useThisService] of [FE-CAM/src/hooks/useService.tsx]: the versions of a
    service, the version shown, its detail, categories and APIs, and the iteration
    in progress; with the effects that load a detail whenever the version changes,
    and the guard [ApiManagement/index.tsx] puts on changing it.

    [fetchServiceDetail] is cut at its [await]: [deliverDetail] is what runs when
    the answer arrives.  [Interleaving] at the end uses the two halves to study
    answers that arrive out of order. *)

From S2P Require Import Prelude JsObject ApiTypes FeTypes FeHttp Dialogs ApiTree.
From Stdlib Require Import String ZArith.

Record ThisService := mkThisService {
  loading : bool;
  versions : list ServiceVersion;
  currentVersion : string;
  isLatest : bool;
  (** [None] is [{}]. *)
  serviceDetail : option AnyService;
  apiCategories : list ApiCategory;
  apis : list ApiBrief;
  inIteration : bool;
  iterationId : Z;
  (** [selectedApiId] of [ApiManagement/index.tsx], which shares the page. *)
  selectedApiId : Z
}.

Definition initial : ThisService := mkThisService false [] "" true None [] [] false (-1) (-1).

Definition setLoading (b : bool) (s : ThisService) : ThisService :=
  mkThisService b (versions s) (currentVersion s) (isLatest s) (serviceDetail s) (apiCategories s) (apis s)
    (inIteration s) (iterationId s) (selectedApiId s).
Definition setVersions (v : list ServiceVersion) (s : ThisService) : ThisService :=
  mkThisService (loading s) v (currentVersion s) (isLatest s) (serviceDetail s) (apiCategories s) (apis s)
    (inIteration s) (iterationId s) (selectedApiId s).
Definition setCurrentVersion (v : string) (s : ThisService) : ThisService :=
  mkThisService (loading s) (versions s) v (isLatest s) (serviceDetail s) (apiCategories s) (apis s)
    (inIteration s) (iterationId s) (selectedApiId s).
Definition setIsLatest (b : bool) (s : ThisService) : ThisService :=
  mkThisService (loading s) (versions s) (currentVersion s) b (serviceDetail s) (apiCategories s) (apis s)
    (inIteration s) (iterationId s) (selectedApiId s).
Definition setServiceDetail (d : option AnyService) (s : ThisService) : ThisService :=
  mkThisService (loading s) (versions s) (currentVersion s) (isLatest s) d (apiCategories s) (apis s)
    (inIteration s) (iterationId s) (selectedApiId s).
Definition setApiCategories (c : list ApiCategory) (s : ThisService) : ThisService :=
  mkThisService (loading s) (versions s) (currentVersion s) (isLatest s) (serviceDetail s) c (apis s)
    (inIteration s) (iterationId s) (selectedApiId s).
Definition setApis (l : list ApiBrief) (s : ThisService) : ThisService :=
  mkThisService (loading s) (versions s) (currentVersion s) (isLatest s) (serviceDetail s) (apiCategories s) l
    (inIteration s) (iterationId s) (selectedApiId s).
Definition setIteration (b : bool) (i : Z) (s : ThisService) : ThisService :=
  mkThisService (loading s) (versions s) (currentVersion s) (isLatest s) (serviceDetail s) (apiCategories s) (apis s)
    b i (selectedApiId s).
Definition setSelectedApiId (i : Z) (s : ThisService) : ThisService :=
  mkThisService (loading s) (versions s) (currentVersion s) (isLatest s) (serviceDetail s) (apiCategories s) (apis s)
    (inIteration s) (iterationId s) i.

(** [serviceDetail.id]. *)
Definition detail_id (s : ThisService) : option Z :=
  match serviceDetail s with
  | None => None
  | Some (Latest d) => Some (service_id (detail_item d))
  | Some (Past d) => Some (iteration_id d)
  end.

(** Run [m], turning what it throws into a value. *)
Definition attempt {S A} (m : M S A) : M S (outcome A) := fun s =>
  match m s with
  | (Exit c, s') => (Exit c, s')
  | (r, s') => (Ret r, s')
  end.

(** The members of the answer the page keeps: categories and APIs change only
    when their key is there. *)
Definition show_detail (d : AnyService) (s : ThisService) : ThisService :=
  match d with
  | Latest d =>
      let s := match api_categories d with Some c => setApiCategories (default [] c) s | None => s end in
      match FeTypes.apis d with Some l => setApis (default [] l) s | None => s end
  | Past d =>
      match api_drafts d with Some l => setApis (default [] l) s | None => s end
  end.

Notation TypeError m := (JSError "TypeError" m).

(** [fetchServiceDetail] after its [await]. *)
Definition deliverDetail (answer : outcome (Response GetServiceByUuidAndVersionResponse)) : UI ThisService unit :=
  finally
    (try_catch (
      res ← resume answer;
      if decide (status res <> 200%Z) then
        set_hook (setServiceDetail None) ;;
        throw (new_error (str_or (message res) "获取服务详情失败"))
      else
        set_hook (setServiceDetail (res_service (payload res))) ;;
        set_hook (setIsLatest (res_is_latest (payload res))) ;;
        match res_service (payload res) with
        | None => throw (TypeError "Cannot use 'in' operator to search for 'api_categories' in undefined")
        | Some d => set_hook (show_detail d)
        end)
      (fun e => toast_up (Warning (str_or (message_or "获取服务详情失败" e) "获取服务详情失败"))))
    (fun s => mkFe (browser s) (setLoading false (hook s))).

Section Hook.
Variable server : Server.
(** i18next's [t]. *)
Variable t : string -> string.
Variable service_uuid : string.

Definition fetchServiceDetail (v : string) : UI ThisService unit :=
  set_hook (setLoading true) ;;
  r ← attempt (request server (GetServiceByUuidAndVersion service_uuid v));
  deliverDetail r.

Definition fetchAllVersions : UI ThisService unit :=
  set_hook (setLoading true) ;;
  finally
    (try_catch (
      res ← request server (GetAllVersionsByUuid service_uuid);
      if decide (status res <> 200%Z) then
        set_hook (setLoading false) ;;
        set_hook (setVersions []) ;;
        throw (new_error (str_or (message res) "获取版本失败"))
      else
        match payload res with
        | None => throw (TypeError "Cannot read properties of undefined (reading 'filter')")
        | Some vs =>
            set_hook (setVersions (filter (fun v => version v <> "") vs)) ;;
            set_hook (setCurrentVersion (match head vs with Some v => version v | None => "" end)) ;;
            set_hook (setIsLatest (match head vs with Some v => is_latest v | None => false end))
        end)
      (fun e =>
        toast_up (Warning (str_or (message_or (t "service.failure") e) "获取版本失败")) ;;
        navigate "/"))
    (fun s => mkFe (browser s) (setLoading false (hook s))).

(** The effect on [currentVersion]: it runs when the value changed. *)
Definition version_effect (before : string) : UI ThisService unit :=
  s ← get_hook;
  if decide (currentVersion s = before \/ currentVersion s = "") then mret ()
  else fetchServiceDetail (currentVersion s).

(** The first render's effects. *)
Definition mount : UI ThisService unit :=
  s ← get_hook;
  fetchAllVersions ;;
  version_effect (currentVersion s).

(** [setCurrentVersion] as the header gets it: [inIterationWarning(..., "reject")]
    refuses it with a dialog within an iteration. *)
Definition selectVersion (v : string) : UI ThisService unit :=
  s ← get_hook;
  inIterationWarning (
    set_hook (setSelectedApiId (-1)) ;;
    set_hook (setCurrentVersion v) ;;
    version_effect (currentVersion s))
    (inIteration s) Reject false.

(** [modal.onOk] of a form: [form.validate()] may throw. *)
Definition handleAddCategory (validate : outcome unit) (category_name : string) (description : option string)
    : UI ThisService unit :=
  s ← get_hook;
  try_catch (
    resume validate ;;
    res ← request server (AddCategoryByServiceId (detail_id s) category_name description);
    if decide (status res <> 200%Z) then throw (new_error (str_or (message res) "分类添加失败"))
    else
      toast_up (Success (str_or (message res) "分类添加成功")) ;;
      set_hook (fun s => setApiCategories (apiCategories s ++ [payload res]) s))
    (fun e => toast_up (Warning (message_or "分类添加失败" e)) ;; throw e).

Definition handleUpdateApiCategory (api_id category_id : Z) : UI ThisService unit :=
  try_catch (
    res ← request server (UpdateApiCategoryById api_id category_id);
    if decide (status res <> 200%Z) then throw (new_error (str_or (message res) "API 分类更新失败"))
    else set_hook (fun s => setApis (set_category api_id category_id (apis s)) s))
    (fun e => toast_up (Warning (message_or "API 分类更新失败" e)) ;; throw e).

Definition handleDeleteCategory (category_id : Z) : UI ThisService unit :=
  try_catch (
    res ← request server (DeleteCategoryById category_id);
    if decide (status res <> 200%Z) then throw (new_error (str_or (message res) "分类删除失败"))
    else
      toast_up (Success (str_or (message res) "分类删除成功")) ;;
      set_hook (fun s => setApiCategories (filter (fun c => cat_id c <> category_id) (apiCategories s)) s))
    (fun e => toast_up (Warning (message_or "分类删除失败" e))).

Definition checkIsServiceMaintainer (candidate_id : Z) : UI ThisService bool :=
  s ← get_hook;
  try_catch (
    res ← request server (IsServiceMaintainer (detail_id s) candidate_id);
    if decide (status res <> 200%Z) then throw (new_error (str_or (message res) "服务维护者检查失败"))
    else mret (payload res))
    (fun e => toast_up (Warning (message_or "服务维护者检查失败" e)) ;; mret false).

Definition handleAddOrRemoveServiceMaintainerById (candidate_id : Z) : UI ThisService bool :=
  s ← get_hook;
  try_catch (
    res ← request server (AddOrRemoveServiceMaintainerById (detail_id s) candidate_id);
    if decide (status res <> 200%Z) then throw (new_error (str_or (message res) "服务维护者操作失败"))
    else
      toast_up (Success (str_or (message res) "服务维护者操作成功")) ;;
      mret (payload res))
    (fun e => toast_up (Warning (message_or "服务维护者操作失败" e)) ;; mret false).

Definition handleExportOpenAPI : UI ThisService (option string) :=
  s ← get_hook;
  try_catch (
    res ← request server (ExportOpenapiByUuidAndVersion service_uuid (currentVersion s));
    if decide (status res <> 200%Z) then throw (new_error (str_or (message res) "导出 OpenAPI 失败"))
    else mret (Some (payload res)))
    (fun e => toast_up (Warning (message_or "导出 OpenAPI 失败" e)) ;; mret None).

Definition handleStartIteration : UI ThisService unit :=
  s ← get_hook;
  try_catch (
    res ← request server (StartIteration (detail_id s));
    if decide (status res <> 200%Z /\ status res <> 201%Z)
    then throw (new_error (str_or (message res) "迭代开始失败"))
    else
      toast_up (Success (str_or (message res) "迭代开始成功")) ;;
      set_hook (fun s => setIteration true (payload res) s))
    (fun e => toast_up (Warning (message_or "迭代开始失败" e))).

(** The form's [onOk]; the page reloads when it succeeds. *)
Definition handleCompleteIteration (validate : outcome unit) (new_version : string) : UI ThisService unit :=
  s ← get_hook;
  try_catch (
    resume validate ;;
    res ← request server (CommitIteration (iterationId s) new_version);
    if decide (status res <> 200%Z) then throw (new_error (str_or (message res) "迭代提交失败"))
    else
      toast_up (Success (str_or (message res) "迭代提交成功")) ;;
      set_browser with_reload)
    (fun e => toast_up (Warning (message_or "迭代提交失败" e)) ;; throw e).

Definition exitIteration : UI ThisService unit := set_hook (setIteration false (-1)).

(** What the user can do on the page. *)
Inductive Action :=
| SelectVersion (v : string)
| AddCategory (validate : outcome unit) (name : string) (description : option string)
| UpdateApiCategory (api category : Z)
| DeleteCategory (category : Z)
| CheckMaintainer (candidate : Z)
| AddOrRemoveMaintainer (candidate : Z)
| ExportOpenAPI
| BeginIteration
| CompleteIteration (validate : outcome unit) (new_version : string)
| ExitIteration.

Definition act (a : Action) : UI ThisService unit :=
  match a with
  | SelectVersion v => selectVersion v
  | AddCategory ok n d => handleAddCategory ok n d
  | UpdateApiCategory i c => handleUpdateApiCategory i c
  | DeleteCategory c => handleDeleteCategory c
  | CheckMaintainer c => checkIsServiceMaintainer c ;; mret ()
  | AddOrRemoveMaintainer c => handleAddOrRemoveServiceMaintainerById c ;; mret ()
  | ExportOpenAPI => handleExportOpenAPI ;; mret ()
  | BeginIteration => handleStartIteration
  | CompleteIteration ok v => handleCompleteIteration ok v
  | ExitIteration => exitIteration
  end.
End Hook.

Notation Page := (Fe ThisService).

(** A server as a value, for sessions that meet several. *)
Record Server' := mkServer { the_server : Server }.

(** ** Lemmas *)

(** The step [attempt (request e)] either yields the answer or its error, and
    leaves the component alone. *)
Lemma attempt_request server {T} (e : Endpoint T) (p : Page) :
  exists o b, attempt (request server e) p = (Ret o, mkFe b (hook p)) /\
    sent b = sent (browser p) ++ [(getAccessToken (browser p), encode e)] /\
    match server T (sent (browser p)) (getAccessToken (browser p)) e with
    | NetOk d => o = Ret d
    | NetErr _ _ msg => o = Throw (ApiError (str_or msg "Request error"))
    end.
Proof.
  unfold attempt, request. destruct (server T _ _ e) as [d|n st msg].
  - by eexists _, _.
  - eexists _, _. split; [done|]. split; [|done]. by destruct (n || _).
Qed.

(** What a delivered answer does to the page. *)
Definition delivered (o : outcome (Response GetServiceByUuidAndVersionResponse)) (s : ThisService) : ThisService :=
  setLoading false
    match o with
    | Ret res =>
        if decide (status res <> 200%Z) then setServiceDetail None s
        else
          let s := setIsLatest (res_is_latest (payload res)) (setServiceDetail (res_service (payload res)) s) in
          match res_service (payload res) with Some d => show_detail d s | None => s end
    | _ => s
    end.

Lemma deliverDetail_run o (p : Page) :
  (forall c, o <> Exit c) ->
  exists b, deliverDetail o p = (Ret tt, mkFe b (delivered o (hook p))) /\ sent b = sent (browser p) /\
    route b = route (browser p) /\ access_token b = access_token (browser p) /\ reloads b = reloads (browser p).
Proof.
  intros Ho. unfold deliverDetail, delivered. destruct o as [res|e|c]; [| |by destruct (Ho c)].
  - unfold finally, try_catch, resume, mbind, M_bind, mret, M_ret, set_hook, modify, throw, toast_up, set_browser.
    case_decide; [by eexists|]. destruct (res_service (payload res)); by eexists.
  - by eexists.
Qed.

Lemma fetchServiceDetail_run server uuid v (p : Page) :
  exists o b, fetchServiceDetail server uuid v p = (Ret tt, mkFe b (delivered o (setLoading true (hook p)))) /\
    sent b = sent (browser p) ++ [(getAccessToken (browser p), encode (GetServiceByUuidAndVersion uuid v))] /\
    match server _ (sent (browser p)) (getAccessToken (browser p)) (GetServiceByUuidAndVersion uuid v) with
    | NetOk d => o = Ret d
    | NetErr _ _ msg => o = Throw (ApiError (str_or msg "Request error"))
    end.
Proof.
  unfold fetchServiceDetail. erewrite bind_Ret by reflexivity.
  destruct (attempt_request server (GetServiceByUuidAndVersion uuid v) (mkFe (browser p) (setLoading true (hook p))))
    as (o & b & H & Hs & Ho). simpl in *. rewrite (bind_Ret _ _ _ _ _ H).
  destruct (deliverDetail_run o (mkFe b (setLoading true (hook p)))) as (b' & -> & Hb & _).
  { intros c ->. by destruct (server _ _ _ _). }
  exists o, b'. split; [done|]. split; [by rewrite Hb, <-Hs|done].
Qed.

(** ** Answers that arrive out of order *)

Section Interleaving.
Context (uuid : string) (answer : string -> outcome (Response GetServiceByUuidAndVersionResponse)).

(** The user picks another version: the effect sends the request. *)
Definition start_fetch (v : string) (p : Page) : Page :=
  mkFe (with_sent (getAccessToken (browser p), encode (GetServiceByUuidAndVersion uuid v)) (browser p))
    (setLoading true (setCurrentVersion v (hook p))).

(** The page, and the versions whose details are on their way. *)
Inductive net_step : Page * list string -> Page * list string -> Prop :=
| step_select p l v :
    inIteration (hook p) = false -> v <> currentVersion (hook p) -> v <> "" ->
    net_step (p, l) (start_fetch v p, l ++ [v])
| step_arrive p l1 v l2 :
    net_step (p, l1 ++ v :: l2) ((deliverDetail (answer v) p).2, l1 ++ l2).

(** Answers arriving in the order of the requests. *)
Inductive fifo_step : Page * list string -> Page * list string -> Prop :=
| fifo_select p l v :
    inIteration (hook p) = false -> v <> currentVersion (hook p) -> v <> "" ->
    fifo_step (p, l) (start_fetch v p, l ++ [v])
| fifo_arrive p v l :
    fifo_step (p, v :: l) ((deliverDetail (answer v) p).2, l).

(** The detail an answer shows. *)
Definition detail_of (v : string) : option AnyService :=
  match answer v with
  | Ret res => if decide (status res <> 200%Z) then None else res_service (payload res)
  | _ => None
  end.

Definition answered : Prop := forall v, exists res, answer v = Ret res.

Lemma delivered_detail v s :
  answered -> serviceDetail (delivered (answer v) s) = detail_of v /\
  currentVersion (delivered (answer v) s) = currentVersion s.
Proof.
  intros H. unfold delivered, detail_of. destruct (H v) as [res ->]. case_decide; [done|].
  destruct (res_service (payload res)) as [[d|d]|]; [| |done]; simpl;
    repeat (case_match; simpl); done.
Qed.

(** The last request is for the version shown; when none is pending, its detail
    is shown. *)
Definition settled (st : Page * list string) : Prop :=
  match last st.2 with
  | Some v => currentVersion (hook st.1) = v
  | None => serviceDetail (hook st.1) = detail_of (currentVersion (hook st.1))
  end.

Lemma fifo_step_settled st st' : answered -> fifo_step st st' -> settled st -> settled st'.
Proof.
  intros Ha [p l v _ _ _|p v l] H; unfold settled in *; simpl in *.
  - by rewrite last_snoc.
  - destruct (deliverDetail_run (answer v) p) as (b & -> & _); [intros c E; destruct (Ha v) as [r E']; congruence|].
    cbn [fst snd hook]. destruct (delivered_detail v (hook p) Ha) as [Hd Hc]. rewrite Hc.
    destruct l as [|v' l]; [cbn [last]; by rewrite Hd, H|].
    change (last (v :: v' :: l)) with (last (v' :: l)) in H.
    destruct (last (v' :: l)) eqn:E; [exact H|]. by apply last_None in E.
Qed.
End Interleaving.

(** An answer arrives, whichever is pending. *)
Inductive arrival (answer : string -> outcome (Response GetServiceByUuidAndVersionResponse)) :
    Page * list string -> Page * list string -> Prop :=
| arrive p l1 v l2 : arrival answer (p, l1 ++ v :: l2) ((deliverDetail (answer v) p).2, l1 ++ l2).

(** ** Lemmas: what the actions keep *)

(** The page outside of what loading a detail touches. *)
Definition same_mode (p p' : Page) : Prop :=
  loading (hook p') = loading (hook p) /\ currentVersion (hook p') = currentVersion (hook p) /\
  versions (hook p') = versions (hook p) /\ serviceDetail (hook p') = serviceDetail (hook p) /\
  isLatest (hook p') = isLatest (hook p) /\
  inIteration (hook p') = inIteration (hook p) /\ iterationId (hook p') = iterationId (hook p).
#[global] Instance same_mode_preorder : PreOrder same_mode.
Proof. split; [by intros ?|]. unfold same_mode. intros ??? H1 H2. intuition congruence. Qed.

Section Keeps.
Context (server : Server) (t : string -> string) (uuid : string).

Lemma request_mode {T} (e : Endpoint T) : preserves same_mode (request server e : UI ThisService T).
Proof. apply (http_preserves e). unfold same_mode. by intros p p' ->. Qed.

Lemma toast_mode m : preserves same_mode (toast_up m : UI ThisService unit).
Proof. intros p. done. Qed.

Lemma browser_mode f : preserves same_mode (set_browser f : UI ThisService unit).
Proof. intros p. done. Qed.

Lemma hook_mode : preserves same_mode (get_hook : UI ThisService ThisService).
Proof. intros p. done. Qed.

Lemma resume_mode {A} (o : outcome A) : preserves same_mode (resume o : UI ThisService A).
Proof. intros p. done. Qed.

Lemma categories_mode f : preserves same_mode (set_hook (fun s => setApiCategories (f s) s)).
Proof. intros p. done. Qed.

Lemma apis_mode f : preserves same_mode (set_hook (fun s => setApis (f s) s)).
Proof. intros p. done. Qed.

#[local] Hint Resolve request_mode toast_mode browser_mode hook_mode resume_mode categories_mode apis_mode : preserves.

(** Every action but selecting a version, starting and leaving an iteration. *)
Lemma act_mode a :
  match a with SelectVersion _ | BeginIteration | ExitIteration => True | _ => preserves same_mode (act server uuid a) end.
Proof.
  destruct a; try done; simpl;
    unfold handleAddCategory, handleUpdateApiCategory, handleDeleteCategory, checkIsServiceMaintainer,
      handleAddOrRemoveServiceMaintainerById, handleExportOpenAPI, handleCompleteIteration;
    preserve; try apply categories_mode; try apply apis_mode; intros p; done.
Qed.

(** Starting an iteration: it begins, or nothing but the toast changes. *)
Lemma start_run p :
  let p' := (handleStartIteration server p).2 in
  same_mode p p' \/ exists i, hook p' = setIteration true i (hook p).
Proof.
  unfold handleStartIteration. rewrite (bind_Ret _ _ p (hook p) p) by done. unfold try_catch.
  destruct (request_cases server (StartIteration (detail_id (hook p))) p) as (q & Hh & [[d Hr]|[m Hr]]).
  - rewrite (bind_Ret _ _ _ _ _ Hr). case_decide; [left; unfold same_mode; simpl; by rewrite Hh|].
    right. eexists. simpl. by rewrite Hh.
  - rewrite (bind_Throw _ _ _ _ _ Hr). left. unfold same_mode. simpl. by rewrite Hh.
Qed.
End Keeps.

(** Completing an iteration, by how the form ends and what the server answers. *)
Lemma complete_run server uuid a p :
  let '(o, p') := act server uuid a p in
  (forall v res, a = CompleteIteration (Ret tt) v ->
     server _ (sent (browser p)) (getAccessToken (browser p)) (CommitIteration (iterationId (hook p)) v) = NetOk res ->
     if decide (status res = 200%Z) then o = Ret tt /\ reloads (browser p') = S (reloads (browser p))
     else (exists e, o = Throw e) /\ reloads (browser p') = reloads (browser p)) /\
  (forall err v, a = CompleteIteration (Throw err) v ->
     o = Throw err /\ sent (browser p') = sent (browser p) /\ reloads (browser p') = reloads (browser p)).
Proof.
  destruct (act server uuid a p) as [o p'] eqn:E. split.
  - intros v res -> Hres. cbn [act] in E. unfold handleCompleteIteration in E.
    rewrite (bind_Ret _ _ p (hook p) p) in E by done. unfold try_catch in E.
    rewrite (bind_Ret (resume (Ret tt)) _ p tt p eq_refl), (bind_Ret _ _ _ _ _ (fe_request_NetOk _ _ _ _ Hres)) in E.
    destruct (decide (status res = 200%Z)) as [Hst|Hst].
    + rewrite decide_False in E by tauto. injection E as <- <-. done.
    + rewrite decide_True in E by done. injection E as <- <-. split; [by eexists|done].
  - intros err v ->. by injection E as <- <-.
Qed.

(** The fields [delivered] leaves alone. *)
Lemma delivered_mode o s :
  loading (delivered o s) = false /\ currentVersion (delivered o s) = currentVersion s /\
  versions (delivered o s) = versions s /\ inIteration (delivered o s) = inIteration s /\
  iterationId (delivered o s) = iterationId s.
Proof.
  unfold delivered. destruct o as [res|e|c]; [|done..]. case_decide; [done|].
  destruct (res_service (payload res)) as [[d|d]|]; [| |done]; simpl; repeat (case_match; simpl); done.
Qed.

Lemma arrival_run (answer : string -> outcome (Response GetServiceByUuidAndVersionResponse)) p v :
  (forall c, answer v <> Exit c) ->
  loading (hook (deliverDetail (answer v) p).2) = false /\
  currentVersion (hook (deliverDetail (answer v) p).2) = currentVersion (hook p).
Proof.
  intros H. destruct (deliverDetail_run (answer v) p H) as (b & -> & _). cbn [snd hook].
  destruct (delivered_mode (answer v) (hook p)) as (H1 & H2 & _). by split.
Qed.

Lemma select_run server uuid v p :
  let '(o, p') := selectVersion server uuid v p in
  o = Ret tt /\
  if inIteration (hook p) then hook p' = hook p /\ sent (browser p') = sent (browser p)
  else currentVersion (hook p') = v /\ versions (hook p') = versions (hook p) /\
       inIteration (hook p') = false /\ iterationId (hook p') = iterationId (hook p) /\
       (loading (hook p) = false -> loading (hook p') = false).
Proof.
  unfold selectVersion, inIterationWarning. rewrite (bind_Ret _ _ p (hook p) p) by done.
  destruct (inIteration (hook p)) eqn:Ei; [done|]. cbn [negb]. do 2 (erewrite bind_Ret by reflexivity).
  unfold version_effect. erewrite bind_Ret by reflexivity. case_decide; [done|].
  match goal with |- context [fetchServiceDetail _ _ ?v ?q] =>
    destruct (fetchServiceDetail_run server uuid v q) as (o & b & -> & _) end.
  split; [done|]. cbn [hook].
  match goal with |- context [delivered ?o ?s] => destruct (delivered_mode o s) as (H1 & H2 & H3 & H4 & H5) end.
  by rewrite H1, H2, H3, H4, H5.
Qed.

(** The page after its first render. *)
Lemma mount_ends server t uuid b :
  let '(o, p) := mount server t uuid (mkFe b initial) in
  o = Ret tt /\ loading (hook p) = false /\ inIteration (hook p) = false /\ iterationId (hook p) = (-1)%Z.
Proof.
  unfold mount. rewrite (bind_Ret _ _ (mkFe b initial) initial (mkFe b initial)) by done.
  assert (Hf : exists p, fetchAllVersions server t uuid (mkFe b initial) = (Ret tt, p) /\
    loading (hook p) = false /\ inIteration (hook p) = false /\ iterationId (hook p) = (-1)%Z).
  { unfold fetchAllVersions. erewrite bind_Ret by reflexivity. unfold finally, try_catch.
    match goal with |- context [(request ?s ?e ≫= _) ?p] =>
      destruct (request_cases s e p) as (q & Hh & [[d Hr]|[m Hr]]) end.
    - rewrite (bind_Ret _ _ _ _ _ Hr).
      case_decide; [|destruct (payload d)]; eexists; (split; [reflexivity|]); simpl; by rewrite Hh.
    - rewrite (bind_Throw _ _ _ _ _ Hr). eexists; (split; [reflexivity|]); simpl; by rewrite Hh. }
  destruct Hf as (p & Hp & Hl & Hi & Hid). rewrite (bind_Ret _ _ _ _ _ Hp).
  unfold version_effect. rewrite (bind_Ret _ _ p (hook p) p) by done. case_decide; [done|].
  destruct (fetchServiceDetail_run server uuid (currentVersion (hook p)) p) as (o & b' & -> & _).
  split; [done|]. cbn [hook].
  match goal with |- context [delivered ?o ?s] => destruct (delivered_mode o s) as (H1 & H2 & H3 & H4 & H5) end.
  by rewrite H1, H4, H5.
Qed.

(** The page between two actions. *)
Record page_ok (s : ThisService) : Prop := mkPageOk {
  ok_idle : loading s = false;
  ok_iteration : inIteration s = false -> iterationId s = (-1)%Z
}.

Lemma act_ok server uuid a p : page_ok (hook p) -> page_ok (hook (act server uuid a p).2).
Proof.
  intros [H1 H2]. pose proof (act_mode server uuid a) as Hm.
  assert (Hs : forall p', same_mode p p' -> page_ok (hook p')).
  { intros p' (E1 & _ & _ & _ & _ & E2 & E3). split; rewrite ?E1, ?E2, ?E3; done. }
  destruct a; try (apply Hs, Hm).
  - pose proof (select_run server uuid v p) as H. simpl act. destruct (selectVersion server uuid v p) as [o p'].
    destruct H as [_ H]. cbn [snd]. destruct (inIteration (hook p)) eqn:E; [destruct H as [-> _]; split; [exact H1|intros E'; by rewrite E in E']|].
    destruct H as (_ & _ & Hi & Hid & Hl). split; [by apply Hl|]. intros _. by rewrite Hid, H2.
  - destruct (start_run server p) as [H|[i H]]; [by apply Hs|]. simpl in *. rewrite H. by split.
  - by split.
Qed.

(** ** Properties *)

(** C31. When the answers come back in the order of the requests, the page settles
    on the version it shows: after any sequence of selections and answers that
    leaves nothing pending, the detail is the one the server gave for the current
    version. *)
Theorem fifo_detail_current uuid answer p p' l
  (Hanswered : answered answer)
  (Hstart : serviceDetail (hook p) = detail_of answer (currentVersion (hook p)))
  (Hsteps : rtc (fifo_step uuid answer) (p, []) (p', l)) :
  (l = [] -> serviceDetail (hook p') = detail_of answer (currentVersion (hook p'))) /\
  (forall v, last l = Some v -> currentVersion (hook p') = v).
Proof.
  assert (H : settled answer (p', l)).
  { assert (Hs : settled answer (p, [])) by exact Hstart. clear Hstart. revert Hs.
    generalize dependent (p', l). generalize (p, @nil string). intros st st' Hsteps.
    induction Hsteps as [|st1 st2 st3 Hstep _ IH]; [done|].
    intros Hs. apply IH. by eapply fifo_step_settled. }
  unfold settled in H. simpl in H. split; [by intros ->|]. intros v E. by rewrite E in H.
Qed.

Definition sample_item (v : string) : ServiceItem :=
  mkServiceItem 1 "shop" v None 1 "now" false None None.
Definition sample_detail (v : string) : AnyService :=
  Latest (mkServiceDetail (sample_item v) None (Some (Some [])) (Some (Some []))).
Definition sample_answer (v : string) : outcome (Response GetServiceByUuidAndVersionResponse) :=
  Ret (mkResponse 200 "" (mkGetServiceResponse (Some (sample_detail v)) true)).
Definition empty_browser : Browser := mkBrowser (Some "tok") None None [] [] 0 "/service".
Definition sample_page : Page :=
  mkFe empty_browser (setCurrentVersion "1.0.0" (setServiceDetail (Some (sample_detail "1.0.0")) initial)).

Lemma fifo_detail_current_witness :
  exists p', rtc (fifo_step "shop" sample_answer) (sample_page, []) (p', []) /\
    currentVersion (hook p') = "2.0.0" /\ serviceDetail (hook p') = Some (sample_detail "2.0.0").
Proof.
  eexists. assert (Hsteps : rtc (fifo_step "shop" sample_answer) (sample_page, [])
    ((deliverDetail (sample_answer "2.0.0") (start_fetch "shop" "2.0.0" sample_page)).2, [])).
  { eapply rtc_l; [by apply (fifo_select "shop" sample_answer sample_page [] "2.0.0")|].
    eapply rtc_l; [apply (fifo_arrive "shop" sample_answer _ "2.0.0" [])|]. apply rtc_refl. }
  split; [exact Hsteps|]. split; [reflexivity|].
  refine (proj1 (fifo_detail_current "shop" sample_answer sample_page _ [] _ eq_refl Hsteps) eq_refl).
  intros v. by eexists.
Defined.

(** Nothing makes the answers arrive in that order, and a late one wins: from
    any page outside an iteration, selecting [v1] and then [v2] can settle on the
    detail of [v1] under the version [v2]. *)
Theorem stale_answer_wins uuid answer p v1 v2
  (Hiter : inIteration (hook p) = false) (Hv1 : v1 <> "") (Hv2 : v2 <> "")
  (Hne0 : v1 <> currentVersion (hook p)) (Hne : v2 <> v1) (Hanswered : answered answer) :
  exists p', rtc (net_step uuid answer) (p, []) (p', []) /\
    currentVersion (hook p') = v2 /\ serviceDetail (hook p') = detail_of answer v1 /\
    loading (hook p') = false.
Proof.
  assert (Ho : forall v c, answer v <> Exit c) by (intros v c E; destruct (Hanswered v); congruence).
  set (p2 := start_fetch uuid v2 (start_fetch uuid v1 p)).
  destruct (deliverDetail_run (answer v2) p2 (Ho v2)) as (b & E & _).
  set (p3 := mkFe b (delivered (answer v2) (hook p2))) in *.
  destruct (deliverDetail_run (answer v1) p3 (Ho v1)) as (b' & E' & _).
  eexists. split.
  - eapply rtc_l; [by apply step_select|]. eapply rtc_l; [by apply step_select|].
    eapply rtc_l; [apply (step_arrive uuid answer p2 [v1] v2 [])|]. rewrite E.
    eapply rtc_l; [apply (step_arrive uuid answer p3 [] v1 [])|]. rewrite E'. apply rtc_refl.
  - cbn [snd hook]. unfold p3. cbn [hook].
    destruct (delivered_detail answer v1 (delivered (answer v2) (hook p2)) Hanswered) as [Hd Hc].
    destruct (delivered_detail answer v2 (hook p2) Hanswered) as [_ Hc2].
    split; [by rewrite Hc, Hc2|]. split; [done|]. reflexivity.
Qed.

Lemma stale_answer_wins_witness :
  exists p', rtc (net_step "shop" sample_answer) (sample_page, []) (p', []) /\
    currentVersion (hook p') = "3.0.0" /\ serviceDetail (hook p') = Some (sample_detail "2.0.0").
Proof.
  destruct (stale_answer_wins "shop" sample_answer sample_page "2.0.0" "3.0.0" eq_refl
    ltac:(done) ltac:(done) ltac:(done) ltac:(done) ltac:(intros v; by eexists)) as (p' & H1 & H2 & H3 & _).
  exists p'. split; [exact H1|]. split; [exact H2|exact H3].
Defined.

(** C32. Pending answers drain: without new selections, every run of arrivals in
    any order is at most as long as the requests pending, goes on while one is
    pending, keeps the version selected, and turns the spinner off; it ends with
    nothing pending and the spinner off. *)
Theorem arrivals_drain (answer : string -> outcome (Response GetServiceByUuidAndVersionResponse)) p l n st
  (Hexit : forall v c, answer v <> Exit c) (Hrun : nsteps (arrival answer) n (p, l) st) :
  n + List.length st.2 = List.length l /\
  currentVersion (hook st.1) = currentVersion (hook p) /\
  (0 < n -> loading (hook st.1) = false) /\
  (st.2 <> [] -> exists st', arrival answer st st') /\
  (st.2 = [] -> l <> [] -> loading (hook st.1) = false).
Proof.
  assert (H : n + List.length st.2 = List.length l /\ currentVersion (hook st.1) = currentVersion (hook p) /\
    (0 < n -> loading (hook st.1) = false)).
  { remember (p, l) as st0 eqn:E0. revert p l E0. induction Hrun as [st|n st st1 st' Hstep Hrest IH]; intros p l ->.
    - simpl. split; [done|]. split; [done|lia].
    - inversion Hstep as [q l1 v l2 E1 E2]. subst. destruct (arrival_run answer p v (Hexit v)) as (H1 & H2).
      destruct (IH _ _ eq_refl) as (H3 & H4 & H5). rewrite !length_app in *. simpl in *.
      split; [lia|]. split; [congruence|]. intros _. destruct (decide (n = 0)) as [->|]; [|apply H5; lia].
      inversion Hrest; subst; done. }
  destruct H as (H1 & H2 & H3). split; [done|]. split; [done|]. split; [done|]. split.
  - destruct st as [q [|v l']]; [done|]. intros _. eexists. apply (arrive answer q [] v l').
  - intros E Hl. apply H3. rewrite E in H1. destruct l; [done|]. simpl in H1. lia.
Qed.

Lemma arrivals_drain_witness :
  let p := start_fetch "shop" "3.0.0" (start_fetch "shop" "2.0.0" sample_page) in
  exists st, nsteps (arrival sample_answer) 2 (p, ["2.0.0"; "3.0.0"]) st /\ st.2 = [] /\ loading (hook st.1) = false.
Proof.
  cbv zeta. set (p := start_fetch "shop" "3.0.0" (start_fetch "shop" "2.0.0" sample_page)).
  assert (Hrun : nsteps (arrival sample_answer) 2 (p, ["2.0.0"; "3.0.0"])
    ((deliverDetail (sample_answer "2.0.0") (deliverDetail (sample_answer "3.0.0") p).2).2, [])).
  { eapply nsteps_l; [apply (arrive sample_answer p ["2.0.0"] "3.0.0" [])|].
    eapply nsteps_l; [apply (arrive sample_answer _ [] "2.0.0" [])|]. apply nsteps_O. }
  eexists. split; [exact Hrun|]. split; [reflexivity|].
  destruct (arrivals_drain sample_answer p _ 2 _ ltac:(intros v c; discriminate) Hrun) as (_ & _ & _ & _ & H).
  apply H; [reflexivity|discriminate].
Defined.

(** However the page is used, it comes to rest: from the first render through
    any sequence of actions, against any servers, no spinner is left running, and
    outside an iteration no iteration id is kept. *)
Theorem page_session_ok server0 t uuid b (l : list (Server' * Action)) :
  let '(o, p0) := mount server0 t uuid (mkFe b initial) in
  o = Ret tt /\ page_ok (hook (foldl (fun p sa => (act (the_server sa.1) uuid sa.2 p).2) p0 l)).
Proof.
  pose proof (mount_ends server0 t uuid b) as H. destruct (mount server0 t uuid _) as [o p0].
  destruct H as (Ho & Hl & Hi & Hid). split; [done|].
  assert (Hok : page_ok (hook p0)) by by split. clear Hl Hi Hid. revert p0 Hok.
  induction l as [|[s a] l IH]; intros p0 Hok; [done|]. apply IH. by apply act_ok.
Qed.

(** C23. An iteration pins the page to its version: while one is in progress, no
    action the page then offers (starting another is not one) except leaving it
    changes the spinner, the versions, the version shown, its detail, or the iteration
    and its id.  Completing it with a valid form reloads the page once when the server accepts the
    version, and throws without a reload when the server refuses it; with a form that is
    not valid it throws, sends nothing and does not reload. *)
Theorem iteration_pins_version server uuid a p
  (Hiter : inIteration (hook p) = true) (Ha : a <> ExitIteration) (Hb : a <> BeginIteration) :
  let '(o, p') := act server uuid a p in
  same_mode p p' /\
  (forall v res, a = CompleteIteration (Ret tt) v ->
     server _ (sent (browser p)) (getAccessToken (browser p)) (CommitIteration (iterationId (hook p)) v) = NetOk res ->
     if decide (status res = 200%Z) then o = Ret tt /\ reloads (browser p') = S (reloads (browser p))
     else (exists e, o = Throw e) /\ reloads (browser p') = reloads (browser p)) /\
  (forall err v, a = CompleteIteration (Throw err) v ->
     o = Throw err /\ sent (browser p') = sent (browser p) /\ reloads (browser p') = reloads (browser p)).
Proof.
  pose proof (act_mode server uuid a) as Hm. pose proof (complete_run server uuid a p) as Hc.
  assert (Hs : same_mode p (act server uuid a p).2).
  { destruct a; try (apply Hm); try done. pose proof (select_run server uuid v p) as H. simpl act.
    destruct (selectVersion server uuid v p) as [o p']. rewrite Hiter in H.
    destruct H as [_ [H _]]. unfold same_mode. simpl. by rewrite H. }
  destruct (act server uuid a p) as [o p']. split; [exact Hs|exact Hc].
Qed.

Lemma iteration_pins_version_witness :
  let p := mkFe empty_browser (setIteration true 5 (hook sample_page)) in
  let p' := (act (fun _ _ _ _ => NetErr true None "down") "shop" (SelectVersion "9.9.9") p).2 in
  let server : Server := fun T _ _ e =>
    match e in Endpoint T return net T with CommitIteration _ _ => NetOk (mkResponse 200 "" tt) | _ => NetErr true None "" end in
  let q := (act server "shop" (CompleteIteration (Ret tt) "1.0.1") p).2 in
  same_mode p p' /\ reloads (browser q) = 1.
Proof.
  cbv zeta. set (p := mkFe empty_browser (setIteration true 5 (hook sample_page))). split.
  - pose proof (iteration_pins_version (fun _ _ _ _ => NetErr true None "down") "shop" (SelectVersion "9.9.9") p
      eq_refl ltac:(discriminate) ltac:(discriminate)) as H.
    destruct (act _ _ _ _) as [o p']. exact (proj1 H).
  - match goal with |- context [act ?sv _ _ _] =>
      pose proof (iteration_pins_version sv "shop" (CompleteIteration (Ret tt) "1.0.1") p
        eq_refl ltac:(discriminate) ltac:(discriminate)) as H end.
    destruct (act _ _ _ _) as [o q]. destruct H as (_ & H & _).
    exact (proj2 (H "1.0.1" (mkResponse 200 "" tt) eq_refl eq_refl)).
Defined.

(** Selecting a version outside an iteration, by the server's answer.  The
    version always changes.  With the detail of the version, that detail is shown;
    a refusal clears the detail; a failed request leaves the detail, the
    categories and the APIs of the previous version under the new version. *)
Theorem selectVersion_outcome server uuid v p
  (Hiter : inIteration (hook p) = false) (Hv : v <> "") (Hne : v <> currentVersion (hook p)) :
  let '(o, p') := selectVersion server uuid v p in
  let s := hook p in
  let s' := hook p' in
  o = Ret tt /\ currentVersion s' = v /\ loading s' = false /\
  sent (browser p') = sent (browser p) ++
    [(getAccessToken (browser p), encode (GetServiceByUuidAndVersion uuid v))] /\
  match server _ (sent (browser p)) (getAccessToken (browser p)) (GetServiceByUuidAndVersion uuid v) with
  | NetOk res =>
      if decide (status res <> 200%Z)
      then serviceDetail s' = None /\ isLatest s' = isLatest s /\ apis s' = apis s /\ apiCategories s' = apiCategories s
      else serviceDetail s' = res_service (payload res) /\ isLatest s' = res_is_latest (payload res) /\
           forall d, res_service (payload res) = Some d ->
             apis s' = apis (show_detail d s) /\ apiCategories s' = apiCategories (show_detail d s)
  | NetErr _ _ _ =>
      serviceDetail s' = serviceDetail s /\ isLatest s' = isLatest s /\ apis s' = apis s /\
      apiCategories s' = apiCategories s
  end.
Proof.
  unfold selectVersion. rewrite (bind_Ret _ _ p (hook p) p) by done. rewrite Hiter. unfold inIterationWarning.
  cbn [negb]. do 2 (erewrite bind_Ret by reflexivity). unfold version_effect. erewrite bind_Ret by reflexivity.
  simpl. rewrite decide_False by (intros [?|?]; done).
  match goal with |- context [fetchServiceDetail _ _ ?v ?q] =>
    destruct (fetchServiceDetail_run server uuid v q) as (o & b & -> & Hs & Ho) end.
  split; [done|]. cbn [hook browser].
  match goal with |- context [delivered ?o ?s] => destruct (delivered_mode o s) as (H1 & H2 & _) end.
  rewrite H1, H2. split; [done|]. split; [done|]. split; [exact Hs|]. clear H1 H2. simpl in Ho.
  destruct (server _ _ _ _) as [res|n st msg]; subst o; unfold delivered; [|done]. case_decide; [done|].
  destruct (res_service (payload res)) as [[d|d]|]; simpl;
    (split; [repeat (case_match; simpl); done|]); (split; [repeat (case_match; simpl); done|]);
    intros d' [= <-]; simpl; repeat (case_match; simpl); done.
Qed.

Definition versioned_server : Server := fun T _ _ e =>
  match e in Endpoint T return net T with
  | GetServiceByUuidAndVersion _ v => if String.eqb v "9.9.9" then NetErr false (Some 500%Z) "" else
      NetOk (mkResponse 200 "" (mkGetServiceResponse (Some (sample_detail v)) false))
  | _ => NetErr false (Some 500%Z) "down"
  end.

Lemma selectVersion_outcome_witness :
  let p' := (selectVersion versioned_server "shop" "9.9.9" sample_page).2 in
  currentVersion (hook p') = "9.9.9" /\ serviceDetail (hook p') = Some (sample_detail "1.0.0").
Proof.
  pose proof (selectVersion_outcome versioned_server "shop" "9.9.9" sample_page eq_refl ltac:(done) ltac:(done)) as H.
  destruct (selectVersion _ _ _ _) as [o p']. destruct H as (_ & H1 & _ & _ & H2 & _).
  split; [exact H1|exact H2].
Defined.

(** Opening the page, by the server's answer to the list of versions.  When
    the list starts with a named version, that version is selected and exactly its
    detail is requested; entries without a name are not offered.  When the list
    starts with an unnamed entry or is empty nothing else is requested; when it
    cannot be had the user is sent home. *)
Theorem mount_outcome server t uuid b :
  let '(o, p) := mount server t uuid (mkFe b initial) in
  let first := (getAccessToken b, encode (GetAllVersionsByUuid uuid)) in
  o = Ret tt /\
  match server _ (sent b) (getAccessToken b) (GetAllVersionsByUuid uuid) with
  | NetOk res =>
      if decide (status res <> 200%Z) then
        route (browser p) = "/" /\ sent (browser p) = sent b ++ [first] /\ serviceDetail (hook p) = None
      else match payload res with
           | None => route (browser p) = "/" /\ sent (browser p) = sent b ++ [first] /\ serviceDetail (hook p) = None
           | Some vs =>
               versions (hook p) = filter (fun v => version v <> "") vs /\
               currentVersion (hook p) = default "" (version <$> head vs) /\
               sent (browser p) = sent b ++ [first] ++
                 (if decide (default "" (version <$> head vs) = "") then []
                  else [(getAccessToken b, encode (GetServiceByUuidAndVersion uuid (default "" (version <$> head vs))))])
           end
  | NetErr _ _ _ => route (browser p) = "/" /\ sent (browser p) = sent b ++ [first] /\ serviceDetail (hook p) = None
  end.
Proof.
  unfold mount. rewrite (bind_Ret _ _ (mkFe b initial) initial (mkFe b initial)) by done.
  unfold fetchAllVersions, version_effect.
  destruct (server _ (sent b) (getAccessToken b) (GetAllVersionsByUuid uuid)) as [res|n st msg] eqn:E.
  2:{ unfold mbind, M_bind, set_hook, modify, finally, try_catch, request. simpl. rewrite E.
      simpl. by destruct (n || _). }
  unfold mbind, M_bind, set_hook, modify, finally, try_catch, request. simpl. rewrite E.
  case_decide; [done|]. destruct (payload res) as [vs|]; [|done]. simpl.
  assert (Hh : match head vs with Some v => version v | None => "" end = default "" (version <$> head vs)) by by destruct vs.
  rewrite Hh. destruct (decide (default "" (version <$> head vs) = "")) as [Hv|Hv].
  - rewrite decide_True by tauto. rewrite Hv. simpl. by rewrite ?app_nil_r.
  - rewrite decide_False by tauto.
    match goal with |- context [fetchServiceDetail _ _ ?v ?q] =>
      destruct (fetchServiceDetail_run server uuid v q) as (o & b' & -> & Hs & Ho) end.
    split; [done|]. cbn [hook browser].
    match goal with |- context [delivered ?o ?s] => destruct (delivered_mode o s) as (_ & H2 & H3 & _) end.
    rewrite H2, H3. split; [done|]. split; [done|]. rewrite Hs. simpl. by rewrite <-app_assoc.
Qed.

(** Deleting a category, once the server agrees, moves its APIs to the
    uncategorised group and leaves every other API in its group; otherwise the
    page does not change. *)
Theorem deleteCategory_outcome server c p :
  let '(o, p') := handleDeleteCategory server c p in
  o = Ret tt /\ apis (hook p') = apis (hook p) /\
  match server _ (sent (browser p)) (getAccessToken (browser p)) (DeleteCategoryById c) with
  | NetOk res =>
      if decide (status res <> 200%Z) then hook p' = hook p
      else forall a, group_of (apiCategories (hook p')) a =
             if decide (category_id a = Some c) then null_key else group_of (apiCategories (hook p)) a
  | NetErr _ _ _ => hook p' = hook p
  end.
Proof.
  unfold handleDeleteCategory, try_catch, mbind, M_bind, request. simpl.
  destruct (server _ _ _ _) as [res|n st msg]; [|done]. case_decide; [done|]. simpl.
  split; [done|]. split; [done|]. intros a. unfold group_of. destruct (category_id a) as [c'|]; [|by case_decide].
  assert (Hin : c' ∈ map cat_id (filter (fun x => cat_id x <> c) (apiCategories (hook p))) <->
    c' <> c /\ c' ∈ map cat_id (apiCategories (hook p))).
  { rewrite !list_elem_of_fmap. setoid_rewrite list_elem_of_filter. naive_solver. }
  rewrite (decide_ext _ _ _ _ Hin). destruct (decide (c' = c)) as [-> |Hne].
  - rewrite (decide_True (P := Some c = Some c)) by done. by rewrite decide_False by tauto.
  - rewrite (decide_False (P := Some c' = Some c)) by congruence.
    destruct (decide (c' ∈ map cat_id (apiCategories (hook p)))).
    + by rewrite decide_True by tauto.
    + by rewrite decide_False by tauto.
Qed.
