(* ===== verification/UseApi.v ===== *)
(** * The API shown

    [FE-CAM/src/hooks/useApi.tsx], the detail of the selected API.  [render] is
    the effect of a render with the given arguments: the callback it depends on is
    rebuilt only when [apiId] changes, so the effect runs, with the [isLatest] of
    that render, only then. *)

From S2P Require Import Prelude JsObject ApiTypes FeTypes FeHttp ThisService.
From Stdlib Require Import String ZArith.

Record UseApi := mkUseApi {
  api_loading : bool;
  (** [None] is [{}]. *)
  apiDetail : option ApiDetail;
  (** The [apiId] of the last effect. *)
  effect_id : option Z
}.

Definition setApiLoading (b : bool) (s : UseApi) : UseApi := mkUseApi b (apiDetail s) (effect_id s).
Definition setApiDetail (d : option ApiDetail) (s : UseApi) : UseApi := mkUseApi (api_loading s) d (effect_id s).
Definition setEffectId (i : Z) (s : UseApi) : UseApi := mkUseApi (api_loading s) (apiDetail s) (Some i).

Definition initial_api : UseApi := mkUseApi false None None.

Section Hook.
Variable server : Server.

Definition fetchApiDetail (apiId : Z) (isLatest : bool) : UI UseApi unit :=
  if (apiId <=? 0)%Z then set_hook (setApiDetail None)
  else
    set_hook (setApiLoading true) ;;
    finally
      (try_catch (
        res ← request server (GetApiById apiId (Some isLatest));
        if decide (status res <> 200%Z) then
          set_hook (setApiDetail None) ;;
          throw (new_error (str_or (message res) "获取 API 详情失败"))
        else set_hook (setApiDetail (payload res)))
        (fun e =>
          set_hook (setApiDetail None) ;;
          toast_up (Warning (message_or "获取 API 详情失败" e))))
      (fun s => mkFe (browser s) (setApiLoading false (hook s))).

Definition render (apiId : Z) (isLatest : bool) : UI UseApi unit :=
  s ← get_hook;
  if decide (effect_id s = Some apiId) then mret ()
  else
    set_hook (setEffectId apiId) ;;
    fetchApiDetail apiId isLatest.
End Hook.

(** ** Lemmas *)

(** The effect ends idle, having run for the id. *)
Lemma render_ends server i latest s :
  api_loading (hook s) = false ->
  exists b a, render server i latest s = (Ret tt, mkFe b a) /\ api_loading a = false /\ effect_id a = Some i.
Proof.
  intros Hidle. unfold render. rewrite (bind_Ret _ _ s (hook s) s) by done.
  case_decide as E; [exists (browser s), (hook s); by destruct s|].
  erewrite bind_Ret by reflexivity. unfold fetchApiDetail. destruct (i <=? 0)%Z; [by eexists _, _|].
  unfold mbind, M_bind, set_hook, modify, finally, try_catch, request. simpl.
  destruct (server _ _ _ _) as [res|n st msg]; [case_decide|]; by eexists _, _.
Qed.

(** Another positive id: one request. *)
Lemma render_new server i latest s :
  effect_id (hook s) <> Some i -> (0 < i)%Z ->
  exists b a, render server i latest s = (Ret tt, mkFe b a) /\ effect_id a = Some i /\
    sent b = sent (browser s) ++ [(getAccessToken (browser s), encode (GetApiById i (Some latest)))].
Proof.
  intros Hne Hi. unfold render. rewrite (bind_Ret _ _ s (hook s) s) by done.
  rewrite decide_False by done. erewrite bind_Ret by reflexivity. unfold fetchApiDetail.
  rewrite (proj2 (Z.leb_gt i 0)) by done.
  unfold mbind, M_bind, set_hook, modify, finally, try_catch, request. simpl.
  destruct (server _ _ _ _) as [res|n st msg]; [case_decide|]; eexists _, _; (split; [reflexivity|]); (split; [done|]); try done.
  by destruct (n || _).
Qed.

(** The same id again: nothing happens. *)
Lemma render_same server i latest s : effect_id (hook s) = Some i -> render server i latest s = (Ret tt, s).
Proof. intros E. unfold render. rewrite (bind_Ret _ _ s (hook s) s) by done. by rewrite decide_True. Qed.

(** ** Properties *)

(** Showing an API, by its id and the server's answer.  A new positive id is
    requested once, from the table the flag names, and its detail (or none, on a
    refusal or a failure) is shown with the spinner off; a non-positive id clears
    the detail without a request.  With the same id nothing happens, whatever the
    flag: an API and a draft of equal id are not told apart, and the page keeps
    the one it showed. *)
Theorem render_outcome server i latest s (Hidle : api_loading (hook s) = false) :
  let '(o, s') := render server i latest s in
  o = Ret tt /\ api_loading (hook s') = false /\ effect_id (hook s') = Some i /\
  if decide (effect_id (hook s) = Some i) then s' = s
  else if (i <=? 0)%Z then apiDetail (hook s') = None /\ sent (browser s') = sent (browser s)
  else
    sent (browser s') = sent (browser s) ++
      [(getAccessToken (browser s), encode (GetApiById i (Some latest)))] /\
    apiDetail (hook s') =
      match server _ (sent (browser s)) (getAccessToken (browser s)) (GetApiById i (Some latest)) with
      | NetOk res => if decide (status res <> 200%Z) then None else payload res
      | NetErr _ _ _ => None
      end.
Proof.
  unfold render. rewrite (bind_Ret _ _ s (hook s) s) by done.
  case_decide as E; [done|]. erewrite bind_Ret by reflexivity. unfold fetchApiDetail.
  destruct (Z.leb_spec i 0); [done|].
  unfold mbind, M_bind, set_hook, modify, finally, try_catch, request. simpl.
  destruct (server _ _ _ _) as [res|n st msg]; simpl; [by case_decide|].
  do 3 (split; [done|]). split; [by destruct (n || _)|done].
Qed.

Lemma render_outcome_witness :
  let s := mkFe empty_browser (mkUseApi false None (Some 3%Z)) in
  (render (fun _ _ _ _ => NetErr true None "down") 3 false s).2 = s.
Proof.
  cbv zeta.
  pose proof (render_outcome (fun _ _ _ _ => NetErr true None "down") 3 false
    (mkFe empty_browser (mkUseApi false None (Some 3%Z))) eq_refl) as H.
  destruct (render _ _ _ _) as [o s']. destruct H as (_ & _ & _ & H). exact H.
Defined.
