(* ===== verification/Iteration.v ===== *)
(** * An iteration of a service

    [useServiceIteration] of [FE-CAM/src/hooks/useService.tsx]: the drafts of the
    iteration in progress and the operations on them; and the version rules of
    [ApiList/CompleteIterationForm.tsx]. *)

From S2P Require Import Prelude JsObject ApiTypes FeTypes FeHttp ApiTree ThisService.
From Stdlib Require Import Ascii String ZArith.

(** ** Drafts *)

Record ServiceIteration := mkServiceIteration {
  iter_loading : bool;
  (** [None] is [{}]. *)
  iterationDetail : option ServiceIterationDetail;
  apiDrafts : list ApiBrief
}.

Definition setIterLoading (b : bool) (s : ServiceIteration) : ServiceIteration :=
  mkServiceIteration b (iterationDetail s) (apiDrafts s).
Definition setIterationDetail (d : option ServiceIterationDetail) (s : ServiceIteration) : ServiceIteration :=
  mkServiceIteration (iter_loading s) d (apiDrafts s).
Definition setApiDrafts (l : list ApiBrief) (s : ServiceIteration) : ServiceIteration :=
  mkServiceIteration (iter_loading s) (iterationDetail s) l.

(** The values of [AddApiForm]. *)
Record AddApiValues := mkAddApiValues {
  val_name : string; val_method : HttpMethod; val_path : string; val_description : option string;
  val_level : option ApiLevel; val_category_id : option Z }.

(** The body [handleAddApi] builds. *)
Definition add_api_request (iterationId : Z) (values : AddApiValues) : AddApiRequest :=
  mkAddApiRequest iterationId (val_name values) (val_method values) (val_path values)
    (default "" (val_description values)) (default P2 (val_level values))
    (match val_category_id values with Some c => if (0 <? c)%Z then Some c else None | None => None end).

(** [iterationTreeData]: the grouping of [treeData], of the drafts. *)
Definition iterationTreeData (cats : list ApiCategory) (s : ServiceIteration) : list Group :=
  treeData cats (apiDrafts s).

(** [apiDrafts.sort(...)]: computing [iterationTreeData] in a render sorts the array
    of the state in place.  (The array is also the [api_drafts] of [iterationDetail],
    which the page only asks for its presence.) *)
Definition draftsRendered (s : ServiceIteration) : ServiceIteration := setApiDrafts (sort_apis (apiDrafts s)) s.

Section Hook.
Variable server : Server.
Variable iterationId : Z.

Definition fetchIterationDetail : UI ServiceIteration unit :=
  if (iterationId <=? 0)%Z then mret ()
  else
    set_hook (setIterLoading true) ;;
    finally
      (try_catch (
        res ← request server (GetIterationById iterationId);
        if decide (status res <> 200%Z) then
          set_hook (setIterationDetail None) ;;
          throw (new_error (str_or (message res) "获取当前迭代详情失败"))
        else
          set_hook (setIterationDetail (payload res)) ;;
          match payload res with
          | None => throw (TypeError "Cannot use 'in' operator to search for 'api_drafts' in undefined")
          | Some d =>
              match api_drafts d with
              | Some l => set_hook (setApiDrafts (default [] l))
              | None => mret ()
              end
          end)
        (fun e => toast_up (Warning (message_or "获取当前迭代详情失败" e))))
      (fun s => mkFe (browser s) (setIterLoading false (hook s))).

Definition handleAddApi (validate : outcome unit) (values : AddApiValues) : UI ServiceIteration unit :=
  try_catch (
    resume validate ;;
    res ← request server (AddApi (add_api_request iterationId values));
    if decide (status res <> 200%Z) then throw (new_error (str_or (message res) "API 添加失败"))
    else
      toast_up (Success (str_or (message res) "API 添加成功")) ;;
      fetchIterationDetail)
    (fun e => toast_up (Warning (message_or "API 添加失败" e)) ;; throw e).

Definition handleCopyApi (apiDraftId : Z) : UI ServiceIteration unit :=
  res ← request server (CopyApiByApiDraftId iterationId apiDraftId);
  if decide (status res <> 200%Z) then throw (new_error (str_or (message res) "API 复制失败"))
  else
    toast_up (Success (str_or (message res) "API 复制成功")) ;;
    fetchIterationDetail.

Definition handleDeleteApi (apiDraftId : Z) : UI ServiceIteration unit :=
  res ← request server (DeleteApiByApiDraftId iterationId apiDraftId);
  if decide (status res <> 200%Z) then throw (new_error (str_or (message res) "API 删除失败"))
  else
    toast_up (Success (str_or (message res) "API 删除成功")) ;;
    fetchIterationDetail.

Definition handleSaveApiDraft (data : UpdateApiRequest) : UI ServiceIteration (Response unit) :=
  res ← request server (UpdateApiByApiDraftId iterationId data);
  if decide (status res <> 200%Z) then throw (new_error (str_or (message res) "API 保存失败"))
  else
    fetchIterationDetail ;;
    mret res.
End Hook.

(** ** The version of a completed iteration *)

(** [suggestVersionPlaceholder]. *)
Definition suggestVersion (currentVersion : string) : string :=
  if String.eqb currentVersion "" then ""
  else
    match split_on "." currentVersion with
    | [x; y; z] =>
        x +:+ "." +:+ y +:+ "." +:+
        match to_number z with Some n => show_int (n + 1) | None => "NaN" end
    | _ => ""
    end.

(** [a < b] and [a === b] on numbers, where [None] is [NaN] or [undefined]. *)
Definition num_lt (a b : option Z) : bool :=
  match a, b with Some x, Some y => (x <? y)%Z | _, _ => false end.
Definition num_eq (a b : option Z) : bool :=
  match a, b with Some x, Some y => (x =? y)%Z | _, _ => false end.

(** The [i]-th component of [value.split(".").map(Number)]. *)
Definition component (v : string) (i : nat) : option Z := split_on "." v !! i ≫= to_number.

(** [validateVersion]: the message the callback gets. *)
Definition validateVersion (currentVersion value : string) : option string :=
  if String.eqb value "" then None
  else if negb (version_format value) then Some "版本号格式必须为 x.y.z（xyz均为非负整数）"
  else if String.eqb currentVersion "" then None
  else
    let major := component value 0 in
    let minor := component value 1 in
    let patch := component value 2 in
    let currMajor := component currentVersion 0 in
    let currMinor := component currentVersion 1 in
    let currPatch := component currentVersion 2 in
    if num_lt major currMajor ||
       (num_eq major currMajor && num_lt minor currMinor) ||
       (num_eq major currMajor && num_eq minor currMinor && num_lt patch currPatch)
    then Some "新版本号不得小于当前版本号"
    else None.

(** ** Specification *)

(** [x.y.z]. *)
Definition show_version (v : N * N * N) : string :=
  let '(x, y, z) := v in show_nat x +:+ "." +:+ show_nat y +:+ "." +:+ show_nat z.

(** The lexicographic order. *)
Definition version_le (v w : N * N * N) : Prop :=
  let '(x, y, z) := v in
  let '(x', y', z') := w in
  (x < x' \/ x = x' /\ (y < y' \/ y = y' /\ z <= z'))%N.

(** ** Lemmas *)

Lemma show_nat_lacks_dot n : lacks "." (show_nat n) = true.
Proof.
  unfold lacks. eapply str_forallb_impl; [|apply show_nat_digits]. intros c Hc.
  apply negb_true_iff, Ascii.eqb_neq. intros ->. by vm_compute in Hc.
Qed.

Lemma split_version v :
  let '(x, y, z) := v in split_on "." (show_version v) = [show_nat x; show_nat y; show_nat z].
Proof.
  destruct v as [[x y] z]. unfold show_version.
  change ("." +:+ show_nat y +:+ "." +:+ show_nat z) with (String "." (show_nat y +:+ String "." (show_nat z))).
  by rewrite !split_on_app, split_on_lacks by apply show_nat_lacks_dot.
Qed.

Lemma is_numeral_show_nat n : is_numeral (show_nat n) = true.
Proof. unfold is_numeral. rewrite digits_show_nat. by apply bool_decide_eq_true_2. Qed.

Lemma version_format_show v : version_format (show_version v) = true.
Proof.
  unfold version_format. pose proof (split_version v) as H. destruct v as [[x y] z].
  by rewrite H, !is_numeral_show_nat.
Qed.

Lemma show_version_nonempty v : String.eqb (show_version v) "" = false.
Proof.
  apply String.eqb_neq. destruct v as [[x y] z]. unfold show_version.
  destruct (show_nat_head x) as (c & s & -> & _). done.
Qed.

Lemma show_int_of_N n : show_int (Z.of_N n) = show_nat n.
Proof. by destruct n. Qed.

(** A draft operation either fails and changes nothing, or its request is
    followed by the refresh. *)
Lemma fetchIterationDetail_ends server i s :
  exists b s', fetchIterationDetail server i s = (Ret tt, mkFe b s') /\
    (iter_loading (hook s) = false -> iter_loading s' = false) /\
    sent b = sent (browser s) ++ (if (i <=? 0)%Z then [] else [(getAccessToken (browser s), encode (GetIterationById i))]) /\
    match server _ (sent (browser s)) (getAccessToken (browser s)) (GetIterationById i) with
    | NetOk res =>
        (0 < i)%Z -> status res = 200%Z -> forall d l, payload res = Some d -> api_drafts d = Some l ->
        apiDrafts s' = default [] l
    | NetErr _ _ _ => s' = setIterLoading (iter_loading s') (hook s)
    end.
Proof.
  unfold fetchIterationDetail. destruct (Z.leb_spec i 0).
  { exists (browser s), (hook s). split; [by destruct s|]. rewrite app_nil_r. split; [done|]. split; [done|].
    destruct (server _ _ _ _); [lia|by destruct (hook s)]. }
  unfold mbind, M_bind, set_hook, modify, finally, try_catch, request. simpl.
  destruct (server _ _ _ _) as [res|n st msg].
  - case_decide; [by eexists _, _|]. destruct (payload res) as [d|]; simpl.
    + destruct (api_drafts d) as [l|] eqn:El; eexists _, _; (split; [done|]); (split; [done|]);
        (split; [done|]); intros _ _ ?? [= <-]; rewrite El; intros [= <-]; done.
    + by eexists _, _.
  - eexists _, _. split; [done|]. split; [done|]. split; [by destruct (n || _)|done].
Qed.

(** ** Properties *)

(** The operations on a draft. *)
Inductive DraftOp := Copy (draft : Z) | Delete (draft : Z) | Save (data : UpdateApiRequest).

Definition run_op (server : Server) (iterationId : Z) (op : DraftOp) : UI ServiceIteration unit :=
  match op with
  | Copy d => handleCopyApi server iterationId d
  | Delete d => handleDeleteApi server iterationId d
  | Save d => handleSaveApiDraft server iterationId d ;; mret ()
  end.

Definition op_endpoint (iterationId : Z) (op : DraftOp) : Endpoint (Response unit) :=
  match op with
  | Copy d => CopyApiByApiDraftId iterationId d
  | Delete d => DeleteApiByApiDraftId iterationId d
  | Save d => UpdateApiByApiDraftId iterationId d
  end.

(** Copying, deleting or saving a draft.  Refused or failed, the operation
    throws and the page keeps what it showed, after one request.  Accepted, it
    returns after exactly one more request, the refresh of this iteration, and
    shows the drafts that answer lists; no spinner is left on. *)
Theorem draft_op_outcome server i op s (Hi : (0 < i)%Z) (Hidle : iter_loading (hook s) = false) :
  let b := browser s in
  let tok := getAccessToken b in
  let '(o, s') := run_op server i op s in
  let first := (tok, encode (op_endpoint i op)) in
  match server _ (sent b) tok (op_endpoint i op) with
  | NetErr _ _ msg =>
      o = Throw (ApiError (str_or msg "Request error")) /\ hook s' = hook s /\ sent (browser s') = sent b ++ [first]
  | NetOk res =>
      if decide (status res <> 200%Z)
      then (exists m, o = Throw (new_error m)) /\ hook s' = hook s /\ sent (browser s') = sent b ++ [first]
      else o = Ret tt /\ iter_loading (hook s') = false /\
           sent (browser s') = sent b ++ [first; (tok, encode (GetIterationById i))] /\
           forall res' d l, server _ (sent b ++ [first]) tok (GetIterationById i) = NetOk res' ->
             status res' = 200%Z -> payload res' = Some d -> api_drafts d = Some (Some l) ->
             apiDrafts (hook s') = l
  end.
Proof.
  cbv zeta. destruct (server _ (sent (browser s)) (getAccessToken (browser s)) (op_endpoint i op)) as [res|n st msg] eqn:E.
  - set (b1 := with_sent (getAccessToken (browser s), encode (op_endpoint i op)) (browser s)).
    assert (Hrun : exists b', sent b' = sent b1 /\ access_token b' = access_token b1 /\ run_op server i op s =
      if decide (status res <> 200%Z) then (Throw (new_error (str_or (message res)
           match op with Copy _ => "API 复制失败" | Delete _ => "API 删除失败" | Save _ => "API 保存失败" end)), mkFe b1 (hook s))
      else fetchIterationDetail server i (mkFe b' (hook s))).
    { pose proof (fe_request_NetOk (H := ServiceIteration) server (op_endpoint i op) s res E) as Hr.
      destruct op; simpl op_endpoint in *; unfold run_op.
      - exists (with_message (Success (str_or (message res) "API 复制成功")) b1).
        unfold handleCopyApi. rewrite (bind_Ret _ _ _ _ _ Hr). by case_decide.
      - exists (with_message (Success (str_or (message res) "API 删除成功")) b1).
        unfold handleDeleteApi. rewrite (bind_Ret _ _ _ _ _ Hr). by case_decide.
      - exists b1. split; [done|]. split; [done|]. unfold handleSaveApiDraft.
        unfold mbind at 1, M_bind at 1. rewrite (bind_Ret _ _ _ _ _ Hr). case_decide; [done|].
        destruct (fetchIterationDetail_ends server i (mkFe b1 (hook s))) as (b & s' & H' & _).
        rewrite (bind_Ret _ _ _ _ _ H'). by rewrite H'. }
    destruct Hrun as (b' & Hs' & Ht' & ->). case_decide; [by eauto|].
    destruct (fetchIterationDetail_ends server i (mkFe b' (hook s))) as (b2 & s2 & -> & Hl & Hsent & Hd).
    cbn [hook browser] in *. destruct (Z.leb_spec i 0) as [|_]; [lia|].
    assert (Htok : getAccessToken b' = getAccessToken (browser s)) by (unfold getAccessToken; by rewrite Ht').
    rewrite Hs', Htok in *. split; [done|]. split; [auto|].
    split; [by rewrite Hsent; simpl; rewrite <-app_assoc|].
    intros res' d l Hr Hst Hp Hdr. simpl in Hd. rewrite Hr in Hd. by rewrite (Hd Hi Hst d _ Hp Hdr).
  - destruct op; simpl run_op; unfold handleCopyApi, handleDeleteApi, handleSaveApiDraft, mbind, M_bind, request;
      simpl op_endpoint in *; rewrite E; by destruct (n || _).
Qed.

Definition sample_drafts : list ApiBrief := [sample_brief 8 GET None].
Definition iteration_server : Server := fun T h _ e =>
  match e in Endpoint T return net T with
  | DeleteApiByApiDraftId _ _ => NetOk (mkResponse 200 "" tt)
  | GetIterationById i => NetOk (mkResponse 200 "" (Some (mkServiceIterationDetail i 1 None None
      (mkUserProfile 1 "ann" "Ann" "a@b" "frontend" 1 "now") (Some (Some sample_drafts)))))
  | _ => NetErr false (Some 500%Z) "down"
  end.

Lemma draft_op_outcome_witness :
  let s := mkFe empty_browser (mkServiceIteration false None []) in
  let '(o, s') := run_op iteration_server 5 (Delete 7) s in
  o = Ret tt /\ apiDrafts (hook s') = sample_drafts.
Proof.
  cbv zeta.
  pose proof (draft_op_outcome iteration_server 5 (Delete 7) (mkFe empty_browser (mkServiceIteration false None []))
    eq_refl eq_refl) as H.
  destruct (run_op _ _ _ _) as [o s']. destruct H as (Ho & _ & _ & Hd). split; [exact Ho|].
  by eapply Hd.
Defined.

(** The form accepts a version exactly when it is not lower than the current
    one in the order of its three numbers; the current version itself is
    accepted. *)
Theorem validateVersion_spec v w :
  validateVersion (show_version v) (show_version w) = None <-> version_le v w.
Proof.
  unfold validateVersion. rewrite !show_version_nonempty, version_format_show. simpl negb. cbv iota zeta.
  pose proof (split_version v) as Hv. pose proof (split_version w) as Hw.
  destruct v as [[x y] z], w as [[x' y'] z']. unfold component. rewrite Hv, Hw. simpl.
  rewrite !to_number_show_nat. simpl.
  destruct (Z.ltb_spec (Z.of_N x') (Z.of_N x)), (Z.eqb_spec (Z.of_N x') (Z.of_N x)),
    (Z.ltb_spec (Z.of_N y') (Z.of_N y)), (Z.eqb_spec (Z.of_N y') (Z.of_N y)),
    (Z.ltb_spec (Z.of_N z') (Z.of_N z)); simpl; (split; [intros ?; try done; lia|intros ?; try done; exfalso; lia]).
Qed.

(** The version the form proposes is the next patch of the current one, and
    the form accepts it. *)
Theorem suggestVersion_valid x y z :
  suggestVersion (show_version (x, y, z)) = show_version (x, y, (z + 1)%N) /\
  validateVersion (show_version (x, y, z)) (suggestVersion (show_version (x, y, z))) = None.
Proof.
  assert (H : suggestVersion (show_version (x, y, z)) = show_version (x, y, (z + 1)%N)).
  { unfold suggestVersion. rewrite show_version_nonempty, (split_version (x, y, z)), to_number_show_nat.
    replace (Z.of_N z + 1)%Z with (Z.of_N (z + 1)) by lia. by rewrite show_int_of_N. }
  split; [done|]. rewrite H. unfold validateVersion. rewrite !show_version_nonempty, version_format_show.
  simpl negb. cbv iota zeta. unfold component.
  rewrite (split_version (x, y, z)), (split_version (x, y, (z + 1)%N)). simpl.
  rewrite !to_number_show_nat. simpl. rewrite !Z.ltb_irrefl, !Z.eqb_refl.
  destruct (Z.ltb_spec (Z.of_N (z + 1)) (Z.of_N z)); [lia|done].
Qed.
