(* ===== verification/ApiPage.v ===== *)
(** * The page of a service

    [ApiManagement/index.tsx] puts the hooks of [ThisService], [UseApi] and
    [Iteration] next to the tree of [ApiList/index.tsx].  They meet in the state:
    the tree shown selects an API, the selection makes [useApi] load it, the
    iteration that begins makes [useServiceIteration] load the drafts, and the
    drafts change the tree.  This file composes them: what a render runs
    ([page_effects]), the renders an operation causes ([settle]), and what the
    user can do. *)

From S2P Require Import Prelude JsObject ApiTypes FeTypes FeHttp Dialogs ApiTree ThisService UseApi Iteration.
From Stdlib Require Import String ZArith.

Record ApiPage := mkApiPage {
  service : ThisService;
  selected_api : UseApi;
  iteration : ServiceIteration;
  (** The [iterationId] of the last run of [useServiceIteration]'s effect. *)
  loaded_iteration : option Z;
  (** [ApiList]: its [selectedKeys] and the [firstOptionKey] of its last effect;
      [None] while it is not mounted. *)
  api_list : option (list string * string)
}.

(** ** Running a component inside the page *)

Definition on_service {A} (m : UI ThisService A) : UI ApiPage A := fun s =>
  let p := hook s in
  let '(o, s') := m (mkFe (browser s) (service p)) in
  (o, mkFe (browser s') (mkApiPage (hook s') (selected_api p) (iteration p) (loaded_iteration p) (api_list p))).

Definition on_api {A} (m : UI UseApi A) : UI ApiPage A := fun s =>
  let p := hook s in
  let '(o, s') := m (mkFe (browser s) (selected_api p)) in
  (o, mkFe (browser s') (mkApiPage (service p) (hook s') (iteration p) (loaded_iteration p) (api_list p))).

Definition on_iteration {A} (m : UI ServiceIteration A) : UI ApiPage A := fun s =>
  let p := hook s in
  let '(o, s') := m (mkFe (browser s) (iteration p)) in
  (o, mkFe (browser s') (mkApiPage (service p) (selected_api p) (hook s') (loaded_iteration p) (api_list p))).

Definition set_list (l : option (list string * string)) (p : ApiPage) : ApiPage :=
  mkApiPage (service p) (selected_api p) (iteration p) (loaded_iteration p) l.
Definition set_loaded (i : Z) (p : ApiPage) : ApiPage :=
  mkApiPage (service p) (selected_api p) (iteration p) (Some i) (api_list p).
Definition map_service (f : ThisService -> ThisService) (p : ApiPage) : ApiPage :=
  mkApiPage (f (service p)) (selected_api p) (iteration p) (loaded_iteration p) (api_list p).

(** ** What the page computes from the state *)

(** [serviceUuid]. *)
Definition serviceUuid (s : ThisService) : string :=
  match serviceDetail s with
  | None => ""
  | Some (Latest d) => service_uuid (detail_item d)
  | Some (Past d) => match iteration_service d with Some i => service_uuid i | None => "" end
  end.

(** [personInCharge]: [None] is [{}], and an owner that was not sent. *)
Definition personInCharge (s : ThisService) : option UserProfile :=
  match serviceDetail s with
  | None => None
  | Some (Latest d) => owner (detail_item d)
  | Some (Past d) => Some (creator d)
  end.

Definition service_tree (s : ThisService) : list Group := treeData (apiCategories s) (apis s).

(** [isLoading]: the page is a spinner, and [ApiList] is not mounted. *)
Definition isLoading (s : ThisService) : bool :=
  loading s || String.eqb (serviceUuid s) "" || bool_decide (service_tree s = []).

(** The tree handed to [ApiList]; [iterationDetail] is an object from the start,
    so it counts as present. *)
Definition shown_tree (p : ApiPage) : list Group :=
  if inIteration (service p) then iterationTreeData (apiCategories (service p)) (iteration p)
  else service_tree (service p).

(** The second argument of [useApi]. *)
Definition api_flag (s : ThisService) : bool := if inIteration s then false else isLatest s.

(** [Number(key)] of a tree key. *)
Definition key_id (key : string) : Z := default (-1)%Z (to_number key).

Section Page.
Variable server : Server.

(** The effect of [ApiList] on [firstOptionKey], after it was mounted or its tree
    changed; an empty key selects nothing. *)
Definition list_effect : UI ApiPage unit :=
  s ← get_hook;
  if isLoading (service s) then set_hook (set_list None)
  else
    let key := firstOptionKey (shown_tree s) in
    let select keys :=
      if String.eqb key "" then set_hook (set_list (Some (keys, key)))
      else set_hook (fun s => set_list (Some ([key], key)) (map_service (setSelectedApiId (key_id key)) s)) in
    match api_list s with
    | None => select []
    | Some (keys, before) => if String.eqb key before then mret () else select keys
    end.

(** The effect of [useApi]. *)
Definition api_effect : UI ApiPage unit :=
  s ← get_hook;
  on_api (render server (selectedApiId (service s)) (api_flag (service s))).

(** The effect of [useServiceIteration]: its callback depends on [iterationId]. *)
Definition iteration_effect : UI ApiPage unit :=
  s ← get_hook;
  if decide (loaded_iteration s = Some (iterationId (service s))) then mret ()
  else
    set_hook (set_loaded (iterationId (service s))) ;;
    on_iteration (fetchIterationDetail server (iterationId (service s))).

(** The effects of a render: the list's first, as a child. *)
Definition page_effects : UI ApiPage unit := list_effect ;; api_effect ;; iteration_effect.

(** The renders after an operation: the second one sees the drafts the first one
    loaded. *)
Definition settle : UI ApiPage unit := page_effects ;; page_effects.

(** ** What the user can do *)

(** [handleSelectApi]: in an iteration a dialog asks first. *)
Definition handleSelectApi (keys : list string) (confirmed : bool) : UI ApiPage unit :=
  s ← get_hook;
  let select : UI ApiPage unit :=
    let '(i, selected) := selectApi keys (match api_list s with Some (k, _) => k | None => [] end) in
    set_hook (fun p => set_list (match api_list p with Some (_, b) => Some (selected, b) | None => None end)
                         (map_service (setSelectedApiId i) p)) in
  inIterationWarning select (inIteration (service s)) AskFirst confirmed.

(** Selecting a version: while its detail is on its way the list is unmounted and
    [useApi] sees the reset selection. *)
Definition selectPageVersion (uuid v : string) : UI ApiPage unit :=
  s ← get_hook;
  on_service (selectVersion server uuid v) ;;
  if inIteration (service s) || bool_decide (v = currentVersion (service s) \/ v = "") then mret ()
  else set_hook (set_list None) ;; on_api (render server (-1) (api_flag (service s))).

Inductive PageAction :=
| ChooseVersion (v : string)
| ChooseApi (keys : list string) (confirmed : bool)
| ServiceAction (a : Action)
| AddApiDraft (validate : outcome unit) (values : AddApiValues)
| OnDraft (op : DraftOp).

Definition page_act (uuid : string) (a : PageAction) : UI ApiPage unit :=
  match a with
  | ChooseVersion v => selectPageVersion uuid v
  | ChooseApi keys ok => handleSelectApi keys ok
  | ServiceAction (SelectVersion v) => selectPageVersion uuid v
  | ServiceAction a => on_service (act server uuid a)
  | AddApiDraft ok values => s ← get_hook; on_iteration (handleAddApi server (iterationId (service s)) ok values)
  | OnDraft op => s ← get_hook; on_iteration (run_op server (iterationId (service s)) op)
  end.

(** An operation, whether its promise is fulfilled or rejected, and the renders
    it causes. *)
Definition perform (uuid : string) (a : PageAction) : UI ApiPage unit := fun s =>
  settle (page_act uuid a s).2.

(** The first render. *)
Definition initial_page : ApiPage :=
  mkApiPage initial initial_api (mkServiceIteration false None []) None None.

(** Opening the page: [useApi] and [useServiceIteration] have run once by the
    time the versions and the detail have come. *)
Definition open_page (t : string -> string) (uuid : string) : UI ApiPage unit :=
  page_effects ;;
  on_service (mount server t uuid) ;;
  settle.
End Page.

(** The page at rest: nothing is loading, the list stands for the tree shown, and the
    effects that load an API and the drafts have run for the API selected and the
    iteration in progress.  What they loaded is the subject of [page_origin]. *)
Record page_rest (p : ApiPage) : Prop := mkPageRest {
  rest_service : loading (service p) = false;
  rest_api : api_loading (selected_api p) = false;
  rest_iteration : iter_loading (iteration p) = false;
  rest_list : snd <$> api_list p =
    (if isLoading (service p) then None else Some (firstOptionKey (shown_tree p)));
  rest_selected : effect_id (selected_api p) = Some (selectedApiId (service p));
  rest_loaded : loaded_iteration p = Some (iterationId (service p))
}.

(** Nothing is loading. *)
Definition page_idle (p : ApiPage) : Prop :=
  loading (service p) = false /\ api_loading (selected_api p) = false /\ iter_loading (iteration p) = false.

(** ** Where what is shown comes from *)

(** [r] is what one of the servers [met] answers when asked for [e]. *)
Definition answered_by (met : Server -> Prop) {T} (e : Endpoint T) (r : T) : Prop :=
  exists server h k, met server /\ server T h k e = NetOk r.

(** The detail [d] was answered, with success, for the id [i]: as an API or as a draft. *)
Definition api_answered (met : Server -> Prop) (i : Z) (d : ApiDetail) : Prop :=
  exists latest res, answered_by met (GetApiById i (Some latest)) res /\ status res = 200%Z /\ payload res = Some d.

Definition api_origin (met : Server -> Prop) (a : UseApi) : Prop :=
  forall d, apiDetail a = Some d -> exists i, effect_id a = Some i /\ (0 < i)%Z /\ api_answered met i d.

(** The drafts, when there are any, were answered with success for some iteration. *)
Definition drafts_origin (met : Server -> Prop) (it : ServiceIteration) : Prop :=
  apiDrafts it <> [] -> exists i res d, (0 < i)%Z /\ answered_by met (GetIterationById i) res /\
    status res = 200%Z /\ payload res = Some d /\ api_drafts d = Some (Some (apiDrafts it)).

(** ** Lemmas: what the drafts' operations keep *)

(** [P] stays true of the state. *)
Definition stays {S} (P : S -> Prop) (s s' : Fe S) : Prop := P (hook s) -> P (hook s').
#[global] Instance stays_preorder {S} (P : S -> Prop) : PreOrder (stays P).
Proof. split; unfold stays; [intros x H; exact H|]. intros x y z. tauto. Qed.

Section IterationKeeps.
Context (server : Server) (i : Z) (P : ServiceIteration -> Prop).
Hypothesis Hfetch : preserves (stays P) (fetchIterationDetail server i).

Lemma request_stays {S} (Q : S -> Prop) {T} (e : Endpoint T) : preserves (stays Q) (FeHttp.request server e : UI S T).
Proof. apply (http_preserves e). unfold stays. by intros p p' ->. Qed.

Lemma toast_stays {S} (Q : S -> Prop) m : preserves (stays Q) (toast_up m : UI S unit).
Proof. intros s H. exact H. Qed.

Lemma resume_stays {S} (Q : S -> Prop) {A} (o : outcome A) : preserves (stays Q) (resume o : UI S A).
Proof. intros s H. exact H. Qed.

#[local] Hint Resolve request_stays Hfetch toast_stays resume_stays : preserves.

Lemma add_stays ok values : preserves (stays P) (handleAddApi server i ok values).
Proof. unfold handleAddApi. preserve. Qed.

Lemma op_stays op : preserves (stays P) (run_op server i op).
Proof. destruct op; cbn [run_op]; unfold handleCopyApi, handleDeleteApi, handleSaveApiDraft; preserve. Qed.
End IterationKeeps.

Definition idle_iteration (it : ServiceIteration) : Prop := iter_loading it = false.

Lemma fetch_idle server i : preserves (stays idle_iteration) (fetchIterationDetail server i).
Proof. intros s Hs. destruct (fetchIterationDetail_ends server i s) as (b & s' & -> & H & _). by apply H. Qed.

(** ** Lemmas: effects *)

Section Effects.
Context (server : Server).

Lemma on_service_run {A} (m : UI ThisService A) s o s' :
  m (mkFe (browser s) (service (hook s))) = (o, s') ->
  on_service m s = (o, mkFe (browser s') (map_service (fun _ => hook s') (hook s))).
Proof. intros H. unfold on_service. by rewrite H. Qed.

(** The list's effect changes the selection and the list; then the list stands
    for the tree shown. *)
Lemma list_effect_run s :
  exists p, list_effect s = (Ret tt, mkFe (browser s) p) /\
    (exists i, service p = setSelectedApiId i (service (hook s))) /\
    selected_api p = selected_api (hook s) /\ iteration p = iteration (hook s) /\
    loaded_iteration p = loaded_iteration (hook s) /\
    snd <$> api_list p = (if isLoading (service p) then None else Some (firstOptionKey (shown_tree p))).
Proof.
  assert (Hsame : service (hook s) = setSelectedApiId (selectedApiId (service (hook s))) (service (hook s)))
    by by destruct (service (hook s)).
  unfold list_effect. rewrite (bind_Ret _ _ s (hook s) s) by done.
  destruct (isLoading (service (hook s))) eqn:El.
  { eexists. split; [reflexivity|]. split; [by eexists|]. simpl. by rewrite El. }
  cbv zeta. destruct (api_list (hook s)) as [[keys before]|] eqn:Ea.
  - destruct (String.eqb_spec (firstOptionKey (shown_tree (hook s))) before) as [<-|_].
    { exists (hook s). split; [by destruct s|]. split; [by eexists|]. by rewrite Ea, El. }
    destruct (String.eqb_spec (firstOptionKey (shown_tree (hook s))) "") as [E|_];
      (eexists; split; [reflexivity|]); (split; [by eexists|]); simpl; change (isLoading (setSelectedApiId ?i ?x)) with (isLoading x); by rewrite El.
  - destruct (String.eqb_spec (firstOptionKey (shown_tree (hook s))) "") as [E|_];
      (eexists; split; [reflexivity|]); (split; [by eexists|]); simpl; change (isLoading (setSelectedApiId ?i ?x)) with (isLoading x); by rewrite El.
Qed.

Lemma api_effect_run s :
  api_loading (selected_api (hook s)) = false ->
  exists b a, api_effect server s =
    (Ret tt, mkFe b (mkApiPage (service (hook s)) a (iteration (hook s)) (loaded_iteration (hook s)) (api_list (hook s)))) /\
    api_loading a = false /\ effect_id a = Some (selectedApiId (service (hook s))).
Proof.
  intros H. unfold api_effect. rewrite (bind_Ret _ _ s (hook s) s) by done. unfold on_api.
  destruct (render_ends server (selectedApiId (service (hook s))) (api_flag (service (hook s)))
    (mkFe (browser s) (selected_api (hook s))) H) as (b & a & -> & Ha). by exists b, a.
Qed.

Lemma iteration_effect_run s :
  iter_loading (iteration (hook s)) = false ->
  exists b it, iteration_effect server s =
    (Ret tt, mkFe b (mkApiPage (service (hook s)) (selected_api (hook s)) it
      (Some (iterationId (service (hook s)))) (api_list (hook s)))) /\
    iter_loading it = false /\
    (loaded_iteration (hook s) = Some (iterationId (service (hook s))) -> it = iteration (hook s) /\ b = browser s).
Proof.
  intros H. unfold iteration_effect. rewrite (bind_Ret _ _ s (hook s) s) by done. case_decide as E.
  - exists (browser s), (iteration (hook s)). split; [|done]. rewrite <-E. by destruct s as [b []].
  - erewrite bind_Ret by reflexivity. unfold on_iteration. cbn [hook browser].
    match goal with |- context [fetchIterationDetail _ ?i ?q] =>
      destruct (fetchIterationDetail_ends server i q) as (b & it & -> & Hl & _) end.
    exists b, it. split; [done|]. split; [by apply Hl|]. done.
Qed.

(** One pass from an idle page. *)
Lemma page_effects_run s :
  page_idle (hook s) ->
  exists b p, page_effects server s = (Ret tt, mkFe b p) /\ page_idle p /\
    (exists i, service p = setSelectedApiId i (service (hook s))) /\
    effect_id (selected_api p) = Some (selectedApiId (service p)) /\
    loaded_iteration p = Some (iterationId (service p)) /\
    (loaded_iteration (hook s) = Some (iterationId (service (hook s))) -> page_rest p).
Proof.
  intros (H1 & H2 & H3). unfold page_effects.
  destruct (list_effect_run s) as (p1 & E1 & [i Hi] & Ha & Hit & Hld & Hlist). rewrite (bind_Ret _ _ _ _ _ E1).
  destruct (api_effect_run (mkFe (browser s) p1)) as (b2 & a & E2 & Hla & Hea); [cbn; by rewrite Ha|].
  rewrite (bind_Ret _ _ _ _ _ E2). cbn [hook] in *.
  match type of E2 with _ = (_, ?q) =>
    destruct (iteration_effect_run q) as (b3 & it & E3 & Hlit & Hsame); [by cbn; rewrite Hit|] end.
  cbn [hook service iteration loaded_iteration api_list selected_api] in *.
  eexists _, _. split; [exact E3|].
  assert (Hl : loading (service p1) = false) by by rewrite Hi.
  split; [done|]. split; [by exists i|]. split; [done|]. split; [done|].
  intros Hload. destruct Hsame as [-> _]; [by rewrite Hld, Hload, Hi|]. by split.
Qed.

Lemma settle_rest s :
  page_idle (hook s) ->
  exists b p, settle server s = (Ret tt, mkFe b p) /\ page_rest p /\
    exists i, service p = setSelectedApiId i (service (hook s)).
Proof.
  intros H. destruct (page_effects_run s H) as (b & p & E & Hidle & [i Hi] & _ & Hload & _).
  unfold settle. rewrite (bind_Ret _ _ _ _ _ E).
  destruct (page_effects_run (mkFe b p) Hidle) as (b' & p' & E' & _ & [j Hj] & _ & _ & Hrest).
  exists b', p'. split; [done|]. split; [by apply Hrest|]. exists j. cbn [hook] in Hj. by rewrite Hj, Hi.
Qed.

(** At rest a further render changes nothing. *)
Lemma effects_at_rest s : page_rest (hook s) -> page_effects server s = (Ret tt, s).
Proof.
  intros [H1 H2 H3 H4 H5 H6]. unfold page_effects.
  assert (E1 : list_effect s = (Ret tt, s)).
  { unfold list_effect. rewrite (bind_Ret _ _ s (hook s) s) by done.
    destruct (isLoading (service (hook s))).
    - destruct s as [b [sv a it ld [l|]]]; [done|]. reflexivity.
    - cbv zeta. destruct (api_list (hook s)) as [[keys before]|]; [|done].
      injection H4 as ->. by rewrite String.eqb_refl. }
  rewrite (bind_Ret _ _ _ _ _ E1).
  assert (E2 : api_effect server s = (Ret tt, s)).
  { unfold api_effect. rewrite (bind_Ret _ _ s (hook s) s) by done. unfold on_api.
    rewrite render_same by exact H5. by destruct s as [b []]. }
  rewrite (bind_Ret _ _ _ _ _ E2).
  unfold iteration_effect. rewrite (bind_Ret _ _ s (hook s) s) by done. by rewrite decide_True.
Qed.
End Effects.

(** ** Lemmas: operations *)

(** What an operation may rely on, and keeps. *)
Definition page_inv (p : ApiPage) : Prop := page_idle p /\ page_ok (service p).

Lemma page_ok_select i s : page_ok (setSelectedApiId i s) <-> page_ok s.
Proof. split; intros [H1 H2]; by split. Qed.

Lemma rest_inv p : page_rest p -> page_ok (service p) -> page_inv p.
Proof. by intros [H1 H2 H3 _ _ _] H. Qed.

Section Operations.
Context (server : Server).

Lemma on_service_inv {A} (m : UI ThisService A) s :
  (page_ok (service (hook s)) -> page_ok (hook (m (mkFe (browser s) (service (hook s)))).2)) ->
  page_inv (hook s) -> page_inv (hook (on_service m s).2).
Proof.
  intros Hm [(H1 & H2 & H3) Hok]. unfold on_service. specialize (Hm Hok).
  destruct (m _) as [o s']. cbn [snd hook] in *. split; [|exact Hm]. split; [by apply Hm|done].
Qed.

Lemma on_iteration_inv {A} (m : UI ServiceIteration A) s :
  preserves (stays idle_iteration) m -> page_inv (hook s) -> page_inv (hook (on_iteration m s).2).
Proof.
  intros Hm [(H1 & H2 & H3) Hok]. unfold on_iteration.
  specialize (Hm (mkFe (browser s) (iteration (hook s))) H3). destruct (m _) as [o s']. done.
Qed.

Lemma select_version_inv uuid v s : page_inv (hook s) -> page_inv (hook (selectPageVersion server uuid v s).2).
Proof.
  intros H. unfold selectPageVersion. rewrite (bind_Ret _ _ s (hook s) s) by done.
  pose proof (select_run server uuid v (mkFe (browser s) (service (hook s)))) as Hs.
  pose proof (on_service_inv (selectVersion server uuid v) s) as Hi.
  destruct (selectVersion server uuid v (mkFe (browser s) (service (hook s)))) as [o s'] eqn:E.
  destruct Hs as [-> _]. pose proof (on_service_run _ _ _ _ E) as E'.
  rewrite (bind_Ret _ _ _ _ _ E'). rewrite E' in Hi. cbn [snd hook] in Hi.
  assert (Hinv : page_inv (map_service (fun _ => hook s') (hook s))).
  { apply Hi; [|exact H]. intros Hok.
    pose proof (act_ok server uuid (SelectVersion v) (mkFe (browser s) (service (hook s))) Hok) as Ha.
    cbn [act] in Ha. by rewrite E in Ha. }
  destruct (_ || _); [exact Hinv|]. erewrite bind_Ret by reflexivity.
  unfold on_api. cbn [hook browser]. destruct Hinv as [(H1 & H2 & H3) Hok].
  match goal with |- context [render server ?i ?f ?q] =>
    destruct (render_ends server i f q H2) as (b & a & -> & Hla & _) end.
  by split.
Qed.

Lemma page_act_inv uuid a s : page_inv (hook s) -> page_inv (hook (page_act server uuid a s).2).
Proof.
  intros H. destruct a as [v|keys ok|a|ok values|op]; cbn [page_act].
  - by apply select_version_inv.
  - unfold handleSelectApi. rewrite (bind_Ret _ _ s (hook s) s) by done.
    assert (Hsel : forall q, page_inv (hook q) -> page_inv (hook
      ((let '(i, selected) := selectApi keys (match api_list (hook s) with Some (k, _) => k | None => [] end) in
        set_hook (fun p => set_list (match api_list p with Some (_, b) => Some (selected, b) | None => None end)
                             (map_service (setSelectedApiId i) p))) q).2)).
    { intros q [(H1 & H2 & H3) Hok]. destruct (selectApi _ _) as [i sel]. split; [done|]. by apply page_ok_select. }
    unfold inIterationWarning. destruct (inIteration _); cbn [negb]; [|by apply Hsel].
    erewrite bind_Ret by reflexivity. destruct ok; [|exact H].
    revert Hsel. destruct (selectApi _ _). intros Hsel. by apply Hsel.
  - assert (Ha : forall a, page_inv (hook (on_service (act server uuid a) s).2)).
    { intros a'. apply on_service_inv; [|done]. intros Hok.
      exact (act_ok server uuid a' (mkFe (browser s) (service (hook s))) Hok). }
    destruct a; try apply Ha. by apply select_version_inv.
  - rewrite (bind_Ret _ _ s (hook s) s) by done. apply on_iteration_inv; [apply add_stays, fetch_idle|done].
  - rewrite (bind_Ret _ _ s (hook s) s) by done. apply on_iteration_inv; [apply op_stays, fetch_idle|done].
Qed.

Lemma perform_rest uuid a s :
  page_inv (hook s) ->
  exists b p, perform server uuid a s = (Ret tt, mkFe b p) /\ page_rest p /\ page_ok (service p).
Proof.
  intros H. destruct (page_act_inv uuid a s H) as [Hidle Hok]. unfold perform.
  destruct (settle_rest server _ Hidle) as (b & p & -> & Hr & i & Hi).
  exists b, p. split; [done|]. split; [done|]. rewrite Hi. by apply page_ok_select.
Qed.

Lemma open_rest t uuid b :
  exists b' p, open_page server t uuid (mkFe b initial_page) = (Ret tt, mkFe b' p) /\
    page_rest p /\ page_ok (service p).
Proof.
  unfold open_page. erewrite bind_Ret by reflexivity.
  pose proof (mount_ends server t uuid b) as Hm.
  destruct (mount server t uuid (mkFe b initial)) as [o s'] eqn:E. destruct Hm as (-> & Hl & Hi & Hid).
  match goal with |- context [(_ ≫= _) ?q] =>
    pose proof (on_service_run (mount server t uuid) q _ _ E) as E' end.
  rewrite (bind_Ret _ _ _ _ _ E'). cbn [hook browser].
  match goal with |- context [settle server ?q] =>
    destruct (settle_rest server q) as (b' & p & -> & Hr & i & Hs); [done|] end.
  exists b', p. split; [done|]. split; [done|]. rewrite Hs. apply page_ok_select. by split.
Qed.
End Operations.

(** ** Lemmas: where what is shown comes from *)

Section Origin.
Context (met : Server -> Prop) (server : Server).
Hypothesis Hmet : met server.

Lemma render_origin i latest : preserves (stays (api_origin met)) (render server i latest).
Proof.
  intros s Hs. unfold render. rewrite (bind_Ret _ _ s (hook s) s) by done. case_decide; [exact Hs|].
  erewrite bind_Ret by reflexivity. unfold fetchApiDetail. destruct (Z.leb_spec i 0); [by intros d|].
  unfold mbind, M_bind, set_hook, modify, finally, try_catch, request. simpl.
  match goal with |- context [server ?T ?h ?k ?e] => destruct (server T h k e) as [res|n st msg] eqn:E end; [case_decide as Hst|]; simpl; try by intros d.
  intros d Hd. exists i. split; [done|]. split; [done|]. exists latest, res. split; [by eexists _, _, _|].
  split; [|exact Hd]. by destruct (decide (status res = 200%Z)).
Qed.

Lemma fetch_origin i : preserves (stays (drafts_origin met)) (fetchIterationDetail server i).
Proof.
  intros s Hs. unfold fetchIterationDetail. destruct (Z.leb_spec i 0); [exact Hs|].
  unfold mbind, M_bind, set_hook, modify, finally, try_catch, request. simpl.
  match goal with |- context [server ?T ?h ?k ?e] => destruct (server T h k e) as [res|n st msg] eqn:E end; [|exact Hs].
  case_decide as Hst; [exact Hs|]. destruct (payload res) as [d|] eqn:Ed; simpl; [|exact Hs].
  destruct (api_drafts d) as [[l|]|] eqn:El; simpl; [|by intros []|exact Hs].
  intros _. exists i, res, d. split; [done|]. split; [by eexists _, _, _|].
  split; [by destruct (decide (status res = 200%Z))|done].
Qed.

(** The API and the drafts of the page. *)
Definition page_origin (p : ApiPage) : Prop := api_origin met (selected_api p) /\ drafts_origin met (iteration p).
Notation kept := (stays page_origin).

Lemma on_service_origin {A} (m : UI ThisService A) : preserves kept (on_service m).
Proof. intros s Hs. unfold on_service. destruct (m _) as [o s']. exact Hs. Qed.

Lemma on_api_origin i latest : preserves kept (on_api (render server i latest)).
Proof.
  intros s [Ha Hd]. unfold on_api. pose proof (render_origin i latest (mkFe (browser s) (selected_api (hook s))) Ha) as H.
  destruct (render _ _ _ _) as [o s']. by split.
Qed.

Lemma on_iteration_origin {A} (m : UI ServiceIteration A) : preserves (stays (drafts_origin met)) m -> preserves kept (on_iteration m).
Proof.
  intros Hm s [Ha Hd]. unfold on_iteration. pose proof (Hm (mkFe (browser s) (iteration (hook s))) Hd) as H.
  destruct (m _) as [o s']. by split.
Qed.

Lemma set_origin f : (forall p, selected_api (f p) = selected_api p /\ iteration (f p) = iteration p) ->
  preserves kept (set_hook f : UI ApiPage unit).
Proof. intros Hf s. unfold stays, page_origin. cbn. by destruct (Hf (hook s)) as [-> ->]. Qed.

Lemma hook_origin : preserves kept (get_hook : UI ApiPage ApiPage).
Proof. intros s H. exact H. Qed.

Lemma select_origin keys selected : preserves kept
  (let '(i, k) := selectApi keys selected in
   set_hook (fun p => set_list (match api_list p with Some (_, b) => Some (k, b) | None => None end)
                        (map_service (setSelectedApiId i) p)) : UI ApiPage unit).
Proof. destruct (selectApi keys selected) as [i k]. by apply set_origin. Qed.

#[local] Hint Resolve on_service_origin on_api_origin on_iteration_origin hook_origin select_origin toast_stays
  fetch_origin add_stays op_stays : preserves.
#[local] Hint Extern 1 (preserves _ (set_hook _)) => by apply set_origin : preserves.

Lemma page_effects_origin : preserves kept (page_effects server).
Proof. unfold page_effects, list_effect, api_effect, iteration_effect. preserve. Qed.

Lemma select_version_origin uuid v : preserves kept (selectPageVersion server uuid v).
Proof. unfold selectPageVersion. preserve. Qed.

Lemma page_act_origin uuid a : preserves kept (page_act server uuid a).
Proof.
  destruct a as [v|keys ok|a|ok values|op]; cbn [page_act].
  - apply select_version_origin.
  - unfold handleSelectApi, inIterationWarning. preserve.
  - destruct a; try apply on_service_origin. apply select_version_origin.
  - preserve.
  - preserve.
Qed.

Lemma settle_origin : preserves kept (settle server).
Proof. unfold settle. apply preserves_bind; [apply page_effects_origin|intros _; apply page_effects_origin]. Qed.

Lemma perform_origin uuid a : preserves kept (perform server uuid a).
Proof. intros s Hs. apply settle_origin. by apply page_act_origin. Qed.

Lemma open_origin t uuid b : page_origin (hook (open_page server t uuid (mkFe b initial_page)).2).
Proof.
  assert (H : preserves kept (open_page server t uuid)).
  { unfold open_page. apply preserves_bind; [apply page_effects_origin|intros _].
    apply preserves_bind; [apply on_service_origin|intros _; apply settle_origin]. }
  apply H. split; [by intros d|by intros []].
Qed.
End Origin.

(** ** Properties *)

(** C18. The page as a whole comes to rest: from its first render through any
    operations on the service, the tree, the drafts and the iteration, against any
    servers, two renders suffice after each.  Then nothing is loading, the effect of
    the tree has run for the tree shown, the effect that loads an API for the API
    selected and the effect that loads drafts for the iteration in progress, and a
    further render changes nothing.  The API shown, if any, is what one of the servers
    met answered with success for the id selected, whether asked for an API or for a draft
    (the page does not tell an API and a draft of one id apart); and the drafts kept,
    if any, are what one of them answered with success for some iteration, which is an
    earlier one when the load for the iteration in progress failed. *)
Theorem page_comes_to_rest server0 t uuid b (l : list (Server' * PageAction)) :
  let met server := server = server0 \/ exists sa, sa ∈ l /\ server = the_server sa.1 in
  let '(o, p0) := open_page server0 t uuid (mkFe b initial_page) in
  let p := foldl (fun p sa => (perform (the_server sa.1) uuid sa.2 p).2) p0 l in
  o = Ret tt /\ page_rest (hook p) /\ page_effects server0 p = (Ret tt, p) /\
  (forall d, apiDetail (selected_api (hook p)) = Some d ->
     (0 < selectedApiId (service (hook p)))%Z /\ api_answered met (selectedApiId (service (hook p))) d) /\
  drafts_origin met (iteration (hook p)).
Proof.
  intros met. pose proof (open_origin met server0 (or_introl eq_refl) t uuid b) as Horig.
  destruct (open_rest server0 t uuid b) as (b0 & p0 & E & Hr & Hok). rewrite E in Horig |- *. split; [done|].
  assert (H : page_rest (hook (mkFe b0 p0)) /\ page_ok (service (hook (mkFe b0 p0)))) by done.
  assert (Hl : forall sa, sa ∈ l -> met (the_server sa.1)) by (intros sa Hsa; right; by exists sa).
  clear E Hr Hok. revert H Horig Hl. cbn [snd]. generalize (mkFe b0 p0). clearbody met. clear b0 p0.
  induction l as [|[s a] l IH]; intros p [Hr Hok] Ho Hl.
  - split; [done|]. split; [by apply effects_at_rest|]. destruct Ho as [Ha Hd]. split; [|exact Hd].
    intros d (i & Hi & Hpos & Hans)%Ha. cbn [foldl] in *. rewrite (rest_selected _ Hr) in Hi. by injection Hi as <-.
  - cbn [foldl fst snd]. pose proof (perform_origin met (the_server s) (Hl (s, a) ltac:(by left)) uuid a p Ho) as Ho'.
    destruct (perform_rest (the_server s) uuid a p (rest_inv _ Hr Hok)) as (b' & p' & E & Hr' & Hok').
    rewrite E in Ho' |- *. apply IH; [done|exact Ho'|]. intros sa Hsa. apply Hl. by right.
Qed.

(** ** Lemmas: an iteration begins *)

Lemma firstOptionKey_none cats : firstOptionKey (treeData cats []) = "".
Proof.
  pose proof (treeData_groups cats []) as H. unfold firstOptionKey.
  assert (Hc : Forall (fun g => children g = []) (treeData cats [])).
  { apply Forall_forall. intros g Hg.
    assert (Hin : (group_key g, children g) ∈ map (fun g => (group_key g, children g)) (treeData cats []))
      by (apply list_elem_of_In, in_map_iff; exists g; by rewrite <-list_elem_of_In).
    rewrite H in Hin. apply list_elem_of_In, in_map_iff in Hin as (k & E & _). by injection E as _ <-. }
  replace (filter (fun g => children g <> []) (treeData cats [])) with (@nil Group); [done|].
  clear H. induction Hc as [|g l Hg _ IH]; [done|]. by rewrite filter_cons_False by (rewrite Hg; tauto).
Qed.

Lemma map_service_same p : map_service (fun _ => service p) p = p.
Proof. by destruct p. Qed.

Section Begin.
Context (server : Server).

(** Drafts that arrive are shown. *)
Lemma fetch_drafts i s r d l :
  (0 < i)%Z ->
  server _ (sent (browser s)) (getAccessToken (browser s)) (GetIterationById i) = NetOk r ->
  status r = 200%Z -> payload r = Some d -> api_drafts d = Some (Some l) ->
  fetchIterationDetail server i s =
    (Ret tt, mkFe (with_sent (getAccessToken (browser s), encode (GetIterationById i)) (browser s))
       (mkServiceIteration false (Some d) l)).
Proof.
  intros Hi Hs H200 Hd Hl. unfold fetchIterationDetail. rewrite (proj2 (Z.leb_gt i 0)) by done.
  erewrite bind_Ret by reflexivity. unfold finally, try_catch.
  erewrite bind_Ret by (apply fe_request_NetOk; exact Hs). rewrite decide_False by (rewrite H200; tauto).
  erewrite bind_Ret by reflexivity. rewrite Hd, Hl. reflexivity.
Qed.

(** The first pass after the iteration began, on a page without drafts: the
    selection stays, and the drafts are asked for. *)
Lemma begin_pass b p i r d l :
  page_rest p -> isLoading (service p) = false -> apiDrafts (iteration p) = [] ->
  (0 < i)%Z -> iterationId (service p) <> i ->
  server _ (sent b) (getAccessToken b) (GetIterationById i) = NetOk r ->
  status r = 200%Z -> payload r = Some d -> api_drafts d = Some (Some l) ->
  exists keys, page_effects server (mkFe b (map_service (setIteration true i) p)) =
    (Ret tt, mkFe (with_sent (getAccessToken b, encode (GetIterationById i)) b)
      (mkApiPage (setIteration true i (service p)) (selected_api p) (mkServiceIteration false (Some d) l)
         (Some i) (Some (keys, "")))).
Proof.
  intros [R1 R2 R3 R4 R5 R6] Hload Hdrafts Hi Hne Hs H200 Hd Hl.
  rewrite Hload in R4. destruct (api_list p) as [[keys before]|] eqn:Ea; [|done].
  exists keys. set (p1 := mkApiPage (setIteration true i (service p)) (selected_api p) (iteration p) (loaded_iteration p) (Some (keys, ""))).
  assert (E1 : list_effect (mkFe b (map_service (setIteration true i) p)) = (Ret tt, mkFe b p1)).
  { unfold list_effect. erewrite bind_Ret by reflexivity. cbn [hook service map_service api_list].
    change (isLoading (setIteration true i (service p))) with (isLoading (service p)). rewrite Hload, Ea.
    assert (Ek : firstOptionKey (shown_tree (map_service (setIteration true i) p)) = "").
    { unfold shown_tree, iterationTreeData. cbn. rewrite Hdrafts. apply firstOptionKey_none. }
    cbn [hook]. rewrite Ek. destruct (String.eqb_spec "" before) as [<-|_].
    - unfold p1, map_service. by rewrite Ea.
    - reflexivity. }
  unfold page_effects. rewrite (bind_Ret _ _ _ _ _ E1).
  assert (E2 : api_effect server (mkFe b p1) = (Ret tt, mkFe b p1)).
  { unfold api_effect. erewrite bind_Ret by reflexivity. unfold on_api. cbn [hook browser].
    rewrite render_same by exact R5. done. }
  rewrite (bind_Ret _ _ _ _ _ E2). unfold iteration_effect. erewrite bind_Ret by reflexivity.
  cbn [hook p1 service loaded_iteration]. change (iterationId (setIteration true i (service p))) with i.
  rewrite decide_False by (rewrite R6; congruence). erewrite bind_Ret by reflexivity.
  unfold on_iteration.
  change (fetchIterationDetail server ?j (mkFe ?c ?h)) with (fetchIterationDetail server i (mkFe b (iteration p))).
  by rewrite (fetch_drafts i (mkFe b (iteration p)) r d l).
Qed.

(** The second pass: the first draft is selected, and loaded unless its id is the
    one loaded before. *)
Lemma drafts_pass b s a it i keys :
  isLoading s = false -> inIteration s = true -> iterationId s = i ->
  effect_id a = Some (selectedApiId s) -> api_loading a = false ->
  let key := firstOptionKey (iterationTreeData (apiCategories s) it) in
  key <> "" -> (0 < key_id key)%Z ->
  exists a' b', page_effects server (mkFe b (mkApiPage s a it (Some i) (Some (keys, "")))) =
    (Ret tt, mkFe b' (mkApiPage (setSelectedApiId (key_id key) s) a' it (Some i) (Some ([key], key)))) /\
    (if decide (selectedApiId s = key_id key) then a' = a /\ b' = b
     else effect_id a' = Some (key_id key) /\
       sent b' = sent b ++ [(getAccessToken b, encode (GetApiById (key_id key) (Some false)))]).
Proof.
  intros Hload Hin Hit Hid Hidle. cbv zeta. set (key := firstOptionKey (iterationTreeData (apiCategories s) it)).
  intros Hkey Hpos.
  set (p1 := mkApiPage (setSelectedApiId (key_id key) s) a it (Some i) (Some ([key], key))).
  assert (E1 : list_effect (mkFe b (mkApiPage s a it (Some i) (Some (keys, "")))) = (Ret tt, mkFe b p1)).
  { unfold list_effect. erewrite bind_Ret by reflexivity. cbn [hook service api_list]. rewrite Hload.
    unfold shown_tree. cbn [service iteration]. rewrite Hin. fold key.
    rewrite (proj2 (String.eqb_neq key "") Hkey). reflexivity. }
  unfold page_effects. rewrite (bind_Ret _ _ _ _ _ E1).
  assert (E2 : exists a' b', api_effect server (mkFe b p1) = (Ret tt, mkFe b' (mkApiPage (service p1) a' it (Some i) (Some ([key], key)))) /\
    (if decide (selectedApiId s = key_id key) then a' = a /\ b' = b
     else effect_id a' = Some (key_id key) /\
       sent b' = sent b ++ [(getAccessToken b, encode (GetApiById (key_id key) (Some false)))])).
  { unfold api_effect. erewrite bind_Ret by reflexivity. unfold on_api. cbn [hook browser selected_api service p1].
    change (selectedApiId (setSelectedApiId ?x s)) with x.
    replace (api_flag (setSelectedApiId (key_id key) s)) with false by (unfold api_flag; cbn; by rewrite Hin).
    case_decide as Hsel.
    - rewrite render_same by (cbn; congruence). by exists a, b.
    - destruct (render_new server (key_id key) false (mkFe b a)) as (b' & a' & -> & H1 & H2);
        [cbn; congruence|done|]. by exists a', b'. }
  destruct E2 as (a' & b' & E2 & H). rewrite (bind_Ret _ _ _ _ _ E2). exists a', b'. split; [|exact H].
  unfold iteration_effect. erewrite bind_Ret by reflexivity. cbn [hook service loaded_iteration p1].
  rewrite decide_True by (cbn; congruence). done.
Qed.
End Begin.

(** Beginning an iteration, accepted by the server and its drafts answered:
    the tree becomes that of the drafts and its first draft is selected.  The page
    sends the start, the question for the iteration and, when the draft's id is
    not the id that was selected, the question for the draft; with that id, the
    editor keeps the published API it showed and edits it as the draft. *)
Theorem begin_iteration_outcome (server : Server) uuid (s : Fe ApiPage) i r1 r2 d l :
  page_rest (hook s) -> inIteration (service (hook s)) = false -> iterationId (service (hook s)) = (-1)%Z ->
  isLoading (service (hook s)) = false -> apiDrafts (iteration (hook s)) = [] ->
  (forall h k, server _ h k (StartIteration (detail_id (service (hook s)))) = NetOk r1) ->
  status r1 = 200%Z -> payload r1 = i -> (0 < i)%Z ->
  (forall h k, server _ h k (GetIterationById i) = NetOk r2) ->
  status r2 = 200%Z -> payload r2 = Some d -> api_drafts d = Some (Some l) ->
  let key := firstOptionKey (treeData (apiCategories (service (hook s))) l) in
  key <> "" -> (0 < key_id key)%Z ->
  let '(o, s') := perform server uuid (ServiceAction BeginIteration) s in
  let p := hook s' in
  let tok := getAccessToken (browser s) in
  o = Ret tt /\ inIteration (service p) = true /\ iterationId (service p) = i /\
  shown_tree p = treeData (apiCategories (service (hook s))) l /\
  selectedApiId (service p) = key_id key /\
  if decide (selectedApiId (service (hook s)) = key_id key)
  then selected_api p = selected_api (hook s) /\
    sent (browser s') = sent (browser s) ++
      [(tok, encode (StartIteration (detail_id (service (hook s))))); (tok, encode (GetIterationById i))]
  else effect_id (selected_api p) = Some (key_id key) /\
    sent (browser s') = sent (browser s) ++
      [(tok, encode (StartIteration (detail_id (service (hook s))))); (tok, encode (GetIterationById i));
       (tok, encode (GetApiById (key_id key) (Some false)))].
Proof.
  intros Hrest Hin Hid Hload Hdrafts Hs1 H1 Hi1 Hi Hs2 H2 Hd Hl. cbv zeta.
  set (key := firstOptionKey (treeData (apiCategories (service (hook s))) l)). intros Hkey Hpos.
  set (b1 := with_message (Success (str_or (message r1) "迭代开始成功"))
    (with_sent (getAccessToken (browser s), encode (StartIteration (detail_id (service (hook s))))) (browser s))).
  assert (E1 : page_act server uuid (ServiceAction BeginIteration) s =
    (Ret tt, mkFe b1 (map_service (setIteration true i) (hook s)))).
  { cbn [page_act act]. unfold on_service, handleStartIteration. erewrite bind_Ret by reflexivity.
    unfold try_catch. erewrite bind_Ret by (apply fe_request_NetOk; apply Hs1).
    rewrite decide_False by (rewrite H1; tauto). erewrite bind_Ret by reflexivity. by rewrite Hi1. }
  unfold perform. rewrite E1. cbn [snd]. unfold settle.
  destruct (begin_pass server b1 (hook s) i r2 d l) as (keys & E2); try done; [by rewrite Hid; lia|].
  rewrite (bind_Ret _ _ _ _ _ E2).
  match goal with |- context [page_effects server (mkFe ?b (mkApiPage ?sv ?a ?it _ _))] =>
    destruct (drafts_pass server b sv a it i keys) as (a' & b' & -> & H); [exact Hload|done|done|apply Hrest|apply Hrest|exact Hkey|exact Hpos|] end.
  cbn [hook browser service selected_api]. split; [done|]. split; [done|]. split; [done|].
  split; [done|]. split; [done|].
  change (selectedApiId (setIteration true i (service (hook s)))) with (selectedApiId (service (hook s))) in H.
  change (key_id (firstOptionKey (iterationTreeData _ _))) with (key_id key) in H.
  case_decide.
  - destruct H as [-> ->]. split; [done|]. cbn. by rewrite <-app_assoc.
  - destruct H as [H ->]. split; [done|]. cbn. by rewrite <-!app_assoc.
Qed.

(** A page that shows the API 4, and a server whose iteration 9 has a draft that
    happens to have the id 4. *)
Definition page_api : ApiBrief := mkApiBrief 4 "getUser" GET "/user" None None None None.
Definition resting_page : ApiPage :=
  mkApiPage (setSelectedApiId 4 (setApis [page_api] (hook sample_page)))
    (mkUseApi false None (Some 4%Z)) (mkServiceIteration false None []) (Some (-1)%Z) (Some (["4"], "4")).
Definition sample_iteration : ServiceIterationDetail :=
  mkServiceIterationDetail 9 1 None None (mkUserProfile 1 "ada" "" "a@b" "qa" 1 "now") (Some (Some [page_api])).
Definition iteration_server : Server := fun T _ _ e =>
  match e in Endpoint T return net T with
  | StartIteration _ => NetOk (mkResponse 200 "" 9%Z)
  | GetIterationById _ => NetOk (mkResponse 200 "" (Some sample_iteration))
  | _ => NetErr false (Some 500%Z) "down"
  end.

Lemma begin_iteration_outcome_witness :
  let s := mkFe empty_browser resting_page in
  let p := hook (perform iteration_server "shop" (ServiceAction BeginIteration) s).2 in
  page_rest resting_page /\ inIteration (service p) = true /\ selectedApiId (service p) = 4%Z /\
  selected_api p = selected_api resting_page.
Proof.
  cbv zeta. assert (Hrest : page_rest resting_page) by (split; reflexivity). split; [exact Hrest|].
  pose proof (begin_iteration_outcome iteration_server "shop" (mkFe empty_browser resting_page) 9
    (mkResponse 200 "" 9%Z) (mkResponse 200 "" (Some sample_iteration)) sample_iteration [page_api]
    Hrest eq_refl eq_refl eq_refl eq_refl (fun _ _ => eq_refl) eq_refl eq_refl eq_refl
    (fun _ _ => eq_refl) eq_refl eq_refl eq_refl ltac:(discriminate) eq_refl) as H.
  destruct (perform _ _ _ _) as [o s']. destruct H as (_ & H1 & _ & _ & H2 & H3 & _).
  split; [exact H1|]. split; [exact H2|exact H3].
Defined.
