(* ===== verification/ApiListView.v ===== *)
(** * What the API list offers

    The rest of [FE-CAM/src/components/ApiManagement/ApiList/index.tsx]: the
    operations above the tree, and the button that deletes a category, with what
    deleting does to the tree. *)

From S2P Require Import Prelude JsObject ApiTypes FeTypes FeHttp Dialogs ApiTree ThisService UseApi Iteration ApiPage.
From Stdlib Require Import Ascii String ZArith Lia.

(** ** The operations *)

Inductive ListOperation := CreateApi | FinishIteration | CreateCategory | StartNewIteration.

(** The button above the tree and the entries of its menu. *)
Definition list_operations (inIteration isLatest : bool) : option (ListOperation * list ListOperation) :=
  if inIteration then Some (FinishIteration, [CreateApi])
  else if isLatest then Some (StartNewIteration, [CreateCategory])
  else None.

Definition tree_draggable (inIteration isLatest : bool) : bool := negb inIteration && isLatest.

(** Starting an iteration asks first. *)
Definition click_start (server : Server) (confirmed : bool) : UI ThisService unit :=
  handleConfirm confirmed (handleStartIteration server).

(** ** Deleting a category *)

(** The properties of a node the tree passes to [renderExtra]. *)
Record NodeProps := mkNodeProps {
  node_props_key : string; draggable : bool; selectable : bool; childrenData : list Node }.

(** A group says that it can be neither dragged nor selected. *)
Definition group_props (g : Group) : NodeProps := mkNodeProps (group_key g) false false (children g).
(** The node of an API leaves both to the tree. *)
Definition api_props (tree_draggable tree_selectable : bool) (n : Node) : NodeProps :=
  mkNodeProps (node_key n) tree_draggable tree_selectable [].

(** [key.replace("category-", "")]. *)
Definition without_prefix (key : string) : string := if is_category_key key then drop_chars 9 key else key.

(** [renderExtra]: the argument of [handleDeleteCategory], when the button is
    there ([Some None] is [NaN]). *)
Definition renderExtra (node : NodeProps) : option (option Z) :=
  if negb (draggable node) && negb (selectable node) && bool_decide (childrenData node = []) &&
     negb (String.eqb (node_props_key node) null_key)
  then Some (to_number (without_prefix (node_props_key node)))
  else None.

Definition click_delete (server : Server) (confirmed : bool) (category : Z) : UI ThisService unit :=
  handleConfirm confirmed (handleDeleteCategory server category).

(** The APIs behind the tree shown. *)
Definition listed (p : ApiPage) : list ApiBrief :=
  if inIteration (service p) then apiDrafts (iteration p) else apis (service p).

(** ** Lemmas *)

Lemma map_set_filter {V} c k (v : V) m :
  filter (fun kv : Z * V => kv.1 <> c) (map_set m k v) =
  if decide (k = c) then filter (fun kv : Z * V => kv.1 <> c) m else map_set (filter (fun kv : Z * V => kv.1 <> c) m) k v.
Proof.
  induction m as [|[k' v'] m IH]; cbn [map_set].
  - rewrite filter_cons, filter_nil. cbn [fst]. by repeat case_decide.
  - destruct (Z.eqb_spec k k') as [<-|Hne]; rewrite !filter_cons; cbn [fst].
    + repeat case_decide; try done. cbn [map_set]. by rewrite Z.eqb_refl.
    + rewrite IH. repeat case_decide; try done. cbn [map_set]. by destruct (Z.eqb_spec k k').
Qed.

Lemma category_map_filter c cats :
  category_map (filter (fun x => cat_id x <> c) cats) = filter (fun kv : Z * Group => kv.1 <> c) (category_map cats).
Proof.
  unfold category_map. change (@nil (Z * Group)) with (filter (fun kv : Z * Group => kv.1 <> c) []) at 1.
  generalize (@nil (Z * Group)). induction cats as [|x cats IH]; intros m; [done|].
  rewrite filter_cons. cbn [foldl]. rewrite <-IH, map_set_filter. by repeat case_decide.
Qed.

Lemma map_get_filter {V} c k (m : list (Z * V)) :
  k <> c -> map_get (filter (fun kv : Z * V => kv.1 <> c) m) k = map_get m k.
Proof.
  intros Hk. induction m as [|[k' v] m IH]; [done|]. rewrite filter_cons. cbn [fst map_get].
  case_decide as Hd; cbn [map_get]; rewrite IH; [done|]. destruct (Z.eqb_spec k k') as [->|]; [|done].
  by destruct (decide (k' = c)).
Qed.

Lemma filter_ext_on {A} (P Q : A -> Prop) `{!forall x, Decision (P x), !forall x, Decision (Q x)} (l : list A) :
  (forall x, x ∈ l -> P x <-> Q x) -> filter P l = filter Q l.
Proof.
  induction l as [|x l IH]; intros Hiff; [done|]. rewrite !filter_cons, IH by (intros y Hy; apply Hiff; by right).
  by rewrite (decide_ext (P x) (Q x) _ _ (Hiff x ltac:(by left))).
Qed.

(** The groups of a tree and the categories they stand for. *)
Lemma treeData_eq cats apis :
  treeData cats apis =
  map (fun kv : Z * Group => add_children (map node_of (placed kv.1 (sort_apis apis))) kv.2) (category_map cats) ++
  [add_children (map node_of (filter (unplaced (category_map cats)) (sort_apis apis))) (mkGroup null_key None [])].
Proof.
  unfold treeData. rewrite place_apis.
  2: { rewrite category_map_keys. apply first_ids_NoDup. }
  by rewrite map_map.
Qed.

Lemma group_of_tree cats apis g : g ∈ treeData cats apis ->
  (group_key g = null_key \/ exists c, c ∈ cats /\ group_key g = category_key (cat_id c) /\
     children g = map node_of (placed (cat_id c) (sort_apis apis))).
Proof.
  rewrite treeData_eq, elem_of_app, list_elem_of_singleton. intros [(kv & -> & Hkv)%list_elem_of_fmap| ->]; [|by left].
  right. destruct (category_map_wf cats kv Hkv) as [Hk Hc].
  assert (Hin : kv.1 ∈ map cat_id cats).
  { apply elem_of_category_map_keys. apply list_elem_of_fmap. by exists kv. }
  apply list_elem_of_fmap in Hin as (c & Ec & Hc'). exists c. split; [exact Hc'|].
  unfold add_children. cbn [group_key children]. by rewrite Hk, Hc, Ec.
Qed.

(** Removing a category without APIs removes its group, and nothing else. *)
Lemma treeData_without c cats apis :
  Forall (fun a => category_id a <> Some c) apis ->
  treeData (filter (fun x => cat_id x <> c) cats) apis =
  filter (fun g => group_key g <> category_key c) (treeData cats apis).
Proof.
  intros Ha. rewrite !treeData_eq, category_map_filter, filter_app. f_equal.
  - assert (Hwf : forall kv, kv ∈ category_map cats -> group_key kv.2 = category_key kv.1)
      by (intros kv Hkv; apply (category_map_wf cats kv Hkv)).
    induction (category_map cats) as [|kv m IH]; [done|]. cbn [map]. rewrite !filter_cons. cbn [add_children group_key].
    rewrite (Hwf kv ltac:(by left)). specialize (IH (fun x Hx => Hwf x ltac:(by right))).
    destruct (decide (kv.1 <> c)) as [Hn|Hn].
    + rewrite decide_True by (intros E; by apply category_key_inj in E). cbn [map]. by rewrite IH.
    + rewrite decide_False; [exact IH|]. intros H. apply H. f_equal. by destruct (decide (kv.1 = c)).
  - rewrite filter_cons. cbn [add_children group_key]. rewrite decide_True by (intros E; by apply (category_key_not_null c)).
    rewrite filter_nil. do 3 f_equal. apply filter_ext_on. intros a Hin.
    rewrite sort_apis_Permutation in Hin. rewrite Forall_forall in Ha. specialize (Ha a Hin).
    unfold unplaced. destruct (category_id a) as [k|]; [|done]. by rewrite map_get_filter by congruence.
Qed.

(** ** Properties *)

(** C30. Which categories the list lets a user delete, and what deleting does.  The
    button is on no API that can be selected, nor on the uncategorised group; a category that has it
    holds none of the APIs listed, and the click names exactly that category.
    Outside an iteration the APIs listed are those of the service, and deleting
    only removes the category's own group: every other group keeps its place and
    its APIs; a refusal or a failure changes nothing. *)
Theorem category_deletion_safe server p b g i
  (Hg : g ∈ shown_tree p) (Hoffer : renderExtra (group_props g) = Some i) :
  (forall n d, renderExtra (api_props d true n) = None) /\
  exists c, c ∈ apiCategories (service p) /\ group_key g = category_key (cat_id c) /\ i = Some (cat_id c) /\
    (forall a, a ∈ listed p -> category_id a <> Some (cat_id c)) /\
    (inIteration (service p) = false ->
     let '(o, s') := click_delete server true (cat_id c) (mkFe b (service p)) in
     o = Ret tt /\
     match server _ (sent b) (getAccessToken b) (DeleteCategoryById (cat_id c)) with
     | NetOk res =>
         if decide (status res <> 200%Z) then service_tree (hook s') = service_tree (service p)
         else service_tree (hook s') = filter (fun x => group_key x <> group_key g) (service_tree (service p))
     | NetErr _ _ _ => service_tree (hook s') = service_tree (service p)
     end).
Proof.
  unfold renderExtra in Hoffer. cbn [group_props draggable selectable childrenData node_props_key negb andb] in Hoffer.
  destruct (bool_decide_reflect (children g = [])) as [Hempty|]; [|done].
  destruct (String.eqb_spec (group_key g) null_key) as [|Hnull]; [done|]. cbn [andb negb] in Hoffer. injection Hoffer as <-.
  assert (Htree : shown_tree p = treeData (apiCategories (service p)) (listed p)).
  { unfold shown_tree, listed. by destruct (inIteration (service p)). }
  rewrite Htree in Hg. destruct (group_of_tree _ _ _ Hg) as [|(c & Hc & Hk & Hch)]; [done|].
  split; [by intros n []|]. exists c. split; [exact Hc|]. split; [exact Hk|].
  split; [unfold without_prefix; rewrite Hk, is_category_category_key; apply (to_number_show_int (cat_id c))|].
  assert (Hnone : forall a, a ∈ listed p -> category_id a <> Some (cat_id c)).
  { intros a Ha E. rewrite Hempty in Hch. symmetry in Hch. apply map_eq_nil in Hch.
    assert (Hin : a ∈ placed (cat_id c) (sort_apis (listed p))).
    { apply list_elem_of_filter. split; [exact E|]. by rewrite sort_apis_Permutation. }
    rewrite Hch in Hin. by apply not_elem_of_nil in Hin. }
  split; [exact Hnone|]. intros Hi.
  unfold click_delete, handleConfirm, handleDeleteCategory, try_catch, mbind, M_bind, request. simpl.
  unfold listed in Hnone. rewrite Hi in Hnone.
  destruct (server _ _ _ _) as [res|n st msg]; [|done]. case_decide; [done|]. simpl. split; [done|].
  unfold service_tree. cbn [apiCategories apis setApiCategories]. rewrite Hk. apply treeData_without.
  by apply Forall_forall.
Qed.

Lemma category_deletion_safe_witness : exists c, c ∈ sample_cats /\ cat_id c = 7%Z.
Proof.
  set (p := mkApiPage (setApiCategories sample_cats initial) (mkUseApi false None None) (mkServiceIteration false None []) None None).
  destruct (category_deletion_safe (fun _ _ _ _ => NetErr true None "") p empty_browser
    (mkGroup "category-7" (Some (mkApiCategory 7 "carts" None)) []) (Some 7%Z)) as (_ & c & Hc & _ & Hi & _).
  - vm_compute. right. by left.
  - reflexivity.
  - exists c. split; [exact Hc|]. by injection Hi as ->.
Defined.

(** Within an iteration the button goes by the drafts: a category whose published
    APIs have no draft can be deleted, and they become uncategorised. *)
Example iteration_deletes_used_category :
  let published := [mkApiBrief 4 "listItems" GET "/items" None None None (Some 7%Z)] in
  let p := mkApiPage (setIteration true 5 (setApis published (setApiCategories sample_cats initial)))
             (mkUseApi false None None) (mkServiceIteration false None []) None None in
  (exists g, g ∈ shown_tree p /\ renderExtra (group_props g) = Some (Some 7%Z)) /\
  map (fun g => (group_key g, map node_key (children g))) (treeData (filter (fun x => cat_id x <> 7%Z) sample_cats) published) =
    [("category-3", []); ("category-null", ["4"])].
Proof.
  cbv zeta. split; [|done]. eexists. split; [vm_compute; right; by left|]. done.
Qed.
