(* ===== verification/ServiceHome.v ===== *)
(** * The service list

    [useService] of [FE-CAM/src/hooks/useService.tsx] (the five listings, the
    query to replay, creating, deleting and restoring a service) and its client
    [FE-CAM/src/components/ServiceManagement/LoggedInView.tsx] (the tab, the page
    and the effect that loads them). *)

From S2P Require Import Prelude JsObject ApiTypes FeTypes FeHttp ThisService.
From Stdlib Require Import String ZArith.

(** A call of one of the five fetch functions, with what its closure captured. *)
Inductive ListQuery :=
| MyNewestServices (page_size current_page : Z)
| MyMaintainedServices (page_size current_page : Z)
| HisNewestServicesByOwnerId (ownerId page_size current_page : Z)
| MyDeletedServices (page_size current_page : Z)
| AllServices (page_size current_page : Z).

Inductive ServiceRange := RangeMy | RangeMaintained | RangeHis | RangeAll | RangeDeleted.
#[global] Instance ServiceRange_eq_dec : EqDecision ServiceRange.
Proof. solve_decision. Defined.

Record ServiceHome := mkServiceHome {
  serviceList : list ServiceItem;
  list_loading : bool;
  (** [refetchRef]. *)
  refetchRef : option ListQuery;
  serviceRange : ServiceRange;
  page_size : Z;
  current_page : Z;
  total : Z;
  (** [hisIdRef]. *)
  hisId : Z
}.

Definition setList (l : list ServiceItem) (s : ServiceHome) : ServiceHome :=
  mkServiceHome l (list_loading s) (refetchRef s) (serviceRange s) (page_size s) (current_page s) (total s) (hisId s).
Definition setListLoading (b : bool) (s : ServiceHome) : ServiceHome :=
  mkServiceHome (serviceList s) b (refetchRef s) (serviceRange s) (page_size s) (current_page s) (total s) (hisId s).
Definition setRefetch (q : ListQuery) (s : ServiceHome) : ServiceHome :=
  mkServiceHome (serviceList s) (list_loading s) (Some q) (serviceRange s) (page_size s) (current_page s) (total s) (hisId s).
Definition setRange (r : ServiceRange) (s : ServiceHome) : ServiceHome :=
  mkServiceHome (serviceList s) (list_loading s) (refetchRef s) r (page_size s) (current_page s) (total s) (hisId s).
Definition setPage (size page : Z) (s : ServiceHome) : ServiceHome :=
  mkServiceHome (serviceList s) (list_loading s) (refetchRef s) (serviceRange s) size page (total s) (hisId s).
Definition setTotal (n : Z) (s : ServiceHome) : ServiceHome :=
  mkServiceHome (serviceList s) (list_loading s) (refetchRef s) (serviceRange s) (page_size s) (current_page s) n (hisId s).
Definition setHisId (i : Z) (s : ServiceHome) : ServiceHome :=
  mkServiceHome (serviceList s) (list_loading s) (refetchRef s) (serviceRange s) (page_size s) (current_page s) (total s) i.

Definition initial_home : ServiceHome := mkServiceHome [] false None RangeMy 10 1 0 (-1).

Definition query_endpoint (q : ListQuery) : Endpoint (Response ServiceListResponse) :=
  match q with
  | MyNewestServices s c => GetMyNewestServices s c
  | MyMaintainedServices s c => GetMyMaintainedServices s c
  | HisNewestServicesByOwnerId o s c => GetHisNewestServicesByOwnerId o s c
  | MyDeletedServices s c => GetAllDeletedServicesByUserId s c
  | AllServices s c => FeTypes.GetAllServices s c
  end.

Section Hook.
Variable server : Server.

(** [fetchMyNewestServices], ..., [fetchAllServices]: the same body for each
    endpoint. *)
Definition fetch (q : ListQuery) : UI ServiceHome Z :=
  set_hook (setRefetch q) ;;
  set_hook (setListLoading true) ;;
  res ← request server (query_endpoint q);
  if decide (status res <> 200%Z) then
    set_hook (setListLoading false) ;;
    set_hook (setList []) ;;
    throw (new_error (str_or (message res) "获取服务失败"))
  else
    set_hook (setList (default [] (list_services (payload res)))) ;;
    set_hook (setListLoading false) ;;
    mret (default 0%Z (list_total (payload res))).

(** [await refetchRef.current?.()]. *)
Definition refetch : UI ServiceHome unit :=
  s ← get_hook;
  match refetchRef s with
  | Some q => fetch q ;; mret ()
  | None => mret ()
  end.

(** Refreshing after an operation: [text] is what the [catch] says of an error. *)
Definition warn_refetch (text : js_error -> string) : UI ServiceHome unit :=
  try_catch refetch (fun e => toast_up (Warning (str_or (text e) "获取服务失败"))).

Definition createNewService (service_uuid description : string) : UI ServiceHome (Response unit) :=
  res ← request server (CreateNewService service_uuid description);
  if decide (status res <> 200%Z) then throw (new_error (str_or (message res) "创建服务失败"))
  else mret res.

Definition handleViewService (service_uuid : string) : UI ServiceHome unit :=
  navigate ("/service?uuid=" +:+ service_uuid).

Definition handleDeleteService (id : Z) : UI ServiceHome unit :=
  set_hook (setListLoading true) ;;
  try_catch (
    res ← request server (DeleteServiceById id);
    if decide (status res <> 200%Z) then
      set_hook (setListLoading false) ;;
      throw (new_error (str_or (message res) "删除服务失败"))
    else
      toast_up (Success "删除服务成功") ;;
      refetch)
    (fun e => toast_up (Warning (str_or (message_of e) "删除服务失败"))) ;;
  set_hook (setListLoading false).

Definition handleRestoreService (id : Z) : UI ServiceHome unit :=
  set_hook (setListLoading true) ;;
  res ← request server (RestoreServiceById id);
  if decide (status res <> 200%Z) then
    set_hook (setListLoading false) ;;
    throw (new_error (str_or (message res) "还原服务失败"))
  else
    toast_up (Success "还原服务成功") ;;
    warn_refetch message_of ;;
    set_hook (setListLoading false).

(** The creation form's [onOk]. *)
Definition handleCreateService (validate : outcome unit) (service_uuid description : string) : UI ServiceHome unit :=
  try_catch (
    resume validate ;;
    res ← createNewService service_uuid description;
    toast_up (Success (str_or (message res) "服务创建成功")) ;;
    warn_refetch (message_or "获取服务失败"))
    (fun e => toast_up (Warning (message_or "服务创建失败" e)) ;; throw e).

(** ** [LoggedInView] *)

(** What the effect asks for. *)
Definition query_of (s : ServiceHome) : ListQuery :=
  let p := page_size s in
  let c := current_page s in
  match serviceRange s with
  | RangeMy => MyNewestServices p c
  | RangeMaintained => MyMaintainedServices p c
  | RangeDeleted => MyDeletedServices p c
  | RangeHis => HisNewestServicesByOwnerId (hisId s) p c
  | RangeAll => AllServices p c
  end.

(** The effect's body: [fetch(...).then(...).catch(...)]. *)
Definition load : UI ServiceHome unit :=
  s ← get_hook;
  try_catch (
    n ← fetch (query_of s);
    set_hook (setTotal n))
    (fun e => toast_up (Warning (str_or (message_or "" e) "获取服务失败"))).

(** Run [m], then the effect when the tab or the page changed. *)
Definition with_effect (m : UI ServiceHome unit) : UI ServiceHome unit :=
  s ← get_hook;
  m ;;
  s' ← get_hook;
  if decide (serviceRange s' = serviceRange s /\ page_size s' = page_size s /\ current_page s' = current_page s)
  then mret ()
  else load.

Definition go_to_range (r : ServiceRange) : UI ServiceHome unit :=
  set_hook (fun s => setPage (page_size s) 1 (setRange r s)).

(** [handleTabChange] on the tabs that change at once. *)
Definition handleTabChange (r : ServiceRange) : UI ServiceHome unit := with_effect (go_to_range r).

(** The user picker behind the [HisServices] tab: choosing, confirming,
    cancelling. *)
Definition onSelectId (id : Z) : UI ServiceHome unit := set_hook (setHisId id).

Definition confirmHis : UI ServiceHome unit :=
  with_effect (
    s ← get_hook;
    if (hisId s <=? 0)%Z then
      toast_up (Warning "未选择用户") ;;
      throw (new_error "未选择用户")
    else go_to_range RangeHis).

Definition cancelHis : UI ServiceHome unit :=
  with_effect (set_hook (setHisId (-1)) ;; go_to_range RangeHis).

(** [currentPage || prev.current_page]. *)
Definition handlePageChange (pageSize : Z) (currentPage : option Z) : UI ServiceHome unit :=
  with_effect (set_hook (fun s => setPage pageSize
    (match currentPage with Some c => if (c =? 0)%Z then current_page s else c | None => current_page s end) s)).
End Hook.

(** ** Sessions *)

Inductive HomeAction :=
| ChangeTab (r : ServiceRange)
| PickUser (id : Z)
| ConfirmUser
| CancelUser
| ChangePage (pageSize : Z) (currentPage : option Z)
| DeleteService (id : Z)
| RestoreService (id : Z)
| CreateService (validate : outcome unit) (uuid description : string).

Definition home_act (server : Server) (a : HomeAction) : UI ServiceHome unit :=
  match a with
  | ChangeTab r => handleTabChange server r
  | PickUser i => onSelectId i
  | ConfirmUser => confirmHis server
  | CancelUser => cancelHis server
  | ChangePage s c => handlePageChange server s c
  | DeleteService i => handleDeleteService server i
  | RestoreService i => handleRestoreService server i
  | CreateService ok u d => handleCreateService server ok u d
  end.

(** ** Lemmas *)

(** The fields a fetch leaves alone. *)
Definition same_view (p p' : Fe ServiceHome) : Prop :=
  serviceRange (hook p') = serviceRange (hook p) /\ page_size (hook p') = page_size (hook p) /\
  current_page (hook p') = current_page (hook p) /\ hisId (hook p') = hisId (hook p).

(** Replaying keeps the query to replay. *)
Definition same_query (p p' : Fe ServiceHome) : Prop :=
  same_view p p' /\ refetchRef (hook p') = refetchRef (hook p).
#[global] Instance same_query_preorder : PreOrder same_query.
Proof.
  split; [by intros ?|]. unfold same_query, same_view. intros ??? H1 H2. intuition congruence.
Qed.

Section HomeLemmas.
Context (server : Server).

Lemma fetch_run q p :
  exists q', hook (fetch server q p).2 = q' /\ same_view p (fetch server q p).2 /\ refetchRef q' = Some q.
Proof.
  unfold fetch. do 2 (erewrite bind_Ret by reflexivity).
  match goal with |- context [(request ?s ?e ≫= _) ?p0] =>
    destruct (request_cases s e p0) as (p1 & Hh & [[d Hr]|[m Hr]]) end.
  - rewrite (bind_Ret _ _ _ _ _ Hr). eexists. split; [done|].
    case_decide; unfold same_view; simpl; by rewrite Hh.
  - rewrite (bind_Throw _ _ _ _ _ Hr). eexists. split; [done|]. unfold same_view. simpl. by rewrite Hh.
Qed.

Lemma request_query {T} (e : Endpoint T) : preserves same_query (request server e : UI ServiceHome T).
Proof. apply (http_preserves e). unfold same_query, same_view. by intros p p' ->. Qed.

Lemma toast_query m : preserves same_query (toast_up m : UI ServiceHome unit).
Proof. intros p. done. Qed.

Lemma resume_query {A} (o : outcome A) : preserves same_query (resume o : UI ServiceHome A).
Proof. intros p. done. Qed.

Lemma loading_query b : preserves same_query (set_hook (setListLoading b)).
Proof. intros p. done. Qed.

Lemma refetch_query : preserves same_query (refetch server).
Proof.
  intros p. unfold refetch. rewrite (bind_Ret _ _ p (hook p) p) by done.
  destruct (refetchRef (hook p)) as [q|] eqn:E; [|done].
  destruct (fetch_run q p) as (s & Hs & Hv & Hq). subst s.
  unfold mbind, M_bind. destruct (fetch server q p) as [[n|e|c] p']; simpl in *; by split; rewrite ?Hq.
Qed.

#[local] Hint Resolve request_query toast_query resume_query loading_query refetch_query : preserves.

Lemma warn_refetch_query text : preserves same_query (warn_refetch server text).
Proof. unfold warn_refetch. preserve. Qed.

Lemma service_ops_query a :
  match a with DeleteService _ | RestoreService _ | CreateService _ _ _ => preserves same_query (home_act server a)
  | _ => True end.
Proof.
  pose proof warn_refetch_query.
  destruct a; try done; simpl; unfold handleDeleteService, handleRestoreService, handleCreateService, createNewService;
    preserve.
Qed.

(** The effect's body loads the query of the view, which stays the query to
    replay. *)
Lemma load_run p :
  let p' := (load server p).2 in same_view p p' /\ refetchRef (hook p') = Some (query_of (hook p)).
Proof.
  unfold load. rewrite (bind_Ret _ _ p (hook p) p) by done.
  destruct (fetch_run (query_of (hook p)) p) as (s & Hs & Hv & Hq). subst s.
  unfold try_catch, mbind, M_bind. by destruct (fetch server (query_of (hook p)) p) as [[n|e|c] p'].
Qed.
End HomeLemmas.

(** Outside [HisServices], the query to replay is the one of the tab and page
    shown. *)
Definition home_ok (s : ServiceHome) : Prop :=
  exists q, refetchRef s = Some q /\ (serviceRange s <> RangeHis -> q = query_of s).

Lemma query_of_view p p' :
  same_view p p' -> query_of (hook p') = query_of (hook p).
Proof. unfold same_view, query_of. by intros (-> & -> & -> & ->). Qed.

Lemma with_effect_ok server m p :
  home_ok (hook p) ->
  (forall o p1, m p = (o, p1) -> refetchRef (hook p1) = refetchRef (hook p) /\
     match o with Ret _ => True | _ => hook p1 = hook p end) ->
  home_ok (hook (with_effect server m p).2).
Proof.
  intros (q & Hq & Hr) Hm. unfold with_effect. rewrite (bind_Ret _ _ p (hook p) p) by done.
  destruct (m p) as [o p1] eqn:E. specialize (Hm o p1 eq_refl) as [Hm Ho]. destruct o as [[]|e|c].
  - rewrite (bind_Ret _ _ _ _ _ E), (bind_Ret _ _ p1 (hook p1) p1) by done. case_decide as Hc.
    + exists q. split; [simpl; congruence|]. intros Hne. destruct Hc as (E1 & E2 & E3). simpl in *.
      rewrite Hr by congruence. unfold query_of. rewrite E1, E2, E3. destruct (serviceRange (hook p)) eqn:Er; congruence.
    + destruct (load_run server p1) as [Hv Hl]. exists (query_of (hook p1)). split; [done|].
      intros _. by rewrite (query_of_view _ _ Hv).
  - rewrite (bind_Throw _ _ _ _ _ E). simpl. rewrite Ho. by exists q.
  - rewrite (bind_Exit _ _ _ _ _ E). simpl. rewrite Ho. by exists q.
Qed.

Lemma home_act_ok server a p : home_ok (hook p) -> home_ok (hook (home_act server a p).2).
Proof.
  intros Hok. pose proof (service_ops_query server a) as Hs.
  assert (Hq : forall p', same_query p p' -> home_ok (hook p')).
  { intros p' [Hv Hr]. destruct Hok as (q & Hq & He). exists q. split; [congruence|].
    intros Hne. rewrite (query_of_view _ _ Hv). apply He. by destruct Hv as [<- _]. }
  destruct a; try (apply Hq, Hs); unfold home_act, handleTabChange, confirmHis, cancelHis, handlePageChange.
  - refine (with_effect_ok server _ p Hok _). by intros o p1 [= <- <-].
  - destruct Hok as (q & Hq' & He). exists q. split; [done|]. intros Hne. rewrite He by done.
    unfold query_of. simpl. simpl in Hne. by destruct (serviceRange (hook p)).
  - refine (with_effect_ok server _ p Hok _). intros o p1 E. rewrite (bind_Ret _ _ p (hook p) p) in E by done.
    by destruct (hisId (hook p) <=? 0)%Z; injection E as <- <-.
  - refine (with_effect_ok server _ p Hok _). by intros o p1 [= <- <-].
  - refine (with_effect_ok server _ p Hok _). by intros o p1 [= <- <-].
Qed.

(** ** Properties *)

(** Whatever is refreshed is what is shown.  From the first load through any
    sequence of tab changes, page changes, deletions, restorations and creations,
    against any servers: outside the [HisServices] tab, the query replayed after
    an operation is the one of the tab and page on screen. *)
Theorem home_session_ok server0 b (l : list (Server' * HomeAction)) :
  home_ok (hook (foldl (fun p sa => (home_act (the_server sa.1) sa.2 p).2)
    (load server0 (mkFe b initial_home)).2 l)).
Proof.
  assert (H : home_ok (hook (load server0 (mkFe b initial_home)).2)).
  { destruct (load_run server0 (mkFe b initial_home)) as [Hv Hq]. eexists. split; [exact Hq|].
    intros _. by rewrite (query_of_view _ _ Hv). }
  revert H. generalize (load server0 (mkFe b initial_home)).2.
  induction l as [|[s a] l IH]; intros p H; [done|]. apply IH. by apply home_act_ok.
Qed.

(** A listing, by the server's answer: the services and the total of a
    success; an empty list and an error for a refusal; and when the request
    fails, the old list with the spinner left on. *)
Theorem fetch_outcome server q p :
  let '(o, p') := fetch server q p in
  let s' := hook p' in
  refetchRef s' = Some q /\
  sent (browser p') = sent (browser p) ++ [(getAccessToken (browser p), encode (query_endpoint q))] /\
  match server _ (sent (browser p)) (getAccessToken (browser p)) (query_endpoint q) with
  | NetOk res =>
      list_loading s' = false /\
      if decide (status res <> 200%Z)
      then serviceList s' = [] /\ exists m, o = Throw (new_error m) /\ m <> ""
      else serviceList s' = default [] (list_services (payload res)) /\
           o = Ret (default 0%Z (list_total (payload res)))
  | NetErr _ _ _ =>
      list_loading s' = true /\ serviceList s' = serviceList (hook p) /\ exists m, o = Throw (ApiError m)
  end.
Proof.
  unfold fetch, mbind, M_bind, set_hook, modify, request. simpl.
  destruct (server _ _ _ _) as [res|n st msg]; simpl.
  - case_decide; [|done]. do 4 (split; [done|]). eexists. split; [done|].
    unfold str_or. by destruct (String.eqb_spec (message res) "").
  - split; [done|]. split; [by destruct (n || _)|]. split; [done|]. split; [done|]. by eexists.
Qed.

(** Deleting or restoring, when the server agrees, reloads the list on screen:
    the operation is followed by the query to replay and nothing else, its answer
    becomes the list, and the spinner stops. *)
Theorem delete_restore_refreshes server p q id res res'
  (op : Endpoint (Response unit) * UI ServiceHome unit)
  (Hop : op = (DeleteServiceById id, handleDeleteService server id) \/
         op = (RestoreServiceById id, handleRestoreService server id))
  (Hq : refetchRef (hook p) = Some q)
  (Hres : server _ (sent (browser p)) (getAccessToken (browser p)) op.1 = NetOk res) (Hok : status res = 200%Z)
  (Hlist : server _ (sent (browser p) ++ [(getAccessToken (browser p), encode op.1)]) (getAccessToken (browser p))
     (query_endpoint q) = NetOk res') (Hok' : status res' = 200%Z) :
  let '(o, p') := op.2 p in
  o = Ret tt /\ list_loading (hook p') = false /\ serviceList (hook p') = default [] (list_services (payload res')) /\
  sent (browser p') = sent (browser p) ++
    [(getAccessToken (browser p), encode op.1); (getAccessToken (browser p), encode (query_endpoint q))].
Proof.
  assert (E1 : forall b s, sent b = sent (browser p) -> getAccessToken b = getAccessToken (browser p) ->
    request (H := ServiceHome) server op.1 (mkFe b s) = (Ret res, mkFe (with_sent (getAccessToken b, encode op.1) b) s)).
  { intros b s Hs Ht. apply (fe_request_NetOk server op.1 (mkFe b s)). simpl. by rewrite Hs, Ht. }
  assert (E2 : forall b s, sent b = sent (browser p) ++ [(getAccessToken (browser p), encode op.1)] ->
    getAccessToken b = getAccessToken (browser p) -> refetchRef s = Some q ->
    exists s', refetch server (mkFe b s) = (Ret tt, mkFe (with_sent (getAccessToken b, encode (query_endpoint q)) b) s') /\
      serviceList s' = default [] (list_services (payload res')) /\ list_loading s' = false).
  { intros b s Hs Ht Hr. unfold refetch. rewrite (bind_Ret _ _ (mkFe b s) s (mkFe b s)) by done. rewrite Hr.
    unfold fetch, mbind, M_bind, set_hook, modify, request. simpl. rewrite Hs, Ht, Hlist.
    rewrite decide_False by (intros H; by apply H). by eexists. }
  destruct Hop as [-> | ->]; cbn [fst snd] in *.
  - unfold handleDeleteService. erewrite bind_Ret by reflexivity.
    set (b1 := with_message (Success "删除服务成功") (with_sent (getAccessToken (browser p), encode (DeleteServiceById id)) (browser p))).
    destruct (E2 b1 (setListLoading true (hook p)) eq_refl eq_refl Hq) as (s' & Hf & Hl & _).
    erewrite bind_Ret.
    2:{ apply try_catch_Ret. rewrite (bind_Ret _ _ _ _ _ (E1 (browser p) _ eq_refl eq_refl)).
        rewrite decide_False by (intros H; by apply H). erewrite bind_Ret by reflexivity. exact Hf. }
    simpl. split; [done|]. split; [done|]. split; [done|]. by rewrite <-app_assoc.
  - unfold handleRestoreService. erewrite bind_Ret by reflexivity.
    set (b1 := with_message (Success "还原服务成功") (with_sent (getAccessToken (browser p), encode (RestoreServiceById id)) (browser p))).
    destruct (E2 b1 (setListLoading true (hook p)) eq_refl eq_refl Hq) as (s' & Hf & Hl & _).
    rewrite (bind_Ret _ _ _ _ _ (E1 (browser p) _ eq_refl eq_refl)).
    rewrite decide_False by (intros H; by apply H). erewrite bind_Ret by reflexivity.
    unfold warn_refetch. erewrite bind_Ret by (apply try_catch_Ret; exact Hf).
    simpl. split; [done|]. split; [done|]. split; [done|]. by rewrite <-app_assoc.
Qed.

Definition listing_server : Server := fun T _ _ e =>
  match e in Endpoint T return net T with
  | DeleteServiceById _ => NetOk (mkResponse 200 "" tt)
  | FeTypes.GetMyNewestServices _ _ =>
      NetOk (mkResponse 200 "" (mkServiceListResponse (Some [sample_item "1.0.0"]) (Some 1%Z)))
  | _ => NetErr false (Some 500%Z) "down"
  end.

Lemma delete_restore_refreshes_witness :
  let p := mkFe empty_browser (setRefetch (MyNewestServices 10 1) initial_home) in
  let '(o, p') := handleDeleteService listing_server 4 p in
  o = Ret tt /\ serviceList (hook p') = [sample_item "1.0.0"].
Proof.
  cbv zeta.
  pose proof (delete_restore_refreshes listing_server (mkFe empty_browser (setRefetch (MyNewestServices 10 1) initial_home))
    (MyNewestServices 10 1) 4 (mkResponse 200 "" tt)
    (mkResponse 200 "" (mkServiceListResponse (Some [sample_item "1.0.0"]) (Some 1%Z)))
    (DeleteServiceById 4, handleDeleteService listing_server 4) (or_introl eq_refl) eq_refl eq_refl eq_refl eq_refl eq_refl) as H.
  cbn [snd] in H. destruct (handleDeleteService _ _ _) as [o p']. destruct H as (Ho & _ & Hl & _). split; [exact Ho|exact Hl].
Defined.
