(* ===== verification/UserStore.v ===== *)
(** * The user store

    [FE-CAM/src/hooks/useUser.tsx]: the signed-in user, the token its closure
    keeps, what it stores in the browser, and the checks of registration and
    password changes.  [now] is [Date.now()]; every [set] of the store persists
    [user] in the session storage, as zustand's [persist] does. *)

From S2P Require Import Prelude JsObject ApiTypes FeTypes FeHttp ThisService.
From Stdlib Require Import Ascii String ZArith.

Definition USER_STORE_TTL : Z := 60 * 60 * 1000.

Definition VALID_ROLES : list string :=
  ["frontend"; "backend"; "fullstack"; "qa"; "devops"; "product_manager"; "designer"; "architect";
   "proj_lead"; "guest"].

Record UserStore := mkUserStore {
  user : option UserProfile;
  us_loading : bool;
  (** The closure's [token]: [None] is [null]. *)
  token : option string
}.

Definition setUserStore (u : option UserProfile) (l : bool) (s : UserStore) : UserStore :=
  mkUserStore u l (token s).
Definition setClosureToken (t : option string) (s : UserStore) : UserStore :=
  mkUserStore (user s) (us_loading s) t.

Definition falsy (t : option string) : bool :=
  match t with Some t => String.eqb t "" | None => true end.

(** Creating the store, and the hydration that follows. *)
Definition init_store (now : Z) (b : Browser) : Fe UserStore :=
  let token := access_token b in
  let b := if falsy token then with_user_store None b else b in
  let b :=
    match user_store_ttl b with
    | Some ttl => if (ttl <? now)%Z then with_user_store None b else b
    | None => b
    end in
  mkFe b (mkUserStore (default None (user_store b)) false token).

(** [set({ user, loading })]. *)
Definition set_store (u : option UserProfile) (l : bool) : UI UserStore unit :=
  modify (fun s => mkFe (with_user_store (Some u) (browser s)) (setUserStore u l (hook s))).

(** ** Validation *)

Definition is_alpha (c : ascii) : bool := is_lower c || is_upper c.
Definition is_alnum (c : ascii) : bool := is_alpha c || is_digit c.

(** [/^[a-zA-Z0-9_]+$/]. *)
Definition valid_username (s : string) : bool :=
  negb (String.eqb s "") && str_forallb (fun c => is_alnum c || Ascii.eqb c "_") s.

(** [/^[a-zA-Z0-9._%+-]+@[a-zA-Z0-9.-]+\.[a-zA-Z]{2,}$/]: the last dot of the
    domain is the one before the letters. *)
Definition local_char (c : ascii) : bool :=
  is_alnum c || bool_decide (c ∈ ["."; "_"; "%"; "+"; "-"]%char).
Definition domain_char (c : ascii) : bool := is_alnum c || bool_decide (c ∈ ["."; "-"]%char).

Definition valid_domain (d : string) : bool :=
  match reverse (split_on "." d) with
  | tld :: rest =>
      let host := join "." (reverse rest) in
      str_forallb is_alpha tld && (2 <=? String.length tld)%nat &&
      negb (String.eqb host "") && str_forallb domain_char host
  | [] => false
  end.

Definition valid_email (s : string) : bool :=
  match split_on "@" s with
  | [local; domain] =>
      negb (String.eqb local "") && str_forallb local_char local && valid_domain domain
  | _ => false
  end.

(** The first complaint of [register], in the code's order. *)
Definition register_error (d : RegisterRequest) (confirmPassword : string) : option string :=
  if negb (String.eqb (reg_password d) confirmPassword) then Some "两次密码输入不一致"
  else if negb (valid_username (reg_username d)) then Some "用户名只能包含字母、数字和下划线"
  else if negb (valid_email (reg_email d)) then Some "请输入正确的邮箱格式"
  else if negb (bool_decide (reg_role d ∈ VALID_ROLES)) then Some "请选择正确的角色"
  else None.

Section Hook.
Variable server : Server.
Variable now : Z.

Definition fetchUser : UI UserStore unit :=
  s ← get_hook;
  if falsy (token s) then mret ()
  else if bool_decide (is_Some (user s)) && negb (us_loading s) then mret ()
  else
    set_store (user s) true ;;
    try_catch (
      res ← request server GetMyInfo;
      if decide (status res <> 200%Z) then
        toast_up (Warning (str_or (message res) "获取用户信息失败")) ;;
        set_store None false ;;
        set_browser (with_token None) ;;
        set_browser (with_user_store None)
      else
        set_store (payload res) false ;;
        set_browser (with_ttl (now + USER_STORE_TTL)))
      (fun _ =>
        set_store None false ;;
        set_browser (with_token None)).

Definition getUserByUsernameOrNicknameOrEmail {H} (q : string) : UI H (list UserProfile) :=
  res ← request server (GetUserByUsernameOrNicknameOrEmail q);
  if decide (status res <> 200%Z) then throw (new_error (str_or (message res) "获取用户信息失败"))
  else mret (default [] (payload res)).

Definition login (formData : LoginRequest) : UI UserStore (Response string) :=
  res ← request server (UserLogin formData);
  if decide (status res <> 200%Z) then throw (new_error (str_or (message res) "登录失败"))
  else
    set_hook (setClosureToken (Some (payload res))) ;;
    set_browser (with_token (Some (payload res))) ;;
    fetchUser ;;
    mret res.

Definition logout : UI UserStore unit :=
  set_browser (with_token None) ;;
  set_browser (with_user_store None) ;;
  set_hook (setClosureToken (Some "")) ;;
  s ← get_hook;
  set_store None (us_loading s).

Definition register (formData : RegisterRequest) (confirmPassword : string) : UI UserStore (Response unit) :=
  match register_error formData confirmPassword with
  | Some msg => throw (new_error msg)
  | None =>
      res ← request server (UserRegister formData);
      if decide (status res <> 200%Z) then throw (new_error (str_or (message res) "注册失败"))
      else mret res
  end.

Definition modifyPassword (formData : ModifyPasswordRequest) : UI UserStore (Response unit) :=
  if negb (String.eqb (new_password formData) (confirm_new_password formData))
  then throw (new_error "两次新密码输入不一致")
  else
    res ← request server (UserModifyPassword formData);
    if decide (status res <> 200%Z) then throw (new_error (str_or (message res) "修改密码失败"))
    else mret res.

(** The [onOk] of the three modals: report, and rethrow to keep the modal open.
    [t] translates the fallback messages. *)
Variable t : string -> string.

Definition modal_onOk {A} (validate : outcome unit) (submit : UI UserStore (Response A)) (success failure : string)
    : UI UserStore unit :=
  try_catch (
    resume validate ;;
    res ← submit;
    toast_up (Success (str_or (message res) (t success))))
    (fun e => toast_up (Failure (message_or (t failure) e)) ;; throw e).

Definition loginModal_onOk (validate : outcome unit) (formData : LoginRequest) : UI UserStore unit :=
  modal_onOk validate (login formData) "login.success" "login.failure".

Definition registerModal_onOk (validate : outcome unit) (formData : RegisterRequest) (confirmPassword : string)
    : UI UserStore unit :=
  modal_onOk validate (register formData confirmPassword) "register.success" "register.failure".

Definition modifyPasswordModal_onOk (validate : outcome unit) (formData : ModifyPasswordRequest)
    : UI UserStore unit :=
  modal_onOk validate (modifyPassword formData) "modifyPassword.success" "modifyPassword.failure".
End Hook.

(** ** Properties *)

(** Loading the user, by the server's answer, when a token is held and no user
    is known.  A success stores the user and an expiry one hour ahead; a refusal
    drops the stored token and the cached user; a failed request drops the stored
    token.  In no case does the token the closure holds change: after a failure it
    differs from the storage, and the next call asks again without a token. *)
Theorem fetchUser_outcome server now s
  (Htoken : falsy (token (hook s)) = false) (Hstored : access_token (browser s) = token (hook s))
  (Huser : user (hook s) = None) :
  let '(o, s') := fetchUser server now s in
  let b := browser s' in
  o = Ret tt /\ us_loading (hook s') = false /\ token (hook s') = token (hook s) /\
  sent b = sent (browser s) ++ [(token (hook s), encode GetMyInfo)] /\
  match server _ (sent (browser s)) (token (hook s)) GetMyInfo with
  | NetOk res =>
      if decide (status res <> 200%Z)
      then user (hook s') = None /\ access_token b = None /\ user_store b = None
      else user (hook s') = payload res /\ access_token b = token (hook s) /\
           user_store b = Some (payload res) /\ user_store_ttl b = Some (now + USER_STORE_TTL)%Z
  | NetErr _ _ _ =>
      user (hook s') = None /\ access_token b = None /\ user_store b = Some None /\
      let '(o2, s2) := fetchUser server now s' in
      sent (browser s2) = sent b ++ [(None, encode GetMyInfo)]
  end.
Proof.
  assert (Htok : getAccessToken (browser s) = token (hook s)).
  { unfold getAccessToken, falsy in *. rewrite Hstored. destruct (token (hook s)) as [t|]; [|done]. by rewrite Htoken. }
  assert (Hrun : forall p, falsy (token (hook p)) = false -> user (hook p) = None ->
    fetchUser server now p = (set_store None true ;;
      try_catch (res ← request server GetMyInfo;
        if decide (status res <> 200%Z) then
          toast_up (Warning (str_or (message res) "获取用户信息失败")) ;; set_store None false ;;
          set_browser (with_token None) ;; set_browser (with_user_store None)
        else set_store (payload res) false ;; set_browser (with_ttl (now + USER_STORE_TTL)))
      (fun _ => set_store None false ;; set_browser (with_token None))) p).
  { intros p Ht Hu. unfold fetchUser. rewrite (bind_Ret _ _ p (hook p) p) by done. by rewrite Ht, Hu. }
  rewrite Hrun by done. erewrite bind_Ret by reflexivity. unfold try_catch.
  set (p1 := mkFe _ _). assert (Htok1 : getAccessToken (browser p1) = token (hook s)) by exact Htok.
  destruct (server _ (sent (browser s)) (token (hook s)) GetMyInfo) as [res|n st msg] eqn:E.
  - assert (E' : server _ (sent (browser p1)) (getAccessToken (browser p1)) GetMyInfo = NetOk res) by (by rewrite Htok1).
    rewrite (bind_Ret _ _ _ _ _ (fe_request_NetOk server GetMyInfo p1 res E')). rewrite Htok1.
    case_decide; simpl; by rewrite ?Hstored.
  - assert (Hreq : exists b m, request server GetMyInfo p1 = (Throw (ApiError m), mkFe b (hook p1)) /\
      sent b = sent (browser s) ++ [(token (hook s), encode GetMyInfo)]).
    { unfold request. rewrite Htok1. change (sent (browser p1)) with (sent (browser s)). rewrite E.
      eexists _, _. split; [done|]. by destruct (n || _). }
    destruct Hreq as (b & m & Hr & Hs). rewrite (bind_Throw _ _ _ _ _ Hr). simpl.
    do 3 (split; [done|]). split; [done|]. do 3 (split; [done|]).
    rewrite Hrun by done. erewrite bind_Ret by reflexivity. unfold try_catch.
    match goal with |- context [(request server GetMyInfo ≫= _) ?p] => set (p2 := p) end.
    assert (Hs2 : sent (browser (request server GetMyInfo p2).2) = sent b ++ [(None, encode GetMyInfo)]).
    { unfold request. destruct (server _ (sent (browser p2)) (getAccessToken (browser p2)) GetMyInfo) as [d'|n' st' m'];
        [done|]. by destruct (n' || bool_decide (st' = Some 401%Z)). }
    destruct (request_cases server GetMyInfo p2) as (q & Hq & [[d Hd]|[m' Hd]]); rewrite Hd in Hs2; simpl in Hs2.
    + rewrite (bind_Ret _ _ _ _ _ Hd). by case_decide.
    + by rewrite (bind_Throw _ _ _ _ _ Hd).
Qed.

Definition ann : UserProfile := mkUserProfile 1 "ann" "Ann" "a@b.cn" "frontend" 1 "now".
Definition signed_in : Fe UserStore := mkFe empty_browser (mkUserStore None false (Some "tok")).

Lemma fetchUser_outcome_witness :
  let '(o, s') := fetchUser (fun T _ _ e => match e in Endpoint T return net T with
      | GetMyInfo => NetOk (mkResponse 200 "" (Some ann)) | _ => NetErr true None "" end) 5 signed_in in
  o = Ret tt /\ user (hook s') = Some ann.
Proof.
  set (server := fun T _ _ (e : Endpoint T) => match e in Endpoint T return net T with
      | GetMyInfo => NetOk (mkResponse 200 "" (Some ann)) | _ => NetErr true None "" end).
  pose proof (fetchUser_outcome server 5 signed_in eq_refl eq_refl eq_refl) as H.
  destruct (fetchUser server 5 signed_in) as [o s']. destruct H as (Ho & _ & _ & _ & Hu & _). split; [exact Ho|exact Hu].
Defined.

(** Registration sends a request only for data that pass every check, and then
    exactly the data entered; any complaint, refusal or failure is thrown, and
    nothing of the store or the storage depends on it. *)
Theorem register_outcome server d confirm s :
  let '(o, s') := register server d confirm s in
  match register_error d confirm with
  | Some msg => o = Throw (new_error msg) /\ s' = s
  | None =>
      sent (browser s') = sent (browser s) ++ [(getAccessToken (browser s), encode (UserRegister d))] /\
      hook s' = hook s /\
      (reg_password d = confirm /\ reg_username d <> "" /\ includes (reg_email d) "@" = true /\ reg_role d ∈ VALID_ROLES) /\
      match server _ (sent (browser s)) (getAccessToken (browser s)) (UserRegister d) with
      | NetOk res => o = if decide (status res <> 200%Z) then Throw (new_error (str_or (message res) "注册失败")) else Ret res
      | NetErr _ _ msg => o = Throw (ApiError (str_or msg "Request error"))
      end
  end.
Proof.
  unfold register. destruct (register_error d confirm) eqn:E; [done|].
  assert (Hc : reg_password d = confirm /\ reg_username d <> "" /\ includes (reg_email d) "@" = true /\
    reg_role d ∈ VALID_ROLES).
  { unfold register_error in E. destruct (String.eqb_spec (reg_password d) confirm); [|done].
    destruct (valid_username (reg_username d)) eqn:Eu; [|done].
    destruct (valid_email (reg_email d)) eqn:Ee; [|done]. case_bool_decide; [|done].
    split; [done|]. split; [by intros Hn; rewrite Hn in Eu|]. split; [|done].
    unfold valid_email in Ee. pose proof (join_split_on "@" (reg_email d)) as Hj.
    destruct (split_on "@" (reg_email d)) as [|l [|dm []]]; try done. rewrite <-Hj. simpl.
    clear. induction l as [|c l IH]; [by destruct dm|].
    change ((String c l +:+ "@" +:+ dm)) with (String c (l +:+ "@" +:+ dm)). simpl in *. rewrite IH.
    by rewrite orb_true_r. }
  unfold mbind, M_bind, request. destruct (server _ _ _ _) as [res|n st msg].
  - case_decide; simpl; done.
  - simpl. split; [by destruct (n || _)|done].
Qed.
