(* ===== verification/Dates.v ===== *)
(** * Dates as the front-end reads and prints them

    [parseToDate] and [formatDateOrDateTime] of [FE-CAM/src/utils.tsx].  A [Date]
    is its time value, milliseconds since 1970 UTC, [None] when it is invalid;
    days, months and years are those of the proleptic Gregorian calendar, as
    ECMAScript defines them.  Parameters: the offset of the local time zone at an
    instant, the instant of a local time, and what [new Date(text)] reads. *)

From S2P Require Import Prelude.
From Stdlib Require Import Ascii String ZArith Lia.

Open Scope Z_scope.

(** ** ECMAScript time values *)

Definition ms_per_day : Z := 86400000.

Definition leap (y : Z) : bool :=
  (y mod 4 =? 0) && (negb (y mod 100 =? 0) || (y mod 400 =? 0)).

(** The day on which a year starts. *)
Definition day_from_year (y : Z) : Z :=
  365 * (y - 1970) + (y - 1969) / 4 - (y - 1901) / 100 + (y - 1601) / 400.

(** The year a day falls in: the estimate by the mean year, corrected. *)
Definition year_from_day (d : Z) : Z :=
  let y := 1970 + d * 400 / 146097 in
  if d <? day_from_year y then y - 1
  else if day_from_year (y + 1) <=? d then y + 1 else y.

(** The day of the year on which month [m] (from 0) starts. *)
Definition month_start (l : bool) (m : Z) : Z :=
  let k := if l then 1 else 0 in
  match m with
  | 0 => 0 | 1 => 31 | 2 => 59 + k | 3 => 90 + k | 4 => 120 + k | 5 => 151 + k
  | 6 => 181 + k | 7 => 212 + k | 8 => 243 + k | 9 => 273 + k | 10 => 304 + k | 11 => 334 + k
  | _ => 365 + k
  end.

Definition month_of (l : bool) (dy : Z) : Z :=
  if dy <? month_start l 1 then 0 else if dy <? month_start l 2 then 1
  else if dy <? month_start l 3 then 2 else if dy <? month_start l 4 then 3
  else if dy <? month_start l 5 then 4 else if dy <? month_start l 6 then 5
  else if dy <? month_start l 7 then 6 else if dy <? month_start l 8 then 7
  else if dy <? month_start l 9 then 8 else if dy <? month_start l 10 then 9
  else if dy <? month_start l 11 then 10 else 11.

(** The fields of a local time value. *)
Record Fields := mkFields {
  f_year : Z; f_month : Z; f_day : Z; f_hour : Z; f_minute : Z; f_second : Z
}.

Definition fields_of (local : Z) : Fields :=
  let d := local / ms_per_day in
  let ms := local mod ms_per_day in
  let y := year_from_day d in
  let dy := d - day_from_year y in
  let m := month_of (leap y) dy in
  mkFields y m (dy - month_start (leap y) m + 1)
    (ms / 3600000) (ms / 60000 mod 60) (ms / 1000 mod 60).

(** [MakeDate(MakeDay(y, m, d), MakeTime(h, mi, s, 0))]; months and days past
    the end carry over. *)
Definition make_local (f : Fields) : Z :=
  let y := f_year f + f_month f / 12 in
  let day := day_from_year y + month_start (leap y) (f_month f mod 12) + f_day f - 1 in
  day * ms_per_day + f_hour f * 3600000 + f_minute f * 60000 + f_second f * 1000.

(** [TimeClip]. *)
Definition time_clip (t : Z) : option Z :=
  if Z.abs t <=? 8640000000000000 then Some t else None.

(** [new Date(year, ...)] reads years 0 to 99 as 1900 to 1999. *)
Definition full_year (y : Z) : Z := if (0 <=? y) && (y <=? 99) then 1900 + y else y.

(** ** [parseToDate] *)

(** [string | number | Date], or a null. *)
Inductive date_input :=
| INull
| IDate (t : option Z)
| INumber (n : Z)
| IString (s : string).

(** The match of the regular expression
    [^(\d{4})-(\d{1,2})-(\d{1,2})(?:[ T](\d{1,2}):(\d{1,2})(?::(\d{1,2}))?)?$],
    with the defaults of the destructuring. *)
Definition take_digits (lo hi : nat) (s : string) : option (Z * string) :=
  let '(d, r) := span is_digit s in
  if (lo <=? String.length d)%nat && (String.length d <=? hi)%nat
  then (fun n => (Z.of_N n, r)) <$> digits d else None.

Definition take_char (ok : ascii -> bool) (s : string) : option string :=
  match s with String c r => if ok c then Some r else None | EmptyString => None end.

Definition match_date (s : string) : option Fields :=
  '(y, s) ← take_digits 4 4 s;
  s ← take_char (Ascii.eqb "-") s;
  '(mo, s) ← take_digits 1 2 s;
  s ← take_char (Ascii.eqb "-") s;
  '(da, s) ← take_digits 1 2 s;
  if String.eqb s "" then Some (mkFields y (mo - 1) da 0 0 0)
  else
    s ← take_char (fun c => Ascii.eqb c " " || Ascii.eqb c "T") s;
    '(h, s) ← take_digits 1 2 s;
    s ← take_char (Ascii.eqb ":") s;
    '(mi, s) ← take_digits 1 2 s;
    if String.eqb s "" then Some (mkFields y (mo - 1) da h mi 0)
    else
      s ← take_char (Ascii.eqb ":") s;
      '(se, s) ← take_digits 1 2 s;
      if String.eqb s "" then Some (mkFields y (mo - 1) da h mi se) else None.

(** [/Z$|[+-]\d{2}:?\d{2}$/.test(s)]. *)
Definition zone (s : string) : bool :=
  match s with
  | String g (String a (String b r)) =>
      (Ascii.eqb g "+" || Ascii.eqb g "-") && is_digit a && is_digit b &&
      match r with
      | String c (String d EmptyString) => is_digit c && is_digit d
      | String x (String c (String d EmptyString)) => Ascii.eqb x ":" && is_digit c && is_digit d
      | _ => false
      end
  | _ => false
  end.
Fixpoint zone_suffix (s : string) : bool :=
  String.eqb s "Z" || zone s ||
  match s with String _ s' => zone_suffix s' | EmptyString => false end.

(** [s.replace(/\//g, '-')] and [s.replace(' ', 'T')], which replaces the first
    one only. *)
Fixpoint dashes (s : string) : string :=
  match s with
  | EmptyString => EmptyString
  | String c s' => String (if Ascii.eqb c "/" then "-" else c) (dashes s')
  end.
Fixpoint first_space_T (s : string) : string :=
  match s with
  | EmptyString => EmptyString
  | String c s' => if Ascii.eqb c " " then String "T" s' else String c (first_space_T s')
  end.

Section TimeZone.
(** The local offset at an instant, the instant a local time denotes, and the
    implementation's reading of other texts. *)
Variable offset_at : Z -> Z.
Variable utc_of : Z -> Z.
Variable new_Date_string : string -> option Z.

Definition parseToDate (input : date_input) : option Z :=
  match input with
  | INull => None
  | IDate t => t
  | INumber n => time_clip (if n <? 1000000000000 then n * 1000 else n)
  | IString input =>
      let s := trim input in
      if String.eqb s "" then None
      else match digits s with
      | Some ns => time_clip (if (js_length s <=? 10)%nat then Z.of_N ns * 1000 else Z.of_N ns)
      | None =>
          let s := dashes s in
          let iso := if zone_suffix s || includes s "T" then new_Date_string (first_space_T s) else None in
          match iso with
          | Some d => Some d
          | None =>
              match match_date s with
              | Some f => time_clip (utc_of (make_local
                  (mkFields (full_year (f_year f)) (f_month f) (f_day f)
                     (f_hour f) (f_minute f) (f_second f))))
              | None => new_Date_string s
              end
          end
      end
  end.

(** ** [formatDateOrDateTime] *)

Inductive granularity := Date_ | Minute | Second.

(** [String(n).padStart(2, '0')]. *)
Definition pad (n : Z) : string :=
  let s := show_int n in
  if (js_length s <? 2)%nat then join "" (repeat "0" (2 - js_length s)) +:+ s else s.

Definition formatDateOrDateTime (dateOrDateTime : date_input) (g : granularity) : string :=
  match parseToDate dateOrDateTime with
  | None => ""
  | Some t =>
      let f := fields_of (t + offset_at t) in
      let date := show_int (f_year f) +:+ "-" +:+ pad (f_month f + 1) +:+ "-" +:+ pad (f_day f) in
      match g with
      | Date_ => date
      | Minute => date +:+ " " +:+ pad (f_hour f) +:+ ":" +:+ pad (f_minute f)
      | Second => date +:+ " " +:+ pad (f_hour f) +:+ ":" +:+ pad (f_minute f) +:+ ":" +:+ pad (f_second f)
      end
  end.

End TimeZone.

(** ** Lemmas: the calendar *)

Ltac Zify.zify_post_hook ::= Z.div_mod_to_equations.

Lemma day_from_year_bounds y :
  146097 * (y - 1970) - 1022 <= 400 * day_from_year y <= 146097 * (y - 1970) + 1200.
Proof. unfold day_from_year. lia. Qed.

Lemma year_length y : day_from_year (y + 1) = day_from_year y + (if leap y then 366 else 365).
Proof.
  unfold day_from_year, leap.
  assert (H4 : (y + 1 - 1969) / 4 = (y - 1969) / 4 + (if y mod 4 =? 0 then 1 else 0))
    by (destruct (Z.eqb_spec (y mod 4) 0); lia).
  assert (H100 : (y + 1 - 1901) / 100 = (y - 1901) / 100 + (if y mod 100 =? 0 then 1 else 0))
    by (destruct (Z.eqb_spec (y mod 100) 0); lia).
  assert (H400 : (y + 1 - 1601) / 400 = (y - 1601) / 400 + (if y mod 400 =? 0 then 1 else 0))
    by (destruct (Z.eqb_spec (y mod 400) 0); lia).
  rewrite H4, H100, H400.
  destruct (Z.eqb_spec (y mod 4) 0), (Z.eqb_spec (y mod 100) 0), (Z.eqb_spec (y mod 400) 0);
    cbn [andb orb negb]; lia.
Qed.

Lemma year_bracket d :
  day_from_year (year_from_day d) <= d < day_from_year (year_from_day d + 1).
Proof.
  unfold year_from_day. set (y := 1970 + d * 400 / 146097).
  pose proof (day_from_year_bounds y). pose proof (day_from_year_bounds (y + 1)).
  pose proof (year_length (y - 1)) as H1. pose proof (year_length y) as H2.
  pose proof (year_length (y + 1)) as H3. replace (y - 1 + 1) with y in * by lia.
  assert (146097 * (y - 1970) <= d * 400 < 146097 * (y - 1970) + 146097) by (subst y; lia).
  clearbody y. destruct (leap (y - 1)), (leap y), (leap (y + 1));
    (destruct (Z.ltb_spec d (day_from_year y)); [replace (y - 1 + 1) with y by lia; lia|]);
    (destruct (Z.leb_spec (day_from_year (y + 1)) d); lia).
Qed.

Lemma month_bracket (l : bool) dy :
  0 <= dy < (if l then 366 else 365) ->
  let m := month_of l dy in
  0 <= m <= 11 /\ 0 <= dy - month_start l m <= 30.
Proof.
  cbn zeta. unfold month_of. intros H.
  repeat match goal with |- context [dy <? month_start l ?m] => destruct (Z.ltb_spec dy (month_start l m)) end.
  all: destruct l; cbn [month_start] in *; lia.
Qed.

(** The fields of a local time lie in their ranges, and determine it up to the
    milliseconds. *)
Definition in_range (f : Fields) : Prop :=
  0 <= f_month f <= 11 /\ 1 <= f_day f <= 31 /\
  0 <= f_hour f <= 23 /\ 0 <= f_minute f <= 59 /\ 0 <= f_second f <= 59.

Lemma fields_in_range t : in_range (fields_of t).
Proof.
  pose proof (year_bracket (t / ms_per_day)) as Hy. rewrite year_length in Hy.
  unfold in_range, fields_of. cbn [f_year f_month f_day f_hour f_minute f_second].
  destruct (month_bracket (leap (year_from_day (t / ms_per_day)))
    (t / ms_per_day - day_from_year (year_from_day (t / ms_per_day)))) as [Hm Hd].
  { destruct (leap _); lia. }
  unfold ms_per_day in *. repeat split; try lia.
Qed.

Definition keep (g : granularity) (f : Fields) : Fields :=
  match g with
  | Date_ => mkFields (f_year f) (f_month f) (f_day f) 0 0 0
  | Minute => mkFields (f_year f) (f_month f) (f_day f) (f_hour f) (f_minute f) 0
  | Second => f
  end.

Definition unit_ms (g : granularity) : Z :=
  match g with Date_ => ms_per_day | Minute => 60000 | Second => 1000 end.

(** The start of the day, minute or second. *)
Definition truncate (g : granularity) (t : Z) : Z := t - t mod unit_ms g.

Lemma make_fields t g : make_local (keep g (fields_of t)) = truncate g t.
Proof.
  pose proof (fields_in_range t) as (Hm & _).
  assert (H : f_month (fields_of t) / 12 = 0 /\ f_month (fields_of t) mod 12 = f_month (fields_of t)) by lia.
  destruct H as [H1 H2]. unfold make_local, truncate.
  replace (f_year (keep g (fields_of t))) with (f_year (fields_of t)) by by destruct g.
  replace (f_month (keep g (fields_of t))) with (f_month (fields_of t)) by by destruct g.
  replace (f_day (keep g (fields_of t))) with (f_day (fields_of t)) by by destruct g.
  rewrite H1, H2, Z.add_0_r. clear Hm H1 H2. unfold fields_of at 1 2 3 4 5.
  cbn [f_year f_month f_day]. unfold ms_per_day.
  destruct g; unfold fields_of; cbn [keep f_hour f_minute f_second unit_ms]; unfold ms_per_day; lia.
Qed.

Lemma truncate_fields t g : keep g (fields_of (truncate g t)) = keep g (fields_of t).
Proof.
  assert (Hd : truncate g t / ms_per_day = t / ms_per_day).
  { unfold truncate, ms_per_day. destruct g; cbn [unit_ms]; unfold ms_per_day; lia. }
  assert (Ht : truncate g t mod ms_per_day = t mod ms_per_day - t mod unit_ms g).
  { unfold truncate, ms_per_day. destruct g; cbn [unit_ms]; unfold ms_per_day; lia. }
  unfold fields_of. rewrite Hd, Ht. unfold ms_per_day in *.
  destruct g; cbn [keep f_year f_month f_day f_hour f_minute f_second unit_ms] in *; f_equal; lia.
Qed.

(** ** Lemmas: the printed text *)

Ltac Zify.zify_post_hook ::= idtac.

Lemma digit_ne c d : is_digit c = true -> is_digit d = false -> Ascii.eqb c d = false.
Proof. intros Hc Hd. apply Ascii.eqb_neq. intros ->. congruence. Qed.

Lemma digits_chars s n : digits s = Some n -> str_forallb is_digit s = true.
Proof.
  unfold digits, DecimalString.NilZero.uint_of_string. destruct s as [|c s]; [done|].
  generalize (String c s). clear c s. intros s. destruct (DecimalString.NilEmpty.uint_of_string s) as [d|] eqn:E; [|done].
  intros _. revert d E. induction s as [|c s IH]; [done|]. cbn.
  destruct (DecimalString.NilEmpty.uint_of_string s) as [d'|]; cbn.
  - rewrite (IH d' eq_refl), andb_true_r. clear.
    destruct c as [[][][][][][][][]]; vm_compute; congruence.
  - destruct c as [[][][][][][][][]]; vm_compute; congruence.
Qed.

Lemma digits_stop s c : is_digit c = false -> forall r, digits (s +:+ String c r) = None.
Proof.
  intros Hc r. destruct (digits (s +:+ String c r)) eqn:E; [|done].
  apply digits_chars in E. rewrite str_forallb_app in E. cbn in E.
  rewrite Hc in E. cbn in E. by rewrite andb_false_r in E.
Qed.

(** A numeral of a given length, as its characters. *)
Definition numeral (len : nat) (n : Z) (s : string) : Prop :=
  String.length s = len /\ str_forallb is_digit s = true /\ digits s = Some (Z.to_N n).

Lemma numeral_check len (lo : Z) k (p : Z -> string) :
  forallb (fun i => let n := lo + Z.of_nat i in
    (String.length (p n) =? len)%nat && str_forallb is_digit (p n) &&
    bool_decide (digits (p n) = Some (Z.to_N n))) (seq 0 k) = true ->
  forall n, lo <= n < lo + Z.of_nat k -> numeral len n (p n).
Proof.
  intros H n Hn. rewrite forallb_forall in H. specialize (H (Z.to_nat (n - lo))).
  rewrite in_seq in H. specialize (H ltac:(lia)). cbn zeta in H.
  replace (lo + Z.of_nat (Z.to_nat (n - lo))) with n in H by lia.
  rewrite !andb_true_iff, Nat.eqb_eq, bool_decide_eq_true in H.
  destruct H as [[H1 H2] H3]. by split.
Qed.

Lemma pad_numeral n : 0 <= n <= 99 -> numeral 2 n (pad n).
Proof. intros H. apply (numeral_check 2 0 100 pad); [vm_compute; reflexivity|lia]. Qed.

Lemma year_numeral n : 1000 <= n <= 9999 -> numeral 4 n (show_int n).
Proof. intros H. apply (numeral_check 4 1000 (Z.to_nat 9000) show_int); [vm_compute; reflexivity|lia]. Qed.

Lemma take_numeral lo hi len n s r :
  numeral len n s -> 0 <= n -> (lo <= len <= hi)%nat ->
  (match r with String c _ => is_digit c = false | _ => True end) ->
  take_digits lo hi (s +:+ r) = Some (n, r).
Proof.
  intros (Hl & Hc & Hd) Hn Hlen Hr. unfold take_digits. rewrite span_app by done.
  rewrite Hl, Hd, (proj2 (Nat.leb_le _ _)), (proj2 (Nat.leb_le _ _)) by lia.
  cbn. by rewrite Z2N.id.
Qed.

Definition date_text (f : Fields) : string :=
  show_int (f_year f) +:+ "-" +:+ pad (f_month f + 1) +:+ "-" +:+ pad (f_day f).
Definition time_text (g : granularity) (f : Fields) : string :=
  match g with
  | Date_ => ""
  | Minute => " " +:+ pad (f_hour f) +:+ ":" +:+ pad (f_minute f)
  | Second => " " +:+ pad (f_hour f) +:+ ":" +:+ pad (f_minute f) +:+ ":" +:+ pad (f_second f)
  end.

Lemma take_char_lit ok c r :
  take_char ok (String c "" +:+ r) = if ok c then Some r else None.
Proof. done. Qed.

Lemma match_printed f g :
  in_range f -> 1000 <= f_year f <= 9999 ->
  match_date (date_text f +:+ time_text g f) = Some (keep g f).
Proof.
  intros (Hm & Hd & Hh & Hi & Hs) Hy. unfold date_text. rewrite !str_app_assoc.
  unfold match_date.
  rewrite (take_numeral 4 4 4 (f_year f)) by (done || lia || by apply year_numeral).
  cbn [mbind option_bind]; rewrite take_char_lit; cbn [mbind option_bind Ascii.eqb Bool.eqb].
  rewrite (take_numeral 1 2 2 (f_month f + 1)) by (done || lia || (apply pad_numeral; lia)).
  cbn [mbind option_bind]; rewrite take_char_lit; cbn [mbind option_bind Ascii.eqb Bool.eqb].
  rewrite (take_numeral 1 2 2 (f_day f)) by (lia || (apply pad_numeral; lia) || by destruct g).
  cbn [mbind option_bind]. replace (f_month f + 1 - 1) with (f_month f) by lia.
  destruct g; cbn [time_text]; [done|..].
  all: change (String.eqb (" " +:+ ?x) "") with false; cbv iota.
  - rewrite take_char_lit; cbn [mbind option_bind Ascii.eqb Bool.eqb orb].
    rewrite (take_numeral 1 2 2 (f_hour f)) by (done || lia || (apply pad_numeral; lia)).
    cbn [mbind option_bind]; rewrite take_char_lit; cbn [mbind option_bind Ascii.eqb Bool.eqb].
    rewrite <-(str_app_nil_r (pad (f_minute f))).
    by rewrite (take_numeral 1 2 2 (f_minute f)) by (done || lia || (apply pad_numeral; lia)).
  - rewrite take_char_lit; cbn [mbind option_bind Ascii.eqb Bool.eqb orb].
    rewrite (take_numeral 1 2 2 (f_hour f)) by (done || lia || (apply pad_numeral; lia)).
    cbn [mbind option_bind]; rewrite take_char_lit; cbn [mbind option_bind Ascii.eqb Bool.eqb].
    rewrite (take_numeral 1 2 2 (f_minute f)) by (done || lia || (apply pad_numeral; lia)).
    cbn [mbind option_bind]. change (String.eqb (":" +:+ pad (f_second f)) "") with false. cbv iota.
    rewrite take_char_lit; cbn [mbind option_bind Ascii.eqb Bool.eqb].
    rewrite <-(str_app_nil_r (pad (f_second f))).
    rewrite (take_numeral 1 2 2 (f_second f)) by (done || lia || (apply pad_numeral; lia)).
    by destruct f.
Qed.

Lemma numeral_2 n s :
  numeral 2 n s -> exists a b, s = String a (String b "") /\ is_digit a = true /\ is_digit b = true.
Proof.
  intros (Hl & Hc & _). destruct s as [|a [|b [|]]]; try done. cbn in Hc.
  rewrite !andb_true_iff in Hc. exists a, b. tauto.
Qed.

Lemma numeral_4 n s :
  numeral 4 n s -> exists a b c d, s = String a (String b (String c (String d ""))) /\
    is_digit a = true /\ is_digit b = true /\ is_digit c = true /\ is_digit d = true.
Proof.
  intros (Hl & Hc & _). destruct s as [|a [|b [|c [|d [|]]]]]; try done. cbn in Hc.
  rewrite !andb_true_iff in Hc. exists a, b, c, d. tauto.
Qed.

Lemma zone_suffix_skip c s :
  Ascii.eqb c "Z" = false -> Ascii.eqb c "+" = false -> Ascii.eqb c "-" = false ->
  zone_suffix (String c s) = zone_suffix s.
Proof.
  intros H1 H2 H3. cbn [zone_suffix String.eqb]. rewrite H1. cbn [orb].
  replace (zone (String c s)) with false; [done|].
  unfold zone. rewrite H2, H3. by destruct s as [|? [|? ?]].
Qed.

Lemma zone_suffix_dash a b r :
  (match r with String c _ => is_digit c = false /\ Ascii.eqb c ":" = false | _ => True end) ->
  zone_suffix (String "-" (String a (String b r))) = zone_suffix (String a (String b r)).
Proof.
  intros Hr. change (zone_suffix (String "-" (String a (String b r))))
    with (zone (String "-" (String a (String b r))) || zone_suffix (String a (String b r))).
  replace (zone (String "-" (String a (String b r)))) with false; [done|].
  unfold zone. destruct r as [|c [|d [|e [|]]]]; rewrite ?andb_false_r; try done.
  all: destruct Hr as [H1 H2]; rewrite ?H1, ?H2; by rewrite !andb_false_r.
Qed.

Lemma zone_suffix_2 a b r :
  is_digit a = true -> is_digit b = true ->
  zone_suffix (String a (String b r)) = zone_suffix r.
Proof. intros Ha Hb. by rewrite !zone_suffix_skip by (by apply digit_ne). Qed.

Lemma trim_end_snoc s c : is_space c = false -> trim_end (s +:+ String c "") = s +:+ String c "".
Proof.
  intros Hc. induction s as [|a s IH].
  - change (trim_end (String c "") = String c ""). cbn [trim_end]. by rewrite Hc.
  - rewrite str_app_cons. cbn [trim_end]. rewrite IH. by destruct s.
Qed.

Lemma digit_visible c : is_digit c = true -> is_space c = false.
Proof. destruct c as [[][][][][][][][]]; vm_compute; congruence. Qed.

(** The printed text: its characters, its ends, and no zone at the end. *)
Definition date_char (c : ascii) : bool :=
  is_digit c || Ascii.eqb c "-" || Ascii.eqb c " " || Ascii.eqb c ":".

Lemma numeral_date_chars len n s : numeral len n s -> str_forallb date_char s = true.
Proof.
  intros (_ & Hc & _). eapply str_forallb_impl; [|exact Hc]. intros c H. unfold date_char.
  by rewrite H.
Qed.

Lemma printed_chars f g :
  in_range f -> 1000 <= f_year f <= 9999 ->
  str_forallb date_char (date_text f +:+ time_text g f) = true.
Proof.
  intros (Hm & Hd & Hh & Hi & Hs) Hy. unfold date_text.
  assert (Hp : forall n, 0 <= n <= 99 -> str_forallb date_char (pad n) = true).
  { intros n Hn. eapply numeral_date_chars. by apply pad_numeral. }
  rewrite !str_forallb_app, (numeral_date_chars 4 (f_year f)), !Hp by (lia || by apply year_numeral).
  destruct g; cbn [time_text]; [done| |]; by rewrite !str_forallb_app, !Hp by lia.
Qed.

Lemma printed_shape f g :
  in_range f -> 1000 <= f_year f <= 9999 ->
  let s := date_text f +:+ time_text g f in
  zone_suffix s = false /\
  (exists c r, s = String c r /\ is_space c = false) /\
  (exists r c, s = r +:+ String c "" /\ is_space c = false).
Proof.
  intros (Hm & Hd & Hh & Hi & Hs) Hy. cbn zeta. unfold date_text.
  destruct (numeral_4 _ _ (year_numeral _ Hy)) as (y1 & y2 & y3 & y4 & -> & ? & ? & ? & ?).
  destruct (numeral_2 _ _ (pad_numeral (f_month f + 1) ltac:(lia))) as (m1 & m2 & -> & ? & ?).
  destruct (numeral_2 _ _ (pad_numeral (f_day f) ltac:(lia))) as (d1 & d2 & -> & ? & ?).
  destruct (numeral_2 _ _ (pad_numeral (f_hour f) ltac:(lia))) as (h1 & h2 & Eh & ? & ?).
  destruct (numeral_2 _ _ (pad_numeral (f_minute f) ltac:(lia))) as (i1 & i2 & Ei & ? & ?).
  destruct (numeral_2 _ _ (pad_numeral (f_second f) ltac:(lia))) as (s1 & s2 & Es & ? & ?).
  split; [|split].
  - change ((String y1 (String y2 (String y3 (String y4 ""))) +:+ "-" +:+ String m1 (String m2 "") +:+
      "-" +:+ String d1 (String d2 "")) +:+ time_text g f)
      with (String y1 (String y2 (String y3 (String y4 (String "-" (String m1 (String m2
        (String "-" (String d1 (String d2 (time_text g f))))))))))).
    rewrite !zone_suffix_2 by done. rewrite zone_suffix_dash by done. rewrite zone_suffix_2 by done.
    rewrite zone_suffix_dash by by destruct g. rewrite zone_suffix_2 by done.
    destruct g; cbn [time_text]; rewrite ?Eh, ?Ei, ?Es; [done| |].
    + change (" " +:+ String h1 (String h2 "") +:+ ":" +:+ String i1 (String i2 ""))
        with (String " " (String h1 (String h2 (String ":" (String i1 (String i2 "")))))).
      rewrite zone_suffix_skip, zone_suffix_2, zone_suffix_skip, zone_suffix_2 by done. done.
    + change (" " +:+ String h1 (String h2 "") +:+ ":" +:+ String i1 (String i2 "") +:+ ":" +:+ String s1 (String s2 ""))
        with (String " " (String h1 (String h2 (String ":" (String i1 (String i2 (String ":" (String s1 (String s2 ""))))))))).
      rewrite zone_suffix_skip, zone_suffix_2, zone_suffix_skip, zone_suffix_2, zone_suffix_skip,
        zone_suffix_2 by done. done.
  - eexists y1, _. split; [reflexivity|]. by apply digit_visible.
  - destruct g; cbn [time_text]; rewrite ?Eh, ?Ei, ?Es.
    + exists (String y1 (String y2 (String y3 (String y4 (String "-" (String m1 (String m2
        (String "-" (String d1 "")))))))) ), d2. split; [done|]. by apply digit_visible.
    + eexists (String y1 (String y2 (String y3 (String y4 (String "-" (String m1 (String m2
        (String "-" (String d1 (String d2 (String " " (String h1 (String h2 (String ":" (String i1 ""))))))))))))))), i2.
      split; [done|]. by apply digit_visible.
    + eexists (String y1 (String y2 (String y3 (String y4 (String "-" (String m1 (String m2
        (String "-" (String d1 (String d2 (String " " (String h1 (String h2 (String ":" (String i1
        (String i2 (String ":" (String s1 "")))))))))))))))))), s2.
      split; [done|]. by apply digit_visible.
Qed.

Lemma dashes_id s : str_forallb date_char s = true -> dashes s = s.
Proof.
  induction s as [|c s IH]; [done|]. cbn. intros [Hc Hs]%andb_true_iff. rewrite IH by done.
  destruct (Ascii.eqb_spec c "/") as [->|]; [discriminate Hc|done].
Qed.

Lemma includes_T s : str_forallb date_char s = true -> includes s "T" = false.
Proof.
  induction s as [|c s IH]; [done|]. cbn [str_forallb]. intros [Hc Hs]%andb_true_iff.
  cbn [includes]. rewrite IH, orb_false_r by done. cbn [String.prefix].
  destruct (ascii_dec "T" c) as [<-|]; [discriminate Hc|done].
Qed.

(** ** Lemmas: printing, then parsing *)

Section RoundTrip.
Context (offset_at utc_of : Z -> Z) (new_Date_string : string -> option Z).
Notation parseToDate := (parseToDate utc_of new_Date_string).
Notation formatDateOrDateTime := (formatDateOrDateTime offset_at utc_of new_Date_string).

Lemma format_text i g t :
  parseToDate i = Some t ->
  formatDateOrDateTime i g = date_text (fields_of (t + offset_at t)) +:+ time_text g (fields_of (t + offset_at t)).
Proof.
  intros H. unfold formatDateOrDateTime. rewrite H. fold (date_text (fields_of (t + offset_at t))).
  destruct g; cbn [time_text]; [by rewrite str_app_nil_r|done..].
Qed.

Lemma parse_text f g :
  in_range f -> 1000 <= f_year f <= 9999 ->
  parseToDate (IString (date_text f +:+ time_text g f)) = time_clip (utc_of (make_local (keep g f))).
Proof.
  intros Hf Hy. pose proof (printed_chars f g Hf Hy) as Hc.
  pose proof (match_printed f g Hf Hy) as Hmatch.
  assert (Hd : digits (date_text f +:+ time_text g f) = None).
  { unfold date_text. rewrite !str_app_assoc. by apply digits_stop. }
  destruct (printed_shape f g Hf Hy) as (Hz & (c & r & Es & Hh) & (r' & c' & Ee & Hl)).
  set (s := date_text f +:+ time_text g f) in *.
  assert (Ht : trim s = s).
  { unfold trim. replace (trim_start s) with s by (rewrite Es; cbn [trim_start]; by rewrite Hh).
    rewrite Ee. by apply trim_end_snoc. }
  unfold Dates.parseToDate. rewrite Ht, Hd, dashes_id, Hz, includes_T, Hmatch by done.
  replace (String.eqb s "") with false by by rewrite Es. cbn [orb].
  replace (mkFields _ _ _ _ _ _) with (keep g f); [done|].
  replace (full_year (f_year (keep g f))) with (f_year (keep g f)); [by destruct g, f|].
  unfold full_year. replace (f_year (keep g f)) with (f_year f) by by destruct g.
  by rewrite (proj2 (Z.leb_gt (f_year f) 99)), andb_false_r by lia.
Qed.
End RoundTrip.

(** ** Lemmas: numerals and their length *)

Lemma of_uint_acc_bound d acc :
  (Npos (Pos.of_uint_acc d acc) < (Npos acc + 1) * 10 ^ N.of_nat (Decimal.nb_digits d))%N.
Proof.
  revert acc. induction d as [|d IH|d IH|d IH|d IH|d IH|d IH|d IH|d IH|d IH|d IH]; intros acc;
    cbn [Decimal.nb_digits]; [cbn; lia|..];
    rewrite Nat2N.inj_succ, N.pow_succ_r';
    set (k := (10 ^ N.of_nat (Decimal.nb_digits d))%N) in *;
    cbn [Pos.of_uint_acc];
    match goal with |- (Npos (Pos.of_uint_acc d ?a) < _)%N => specialize (IH a) end; nia.
Qed.

Lemma of_uint_bound d : (N.of_uint d < 10 ^ N.of_nat (Decimal.nb_digits d))%N.
Proof.
  unfold N.of_uint. induction d as [|d IH|d IH|d IH|d IH|d IH|d IH|d IH|d IH|d IH|d IH];
    cbn [Decimal.nb_digits Pos.of_uint]; [done|..];
    rewrite Nat2N.inj_succ, N.pow_succ_r';
    try match goal with |- (Npos (Pos.of_uint_acc d ?a) < _)%N => pose proof (of_uint_acc_bound d a) end;
    lia.
Qed.

Lemma uint_length s d :
  DecimalString.NilEmpty.uint_of_string s = Some d -> Decimal.nb_digits d = String.length s.
Proof.
  revert d. induction s as [|c s IH]; intros d; cbn; [by intros [= <-]|].
  destruct (DecimalString.NilEmpty.uint_of_string s) as [d'|] eqn:E; cbn.
  - specialize (IH d' eq_refl). intros H.
    assert (Hd : Decimal.nb_digits d = S (Decimal.nb_digits d')); [|congruence].
    revert H. clear. destruct c as [[][][][][][][][]]; cbn; intros [= <-] || intros; done.
  - destruct c as [[][][][][][][][]]; cbn; done.
Qed.

Lemma digits_bound s n : digits s = Some n -> Z.of_N n < 10 ^ Z.of_nat (String.length s).
Proof.
  unfold digits, DecimalString.NilZero.uint_of_string. destruct s as [|c s]; [done|].
  generalize (String c s). clear c s. intros s.
  destruct (DecimalString.NilEmpty.uint_of_string s) as [d|] eqn:E; [|done]. intros [= <-].
  rewrite <-(uint_length _ _ E). pose proof (of_uint_bound d) as H.
  apply N2Z.inj_lt in H. rewrite N2Z.inj_pow, nat_N_Z in H. exact H.
Qed.

Lemma digits_js_length s : str_forallb is_digit s = true -> js_length s = String.length s.
Proof.
  induction s as [|c s IH]; [done|]. cbn [str_forallb]. intros [Hc Hs]%andb_true_iff.
  cbn [js_length String.length]. rewrite IH by done. unfold is_digit in Hc.
  apply andb_true_iff in Hc as [_ Hc%N.leb_le]. by rewrite (proj2 (N.ltb_lt _ _)) by lia.
Qed.

(** ** Properties *)

(** C35. Printing a date and reading the text back gives the same date up to the
    granularity: for a year of four digits, the text parses to the instant of
    the truncated local time, whatever the date was given as, and printing that
    again gives the same text.  The hypotheses on the time zone: the truncated
    local time denotes an instant at which the offset gives it back (it is not
    skipped or repeated by a change of the clocks). *)
Theorem format_parse_roundtrip offset_at utc_of new_Date i g t local :
  parseToDate utc_of new_Date i = Some t -> local = t + offset_at t ->
  1000 <= f_year (fields_of local) <= 9999 ->
  utc_of (truncate g local) + offset_at (utc_of (truncate g local)) = truncate g local ->
  Z.abs (utc_of (truncate g local)) <= 8640000000000000 ->
  let s := formatDateOrDateTime offset_at utc_of new_Date i g in
  parseToDate utc_of new_Date (IString s) = Some (utc_of (truncate g local)) /\
  formatDateOrDateTime offset_at utc_of new_Date (IString s) g = s.
Proof.
  intros Hi -> Hy Hz Hclip. cbn zeta. set (local := t + offset_at t) in *.
  assert (Hp : parseToDate utc_of new_Date
      (IString (formatDateOrDateTime offset_at utc_of new_Date i g)) = Some (utc_of (truncate g local))).
  { rewrite (format_text _ _ _ _ _ _ Hi). fold local.
    rewrite parse_text by (done || apply fields_in_range). rewrite make_fields.
    unfold time_clip. by rewrite (proj2 (Z.leb_le _ _)). }
  split; [done|]. rewrite (format_text _ _ _ _ _ _ Hp), (format_text _ _ _ _ _ _ Hi), Hz.
  fold local. pose proof (truncate_fields local g) as E.
  revert E. generalize (fields_of (truncate g local)), (fields_of local). intros f f' E.
  destruct g; cbn [keep] in E; [|injection E|]; [injection E| |by subst];
    intros; unfold date_text, time_text; congruence.
Qed.

(** A zone eight hours ahead of UTC all year, and no reading of other texts. *)
Definition shanghai_offset (t : Z) : Z := 28800000.
Definition shanghai_utc (local : Z) : Z := local - 28800000.
Definition no_reading (s : string) : option Z := None.

Lemma format_parse_roundtrip_witness :
  let s := formatDateOrDateTime shanghai_offset shanghai_utc no_reading (IString "2024/2/29 7:05:33") Minute in
  s = "2024-02-29 07:05" /\
  parseToDate shanghai_utc no_reading (IString s) = Some 1709161500000 /\
  formatDateOrDateTime shanghai_offset shanghai_utc no_reading (IString s) Minute = s.
Proof.
  split; [vm_compute; reflexivity|].
  apply (format_parse_roundtrip shanghai_offset shanghai_utc no_reading (IString "2024/2/29 7:05:33")
    Minute 1709161533000 1709190333000); try reflexivity.
  - vm_compute. split; discriminate.
  - vm_compute. discriminate.
Defined.

(** C40. A number and its decimal text are read alike except in a window: the
    text counts as seconds up to ten characters, the number up to [10^12], so
    numerals of more than ten characters below [10^12] are a thousand times
    further from 1970 as a number than as a text. *)
Theorem numeric_text_agrees utc_of new_Date s n :
  digits s = Some n ->
  parseToDate utc_of new_Date (IString s) = parseToDate utc_of new_Date (INumber (Z.of_N n)) <->
  (String.length s <= 10)%nat \/ (1000000000000 <= n)%N \/ n = 0%N.
Proof.
  intros Hd. pose proof (digits_chars _ _ Hd) as Hc. pose proof (digits_bound _ _ Hd) as Hb.
  unfold parseToDate. rewrite trim_id.
  2:{ unfold str_existsb. apply negb_false_iff. eapply str_forallb_impl; [|exact Hc].
      intros c H. by rewrite digit_visible. }
  replace (String.eqb s "") with false by (by destruct s). rewrite Hd, digits_js_length by done.
  destruct (Nat.leb_spec (String.length s) 10) as [Hl|Hl].
  - assert (Z.of_N n < 1000000000000).
    { assert (10 ^ Z.of_nat (String.length s) <= 10 ^ 10) by (apply Z.pow_le_mono_r; lia). lia. }
    rewrite (proj2 (Z.ltb_lt _ _)) by lia. split; [by left|done].
  - destruct (Z.ltb_spec (Z.of_N n) 1000000000000).
    + unfold time_clip. rewrite !(proj2 (Z.leb_le _ _)) by lia.
      split; [intros [= E]; right; right; lia|intros [?|[?| ->]]; lia || done].
    + split; [right; left; lia|done].
Qed.

Lemma numeric_text_agrees_witness :
  digits "20240229070500" = Some 20240229070500%N /\
  parseToDate shanghai_utc no_reading (IString "20240229070500") =
  parseToDate shanghai_utc no_reading (INumber 20240229070500).
Proof.
  split; [reflexivity|].
  apply (numeric_text_agrees shanghai_utc no_reading "20240229070500" 20240229070500 eq_refl).
  right. left. discriminate.
Defined.
