(* ===== verification/Views.v ===== *)
(** * What the pages show

    The views of an API ([ApiManagement/Detail]), of the list of services
    ([ServiceManagement/ServiceList.tsx], [WelcomeView.tsx]) and the helpers they
    share ([utils.tsx]: tags and avatars).  A view is a
    function from the data to the texts, tags, tables and buttons it shows; an
    exception while rendering is an [outcome].  The first character of a text is
    its first code point. *)

From S2P Require Import Prelude JsObject ApiTypes FeTypes FeHttp Dialogs Dates ServiceHome.
From Stdlib Require Import Ascii String ZArith Lia.

(** ** Tags *)

Record Tag := mkTag { tag_color : option string; tag_text : string }.

Definition roleColorMap : obj string :=
  [("frontend", "arcoblue"); ("backend", "cyan"); ("fullstack", "magenta"); ("qa", "green");
   ("devops", "orange"); ("product_manager", "purple"); ("designer", "pinkpurple");
   ("architect", "orangered"); ("proj_lead", "red"); ("guest", "gray")].

Definition genUserRoleTag (t : string -> string) (role : string) : Tag :=
  mkTag (obj_get roleColorMap role) (t ("user." +:+ role)).

Definition methodColorMap : obj string :=
  [("GET", "arcoblue"); ("POST", "green"); ("PUT", "orangered"); ("DELETE", "red"); ("PATCH", "orange")].

Definition genApiMethodTag (method : HttpMethod) : Tag :=
  mkTag (obj_get methodColorMap (method_name method)) (method_name method).

Definition levelColorMap : obj string :=
  [("P0", "red"); ("P1", "orangered"); ("P2", "orange"); ("P3", "arcoblue"); ("P4", "green")].

Definition genApiLevelTag (level : option ApiLevel) : Tag :=
  match level with
  | Some l => mkTag (obj_get levelColorMap (level_name l)) (level_name l)
  | None => mkTag None ""
  end.

Definition codeColorMap : obj string := [("2", "green"); ("4", "orangered"); ("5", "red")].

(** [code.toString()[0]]. *)
Definition genStatusCodeTag (code : Z) : Tag :=
  let color := match show_int code with
               | String c _ => obj_get codeColorMap (String c "")
               | EmptyString => None
               end in
  mkTag (Some (default "arcoblue" color)) (show_int code).

Definition typeTagColorMap : obj string :=
  [("string", "blue"); ("boolean", "orange"); ("object", "magenta"); ("int", "arcoblue");
   ("double", "purple"); ("array", "cyan"); ("binary", "pinkpurple")].

Definition getParamTypeTag (type : string) (arrayChildType : option string) : Tag :=
  let child := default "" arrayChildType in
  mkTag (obj_get typeTagColorMap type)
    (if String.eqb type "array" && negb (String.eqb child "")
     then type +:+ "<" +:+ child +:+ ">" else type).

(** ** Avatars *)

Record Avatar := mkAvatar { avatar_key : Z; avatar_role : Tag; avatar_text : string; avatar_initial : string }.

(** The first code point of a text in UTF-8. *)
Fixpoint continuation (s : string) : string :=
  match s with
  | String c s' =>
      let b := N_of_ascii c in
      if ((128 <=? b) && (b <? 192))%N then String c (continuation s') else ""
  | EmptyString => ""
  end.
Definition first_char (s : string) : string :=
  match s with String c s' => String c (continuation s') | EmptyString => "" end.

Definition null_user : js_error := JSError "TypeError" "Cannot read properties of null (reading 'id')".

Section Text.
Variable t : string -> string.

Definition avatar (user : UserProfile) : Avatar :=
  mkAvatar (user_id user) (genUserRoleTag t (role user))
    (nickname user +:+ " (" +:+ username user +:+ ") - " +:+ email user)
    (str_or (first_char (nickname user)) (str_or (first_char (username user)) "-")).

(** Reading [user.id] of a null user throws; so does that of an [undefined] one,
    with that word in the message. *)
Fixpoint userAvatar (users : list (option UserProfile)) : outcome (list Avatar) :=
  match users with
  | [] => Ret []
  | None :: _ => Throw null_user
  | Some u :: us =>
      match userAvatar us with
      | Ret l => Ret (avatar u :: l)
      | Throw e => Throw e
      | Exit c => Exit c
      end
  end.
End Text.

(** ** An API ([ApiManagement/Detail]) *)

(** The columns of the two tables; an empty cell shows the table's placeholder,
    and the response table has no column of default values. *)
Inductive place := InRequestTable | InResponseTable.

Inductive Row := mkRow {
  row_name : string;
  row_popover : option (string * list Row);
  row_type : Tag;
  row_required : Tag;
  row_description : option string;
  row_default : option string;
  row_example : option string
}.

Definition default_of (pl : place) (pp : ParamPlace) : option string :=
  match pl, pp with InRequestTable, InRequest _ d => d | _, _ => None end.

(** One row of [requestColumns] and [responseColumns]: a parameter with
    sub-parameters opens their table. *)
Fixpoint param_row (pl : place) (record : Param) : Row :=
  let '(mkParam _ _ pp n t r d e ac _ children) := record in
  mkRow n
    (match children with
     | Some (c :: cs) =>
         Some (if String.eqb t "array" && bool_decide (ac = Some "object")
               then "点击查看数组元素子参数" else "点击查看子参数",
               map (param_row pl) (c :: cs))
     | _ => None
     end)
    (getParamTypeTag t ac)
    (mkTag (Some (if r then "red" else "gray")) (if r then "必填" else "选填"))
    d (default_of pl pp) e.

(** [RequestParams]: the locations in the order of the page. *)
Definition shown_locations : list (string * string) :=
  [("query", "Query 参数"); ("path", "Path 参数"); ("body", "Body 参数");
   ("header", "Header 参数"); ("cookie", "Cookie 参数")].

Definition RequestParams (apiDetail : ApiDetail) : list (string * list Row) :=
  let requestParamsByLocation := default [] (request_params_by_location apiDetail) in
  let existLocations :=
    List.filter (fun location => non_empty (obj_get requestParamsByLocation location)) (keys requestParamsByLocation) in
  omap (fun '(location, title) =>
    if bool_decide (location ∈ existLocations)
    then Some (title, map (param_row InRequestTable) (default [] (obj_get requestParamsByLocation location)))
    else None) shown_locations.

(** [ResponseParams]: the status codes in increasing order; [Number(status)] is
    the index. *)
#[global] Instance Z_le_dec : RelDecision Z.le := Z_le_dec.

Definition existCodes (o : obj (list Param)) : list Z :=
  merge_sort Z.le (omap (fun status =>
    match to_number status with
    | Some z => if non_empty (obj_get o (show_int z)) then Some z else None
    | None => None
    end) (keys o)).

Definition ResponseParams (apiDetail : ApiDetail) : list (Tag * list Row) :=
  let o := default [] (response_params_by_status_code apiDetail) in
  map (fun code => (genStatusCodeTag code, map (param_row InResponseTable) (default [] (obj_get o (show_int code)))))
    (existCodes o).

Section Pages.
Variable t : string -> string.
Variable offset_at : Z -> Z.
Variable utc_of : Z -> Z.
Variable new_Date_string : string -> option Z.

Notation format_date := (formatDateOrDateTime offset_at utc_of new_Date_string).

Record ApiInfo := mkApiInfo {
  info_name : string;
  info_owner : list Avatar;
  info_level : Tag;
  info_created : string;
  info_updated : string;
  info_description : string
}.

(** [value ? formatDateOrDateTime(value) : '-']. *)
Definition date_or_dash (d : option string) : string :=
  let s := default "" d in if String.eqb s "" then "-" else format_date (IString s) Second.

(** [BriefInfo]. *)
Definition BriefInfo (apiDetail : ApiDetail) : outcome ApiInfo :=
  match userAvatar t [api_owner apiDetail] with
  | Ret owner => Ret (mkApiInfo (api_name (detail_api apiDetail)) owner (genApiLevelTag (api_level (detail_api apiDetail)))
      (date_or_dash (api_created_at apiDetail)) (date_or_dash (api_updated_at apiDetail))
      (opt_str_or (api_description (detail_api apiDetail)) "-"))
  | Throw e => Throw e
  | Exit c => Exit c
  end.

(** [Detail]: a spinner, a blank page, or the API. *)
Inductive DetailView :=
| Spinner
| Blank (message : string)
| ApiPage (method : Tag) (path : string) (info : ApiInfo)
    (request : list (string * list Row)) (response : list (Tag * list Row)).

Definition Detail (loading : bool) (apiDetail : option ApiDetail) : outcome DetailView :=
  if loading then Ret Spinner
  else match apiDetail with
  | None => Ret (Blank "暂无 API，请发起迭代添加 API")
  | Some d =>
      match BriefInfo d with
      | Ret info => Ret (ApiPage (genApiMethodTag (api_method (detail_api d))) (api_path (detail_api d)) info
          (RequestParams d) (ResponseParams d))
      | Throw e => Throw e
      | Exit c => Exit c
      end
  end.

(** ** The list of services ([ServiceList.tsx]) *)

Inductive RowAction := OfferView (uuid : string) | OfferDelete (id : Z) | OfferRestore (id : Z).

Record ServiceRow := mkServiceRow {
  cell_uuid : string;
  cell_version : Tag;
  cell_owner : list Avatar;
  cell_description : option string;
  cell_created : string;
  cell_is_deleted : option Tag;
  cell_deleted_at : option string;
  cell_actions : list RowAction
}.

(** The identifier is a button too, deleted or not. *)
Definition uuid_action (item : ServiceItem) : RowAction := OfferView (service_uuid item).

(** The owner column: the user's own profile, or the one sent with the item. *)
Definition owner_of (user : option UserProfile) (item : ServiceItem) : option UserProfile :=
  if bool_decide (Some (owner_id item) = (user_id <$> user)) then user else owner item.

Definition row_actions (item : ServiceItem) : list RowAction :=
  (if negb (is_deleted item) then [OfferView (service_uuid item)] else []) ++
  (if negb (is_deleted item) then [OfferDelete (service_id item)] else [OfferRestore (service_id item)]).

(** [formatDateOrDateTime(deleted_at, 'minute') || '-']. *)
Definition deleted_text (item : ServiceItem) : string :=
  str_or (format_date (match deleted_at item with Some s => IString s | None => INull end) Minute) "-".

Definition service_row (range : ServiceRange) (user : option UserProfile) (item : ServiceItem) : outcome ServiceRow :=
  match userAvatar t [owner_of user item] with
  | Ret avatars => Ret (mkServiceRow (service_uuid item) (mkTag (Some "blue") (service_version item)) avatars
      (service_description item) (format_date (IString (service_created_at item)) Minute)
      (match range with
       | RangeAll => Some (mkTag (Some (if is_deleted item then "red" else "green"))
                             (t (if is_deleted item then "common.yes" else "common.no")))
       | _ => None
       end)
      (match range with RangeAll | RangeDeleted => Some (deleted_text item) | _ => None end)
      (row_actions item))
  | Throw e => Throw e
  | Exit c => Exit c
  end.

(** [WelcomeLoggedIn]. *)
Definition welcome_name (user : UserProfile) : string := str_or (nickname user) (username user).

End Pages.

(** Clicking a button of the row: the last two ask first. *)
Definition click_action (server : Server) (confirmed : bool) (a : RowAction) : UI ServiceHome unit :=
  match a with
  | OfferView uuid => handleViewService uuid
  | OfferDelete id => handleConfirm confirmed (handleDeleteService server id)
  | OfferRestore id => handleConfirm confirmed (handleRestoreService server id)
  end.

(** The page size and number go to the handler in the other order. *)
Definition on_page (server : Server) (pageNumber pageSize : Z) : UI ServiceHome unit :=
  handlePageChange server pageSize (Some pageNumber).

(** ** Specification: the parameters shown *)

(** The cells of a row apart from its popover. *)
Definition row_cells (r : Row) : string * Tag * Tag * option string * option string * option string :=
  (row_name r, row_type r, row_required r, row_description r, row_default r, row_example r).

Fixpoint row_nodes (r : Row) : list Row :=
  r :: match row_popover r with Some (_, rows) => List.concat (map row_nodes rows) | None => [] end.

(** All the parameters of a tree, and what the page shows of one. *)
Fixpoint param_nodes (p : Param) : list Param :=
  p :: match children_params p with Some cs => List.concat (map param_nodes cs) | None => [] end.

Definition param_cells (pl : place) (p : Param) : string * Tag * Tag * option string * option string * option string :=
  (param_name p, getParamTypeTag (param_type p) (array_child_type p),
   mkTag (Some (if required p then "red" else "gray")) (if required p then "必填" else "选填"),
   description p, default_of pl (param_place p), example p).

Definition table_cells (rows : list Row) := map row_cells (List.concat (map row_nodes rows)).
Definition params_cells (pl : place) (ps : list Param) := map (param_cells pl) (List.concat (map param_nodes ps)).

(** ** Lemmas *)

Lemma param_row_nodes pl p : map row_cells (row_nodes (param_row pl p)) = map (param_cells pl) (param_nodes p).
Proof.
  induction p as [p IH] using Param_tree_ind. destruct p as [i a pp n t r d e ac par [[|c cs]|]]; [done| |done].
  specialize (IH _ eq_refl).
  assert (H : forall l, Forall (fun q => map row_cells (row_nodes (param_row pl q)) = map (param_cells pl) (param_nodes q)) l ->
    map row_cells (List.concat (map row_nodes (map (param_row pl) l))) = map (param_cells pl) (List.concat (map param_nodes l))).
  { induction 1 as [|x l Hx _ IHl]; [done|]. cbn [map List.concat]. by rewrite !map_app, Hx, IHl. }
  specialize (H _ IH). cbn [param_row row_nodes row_popover param_nodes children_params].
  change (map row_cells (?r :: ?l)) with (row_cells r :: map row_cells l). rewrite H. done.
Qed.

Lemma table_shows pl ps : table_cells (map (param_row pl) ps) = params_cells pl ps.
Proof.
  unfold table_cells, params_cells. induction ps as [|p ps IH]; [done|]. cbn [map List.concat].
  by rewrite !map_app, param_row_nodes, IH.
Qed.

Lemma params_cells_app pl ps qs : params_cells pl (ps ++ qs) = params_cells pl ps ++ params_cells pl qs.
Proof. unfold params_cells. by rewrite map_app, concat_app, map_app. Qed.

(** Reading an object by a list of keys that covers it yields its values. *)
Lemma concat_lookup {V W} (o : obj V) (f : option V -> list W) (ks : list string) :
  obj_wf o -> NoDup ks -> f None = [] -> (forall k, k ∈ o.*1 -> k ∈ ks) ->
  List.concat (map (fun k => f (obj_get o k)) ks) ≡ₚ List.concat (map (fun kv => f (Some kv.2)) o).
Proof.
  intros Hwf Hnd Hf. revert ks Hnd. induction o as [|[k v] o IH]; intros ks Hnd Hks.
  - assert (E : map (fun k => f (obj_get [] k)) ks = map (fun _ => []) ks) by by apply map_ext.
    rewrite E. clear. by induction ks.
  - apply NoDup_cons in Hwf as [Hk Hwf].
    destruct (list_elem_of_split ks k) as (k1 & k2 & ->); [apply Hks; by left|].
    rewrite <-Permutation_middle in Hnd. apply NoDup_cons in Hnd as [Hni Hnd].
    cbn [map List.concat snd]. rewrite <-(IH Hwf (k1 ++ k2) Hnd).
    + rewrite !map_app, !concat_app. cbn [map List.concat obj_get]. rewrite String.eqb_refl.
      assert (Hsame : forall l, k ∉ l -> map (fun j => f (if String.eqb j k then Some v else obj_get o j)) l =
                                 map (fun j => f (obj_get o j)) l).
      { intros l Hl. apply map_ext_in. intros j Hj. rewrite (proj2 (String.eqb_neq j k)); [done|].
        intros ->. by apply Hl, list_elem_of_In. }
      rewrite !Hsame by set_solver. rewrite !app_assoc. apply Permutation_app_tail, Permutation_app_comm.
    + intros j Hj. assert (Hj' : j ∈ k1 ++ k :: k2) by (apply Hks; by right).
      rewrite elem_of_app, elem_of_cons in Hj'. rewrite elem_of_app.
      destruct Hj' as [?|[->|?]]; [by left|done|by right].
Qed.

Lemma request_tables_cells d :
  List.concat (map (fun e => table_cells e.2) (RequestParams d)) =
  List.concat (map (fun k => params_cells InRequestTable (default [] (obj_get (default [] (request_params_by_location d)) k)))
    (map fst shown_locations)).
Proof.
  unfold RequestParams. set (o := default [] (request_params_by_location d)).
  induction shown_locations as [|[k title] l IH]; [done|]. cbn [map omap list_omap fst].
  assert (Hk : bool_decide (k ∈ List.filter (fun l => non_empty (obj_get o l)) (keys o)) = non_empty (obj_get o k)).
  { apply Bool.eq_iff_eq_true. rewrite bool_decide_eq_true, list_elem_of_In, filter_In, <-list_elem_of_In.
    split; [tauto|]. intros H. split; [|done]. unfold keys. rewrite entries_Permutation.
    destruct (obj_get o k) as [v|] eqn:E; [|done]. apply list_elem_of_fmap. exists (k, v).
    split; [done|by apply obj_get_In]. }
  cbn [List.concat]. rewrite Hk. destruct (obj_get o k) as [[|p ps]|]; cbn [non_empty default]; [exact IH| |exact IH].
  cbn [map List.concat snd]. by rewrite table_shows, IH.
Qed.

Lemma response_tables_cells d :
  let o := default [] (response_params_by_status_code d) in
  (forall k, k ∈ o.*1 -> exists z, k = show_int z) ->
  List.concat (map (fun e => table_cells e.2) (ResponseParams d)) ≡ₚ
  List.concat (map (fun k => params_cells InResponseTable (default [] (obj_get o k))) (keys o)).
Proof.
  cbn zeta. set (o := default [] (response_params_by_status_code d)). intros Hk.
  assert (E : map (fun e => table_cells e.2) (ResponseParams d) =
    map (fun z => params_cells InResponseTable (default [] (obj_get o (show_int z)))) (existCodes o)).
  { unfold ResponseParams. rewrite map_map. apply map_ext. intros z. apply table_shows. }
  rewrite E. unfold existCodes. rewrite <-!flat_map_concat_map.
  rewrite (Permutation_flat_map _ (merge_sort_Permutation Z.le _)). rewrite !flat_map_concat_map.
  assert (Hks : forall k, k ∈ keys o -> exists z, k = show_int z).
  { intros k. unfold keys. rewrite entries_Permutation. apply Hk. }
  clear -Hks. induction (keys o) as [|k ks IH]; [done|].
  destruct (Hks k) as [z ->]; [by left|]. cbn [omap list_omap map]. rewrite to_number_show_int.
  assert (IH' := IH ltac:(intros j Hj; apply Hks; by right)).
  destruct (obj_get o (show_int z)) as [[|p ps]|] eqn:Ez; cbn [non_empty].
  - exact IH'.
  - cbn [map List.concat]. rewrite Ez. by rewrite IH'.
  - exact IH'.
Qed.

Lemma userAvatar_total t users :
  (exists l, userAvatar t users = Ret l) <-> Forall (fun u => is_Some u) users.
Proof.
  induction users as [|[u|] us IH].
  - split; [constructor|]. by exists [].
  - cbn [userAvatar]. rewrite Forall_cons. destruct (userAvatar t us) as [l|e|c] eqn:E.
    + split; [intros _; split; [eauto|by apply IH; eauto]|eauto].
    + split; [by intros [? ?]|]. intros [_ H]. apply IH in H as [? ?]. done.
    + split; [by intros [? ?]|]. intros [_ H]. apply IH in H as [? ?]. done.
  - split; [by intros [? ?]|]. intros H. apply Forall_cons in H as [[? ?] _]. done.
Qed.

(** ** Properties *)

(** C37. The page of an API shows every parameter of it once, sub-parameters in
    the tables their rows open: the cells shown in the request part are those of
    all the parameters of the five locations, those of the response part of all
    status codes, and the status codes come in increasing order.  The tables are
    keyed as the server keys them: by location, and by status code. *)
Theorem detail_shows_every_param d :
  let req := default [] (request_params_by_location d) in
  let resp := default [] (response_params_by_status_code d) in
  obj_wf req -> (forall k, k ∈ req.*1 -> k ∈ map fst shown_locations) ->
  obj_wf resp -> (forall k, k ∈ resp.*1 -> exists z, k = show_int z) ->
  List.concat (map (fun e => table_cells e.2) (RequestParams d)) ≡ₚ
    List.concat (map (fun kv => params_cells InRequestTable kv.2) req) /\
  List.concat (map (fun e => table_cells e.2) (ResponseParams d)) ≡ₚ
    List.concat (map (fun kv => params_cells InResponseTable kv.2) resp) /\
  Sorted Z.le (existCodes resp).
Proof.
  cbn zeta. intros Hq Hql Hr Hrk. split; [|split].
  - rewrite request_tables_cells.
    apply (concat_lookup _ (fun o => params_cells InRequestTable (default [] o))); [done| |done|done].
    apply (bool_decide_unpack _). vm_compute. exact I.
  - rewrite response_tables_cells by done.
    apply (concat_lookup _ (fun o => params_cells InResponseTable (default [] o))); [done| |done|].
    + unfold keys. rewrite entries_Permutation. exact Hr.
    + intros k Hk. unfold keys. by rewrite entries_Permutation.
  - apply Sorted_merge_sort. intros x y. lia.
Qed.

(** A row of the service list is shown when the profile of the owner is
    known: the service is the user's own or came with its owner.  Otherwise
    rendering throws.  The last column offers to view and delete a live service,
    and only to restore a deleted one. *)
Theorem service_row_outcome t offset_at utc_of new_Date range user item :
  let row := service_row t offset_at utc_of new_Date range user item in
  match owner_of user item with
  | Some o => exists r, row = Ret r /\ cell_owner r = [avatar t o] /\
      cell_actions r = (if is_deleted item then [OfferRestore (service_id item)]
                        else [OfferView (service_uuid item); OfferDelete (service_id item)])
  | None => row = Throw null_user
  end /\
  (owner_of user item = None <-> owner item = None /\ Some (owner_id item) <> (user_id <$> user)).
Proof.
  cbn zeta. split.
  - unfold service_row. destruct (owner_of user item) as [o|]; cbn [userAvatar]; [|done].
    eexists. split; [reflexivity|]. split; [done|]. cbn [cell_actions]. unfold row_actions.
    by destruct (is_deleted item).
  - unfold owner_of. case_bool_decide as H.
    + split; [intros ->; done|]. by intros [_ ?].
    + tauto.
Qed.

Definition page_param (name type : string) (cs : option (list Param)) : Param :=
  mkParam 1 1 (InRequest "query" None) name type true None None None None cs.
Definition sample_page_api : ApiDetail :=
  mkApiDetail (mkApiBrief 7 "getUser" GET "/user" None (Some P2) None None) None None None
    (Some [("query", [page_param "filter" "object" (Some [page_param "id" "int" None])]); ("body", [])])
    (Some [("404", [page_param "error" "string" None]); ("200", [page_param "name" "string" None])]).

Lemma detail_shows_every_param_witness :
  List.concat (map (fun e => table_cells e.2) (RequestParams sample_page_api)) ≡ₚ
    List.concat (map (fun kv => params_cells InRequestTable kv.2) (default [] (request_params_by_location sample_page_api))) /\
  existCodes (default [] (response_params_by_status_code sample_page_api)) = [200; 404]%Z.
Proof.
  split; [|vm_compute; reflexivity].
  refine (proj1 (detail_shows_every_param sample_page_api _ _ _ _)).
  - apply (bool_decide_unpack _). vm_compute. exact I.
  - intros k Hk. simpl in Hk. rewrite !elem_of_cons in Hk.
    destruct Hk as [->|[->|[]%not_elem_of_nil]]; apply (bool_decide_unpack _); vm_compute; exact I.
  - apply (bool_decide_unpack _). vm_compute. exact I.
  - intros k Hk. simpl in Hk. rewrite !elem_of_cons in Hk.
    destruct Hk as [->|[->|[]%not_elem_of_nil]]; [by exists 404%Z|by exists 200%Z].
Defined.
