(* ===== verification/Forms.v ===== *)
(** * The forms

    The forms of the front-end as data: for each, the fields with their rules,
    initial values and choices, in the order of the markup.
    ([components/User/*Form.tsx], [ServiceManagement/CreateServiceForm.tsx],
    [ApiManagement/ApiList/*Form.tsx], [ApiManagement/ApiEdit/BriefInfoEdit.tsx].)
    The form library that checks the rules is an interface, [FormLibrary]; what
    the forms let through is composed with the operations that send it. *)

From S2P Require Import Prelude JsObject ApiTypes FeTypes FeHttp ApiTree ThisService Iteration UserStore Views.
From Stdlib Require Import Ascii String ZArith Lia.

(** ** Rules and fields *)

Inductive rule :=
| Required (message : string)
| Matches (test : string -> bool) (message : string)
| Validator (check : string -> option string).

(** A [Form.Item]: its [field] if any, its rules, its initial value, the values a
    [Select] offers and the [maxLength] of an [Input]. *)
Record FormItem := mkFormItem {
  field : option string;
  rules : list rule;
  initialValue : option json;
  choices : option (list json);
  maxLength : option nat
}.

Notation Values := (obj json).

Definition required_item (name message : string) : FormItem :=
  mkFormItem (Some name) [Required message] None None None.
Definition select_item (name message : string) (initial : option json) (options : list json) : FormItem :=
  mkFormItem (Some name) [Required message] initial (Some options) None.

Definition str_value (values : Values) (k : string) : string :=
  match obj_get values k with Some (JStr s) => s | _ => "" end.

(** ** Patterns *)

(** [/^\//]. *)
Definition starts_with_slash (s : string) : bool := String.prefix "/" s.

(** [/^[^\u4e00-\u9fff]*$/], on the UTF-8 bytes of a text: those characters take
    three bytes. *)
Definition cjk (a b c : ascii) : bool :=
  let code := (N.land (N_of_ascii a) 15 * 4096 + N.land (N_of_ascii b) 63 * 64 + N.land (N_of_ascii c) 63)%N in
  (224 <=? N_of_ascii a)%N && (N_of_ascii a <? 240)%N && (19968 <=? code)%N && (code <=? 40959)%N.
Fixpoint no_cjk (s : string) : bool :=
  match s with
  | String a ((String b (String c _)) as s') => negb (cjk a b c) && no_cjk s'
  | _ => true
  end.

(** [/^[a-zA-Z0-9_-]+\/[a-zA-Z0-9_-]+\/[a-zA-Z0-9_-]+$/]. *)
Definition uuid_char (c : ascii) : bool := is_alnum c || bool_decide (c ∈ ["_"; "-"]%char).
Definition uuid_part (s : string) : bool := negb (String.eqb s "") && str_forallb uuid_char s.
Definition valid_uuid (s : string) : bool :=
  match split_on "/" s with
  | [a; b; c] => uuid_part a && uuid_part b && uuid_part c
  | _ => false
  end.

(** ** The forms *)

Definition HTTP_METHODS : list HttpMethod := [GET; POST; PUT; DELETE; PATCH].
Definition API_LEVELS : list ApiLevel := [P0; P1; P2; P3; P4].

Section Forms.
Variable t : string -> string.

Definition LoginForm : list FormItem :=
  [required_item "username" (t "login.usernameRequired");
   required_item "password" (t "login.passwordRequired")].

Definition RegisterForm : list FormItem :=
  [required_item "username" (t "register.usernameRequired");
   required_item "nickname" (t "register.nicknameRequired");
   required_item "email" (t "register.emailRequired");
   select_item "role" (t "register.roleRequired") None
     (map JStr ["frontend"; "backend"; "fullstack"; "qa"; "devops"; "product_manager"; "designer";
                "architect"; "proj_lead"; "guest"]);
   required_item "password" (t "register.passwordRequired");
   required_item "confirmPassword" (t "register.confirmPasswordRequired")].

Definition ModifyPasswordForm : list FormItem :=
  [required_item "old_password" (t "modifyPassword.oldPasswordRequired");
   required_item "new_password" (t "modifyPassword.newPasswordRequired");
   required_item "confirm_new_password" (t "modifyPassword.confirmPasswordRequired")].

(** The two items without a field show the first version and the owner. *)
Definition CreateServiceForm : list FormItem :=
  [mkFormItem (Some "service_uuid")
     [Required (t "service.serviceUUIDRequired"); Matches valid_uuid (t "service.serviceUUIDInvalid")] None None None;
   mkFormItem None [Required ""] None None None;
   mkFormItem None [Required ""] None None None;
   required_item "description" (t "service.descriptionRequired")].
End Forms.

Definition name_rules : list rule :=
  [Required "请输入 API 名称"; Matches no_cjk "API 名称不能包含中文"].

Definition method_choices : list json := map (fun m => JStr (method_name m)) HTTP_METHODS.
Definition level_choices : list json := map (fun l => JStr (level_name l)) API_LEVELS.

(** [categories]: those of the service, then [未分类]. *)
Definition category_choices (apiCategories : list ApiCategory) : list json :=
  map (fun c => JNum (cat_id c)) apiCategories ++ [JNum (-1)].

Definition AddApiForm (apiCategories : list ApiCategory) : list FormItem :=
  [mkFormItem (Some "name") name_rules None None None;
   select_item "method" "请选择请求方法" (Some (JStr "GET")) method_choices;
   mkFormItem (Some "path")
     [Required "请输入 API 路径"; Matches starts_with_slash "路径必须以 / 开头";
      Matches no_cjk "API 路径不能包含中文"] None None None;
   select_item "level" "请选择接口等级" (Some (JStr "P2")) level_choices;
   select_item "category_id" "请选择所属分类" (Some (JNum (-1))) (category_choices apiCategories);
   mkFormItem (Some "description") [] None None None].

Definition AddCategoryForm : list FormItem :=
  [required_item "category_name" "请输入分类名"; required_item "description" "请输入分类描述"].

Definition BriefInfoEdit : list FormItem :=
  [mkFormItem (Some "name") name_rules None None (Some 50);
   select_item "method" "请选择请求方法" None method_choices;
   mkFormItem (Some "path")
     [Required "请输入API路径"; Matches starts_with_slash "路径必须以 / 开头";
      Matches no_cjk "路径不能包含中文"] None None None;
   select_item "level" "请选择接口等级" None level_choices;
   mkFormItem (Some "description") [] None None (Some 200)].

Definition CompleteIterationForm (currentVersion : string) : list FormItem :=
  [mkFormItem (Some "new_version") [Required "请输入新版本号"; Validator (validateVersion currentVersion)]
     (Some (JStr (suggestVersion currentVersion))) None None].

(** ** The form library *)

(** What the documented rules ask of a value. *)
Definition rule_holds (v : option json) (r : rule) : bool :=
  match r, v with
  | Required _, (None | Some JNull | Some (JStr "")) => false
  | Required _, Some _ => true
  | Matches test _, Some (JStr s) => test s
  | Matches _ _, _ => true
  | Validator check, _ => bool_decide (check (match v with Some (JStr s) => s | _ => "" end) = None)
  end.
Definition item_holds (values : Values) (i : FormItem) : bool :=
  match field i with
  | Some f => forallb (rule_holds (obj_get values f)) (rules i)
  | None => true
  end.

(** What the inputs let a user enter: a [Select] one of its options, an [Input]
    a text of at most [maxLength] characters. *)
Definition item_entered (values : Values) (i : FormItem) : Prop :=
  match field i with
  | Some f => forall v, obj_get values f = Some v ->
      match choices i with Some l => v ∈ l | None => exists s, v = JStr s end /\
      (forall n s, maxLength i = Some n -> v = JStr s -> js_length s <= n)
  | None => True
  end.
Definition entered (items : list FormItem) (values : Values) : Prop := Forall (item_entered values) items.

(** The form library, by what its [validate] promises: it returns only when every
    rule holds. *)
Class FormLibrary (validate : list FormItem -> Values -> outcome unit) := {
  validated items values : validate items values = Ret tt -> forallb (item_holds values) items = true
}.

(** A library that checks exactly the rules. *)
Definition check_rules (items : list FormItem) (values : Values) : outcome unit :=
  if forallb (item_holds values) items then Ret tt else Throw (new_error "invalid").
#[export] Instance check_rules_library : FormLibrary check_rules.
Proof. split. intros items values. unfold check_rules. by destruct (forallb _ _). Qed.

(** ** What the operations read from the values *)

Definition register_values (values : Values) : RegisterRequest * string :=
  (mkRegisterRequest (str_value values "username") (str_value values "password") (str_value values "nickname")
     (str_value values "email") (str_value values "role"),
   str_value values "confirmPassword").

Definition read_method (s : string) : option HttpMethod :=
  List.find (fun m => String.eqb (method_name m) s) HTTP_METHODS.
Definition read_level (s : string) : option ApiLevel :=
  List.find (fun l => String.eqb (level_name l) s) API_LEVELS.

(** The values of [AddApiForm] as [handleAddApi] uses them; [None] for values no
    choice of the form gives. *)
Definition add_api_values (values : Values) : option AddApiValues :=
  method ← read_method (str_value values "method");
  level ← read_level (str_value values "level");
  Some (mkAddApiValues (str_value values "name") method (str_value values "path")
    (match obj_get values "description" with Some (JStr s) => Some s | _ => None end) (Some level)
    (match obj_get values "category_id" with Some (JNum z) => Some z | _ => None end)).

(** ** Lemmas *)

Section Validated.
Context {validate : list FormItem -> Values -> outcome unit} `{!FormLibrary validate}.
Context (items : list FormItem) (values : Values).
Hypothesis Hvalid : validate items values = Ret tt.
Hypothesis Hentered : entered items values.

Lemma validated_rule i f r : i ∈ items -> field i = Some f -> r ∈ rules i -> rule_holds (obj_get values f) r = true.
Proof.
  intros Hi Hf Hr. pose proof (validated items values Hvalid) as H.
  rewrite forallb_forall in H. specialize (H i (proj1 (list_elem_of_In _ _) Hi)). unfold item_holds in H.
  rewrite Hf, forallb_forall in H. by apply H, list_elem_of_In.
Qed.

Lemma entered_value i f v : i ∈ items -> field i = Some f -> obj_get values f = Some v ->
  match choices i with Some l => v ∈ l | None => exists s, v = JStr s end.
Proof.
  intros Hi Hf Hv. unfold entered in Hentered. rewrite Forall_forall in Hentered. specialize (Hentered i Hi).
  unfold item_entered in Hentered. rewrite Hf in Hentered. apply (Hentered v Hv).
Qed.

(** A required field has a value its input offers, and not the empty text. *)
Lemma required_value i f m : i ∈ items -> field i = Some f -> Required m ∈ rules i ->
  exists v, obj_get values f = Some v /\ v <> JStr "" /\
    match choices i with Some l => v ∈ l | None => v = JStr (str_value values f) end.
Proof.
  intros Hi Hf Hr. pose proof (validated_rule i f _ Hi Hf Hr) as H. pose proof (entered_value i f) as He.
  unfold str_value. destruct (obj_get values f) as [v|]; [|done]. exists v. split; [done|].
  split; [by intros ->|]. specialize (He v Hi Hf eq_refl). destruct (choices i); [done|].
  by destruct He as [s ->].
Qed.

Lemma required_text i f m : i ∈ items -> field i = Some f -> Required m ∈ rules i -> choices i = None ->
  obj_get values f = Some (JStr (str_value values f)) /\ str_value values f <> "".
Proof.
  intros Hi Hf Hr Hc. destruct (required_value i f m Hi Hf Hr) as (v & Hv & Hne & Hs). rewrite Hc in Hs. subst v.
  split; [done|]. by intros E; rewrite E in Hne.
Qed.

(** A pattern holds of the text of a required field. *)
Lemma matched_text i f m test m' : i ∈ items -> field i = Some f -> Required m ∈ rules i -> choices i = None ->
  Matches test m' ∈ rules i -> test (str_value values f) = true.
Proof.
  intros Hi Hf Hr Hc Hm. pose proof (validated_rule i f _ Hi Hf Hm) as H.
  destruct (required_text i f m Hi Hf Hr Hc) as [E _]. by rewrite E in H.
Qed.
End Validated.

(** Taking [method_name] and [level_name] back. *)
Lemma read_method_name v : v ∈ method_choices -> exists m, v = JStr (method_name m) /\ read_method (method_name m) = Some m.
Proof. intros (m & -> & _)%list_elem_of_fmap. exists m. by destruct m. Qed.
Lemma read_level_name v : v ∈ level_choices -> exists l, v = JStr (level_name l) /\ read_level (level_name l) = Some l.
Proof. intros (l & -> & _)%list_elem_of_fmap. exists l. by destruct l. Qed.

(** The characters of an identifier the creation form accepts. *)
Definition uuid_text_char (c : ascii) : bool := uuid_char c || Ascii.eqb c "/".

Lemma valid_uuid_chars s : valid_uuid s = true -> s <> "" /\ str_forallb uuid_text_char s = true.
Proof.
  unfold valid_uuid. intros H. pose proof (join_split_on "/" s) as E.
  destruct (split_on "/" s) as [|a [|b [|c []]]]; try done. rewrite !andb_true_iff in H.
  destruct H as [[Ha Hb] Hc]. unfold uuid_part in *. rewrite !andb_true_iff in *.
  assert (Hi : forall x, str_forallb uuid_char x = true -> str_forallb uuid_text_char x = true).
  { intros x. apply str_forallb_impl. intros d Hd. unfold uuid_text_char. by rewrite Hd. }
  split; [intros ->; by destruct a|]. rewrite <-E. cbn [join].
  rewrite !str_forallb_app. rewrite (Hi a), (Hi b), (Hi c) by tauto. done.
Qed.

Ltac in_form := repeat first [by left | right].

(** Concrete values that a form's inputs can hold. *)
Ltac enter_values :=
  repeat (apply List.Forall_cons;
    [first [exact I | intros v [= <-]; (split; [cbn; first [by eexists | in_form]|intros; discriminate])]|]);
  apply List.Forall_nil.

(** ** Properties *)

(** What the registration form lets through passes the hook's own check of the
    role, which its choices repeat, and every role offered has a colour; no field
    posted is empty.  So the hook complains exactly of passwords that differ, a
    malformed user name or a malformed address. *)
Theorem registration_checked (validate : list FormItem -> Values -> outcome unit) (lib : FormLibrary validate) t values
  (Hentered : entered (RegisterForm t) values) (Hvalid : validate (RegisterForm t) values = Ret tt) :
  let '(d, confirm) := register_values values in
  reg_username d <> "" /\ reg_nickname d <> "" /\ reg_email d <> "" /\ reg_password d <> "" /\ confirm <> "" /\
  is_Some (obj_get roleColorMap (reg_role d)) /\
  (register_error d confirm = None <->
   reg_password d = confirm /\ valid_username (reg_username d) = true /\ valid_email (reg_email d) = true).
Proof.
  assert (Htext : forall f m, required_item f m ∈ RegisterForm t -> str_value values f <> "").
  { intros f m Hi. apply (required_text _ _ Hvalid Hentered _ f m Hi); [done|by left|done]. }
  assert (Hrole : str_value values "role" ∈ VALID_ROLES).
  { edestruct (required_value _ _ Hvalid Hentered (select_item "role" (t "register.roleRequired") None
      (map JStr VALID_ROLES)) "role") as (v & Hv & _ & Hc); [in_form|done|by left|].
    unfold str_value. rewrite Hv. cbn [choices select_item] in Hc.
    apply list_elem_of_fmap in Hc as (s & -> & Hs). exact Hs. }
  unfold register_values. cbn [reg_username reg_nickname reg_email reg_password reg_role].
  do 5 (split; [eapply Htext; in_form|]).
  split.
  { assert (Ha : Forall (fun r => is_Some (obj_get roleColorMap r)) VALID_ROLES) by (repeat constructor; by eexists).
    rewrite Forall_forall in Ha. by apply Ha. }
  unfold register_error. cbn [reg_username reg_email reg_password reg_role].
  rewrite (bool_decide_eq_true_2 _ Hrole).
  destruct (String.eqb_spec (str_value values "password") (str_value values "confirmPassword"));
    destruct (valid_username _), (valid_email _); cbn [negb]; split; intros H; try done; by destruct H as (? & ? & ?).
Qed.

Definition ann_values : Values :=
  [("username", JStr "ann_1"); ("nickname", JStr "Ann"); ("email", JStr "ann@cam.cn"); ("role", JStr "qa");
   ("password", JStr "secret"); ("confirmPassword", JStr "secret")].

Lemma registration_checked_witness :
  entered (RegisterForm id) ann_values /\ check_rules (RegisterForm id) ann_values = Ret tt /\
  reg_password (fst (register_values ann_values)) <> "" .
Proof.
  assert (He : entered (RegisterForm id) ann_values) by enter_values.
  split; [exact He|]. split; [reflexivity|].
  pose proof (registration_checked check_rules check_rules_library id ann_values He eq_refl) as H.
  destruct H as (_ & _ & _ & H & _). exact H.
Defined.

(** What the form that adds an API lets through is a request the drafts can
    hold: a name without Chinese characters, a path that starts with a slash, and
    a category of the service or none.  The choice [未分类] is sent as no
    category, as is any category whose id is not positive. *)
Theorem added_api_checked (validate : list FormItem -> Values -> outcome unit) (lib : FormLibrary validate) cats values
  (Hentered : entered (AddApiForm cats) values) (Hvalid : validate (AddApiForm cats) values = Ret tt) :
  exists v, add_api_values values = Some v /\ forall iterationId,
    let r := add_api_request iterationId v in
    add_iteration_id r = iterationId /\
    add_name r <> "" /\ no_cjk (add_name r) = true /\
    starts_with_slash (add_path r) = true /\ no_cjk (add_path r) = true /\
    str_value values "name" = add_name r /\ str_value values "path" = add_path r /\
    str_value values "method" = method_name (add_method r) /\ str_value values "level" = level_name (add_level r) /\
    match add_category_id r with
    | Some c => exists cat, cat ∈ cats /\ cat_id cat = c
    | None => obj_get values "category_id" = Some (JNum (-1)) \/
              exists cat, cat ∈ cats /\ obj_get values "category_id" = Some (JNum (cat_id cat)) /\ (cat_id cat <= 0)%Z
    end.
Proof.
  set (name_item := mkFormItem (Some "name") name_rules None None None).
  set (path_item := mkFormItem (Some "path")
    [Required "请输入 API 路径"; Matches starts_with_slash "路径必须以 / 开头";
     Matches no_cjk "API 路径不能包含中文"] None None None).
  assert (Hn : name_item ∈ AddApiForm cats) by in_form. assert (Hp : path_item ∈ AddApiForm cats) by in_form.
  edestruct (required_value _ _ Hvalid Hentered (select_item "method" "请选择请求方法" (Some (JStr "GET")) method_choices)
    "method") as (vm & Hm & _ & Hmc); [in_form|done|by left|].
  edestruct (required_value _ _ Hvalid Hentered (select_item "level" "请选择接口等级" (Some (JStr "P2")) level_choices)
    "level") as (vl & Hl & _ & Hlc); [in_form|done|by left|].
  edestruct (required_value _ _ Hvalid Hentered (select_item "category_id" "请选择所属分类" (Some (JNum (-1)))
    (category_choices cats)) "category_id") as (vc & Hc & _ & Hcc); [in_form|done|by left|].
  cbn [choices select_item] in Hmc, Hlc, Hcc.
  destruct (read_method_name _ Hmc) as (m & -> & Em). destruct (read_level_name _ Hlc) as (l & -> & El).
  assert (Esm : str_value values "method" = method_name m) by (unfold str_value; by rewrite Hm).
  assert (Esl : str_value values "level" = level_name l) by (unfold str_value; by rewrite Hl).
  eexists. split; [unfold add_api_values; rewrite Esm, Em, Esl, El; reflexivity|].
  intros it. cbn [add_api_request add_iteration_id add_name add_path add_method add_level add_category_id
    val_name val_method val_path val_level val_category_id default].
  split; [done|].
  split; [apply (required_text _ _ Hvalid Hentered name_item "name" "请输入 API 名称" Hn); [done|by left|done]|].
  split; [apply (matched_text _ _ Hvalid Hentered name_item "name" "请输入 API 名称" no_cjk "API 名称不能包含中文" Hn);
    [done|by left|done|in_form]|].
  split; [apply (matched_text _ _ Hvalid Hentered path_item "path" "请输入 API 路径" starts_with_slash "路径必须以 / 开头" Hp);
    [done|by left|done|in_form]|].
  split; [apply (matched_text _ _ Hvalid Hentered path_item "path" "请输入 API 路径" no_cjk "API 路径不能包含中文" Hp);
    [done|by left|done|in_form]|].
  do 2 (split; [done|]). do 2 (split; [done|]).
  unfold category_choices in Hcc. rewrite elem_of_app, list_elem_of_singleton in Hcc. rewrite Hc.
  destruct Hcc as [(c & -> & Hin)%list_elem_of_fmap| ->]; [|by left].
  destruct (Z.ltb_spec 0 (cat_id c)); [by exists c|]. right. by exists c.
Qed.

Definition add_values : Values :=
  [("name", JStr "listUsers"); ("method", JStr "GET"); ("path", JStr "/users"); ("level", JStr "P2");
   ("category_id", JNum 7)].
Definition user_category : ApiCategory := mkApiCategory 7 "users" None.

Lemma added_api_checked_witness :
  exists v, add_api_values add_values = Some v /\ add_category_id (add_api_request 3 v) = Some 7%Z /\
    starts_with_slash (add_path (add_api_request 3 v)) = true.
Proof.
  assert (He : entered (AddApiForm [user_category]) add_values) by enter_values.
  destruct (added_api_checked check_rules check_rules_library [user_category] add_values He eq_refl) as (v & Hv & H).
  exists v. split; [exact Hv|]. destruct (H 3%Z) as (_ & _ & _ & Hp & _). split; [|exact Hp].
  vm_compute in Hv. by injection Hv as <-.
Defined.

(** The version the completion form starts with is one it accepts. *)
Theorem completion_form_initial x y z :
  let cur := show_version (x, y, z) in
  check_rules (CompleteIterationForm cur) [("new_version", JStr (suggestVersion cur))] = Ret tt.
Proof.
  destruct (suggestVersion_valid x y z) as [E Hv]. cbv zeta. unfold check_rules.
  pose proof (show_version_nonempty (x, y, (z + 1)%N)) as Hne. rewrite <-E in Hne.
  assert (Hr : rule_holds (Some (JStr (suggestVersion (show_version (x, y, z))))) (Required "请输入新版本号") = true).
  { unfold rule_holds. by destruct (suggestVersion (show_version (x, y, z))). }
  assert (Hok : rule_holds (Some (JStr (suggestVersion (show_version (x, y, z)))))
    (Validator (validateVersion (show_version (x, y, z)))) = true) by (by apply bool_decide_eq_true_2).
  unfold CompleteIterationForm, item_holds. cbn [forallb field rules].
  change (obj_get [("new_version", ?v)] "new_version") with (Some v). by rewrite Hr, Hok.
Qed.
