(* ===== verification/Shell.v ===== *)
(** * The shell of the front-end

    What surrounds the pages: the routes and their guard ([router.tsx]), start-up
    ([App.tsx]), the header, sidebar and watermark of [components/Layout], the
    profile menu ([User/Profile.tsx]), the two home pages
    ([ServiceManagement/index.tsx], [WelcomeView.tsx]) and the user picker
    ([ServiceManagement/UserSelect.tsx]).  A session composes them with the user
    store: what is open, who is signed in, and what the browser keeps. *)

From S2P Require Import Prelude JsObject ApiTypes FeTypes FeHttp ThisService ServiceHome UserStore JsNumber Views Forms.
From Stdlib Require Import Ascii String ZArith Lia.

(** ** Addresses *)

(** The text before the first [sep], and what follows it. *)
Definition cut (sep : ascii) (s : string) : string * string :=
  let '(a, r) := span (fun c => negb (Ascii.eqb c sep)) s in
  (a, match r with String _ r' => r' | EmptyString => "" end).

(** An address is a path, a query after [?] and a fragment after [#]. *)
Definition pathname (to : string) : string := fst (cut "?" (fst (cut "#" to))).
Definition search (to : string) : string := snd (cut "?" (fst (cut "#" to))).

(** Decoding of [application/x-www-form-urlencoded]: [+] is a space, [%XY] a
    byte. *)
Fixpoint form_decode (s : string) : string :=
  match s with
  | String c s' =>
      if Ascii.eqb c "+" then String " " (form_decode s')
      else match s' with
           | String x (String y r) =>
               match hex_digit x, hex_digit y with
               | Some a, Some b =>
                   if Ascii.eqb c "%" then String (ascii_of_N (Z.to_N (16 * a + b))) (form_decode r)
                   else String c (form_decode s')
               | _, _ => String c (form_decode s')
               end
           | _ => String c (form_decode s')
           end
  | EmptyString => ""
  end.

(** [new URLSearchParams(query).get(name)]. *)
Definition search_get (query name : string) : option string :=
  let pairs := map (fun p => let '(k, v) := cut "=" p in (form_decode k, form_decode v))
                 (List.filter (fun p => negb (String.eqb p "")) (split_on "&" query)) in
  snd <$> List.find (fun kv => String.eqb (fst kv) name) pairs.

(** [searchParams.get("uuid") || ""] of [ApiManagement/index.tsx]. *)
Definition uuid_param (to : string) : string := default "" (search_get (search to) "uuid").

(** ** The session *)

Inductive Page := HomePage | ServicePage (uuid : string) | NoPage.

Record Session := mkSession { store : UserStore; shown : Page }.

Definition on_store {A} (m : UI UserStore A) : UI Session A := fun s =>
  let '(o, s') := m (mkFe (browser s) (store (hook s))) in
  (o, mkFe (browser s') (mkSession (hook s') (shown (hook s)))).

Definition show_page (p : Page) : UI Session unit := set_hook (fun s => mkSession (store s) p).

(** The router's matching of a path against a route's: a route matches its own
    path, and no route matches the path of the other. *)
Class Router (matches : string -> string -> bool) := {
  matches_self p : matches p p = true;
  matches_apart : matches "/" "/service" = false
}.

#[export] Instance exact_router : Router String.eqb.
Proof. split; [exact String.eqb_refl|done]. Qed.

Section Shell.
Variable matches : string -> string -> bool.
Variable server : Server.
Variable t : string -> string.

(** [requireAuthLoader]: the redirection, if any. *)
Definition requireAuthLoader {H} : UI H (option string) :=
  s ← get_state;
  if falsy (access_token (browser s))
  then toast_up (Warning (t "common.loginFirst")) ;; mret (Some "/")
  else mret None.

(** The routes: the home page at [/], the page of a service at [/service] behind
    the guard, whose redirection goes to the home page. *)
Definition open (to : string) : UI Session unit :=
  if matches "/" (pathname to) then navigate to ;; show_page HomePage
  else if matches "/service" (pathname to) then
    redirect ← requireAuthLoader;
    match redirect with
    | Some to' => navigate to' ;; show_page HomePage
    | None => navigate to ;; show_page (ServicePage (uuid_param to))
    end
  else navigate to ;; show_page NoPage.

(** The effect of [App]. *)
Definition app_effect (now : Z) : UI Session unit :=
  s ← get_state;
  if falsy (access_token (browser s)) || bool_decide (is_Some (user (store (hook s)))) then mret ()
  else on_store (fetchUser server now).

(** Loading the application at the browser's address: the store is created, the
    router runs the loader, then the effect runs. *)
Definition start (now : Z) (b : Browser) : outcome unit * Fe Session :=
  let s := init_store now b in
  (open (route b) ;; app_effect now) (mkFe (browser s) (mkSession (hook s) NoPage)).

(** ** What the user can do *)

(** [handleMenuClick] of the sidebar. *)
Definition handleMenuClick (key : string) : UI Session unit :=
  if String.eqb key "/service" then toast_up (Warning "请通过首页服务列表进入服务详情")
  else open key.

(** The logout item of the profile menu. *)
Definition profile_logout : UI Session unit := on_store logout ;; open "/".

(** [ClickTitle]: the title of the header, which leads home.  [RefusedRequest]:
    some request of a page was answered 401, or not at all. *)
Inductive SessionEvent :=
| Open (to : string)
| ClickMenu (key : string)
| ClickTitle
| SubmitLogin (validate : outcome unit) (formData : LoginRequest)
| SubmitRegister (validate : outcome unit) (formData : RegisterRequest) (confirmPassword : string)
| SubmitPassword (validate : outcome unit) (formData : ModifyPasswordRequest)
| ClickLogout
| RefusedRequest.

(** The forms of login and registration are offered to guests, by the header and by
    [WelcomeGuest]; the profile menu, with the form of the password, to users. *)
Definition session_event (now : Z) (e : SessionEvent) : UI Session unit :=
  s ← get_hook;
  match e, user (store s) with
  | Open to, _ => open to
  | ClickMenu key, _ => handleMenuClick key
  | ClickTitle, _ => open "/"
  | SubmitLogin ok d, None => on_store (loginModal_onOk server now t ok d)
  | SubmitRegister ok d again, None => on_store (registerModal_onOk server t ok d again)
  | SubmitPassword ok d, Some _ => on_store (modifyPasswordModal_onOk server t ok d)
  | ClickLogout, Some _ => profile_logout
  | RefusedRequest, _ => set_browser drop_credentials
  | _, _ => mret tt
  end.

(** An event, then what it triggers: the page starts again when it was reloaded,
    and the effect of [App] runs when the user changed. *)
Definition session_step (now : Z) (e : SessionEvent) (s : Fe Session) : Fe Session :=
  let s' := (session_event now e s).2 in
  if decide (reloads (browser s') = reloads (browser s)) then
    if Bool.eqb (bool_decide (is_Some (user (store (hook s'))))) (bool_decide (is_Some (user (store (hook s))))) then s'
    else (app_effect now s').2
  else (start now (browser s')).2.

(** ** What the layout shows *)

(** The avatar of [Layout/Header] and of [Profile]: the first character of the
    nickname or of the user name; [None] is the button that opens the login. *)
Definition layout_avatar (u : option UserProfile) : option string :=
  (fun u => str_or (first_char (nickname u)) (first_char (username u))) <$> u.
Definition watermark (u : option UserProfile) : string :=
  match u with Some u => str_or (username u) "Guest" | None => "Guest" end.

(** [Profile]: the name shown, the address, the role. *)
Definition profile_card (u : UserProfile) : string * string * Tag :=
  (str_or (nickname u) (username u), email u, genUserRoleTag t (role u)).

(** The entries of the sidebar. *)
Definition tabList : list (string * string) := [("/", t "nav.home"); ("/service", t "nav.apiDefinition")].

(** [ServiceManagement]: the welcome page of a guest or the list of a user, with
    the tabs [LoggedInView] offers by level. *)
Definition home_tabs (u : option UserProfile) : option (list ServiceRange) :=
  (fun u => [RangeMy; RangeMaintained; RangeDeleted] ++
            (if (level u =? 0)%Z then [RangeHis] else []) ++ (if (level u =? 0)%Z then [RangeAll] else [])) <$> u.

(** ** The language menu *)

(** The languages [i18n/index.ts] has texts for. *)
Definition resources : list string := ["zh-CN"; "en-US"].

(** i18next: a language with texts, once changed to, is the one resolved. *)
Class I18n (L : Type) (changeLanguage : string -> L -> L) (resolvedLanguage : L -> option string) := {
  language_resolves lang l : lang ∈ resources -> resolvedLanguage (changeLanguage lang l) = Some lang
}.

#[export] Instance own_languages : I18n string (fun lang _ => lang) Some.
Proof. done. Qed.

Section Language.
Context {L : Type} (changeLanguage : string -> L -> L) (resolvedLanguage : L -> option string).

Definition toggleLanguage (lang : string) : UI L unit := set_hook (changeLanguage lang).

(** The entries of the menu of [Layout/Header], and the text of its button. *)
Definition languageMenu : list (UI L unit * string) :=
  [(toggleLanguage "zh-CN", "中文"); (toggleLanguage "en-US", "English")].
Definition language_button (l : L) : string :=
  if bool_decide (resolvedLanguage l = Some "zh-CN") then "中文" else "English".
End Language.

(** ** The user picker *)

Record UserSelect := mkUserSelect { fetching : bool; select_options : list (Z * Tag * string) }.

Definition user_option (u : UserProfile) : Z * Tag * string :=
  (user_id u, genUserRoleTag t (role u), nickname u +:+ " (" +:+ username u +:+ ") - " +:+ email u).

Definition handleSearch (value : string) : UI UserSelect unit :=
  if (js_length value <? 2)%nat then mret ()
  else
    finally
      (try_catch (
        set_hook (fun s => mkUserSelect true (select_options s)) ;;
        users ← getUserByUsernameOrNicknameOrEmail server value;
        set_hook (fun s => mkUserSelect (fetching s) (map user_option users)))
        (fun e => toast_up (Failure (message_or (t "common.failure") e))))
      (fun s => mkFe (browser s) (mkUserSelect false (select_options (hook s)))).

(** [onChange]; no value is [NaN]. *)
Definition choose_user (value : option Z) : UI ServiceHome unit :=
  match value with
  | Some i => onSelectId i
  | None => toast_up (Warning "选择的用户ID异常")
  end.
End Shell.

(** ** Lemmas: addresses *)

Lemma cut_lacks sep s : lacks sep s = true -> cut sep s = (s, "").
Proof.
  intros H. unfold cut. pose proof (span_app (fun c => negb (Ascii.eqb c sep)) s "" H I) as E.
  rewrite str_app_nil_r in E. by rewrite E.
Qed.

Lemma cut_app sep a r : lacks sep a = true -> cut sep (a +:+ String sep r) = (a, r).
Proof.
  intros H. unfold cut. rewrite (span_app (fun c => negb (Ascii.eqb c sep)) a (String sep r) H); [done|].
  by rewrite Ascii.eqb_refl.
Qed.

Lemma form_decode_plain s :
  str_forallb (fun c => negb (Ascii.eqb c "+") && negb (Ascii.eqb c "%")) s = true -> form_decode s = s.
Proof.
  induction s as [|c s IH]; [done|]. cbn [str_forallb]. rewrite !andb_true_iff, !negb_true_iff. intros [[Hp Hq] Hs].
  specialize (IH Hs). cbn [form_decode]. rewrite Hp, Hq.
  destruct s as [|x [|y r]]; [done|by rewrite IH|]. rewrite IH. by destruct (hex_digit x), (hex_digit y).
Qed.

(** The characters that a query keeps as they are. *)
Definition query_char (c : ascii) : bool :=
  negb (Ascii.eqb c "#" || Ascii.eqb c "&" || Ascii.eqb c "+" || Ascii.eqb c "%").

Lemma uuid_param_plain u : str_forallb query_char u = true ->
  pathname ("/service?uuid=" +:+ u) = "/service" /\ uuid_param ("/service?uuid=" +:+ u) = u.
Proof.
  intros Hu.
  assert (Hl : forall c, query_char c = false -> lacks c u = true).
  { intros c Hc. unfold lacks. eapply str_forallb_impl; [|exact Hu]. intros d Hd.
    apply negb_true_iff, Ascii.eqb_neq. intros ->. by rewrite Hc in Hd. }
  assert (Hh : cut "#" ("/service?uuid=" +:+ u) = ("/service?uuid=" +:+ u, "")).
  { apply cut_lacks. unfold lacks. rewrite str_forallb_app. by apply (Hl "#"%char). }
  assert (Hq : cut "?" ("/service?uuid=" +:+ u) = ("/service", "uuid=" +:+ u)) by exact (cut_app "?" "/service" ("uuid=" +:+ u) eq_refl).
  unfold pathname, uuid_param, search. rewrite Hh. cbn [fst]. rewrite Hq. cbn [fst snd]. split; [done|].
  unfold search_get. rewrite split_on_lacks.
  2: { unfold lacks. rewrite str_forallb_app. by apply (Hl "&"%char). }
  cbn [List.filter]. replace (String.eqb ("uuid=" +:+ u) "") with false by done. cbn [negb map].
  change (cut "=" ("uuid=" +:+ u)) with (cut "=" ("uuid" +:+ String "=" u)). rewrite cut_app by done.
  rewrite (form_decode_plain u).
  2: { eapply str_forallb_impl; [|exact Hu]. intros c. unfold query_char. rewrite negb_true_iff, !orb_false_iff.
       by intros [[[_ _] ->] ->]. }
  done.
Qed.

Lemma valid_uuid_query u : valid_uuid u = true -> str_forallb query_char u = true.
Proof.
  intros [_ H]%valid_uuid_chars. eapply str_forallb_impl; [|exact H]. intros c.
  unfold query_char. intros Hc. apply negb_true_iff.
  repeat (apply orb_false_iff; split); apply Ascii.eqb_neq; intros ->; by vm_compute in Hc.
Qed.

(** ** Lemmas: the session *)

(** What a session keeps between events: nothing is loading, a stored token is the
    one the store's closure holds, and a known user has one. *)
Definition signed_ok (b : Browser) (u : UserStore) : Prop :=
  us_loading u = false /\ (falsy (access_token b) = true \/ token u = access_token b) /\
  (is_Some (user u) -> falsy (access_token b) = false).

Lemma getAccessToken_stored b : falsy (access_token b) = false -> getAccessToken b = access_token b.
Proof. unfold falsy, getAccessToken. destruct (access_token b) as [k|]; [|done]. by intros ->. Qed.

Lemma init_signed now b : let s := init_store now b in
  signed_ok (browser s) (hook s) /\ access_token (browser s) = access_token b /\ sent (browser s) = sent b /\
  reloads (browser s) = reloads b /\ route (browser s) = route b /\ messages (browser s) = messages b.
Proof.
  unfold init_store. destruct (falsy (access_token b)) eqn:E;
    [|destruct (user_store_ttl b) as [ttl|]; [case_match|]].
  - assert (H : forall b', access_token b' = access_token b -> user_store b' = None ->
      signed_ok b' (mkUserStore (default None (user_store b')) false (access_token b))).
    { intros b' H1 H2. rewrite H2. split; [done|]. split; [by rewrite H1; left|]. by intros []. }
    cbn [user_store_ttl with_user_store]. destruct (user_store_ttl b) as [ttl|]; [case_match|]; by split; [apply H|].
  - split; [|done]. split; [done|]. split; [by right|done].
  - split; [|done]. split; [done|]. split; [by right|done].
  - split; [|done]. split; [done|]. split; [by right|done].
Qed.

Section SessionLemmas.
Context (matches : string -> string -> bool) (server : Server) (t : string -> string).

(** Loading the user, when the token held is the stored one and no user is
    known. *)
Lemma fetchUser_signed now s :
  falsy (token (hook s)) = false -> access_token (browser s) = token (hook s) -> user (hook s) = None ->
  let '(o, s') := fetchUser server now s in
  o = Ret tt /\ us_loading (hook s') = false /\ token (hook s') = token (hook s) /\
  route (browser s') = route (browser s) /\
  sent (browser s') = sent (browser s) ++ [(token (hook s), encode GetMyInfo)] /\
  match server _ (sent (browser s)) (token (hook s)) GetMyInfo with
  | NetOk res =>
      if decide (status res <> 200%Z) then user (hook s') = None /\ access_token (browser s') = None
      else user (hook s') = payload res /\ access_token (browser s') = token (hook s)
  | NetErr _ _ _ => user (hook s') = None /\ access_token (browser s') = None
  end.
Proof.
  intros Htoken Hstored Huser. unfold fetchUser. rewrite (bind_Ret _ _ s (hook s) s) by done.
  rewrite Htoken, Huser. cbn [is_Some]. rewrite bool_decide_eq_false_2 by (by intros []). cbn [andb].
  erewrite bind_Ret by reflexivity. unfold try_catch.
  set (p := mkFe _ _).
  assert (Ht : getAccessToken (browser p) = token (hook s)).
  { rewrite getAccessToken_stored; [exact Hstored|]. change (access_token (browser p)) with (access_token (browser s)).
    by rewrite Hstored. }
  unfold mbind at 1, M_bind at 1. unfold request at 1. rewrite Ht. change (sent (browser p)) with (sent (browser s)).
  destruct (server _ (sent (browser s)) (token (hook s)) GetMyInfo) as [res|n st msg].
  - case_decide; simpl; by rewrite ?Hstored.
  - by destruct (n || _).
Qed.

Lemma fetchUser_ok now s :
  signed_ok (browser s) (hook s) -> access_token (browser s) = token (hook s) ->
  exists s', fetchUser server now s = (Ret tt, s') /\ signed_ok (browser s') (hook s') /\
    route (browser s') = route (browser s).
Proof.
  intros Hs Ht. pose proof Hs as (Hl & _ & Hu). destruct (falsy (token (hook s))) eqn:Ef.
  { exists s. split; [|done]. unfold fetchUser. rewrite (bind_Ret _ _ s (hook s) s) by done. by rewrite Ef. }
  destruct (user (hook s)) as [u|] eqn:Eu.
  { exists s. split; [|done]. unfold fetchUser. rewrite (bind_Ret _ _ s (hook s) s) by done.
    rewrite Ef, Eu, Hl. rewrite bool_decide_eq_true_2 by (by eexists). done. }
  pose proof (fetchUser_signed now s Ef Ht Eu) as H. destruct (fetchUser server now s) as [o s'].
  destruct H as (-> & Hl' & Ht' & Hr & _ & H). exists s'. split; [done|]. split; [|done]. unfold signed_ok.
  split; [done|]. destruct (server _ _ _ _) as [res|n st msg]; [case_decide|]; destruct H as [Eu' Ea]; rewrite Eu', Ea.
  - split; [by left|by intros []].
  - split; [by right|done].
  - split; [by left|by intros []].
Qed.

(** Opening an address changes the page and the address, and says so. *)
Lemma open_run to s : exists b p, open matches t to s = (Ret tt, mkFe b (mkSession (store (hook s)) p)) /\
  access_token b = access_token (browser s) /\ sent b = sent (browser s) /\ reloads b = reloads (browser s) /\
  user_store b = user_store (browser s).
Proof.
  unfold open. destruct (matches "/" _); [by do 2 eexists|]. destruct (matches "/service" _); [|by do 2 eexists].
  unfold requireAuthLoader. destruct (falsy (access_token (browser s))) eqn:E.
  - erewrite bind_Ret; [|erewrite bind_Ret by reflexivity; rewrite E; reflexivity]. by do 2 eexists.
  - erewrite bind_Ret; [|erewrite bind_Ret by reflexivity; rewrite E; reflexivity]. by do 2 eexists.
Qed.

Lemma on_store_run {A} (m : UI UserStore A) s o s' :
  m (mkFe (browser s) (store (hook s))) = (o, s') ->
  on_store m s = (o, mkFe (browser s') (mkSession (hook s') (shown (hook s)))).
Proof. unfold on_store. by intros ->. Qed.

Lemma app_effect_ok now s :
  signed_ok (browser s) (store (hook s)) ->
  exists s', app_effect server now s = (Ret tt, s') /\ signed_ok (browser s') (store (hook s')) /\
    shown (hook s') = shown (hook s) /\ route (browser s') = route (browser s).
Proof.
  intros Hs. unfold app_effect. rewrite (bind_Ret _ _ s s s) by done.
  destruct (falsy (access_token (browser s))) eqn:Ef; [by exists s|].
  case_bool_decide as Hknown; [by exists s|]. cbn [orb].
  destruct (fetchUser_ok now (mkFe (browser s) (store (hook s))) Hs) as (s' & E & H & Hr).
  { destruct Hs as (_ & [Hf|Ht] & _); [by rewrite Hf in Ef|done]. }
  rewrite (on_store_run _ _ _ _ E). eexists. split; [done|]. by split.
Qed.

Lemma start_ok now b : exists s, start matches server t now b = (Ret tt, s) /\ signed_ok (browser s) (store (hook s)).
Proof.
  unfold start. destruct (init_signed now b) as (Hs & Ha & _). set (s := init_store now b) in *.
  destruct (open_run (route b) (mkFe (browser s) (mkSession (hook s) NoPage))) as (b' & p & E & Ha' & _).
  rewrite (bind_Ret _ _ _ _ _ E). cbn [hook store].
  destruct (app_effect_ok now (mkFe b' (mkSession (hook s) p))) as (s' & -> & H & _).
  { cbn [browser hook store] in *. unfold signed_ok in *. by rewrite Ha'. }
  by exists s'.
Qed.

(** Logging in from a state without a user. *)
Lemma login_ok now d s :
  signed_ok (browser s) (hook s) -> user (hook s) = None ->
  signed_ok (browser (login server now d s).2) (hook (login server now d s).2) \/
  reloads (browser (login server now d s).2) <> reloads (browser s).
Proof.
  intros Hs Hu. unfold login. destruct (server _ (sent (browser s)) (getAccessToken (browser s)) (UserLogin d)) as [res|n st msg] eqn:E.
  - left. rewrite (bind_Ret _ _ _ _ _ (fe_request_NetOk server _ s res E)). case_decide; [exact Hs|].
    do 2 (erewrite bind_Ret by reflexivity).
    match goal with |- context [(fetchUser server now ≫= _) ?p] => destruct (fetchUser_ok now p) as (s' & E' & H' & _) end.
    + destruct Hs as (H1 & _ & _). split; [exact H1|]. split; [by right|]. cbn [hook setClosureToken user]. rewrite Hu. by intros [].
    + done.
    + by rewrite (bind_Ret _ _ _ _ _ E').
  - assert (E' : request server (UserLogin d) s = (Throw (ApiError (str_or msg "Request error")),
      mkFe (let b := with_sent (getAccessToken (browser s), encode (UserLogin d)) (browser s) in
            if n || bool_decide (st = Some 401%Z) then drop_credentials b else b) (hook s))).
    { unfold request. by rewrite E. }
    rewrite (bind_Throw _ _ _ _ _ E'). cbn [snd browser hook].
    destruct (n || bool_decide (st = Some 401%Z)); [right; simpl; lia|left; exact Hs].
Qed.
(** A form's [onOk] leaves the state of its submission, or the one before. *)
Lemma modal_state {A} validate (submit : UI UserStore (Response A)) success failure s :
  let s' := (modal_onOk t validate submit success failure s).2 in
  exists p, (p = s \/ p = (submit s).2) /\ hook s' = hook p /\
    access_token (browser s') = access_token (browser p) /\ reloads (browser s') = reloads (browser p).
Proof.
  unfold modal_onOk, try_catch. destruct validate as [[]|e|c].
  - rewrite (bind_Ret _ _ s tt s) by done. unfold mbind, M_bind. exists (submit s).2.
    destruct (submit s) as [[d|e|c] p]; by split; [right|].
  - exists s. by split; [left|].
  - exists s. by split; [left|].
Qed.

Lemma modal_ok {A} validate (submit : UI UserStore (Response A)) success failure s :
  signed_ok (browser s) (store (hook s)) ->
  (forall p, p = mkFe (browser s) (store (hook s)) ->
     signed_ok (browser (submit p).2) (hook (submit p).2) \/ reloads (browser (submit p).2) <> reloads (browser p)) ->
  let s' := (on_store (modal_onOk t validate submit success failure) s).2 in
  signed_ok (browser s') (store (hook s')) \/ reloads (browser s') <> reloads (browser s).
Proof.
  intros Hs Hsub. unfold on_store.
  destruct (modal_state validate submit success failure (mkFe (browser s) (store (hook s)))) as (p & Hp & Hh & Ha & Hr).
  destruct (modal_onOk _ _ _ _ _ _) as [o p']. cbn [snd browser hook store] in *.
  unfold signed_ok. rewrite Hh, Ha, Hr. destruct Hp as [-> | ->]; [by left|]. by apply (Hsub _ eq_refl).
Qed.

(** A form that sends a request and checks the status. *)
Lemma sent_ok {A} (e : Endpoint (Response A)) refusal s : signed_ok (browser s) (hook s) ->
  let s' := ((res ← request server e;
              if decide (status res <> 200%Z) then throw (new_error (str_or (message res) refusal)) else mret res)
             : UI UserStore (Response A)) s in
  signed_ok (browser s'.2) (hook s'.2) \/ reloads (browser s'.2) <> reloads (browser s).
Proof.
  intros Hs. unfold mbind, M_bind, request. destruct (server _ _ _ e) as [res|n st msg].
  - left. cbv zeta beta iota. case_decide; exact Hs.
  - cbv zeta beta iota. cbn [snd browser]. destruct (n || _); [right; cbn; lia|left; exact Hs].
Qed.

Lemma event_ok now e s :
  signed_ok (browser s) (store (hook s)) ->
  let s' := (session_event matches server t now e s).2 in
  signed_ok (browser s') (store (hook s')) \/ reloads (browser s') <> reloads (browser s).
Proof.
  intros Hs. cbv zeta. unfold session_event. rewrite (bind_Ret _ _ s (hook s) s) by done.
  assert (Hopen : forall to q, signed_ok (browser q) (store (hook q)) ->
    signed_ok (browser (open matches t to q).2) (store (hook (open matches t to q).2))).
  { intros to q Hq. destruct (open_run to q) as (b & p & -> & Ha & _). unfold signed_ok in *. cbn [snd browser hook store].
    by rewrite Ha. }
  destruct e as [to|key| |ok d|ok d confirmPassword|ok d| |]; [left; by apply Hopen|left| | | | | |].
  - unfold handleMenuClick. case_match; [exact Hs|by apply Hopen].
  - left. by apply Hopen.
  - destruct (user (store (hook s))) eqn:Hu; [by left|]. apply modal_ok; [done|]. intros p ->. by apply login_ok.
  - destruct (user (store (hook s))) eqn:Hu; [by left|]. apply modal_ok; [done|]. intros p ->. unfold register.
    destruct (register_error d confirmPassword); [by left|]. by apply sent_ok.
  - destruct (user (store (hook s))) eqn:Hu; [|by left]. apply modal_ok; [done|]. intros p ->. unfold modifyPassword.
    case_match; [by left|]. by apply sent_ok.
  - destruct (user (store (hook s))) eqn:Hu; [|by left]. left. unfold profile_logout.
    assert (Hr : exists q, on_store logout s = (Ret tt, q) /\ signed_ok (browser q) (store (hook q))).
    { eexists. split; [reflexivity|]. destruct Hs as (Hl & _). split; [exact Hl|]. by split; [left|intros []]. }
    destruct Hr as (q & Hq & Hok). rewrite (bind_Ret _ _ _ _ _ Hq). by apply Hopen.
  - right. simpl. lia.
Qed.

Lemma step_ok now e s :
  signed_ok (browser s) (store (hook s)) ->
  let s' := session_step matches server t now e s in signed_ok (browser s') (store (hook s')).
Proof.
  intros Hs. pose proof (event_ok now e s Hs) as H. cbv zeta in *. unfold session_step.
  set (s' := (session_event matches server t now e s).2) in *. case_decide as Hr.
  - destruct H as [H|H]; [|done]. case_match; [exact H|].
    by destruct (app_effect_ok now s' H) as (q & -> & Hq & _).
  - by destruct (start_ok now (browser s')) as (q & -> & Hq).
Qed.
End SessionLemmas.

(** ** Lemmas: the language *)

(** The button shows the entry chosen last. *)
Lemma language_chosen {L} change resolved `{!I18n L change resolved} entry (s : Fe L) : entry ∈ languageMenu change ->
  let '(o, s') := entry.1 s in
  o = Ret tt /\ language_button resolved (hook s') = entry.2 /\ browser s' = browser s.
Proof.
  intros [<-|[<-|[]]]%list_elem_of_In; (split; [done|]); (split; [|done]);
    unfold language_button; cbn; by rewrite language_resolves by (unfold resources; set_solver).
Qed.

(** ** Properties *)

(** C26. However the application is used - addresses opened, menu entries, logins,
    registrations, changes of the password, logouts, requests refused with a 401,
    reloads, against any servers - whenever a user is shown as signed in a token is
    stored, and it is the one the user store holds; and no loading is left on
    between events.  So a page never calls the server for a known user without a
    token. *)
Theorem session_signed_in matches server0 t now0 b (l : list (Server' * Z * SessionEvent)) :
  let '(o, s0) := start matches server0 t now0 b in
  let s := foldl (fun s e => session_step matches (the_server e.1.1) t e.1.2 e.2 s) s0 l in
  o = Ret tt /\ us_loading (store (hook s)) = false /\
  (is_Some (user (store (hook s))) ->
   exists k, access_token (browser s) = Some k /\ k <> "" /\ token (store (hook s)) = Some k).
Proof.
  destruct (start_ok matches server0 t now0 b) as (s0 & -> & H0). cbv zeta. split; [done|].
  assert (Hok : forall l s, signed_ok (browser s) (store (hook s)) ->
    let s' := foldl (fun s e => session_step matches (the_server e.1.1) t e.1.2 e.2 s) s l in
    signed_ok (browser s') (store (hook s'))).
  { clear. induction l as [|[[srv now] e] l IH]; intros s Hs; [done|]. cbn [foldl]. apply IH. by apply step_ok. }
  destruct (Hok l s0 H0) as (Hl & Ht & Hu). split; [exact Hl|]. intros Hk. specialize (Hu Hk).
  destruct Ht as [Ht|Ht]; [by rewrite Ht in Hu|]. rewrite Ht. unfold falsy in Hu.
  destruct (access_token _) as [k|]; [|done]. exists k. split; [done|]. split; [by apply String.eqb_neq|done].
Qed.

(** Start-up, by what the browser keeps and the server answers.  Without a
    token nothing is asked, nobody is signed in and the page of a service is
    replaced by the home page; with a cached user that has not expired nothing is
    asked either; otherwise one request asks for the user, and any failure drops
    the token.  The guard has run before: after such a failure the page of a
    service stays open, with nobody signed in and no token. *)
Theorem startup_outcome matches (router : Router matches) server t now b :
  let '(o, s) := start matches server t now b in
  let tok := access_token b in
  let cached := match user_store_ttl b with
                | Some ttl => if (ttl <? now)%Z then None else default None (user_store b)
                | None => default None (user_store b)
                end in
  o = Ret tt /\
  (pathname (route b) = "/service" ->
   shown (hook s) = if falsy tok then HomePage else ServicePage (uuid_param (route b))) /\
  if falsy tok then user (store (hook s)) = None /\ sent (browser s) = sent b
  else match cached with
  | Some u => user (store (hook s)) = Some u /\ sent (browser s) = sent b /\ access_token (browser s) = tok
  | None =>
      sent (browser s) = sent b ++ [(tok, encode GetMyInfo)] /\
      match server _ (sent b) tok GetMyInfo with
      | NetOk res =>
          if decide (status res <> 200%Z)
          then user (store (hook s)) = None /\ access_token (browser s) = None
          else user (store (hook s)) = payload res /\ access_token (browser s) = tok
      | NetErr _ _ _ => user (store (hook s)) = None /\ access_token (browser s) = None
      end
  end.
Proof.
  unfold start. destruct (init_signed now b) as (Hs & Ha & Hse & Hre & Hro & _).
  assert (Hu : user (hook (init_store now b)) = (if falsy (access_token b) then None else
    match user_store_ttl b with
    | Some ttl => if (ttl <? now)%Z then None else default None (user_store b)
    | None => default None (user_store b)
    end) /\ token (hook (init_store now b)) = access_token b).
  { unfold init_store. cbn [user token hook]. split; [|done].
    destruct (falsy (access_token b)); cbn [user_store_ttl with_user_store user_store];
      (destruct (user_store_ttl b) as [ttl|]; [case_match|]; done). }
  destruct Hu as [Hu Ht]. set (s0 := init_store now b) in *.
  destruct (open_run matches t (route b) (mkFe (browser s0) (mkSession (hook s0) NoPage))) as (b' & p & E & Ha' & Hse' & _).
  cbn [browser] in Ha', Hse'.
  assert (Hp : pathname (route b) = "/service" ->
    p = if falsy (access_token b) then HomePage else ServicePage (uuid_param (route b))).
  { intros Hpath. unfold open in E. rewrite Hpath, matches_apart, matches_self in E. unfold requireAuthLoader in E.
    rewrite <-Ha. destruct (falsy (access_token (browser s0))) eqn:Ef; cbn [browser] in E;
      (erewrite bind_Ret in E; [|erewrite bind_Ret by reflexivity; cbn [browser]; rewrite Ef; reflexivity]);
      by injection E as _ <-. }
  rewrite (bind_Ret _ _ _ _ _ E). cbn [hook store]. unfold app_effect.
  rewrite (bind_Ret _ _ _ _ _ (eq_refl : get_state (mkFe b' (mkSession (hook s0) p)) = _)). cbn [browser hook store].
  rewrite Ha', Ha, Hu. destruct (falsy (access_token b)) eqn:Ef.
  { cbn [orb]. split; [done|]. split; [exact Hp|]. cbn [hook store browser]. by rewrite Hu, Hse', Hse. }
  cbn [orb]. destruct (match user_store_ttl b with Some _ => _ | None => _ end) as [u|] eqn:Ec.
  { rewrite bool_decide_eq_true_2 by (by eexists). split; [done|]. split; [exact Hp|]. cbn [hook store browser].
    by rewrite Hu, Hse', Hse, Ha', Ha. }
  rewrite bool_decide_eq_false_2 by (by intros []).
  pose proof (fetchUser_signed server now (mkFe b' (hook s0))) as H. cbn [browser hook] in H.
  rewrite Ht, Ha', Ha, Hu, Ef, Hse', Hse in H. specialize (H eq_refl eq_refl eq_refl). unfold on_store. cbn [browser hook store].
  destruct (fetchUser server now (mkFe b' (hook s0))) as [o s']. destruct H as (-> & _ & _ & _ & Hsent & H).
  cbn [hook store shown browser]. split; [done|]. split; [exact Hp|]. split; [exact Hsent|exact H].
Qed.

Definition ann_browser : Browser := mkBrowser (Some "tok") None None [] [] 0 "/service?uuid=a/b/c".
Definition refusing_server : Server := fun T _ _ e =>
  match e in Endpoint T return net T with
  | GetMyInfo => NetOk (mkResponse (-2) "User not found" None)
  | _ => NetErr false None ""
  end.

Lemma startup_outcome_witness :
  let '(o, s) := start String.eqb refusing_server id 5 ann_browser in
  o = Ret tt /\ shown (hook s) = ServicePage "a/b/c" /\ user (store (hook s)) = None /\ access_token (browser s) = None.
Proof.
  pose proof (startup_outcome String.eqb exact_router refusing_server id 5 ann_browser) as H.
  destruct (start String.eqb refusing_server id 5 ann_browser) as [o s]. destruct H as (Ho & Hp & _ & Hu & Ha).
  split; [exact Ho|]. split; [exact (Hp eq_refl)|]. split; [exact Hu|exact Ha].
Defined.

(** C36. A service whose identifier the creation form accepted opens from the list:
    the address [handleViewService] goes to is the page of that identifier, read
    back as it was entered, when a token is stored; without one the guard warns
    and shows the home page. *)
Theorem created_service_opens (validate : list FormItem -> Values -> outcome unit) (lib : FormLibrary validate)
  matches (router : Router matches) t values (h : Fe ServiceHome) (s : Fe Session)
  (Hentered : entered (CreateServiceForm t) values) (Hvalid : validate (CreateServiceForm t) values = Ret tt) :
  let uuid := str_value values "service_uuid" in
  let to := route (browser (handleViewService uuid h).2) in
  let '(o, s') := open matches t to s in
  uuid <> "" /\ o = Ret tt /\ store (hook s') = store (hook s) /\ sent (browser s') = sent (browser s) /\
  if falsy (access_token (browser s))
  then shown (hook s') = HomePage /\ route (browser s') = "/" /\
       messages (browser s') = messages (browser s) ++ [Warning (t "common.loginFirst")]
  else shown (hook s') = ServicePage uuid /\ route (browser s') = to /\ messages (browser s') = messages (browser s).
Proof.
  set (item := mkFormItem (Some "service_uuid")
    [Required (t "service.serviceUUIDRequired"); Matches valid_uuid (t "service.serviceUUIDInvalid")] None None None).
  assert (Hi : item ∈ CreateServiceForm t) by in_form.
  pose proof (matched_text _ _ Hvalid Hentered item "service_uuid" (t "service.serviceUUIDRequired") valid_uuid
    (t "service.serviceUUIDInvalid") Hi eq_refl ltac:(by left) eq_refl ltac:(in_form)) as Hu.
  cbv zeta. cbn [handleViewService navigate set_browser modify snd browser with_route route].
  destruct (uuid_param_plain _ (valid_uuid_query _ Hu)) as [Hp Hq].
  unfold open. rewrite Hp, matches_apart, matches_self. unfold requireAuthLoader.
  destruct (valid_uuid_chars _ Hu) as [Hne _].
  destruct (falsy (access_token (browser s))) eqn:Ef;
    (erewrite bind_Ret; [|erewrite bind_Ret by reflexivity; rewrite Ef; reflexivity]); [done|].
  rewrite Hq. done.
Qed.

Definition service_values : Values := [("service_uuid", JStr "cam/core/api_1"); ("description", JStr "APIs")].

Lemma created_service_opens_witness :
  let '(o, s') := open String.eqb id "/service?uuid=cam/core/api_1" (mkFe ann_browser (mkSession (mkUserStore None false None) HomePage)) in
  o = Ret tt /\ shown (hook s') = ServicePage "cam/core/api_1".
Proof.
  assert (He : entered (CreateServiceForm id) service_values) by enter_values.
  pose proof (created_service_opens check_rules check_rules_library String.eqb exact_router id service_values
    (mkFe ann_browser initial_home) (mkFe ann_browser (mkSession (mkUserStore None false None) HomePage)) He eq_refl) as H.
  destruct H as (_ & Ho & _ & _ & Hs & _). split; [exact Ho|exact Hs].
Defined.

(** Identifiers the form would refuse need not come back: the address does not
    escape them. *)
Example unescaped_uuid :
  uuid_param "/service?uuid=a+b&c" = "a b" /\ uuid_param "/service?uuid=x#y" = "x".
Proof. done. Qed.
