(* ===== verification/ParamEdit.v ===== *)
(** * Editing an API draft

    [FE-CAM/src/components/ApiManagement/ApiEdit]: the parameter tables
    ([ParamTable.tsx]), the conversion of the form to what the server takes
    ([utils.ts]) and the submission ([index.tsx]), on top of the iteration that
    stores the draft.  Form rules and generated ids are parameters of the
    operations. *)

From S2P Require Import Prelude JsObject ApiTypes FeTypes FeHttp ThisService Iteration.
From Stdlib Require Import Ascii String ZArith.

(** ** The form's data *)

(** Ids of stored parameters are numbers, generated ones strings. *)
Inductive ItemId := NumId (z : Z) | StrId (s : string).
#[global] Instance ItemId_eq_dec : EqDecision ItemId.
Proof. solve_decision. Defined.

(** [ParamItem], with the [children_params] of parameters that came from the
    server; absent and null members are [None]. *)
Inductive ParamItem := mkItem {
  item_id : ItemId;
  item_name : string;
  item_type : string;
  item_required : bool;
  item_description : option string;
  item_default : option string;
  item_example : option string;
  item_array_child : option string;
  item_children : option (list ParamItem);
  item_children_params : option (list ParamItem)
}.

(** [handleFieldChange]'s [field] and [val]. *)
Inductive FieldChange :=
| ChName (s : string) | ChType (s : string) | ChRequired (b : bool) | ChDescription (s : string)
| ChDefault (s : string) | ChExample (s : string) | ChArrayChild (s : string)
| ChChildren (l : list ParamItem).

(** [{ ...item, [field]: val }]. *)
Definition set_field (f : FieldChange) (i : ParamItem) : ParamItem :=
  let '(mkItem id n t r d df e ac cs cps) := i in
  match f with
  | ChName v => mkItem id v t r d df e ac cs cps
  | ChType v => mkItem id n v r d df e ac cs cps
  | ChRequired v => mkItem id n t v d df e ac cs cps
  | ChDescription v => mkItem id n t r (Some v) df e ac cs cps
  | ChDefault v => mkItem id n t r d (Some v) e ac cs cps
  | ChExample v => mkItem id n t r d df (Some v) ac cs cps
  | ChArrayChild v => mkItem id n t r d df e (Some v) cs cps
  | ChChildren v => mkItem id n t r d df e ac cs (Some v)
  end.

(** ** [ParamTable] *)

(** [isLegalValue] on a string: not empty, no white space. *)
Definition isLegalValue (v : string) : bool := negb (String.eqb v "") && negb (str_existsb is_space v).

(** [validateData]'s [hasError]: [required] is a boolean, so always legal. *)
Definition hasError (data : list ParamItem) : bool :=
  existsb (fun i => negb (isLegalValue (item_name i)) || negb (isLegalValue (item_type i))) data.

Inductive TableEdit :=
| FieldChanged (id : ItemId) (f : FieldChange)
| Removed (id : ItemId)
| Added (generated : string).

Definition new_item (id : string) : ParamItem :=
  mkItem (StrId id) "" "string" true (Some "") (Some "") (Some "") None None None.

(** [handleFieldChange], [handleRemove] and [handleAdd]: the new rows. *)
Definition edit_table (e : TableEdit) (value : list ParamItem) : list ParamItem :=
  match e with
  | FieldChanged id f => map (fun i => if decide (item_id i = id) then set_field f i else i) value
  | Removed id => filter (fun i => item_id i <> id) value
  | Added id => value ++ [new_item id]
  end.

(** ** [utils.ts] *)

(** [item.children || item.children_params]. *)
Definition sub_items (i : ParamItem) : option (list ParamItem) :=
  match item_children i with Some cs => Some cs | None => item_children_params i end.

(** [v || null]. *)
Definition or_null (o : option string) : option string :=
  match o with Some s => if String.eqb s "" then None else Some s | None => None end.

(** One item of [processReqItems] ([place] is [AtLocation]) and of
    [processRespItems] ([AtStatus]). *)
Fixpoint process_item (place : InputPlace) (i : ParamItem) : ParamInput :=
  let '(mkItem _ n t r d df e ac cs cps) := i in
  mkParamInput n t place r
    (match place with AtLocation _ => or_null df | AtStatus _ => None end) d e (or_null ac)
    (match cs with
     | Some l => Some (map (process_item place) l)
     | None => match cps with Some l => Some (map (process_item place) l) | None => None end
     end).

Definition processReqItems (l : list ParamItem) (location : string) : list ParamInput :=
  map (process_item (AtLocation location)) l.

Definition processRespItems (l : list ParamItem) (statusCode : option Z) : list ParamInput :=
  map (process_item (AtStatus statusCode)) l.

Definition transformReqParamsToApiInput (requestParams : option (obj (list ParamItem))) : list ParamInput :=
  match requestParams with
  | None => []
  | Some o => List.concat (map (fun kv => processReqItems kv.2 kv.1) (entries o))
  end.

(** [parseInt(s, 10)]. *)
Fixpoint digit_prefix (s : string) : string :=
  match s with
  | String c s' => if is_digit c then String c (digit_prefix s') else ""
  | EmptyString => ""
  end.

Definition parse_int (s : string) : option Z :=
  match trim_start s with
  | String "-" s' => Z.opp ∘ Z.of_N <$> digits (digit_prefix s')
  | String "+" s' => Z.of_N <$> digits (digit_prefix s')
  | s' => Z.of_N <$> digits (digit_prefix s')
  end.

Definition transformRespParamsToApiInput (responseParams : option (obj (list ParamItem))) : list ParamInput :=
  match responseParams with
  | None => []
  | Some o => List.concat (map (fun kv => processRespItems kv.2 (parse_int kv.1)) (entries o))
  end.

(** ** [ApiEdit] *)

Record FormValues := mkFormValues {
  form_name : string;
  form_method : HttpMethod;
  form_path : string;
  form_description : string;
  form_level : option ApiLevel;
  form_request : option (obj (list ParamItem));
  form_response : option (obj (list ParamItem))
}.

Record ApiEdit := mkApiEdit {
  edit_api_id : Z;
  editLoading : bool;
  isDraft : bool;
  reqParamsActiveTab : string;
  rejectSubmit : bool;
  form : FormValues
}.

(** [tabs]. *)
Definition tabs : list string := ["query"; "path"; "body"; "header"; "cookie"].

(** [getFirstTabWithValue]: a location without a list throws. *)
Fixpoint first_tab (o : obj (list ParamItem)) (l : list string) : outcome string :=
  match l with
  | [] => Ret "query"
  | tab :: l' =>
      match obj_get o tab with
      | None => Throw (JSError "TypeError" "Cannot read properties of undefined (reading 'length')")
      | Some [] => first_tab o l'
      | Some _ => Ret tab
      end
  end.

Definition getFirstTabWithValue (params : option (obj (list ParamItem))) : outcome string :=
  match params with
  | None => Ret "query"
  | Some o => first_tab o tabs
  end.

Definition with_form (v : FormValues) (e : ApiEdit) : ApiEdit :=
  mkApiEdit (edit_api_id e) (editLoading e) (isDraft e) (reqParamsActiveTab e) (rejectSubmit e) v.
Definition setEditLoading (b : bool) (e : ApiEdit) : ApiEdit :=
  mkApiEdit (edit_api_id e) b (isDraft e) (reqParamsActiveTab e) (rejectSubmit e) (form e).
Definition setIsDraft (b : bool) (e : ApiEdit) : ApiEdit :=
  mkApiEdit (edit_api_id e) (editLoading e) b (reqParamsActiveTab e) (rejectSubmit e) (form e).

(** The effect on [apiDetail]: the form shows the API; [rejectSubmit] stays. *)
Definition open_api (id : Z) (v : FormValues) : M ApiEdit unit :=
  modify (fun e => mkApiEdit id (editLoading e) (isDraft e) (reqParamsActiveTab e) (rejectSubmit e) v) ;;
  modify (setIsDraft false) ;;
  tab ← resume (getFirstTabWithValue (form_request v));
  modify (fun e => mkApiEdit (edit_api_id e) (editLoading e) (isDraft e) tab (rejectSubmit e) (form e)).

(** A table of the form. *)
Inductive Table := RequestTable (location : string) | ResponseTable (code : string).

Definition table_rows (t : Table) (v : FormValues) : list ParamItem :=
  default [] match t with
  | RequestTable k => form_request v ≫= fun o => obj_get o k
  | ResponseTable k => form_response v ≫= fun o => obj_get o k
  end.

Definition set_table (t : Table) (rows : list ParamItem) (v : FormValues) : FormValues :=
  match t with
  | RequestTable k => mkFormValues (form_name v) (form_method v) (form_path v) (form_description v) (form_level v)
      (Some (obj_set (default [] (form_request v)) k rows)) (form_response v)
  | ResponseTable k => mkFormValues (form_name v) (form_method v) (form_path v) (form_description v) (form_level v)
      (form_request v) (Some (obj_set (default [] (form_response v)) k rows))
  end.

(** An edit of a top-level table: [validateData], then [onChange].  Editing a
    nested table is a [ChChildren] change of the row that holds it. *)
Definition edit_form (t : Table) (e : TableEdit) (s : ApiEdit) : ApiEdit :=
  let newData := edit_table e (table_rows t (form s)) in
  mkApiEdit (edit_api_id s) (editLoading s) true (reqParamsActiveTab s) (hasError newData)
    (set_table t newData (form s)).

(** [`{${param.name}}`]. *)
Definition braced (s : string) : string := "{" +:+ s +:+ "}".

Definition is_path (p : ParamInput) : bool :=
  match input_place p with AtLocation l => String.eqb l "path" | AtStatus _ => false end.

(** The checks of [handleSubmit] on the request parameters, in order. *)
Definition request_complaint (path : string) (req : list ParamInput) : option string :=
  if existsb (fun p => String.eqb (input_name p) "") req then Some "存在名称为空的请求参数"
  else if existsb is_path req then
    let allPathParams := List.filter is_path req in
    if existsb (fun p => negb (input_required p)) allPathParams then Some "Path 参数不能为选填"
    else if negb (forallb (fun p => includes path (braced (input_name p))) allPathParams)
    then Some "Path 参数必须用花括号包含在路径中，如：{param}"
    else None
  else None.

Definition response_complaint (resp : list ParamInput) : option string :=
  if existsb (fun p => String.eqb (input_name p) "") resp then Some "存在名称为空的响应参数" else None.

(** The editor next to the iteration its saves go to. *)
Record EditPage := mkEditPage { edit : ApiEdit; iter : ServiceIteration }.

Definition on_iter {A} (m : UI ServiceIteration A) : UI EditPage A := fun s =>
  let '(o, s') := m (mkFe (browser s) (iter (hook s))) in
  (o, mkFe (browser s') (mkEditPage (edit (hook s)) (hook s'))).

Definition set_edit (f : ApiEdit -> ApiEdit) : UI EditPage unit :=
  set_hook (fun s => mkEditPage (f (edit s)) (iter s)).

(** The data [handleSubmit] saves. *)
Definition submit_data (id : Z) (values : FormValues) : UpdateApiRequest :=
  mkUpdateApiRequest id (form_name values) (form_method values) (form_path values) (form_description values)
    (default P2 (form_level values)) (transformReqParamsToApiInput (form_request values))
    (transformRespParamsToApiInput (form_response values)).

Section Submit.
Variable server : Server.
Variable iterationId : Z.

(** [handleSubmit]: [validate] is the outcome of [form.validate()].  The values the form
    library hands over, those of the registered fields, are taken to be the whole form. *)
Definition handleSubmit (validate : outcome unit) : UI EditPage unit :=
  s ← get_hook;
  if rejectSubmit (edit s) then mret ()
  else
    resume validate ;;
    let values := form (edit s) in
    set_edit (setEditLoading true) ;;
    match request_complaint (form_path values) (transformReqParamsToApiInput (form_request values)) with
    | Some m => toast_up (Warning m) ;; set_edit (setEditLoading false)
    | None =>
        match response_complaint (transformRespParamsToApiInput (form_response values)) with
        | Some m => toast_up (Warning m) ;; set_edit (setEditLoading false)
        | None =>
            try_catch (
              res ← on_iter (handleSaveApiDraft server iterationId (submit_data (edit_api_id (edit s)) values));
              set_edit (setIsDraft false) ;;
              toast_up (Success (str_or (message res) "API 保存成功")))
              (fun e => toast_up (Failure (message_or "API 保存失败" e))) ;;
            set_edit (setEditLoading false)
        end
    end.
End Submit.

(** ** Specification of the conversion *)

(** What a parameter tree says, in the form and in the request. *)
Inductive Shape := mkShape (name type : string) (required : bool) (subs : option (list Shape)).

Fixpoint item_shape (i : ParamItem) : Shape :=
  let '(mkItem _ n t r _ _ _ _ cs cps) := i in
  mkShape n t r
    (match cs with
     | Some l => Some (map item_shape l)
     | None => match cps with Some l => Some (map item_shape l) | None => None end
     end).

Fixpoint input_shape (p : ParamInput) : Shape :=
  let '(mkParamInput n t _ r _ _ _ _ cs) := p in
  mkShape n t r (match cs with Some l => Some (map input_shape l) | None => None end).

(** Every parameter of the tree is at [place]. *)
Fixpoint all_at (place : InputPlace) (p : ParamInput) : Prop :=
  let '(mkParamInput _ _ pl _ _ _ _ _ cs) := p in
  pl = place /\ match cs with Some l => fold_right (fun q acc => all_at place q /\ acc) True l | None => True end.

Definition at_location (k : string) (p : ParamInput) : bool :=
  match input_place p with AtLocation l => String.eqb l k | AtStatus _ => false end.

(** ** Lemmas *)

Section ItemInd.
Variable P : ParamItem -> Prop.
Hypothesis Hnode : forall i, (forall cs, item_children i = Some cs -> Forall P cs) ->
  (forall cs, item_children_params i = Some cs -> Forall P cs) -> P i.

Fixpoint ParamItem_tree_ind (i : ParamItem) : P i.
Proof.
  apply Hnode; destruct i as [id n t r d df e ac cs cps]; simpl; intros l H.
  - destruct cs as [cs|]; [|discriminate H]. injection H as <-.
    induction cs as [|c cs IH]; constructor; [apply ParamItem_tree_ind|exact IH].
  - destruct cps as [cps|]; [|discriminate H]. injection H as <-.
    induction cps as [|c cps IH]; constructor; [apply ParamItem_tree_ind|exact IH].
Defined.
End ItemInd.

Lemma process_item_faithful place i :
  input_shape (process_item place i) = item_shape i /\ all_at place (process_item place i).
Proof.
  induction i as [i IHc IHp] using ParamItem_tree_ind.
  destruct i as [id n t r d df e ac cs cps]. simpl in *.
  assert (Hl : forall l, Forall (fun i => input_shape (process_item place i) = item_shape i /\ all_at place (process_item place i)) l ->
    map input_shape (map (process_item place) l) = map item_shape l /\
    fold_right (fun q acc => all_at place q /\ acc) True (map (process_item place) l)).
  { induction 1 as [|x l [H1 H2] _ [IH1 IH2]]; [done|]. simpl. by rewrite H1, IH1. }
  destruct cs as [cs|]; [|destruct cps as [cps|]].
  - destruct (Hl cs (IHc cs eq_refl)) as [-> H]. done.
  - destruct (Hl cps (IHp cps eq_refl)) as [-> H]. done.
  - done.
Qed.

Lemma process_at_location k k' rows :
  List.filter (at_location k) (processReqItems rows k') = if String.eqb k' k then processReqItems rows k' else [].
Proof.
  induction rows as [|i rows IH]; [by destruct (String.eqb k' k)|]. simpl. rewrite IH.
  assert (E : at_location k (process_item (AtLocation k') i) = String.eqb k' k) by by destruct i.
  rewrite E. by destruct (String.eqb k' k).
Qed.

Lemma transform_at_location k o :
  List.filter (at_location k) (transformReqParamsToApiInput (Some o)) =
  List.concat (map (fun kv => if String.eqb kv.1 k then processReqItems kv.2 kv.1 else []) (entries o)).
Proof.
  unfold transformReqParamsToApiInput. induction (entries o) as [|kv l IH]; [done|]. simpl.
  by rewrite List.filter_app, IH, process_at_location.
Qed.

Lemma concat_at_key {A} (f : string * A -> list ParamInput) k rows (l : obj A) :
  obj_wf l -> (k, rows) ∈ l ->
  List.concat (map (fun kv => if String.eqb kv.1 k then f kv else []) l) = f (k, rows).
Proof.
  unfold obj_wf. induction l as [|[k' r'] l IH]; [by intros _ ?%not_elem_of_nil|].
  rewrite fmap_cons, NoDup_cons, elem_of_cons. intros [Hk Hl] [[= <- <-]|Hin]; simpl.
  - rewrite String.eqb_refl. assert (E : List.concat (map (fun kv => if String.eqb kv.1 k then f kv else []) l) = []).
    { clear IH Hl. induction l as [|[k2 r2] l IH]; [done|]. simpl in *. rewrite not_elem_of_cons in Hk.
      destruct Hk as [Hne Hk]. rewrite (proj2 (String.eqb_neq k2 k)) by congruence. by apply IH. }
    by rewrite E, app_nil_r.
  - rewrite (proj2 (String.eqb_neq k' k)); [by apply IH|]. intros ->. apply Hk, list_elem_of_fmap. by exists (k, rows).
Qed.

(** What the checks of [handleSubmit] establish. *)
Lemma request_complaint_None path req :
  request_complaint path req = None ->
  Forall (fun p => input_name p <> "") req /\
  Forall (fun p => is_path p = true -> input_required p = true /\ includes path (braced (input_name p)) = true) req.
Proof.
  unfold request_complaint. destruct (existsb _ req) eqn:En; [done|]. intros H.
  assert (Hn : Forall (fun p => input_name p <> "") req).
  { apply Forall_forall. intros p Hp E. apply not_true_iff_false in En. apply En, existsb_exists.
    exists p. split; [by apply list_elem_of_In|]. by rewrite E. }
  split; [done|]. apply Forall_forall. intros p Hp Hpath.
  assert (Hin : In p (List.filter is_path req)) by (apply filter_In; split; [by apply list_elem_of_In|done]).
  destruct (existsb is_path req) eqn:Ep.
  2:{ apply not_true_iff_false in Ep. destruct Ep. apply existsb_exists. exists p.
      split; [by apply list_elem_of_In|done]. }
  destruct (existsb (fun p => negb (input_required p)) _) eqn:Er; [done|].
  destruct (forallb _ (List.filter is_path req)) eqn:Ef; [|done]. split.
  - destruct (input_required p) eqn:E; [done|]. apply not_true_iff_false in Er. destruct Er.
    apply existsb_exists. exists p. split; [done|]. by rewrite E.
  - rewrite forallb_forall in Ef. by apply Ef.
Qed.

Lemma response_complaint_None resp :
  response_complaint resp = None -> Forall (fun p => input_name p <> "") resp.
Proof.
  unfold response_complaint. destruct (existsb _ resp) eqn:En; [done|]. intros _.
  apply Forall_forall. intros p Hp E. apply not_true_iff_false in En. apply En, existsb_exists.
  exists p. split; [by apply list_elem_of_In|]. by rewrite E.
Qed.

Lemma set_table_other t t' rows v : t <> t' -> table_rows t' (set_table t rows v) = table_rows t' v.
Proof.
  intros Hne. destruct t as [k|k], t' as [k'|k']; simpl; try done; unfold table_rows; simpl;
    rewrite obj_get_set_ne by congruence; first [by destruct (form_request v)|by destruct (form_response v)].
Qed.

Lemma set_table_same t rows v : table_rows t (set_table t rows v) = rows.
Proof. destruct t; unfold table_rows; simpl; by rewrite obj_get_set_eq. Qed.

(** Saving sends the update first; it leaves the editor alone. *)
Lemma save_run server iterationId data (s : Fe EditPage) :
  exists o b i, on_iter (handleSaveApiDraft server iterationId data) s = (o, mkFe b (mkEditPage (edit (hook s)) i)) /\
    (forall c, o <> Exit c) /\
    exists rest, sent b = sent (browser s) ++
      (getAccessToken (browser s), encode (UpdateApiByApiDraftId iterationId data)) :: rest.
Proof.
  unfold on_iter, handleSaveApiDraft. set (p := mkFe (browser s) (iter (hook s))).
  assert (Hs : sent (browser (request server (UpdateApiByApiDraftId iterationId data) p).2) =
    sent (browser s) ++ [(getAccessToken (browser s), encode (UpdateApiByApiDraftId iterationId data))]).
  { unfold request. destruct (server _ _ _ _) as [|n ? ?]; [done|]. by destruct (n || _). }
  destruct (request_cases server (UpdateApiByApiDraftId iterationId data) p) as (q & Hq & [[d Hd]|[m Hd]]);
    rewrite Hd in Hs; simpl in Hs.
  - rewrite (bind_Ret _ _ _ _ _ Hd). case_decide.
    + eexists _, _, _. split; [reflexivity|]. split; [done|]. by exists [].
    + destruct (fetchIterationDetail_ends server iterationId q) as (b' & i' & Hf & _ & Hs' & _).
      rewrite (bind_Ret _ _ _ _ _ Hf). eexists _, _, _. split; [reflexivity|]. split; [done|].
      eexists. simpl. rewrite Hs', Hs, <-app_assoc. reflexivity.
  - rewrite (bind_Throw _ _ _ _ _ Hd). eexists _, _, _. split; [reflexivity|]. split; [done|]. by exists [].
Qed.

(** ** Properties *)

(** C39. The conversion keeps what the form says.  The request parameters of each
    location come out in order and under that location, at every depth; names,
    types, the required flag and the nesting of every parameter are those of the
    form. *)
Theorem transform_request_faithful o k rows
  (Hwf : obj_wf o) (Hk : obj_get o k = Some rows) :
  List.filter (at_location k) (transformReqParamsToApiInput (Some o)) = processReqItems rows k /\
  map input_shape (processReqItems rows k) = map item_shape rows /\
  Forall (all_at (AtLocation k)) (processReqItems rows k).
Proof.
  split; [|split].
  - rewrite transform_at_location. apply (concat_at_key (fun kv => processReqItems kv.2 kv.1) k rows).
    + by apply entries_wf.
    + apply elem_of_entries. by apply obj_get_In.
  - unfold processReqItems. rewrite map_map. apply map_ext. intros i. apply process_item_faithful.
  - apply Forall_forall. intros p (i & -> & _)%list_elem_of_fmap. apply process_item_faithful.
Qed.

Definition row (n : string) (cs : option (list ParamItem)) : ParamItem :=
  mkItem (StrId n) n "object" true None None None None None cs.

Lemma transform_request_faithful_witness :
  let o := [("query", [row "q" None]); ("body", [row "user" (Some [row "id" None])])] in
  List.filter (at_location "body") (transformReqParamsToApiInput (Some o)) =
    processReqItems [row "user" (Some [row "id" None])] "body".
Proof.
  apply (transform_request_faithful [("query", [row "q" None]); ("body", [row "user" (Some [row "id" None])])] "body").
  - unfold obj_wf. repeat constructor; by apply (bool_decide_unpack _).
  - reflexivity.
Defined.

(** C29. What is saved passed the checks.  A submission that starts with the spinner off
    ends with it off,
    and either sends nothing or saves exactly the form's data, in which every
    top-level parameter has a name and every path parameter is required and occurs
    in braces in the path; and it only sends while the tables raise no
    objection. *)
Theorem handleSubmit_safe server iterationId validate s
  (Hidle : editLoading (edit (hook s)) = false) (Hv : forall c, validate <> Exit c) :
  let '(o, s') := handleSubmit server iterationId validate s in
  let data := submit_data (edit_api_id (edit (hook s))) (form (edit (hook s))) in
  editLoading (edit (hook s')) = false /\ form (edit (hook s')) = form (edit (hook s)) /\
  (sent (browser s') = sent (browser s) \/
   rejectSubmit (edit (hook s)) = false /\ validate = Ret tt /\
   (exists rest, sent (browser s') = sent (browser s) ++
      (getAccessToken (browser s), encode (UpdateApiByApiDraftId iterationId data)) :: rest) /\
   Forall (fun p => input_name p <> "") (req_params data) /\
   Forall (fun p => is_path p = true ->
     input_required p = true /\ includes (upd_path data) (braced (input_name p)) = true) (req_params data) /\
   Forall (fun p => input_name p <> "") (resp_params data)).
Proof.
  unfold handleSubmit. rewrite (bind_Ret _ _ s (hook s) s) by done.
  destruct (rejectSubmit (edit (hook s))) eqn:Er; [split; [done|]; split; [done|]; by left|].
  destruct validate as [[]|e|c]; [|split; [done|]; split; [done|]; by left|by destruct (Hv c)].
  erewrite bind_Ret by reflexivity. erewrite bind_Ret by reflexivity.
  destruct (request_complaint _ _) as [m|] eqn:Eq; [split; [done|]; split; [done|]; by left|].
  destruct (response_complaint _) as [m|] eqn:Ep; [split; [done|]; split; [done|]; by left|].
  apply request_complaint_None in Eq as [Hn Hpath]. apply response_complaint_None in Ep.
  set (data := submit_data _ _). set (s1 := mkFe _ _).
  pose proof (save_run server iterationId data s1) as Hsave. change (browser s1) with (browser s) in Hsave.
  destruct Hsave as (o & b & i & Hsave & Ho & rest & Hsent). unfold try_catch.
  destruct o as [res|e|c]; [| |by destruct (Ho c)].
  - erewrite bind_Ret; [|rewrite (bind_Ret _ _ _ _ _ Hsave); reflexivity].
    split; [done|]. split; [done|]. right. split; [done|]. split; [done|]. split; [by exists rest|]. done.
  - erewrite bind_Ret; [|rewrite (bind_Throw _ _ _ _ _ Hsave); reflexivity].
    split; [done|]. split; [done|]. right. split; [done|]. split; [done|]. split; [by exists rest|]. done.
Qed.

Definition sample_values (rows : list ParamItem) : FormValues :=
  mkFormValues "listItems" GET "/items/{id}" "" None
    (Some [("query", []); ("path", rows); ("body", []); ("header", []); ("cookie", [])]) (Some [("200", [])]).
Definition sample_edit (rows : list ParamItem) : Fe EditPage :=
  mkFe empty_browser (mkEditPage (mkApiEdit 7 false true "path" false (sample_values rows))
    (mkServiceIteration false None [])).

Lemma handleSubmit_safe_witness :
  let s' := (handleSubmit iteration_server 5 (Ret tt) (sample_edit [row "id" None])).2 in
  editLoading (edit (hook s')) = false /\ List.length (sent (browser s')) = 1 /\
  includes "/items/{id}" (braced "id") = true.
Proof.
  pose proof (handleSubmit_safe iteration_server 5 (Ret tt) (sample_edit [row "id" None]) eq_refl ltac:(done)) as H.
  destruct (handleSubmit _ _ _ _) as [o s'] eqn:E. destruct H as (H1 & _ & [H2|(_ & _ & _ & _ & H2 & _)]).
  - apply (f_equal snd) in E. simpl in E. exfalso. rewrite <-E in H2. vm_compute in H2. discriminate H2.
  - split; [exact H1|]. split; [|vm_compute; reflexivity].
    apply (f_equal snd) in E. simpl in E. rewrite <-E. vm_compute. reflexivity.
Defined.

(** The tables share one objection, and the last edit decides: after an edit
    that leaves a table with an illegal row, any legal edit of another table
    lifts the objection although the row is still there. *)
Theorem rejection_overwritten t1 t2 e1 e2 s
  (Hne : t1 <> t2)
  (Hbad : hasError (edit_table e1 (table_rows t1 (form s))) = true)
  (Hgood : hasError (edit_table e2 (table_rows t2 (form s))) = false) :
  let s' := edit_form t2 e2 (edit_form t1 e1 s) in
  rejectSubmit (edit_form t1 e1 s) = true /\ rejectSubmit s' = false /\
  hasError (table_rows t1 (form s')) = true.
Proof.
  simpl. rewrite (set_table_other t1 t2) by done. split; [done|]. split; [done|].
  rewrite (set_table_other t2 t1) by congruence. by rewrite set_table_same.
Qed.

(** An illegal name that reaches the server: white space in a name, added to one
    table, then an edit of another table, then the submission. *)
Lemma rejection_overwritten_witness :
  let bad := FieldChanged (StrId "id") (ChName "i d") in
  let s1 := edit_form (RequestTable "path") bad (edit (hook (sample_edit [row "id" None]))) in
  let s2 := edit_form (ResponseTable "200") (Removed (StrId "none")) s1 in
  rejectSubmit s1 = true /\ rejectSubmit s2 = false /\
  hasError (table_rows (RequestTable "path") (form s2)) = true.
Proof.
  apply (rejection_overwritten (RequestTable "path") (ResponseTable "200"));
    [done|vm_compute; reflexivity|vm_compute; reflexivity].
Defined.
