(* ===== verification/TreeEdit.v ===== *)
(** * Nested parameter tables

    [ApiManagement/ApiEdit/ParamTable.tsx] renders one table per level of the
    parameter tree: its columns decide which edits a row offers, and a nested
    table reports its rows to the row that holds it.  [ApiEdit/utils.ts] has the
    same edits as functions on the whole tree.  This file models both, on top of
    the rows and edits of [ParamEdit]. *)

From S2P Require Import Prelude JsObject ApiTypes FeTypes FeHttp ParamEdit.
From Stdlib Require Import Ascii String ZArith Lia.

(** ** The columns of [ParamTable] *)

Inductive table_type := RequestType | ResponseType.

Definition PARAM_TYPES : list string :=
  ["string"; "int"; "double"; "boolean"; "array"; "object"; "binary"].

(** [showSubParams]: whether the row opens a nested table. *)
Definition showSubParams (record : ParamItem) : bool :=
  String.eqb (item_type record) "object" ||
  (String.eqb (item_type record) "array" && bool_decide (item_array_child record = Some "object")).

Definition hasArrayParam (value : list ParamItem) : bool :=
  existsb (fun item => String.eqb (item_type item) "array") value.

(** [record.children_params || []], the rows of the nested table. *)
Definition nested_rows (record : ParamItem) : list ParamItem := default [] (item_children_params record).

(** The columns, by [dataIndex] and width. *)
Definition columns (type : table_type) (value : list ParamItem) : list (string * option nat) :=
  [("name", Some 220); ("type", Some (if hasArrayParam value then 260 else 150)); ("required", Some 100);
   ("description", None)] ++
  (match type with RequestType => [("default_value", None)] | ResponseType => [] end) ++
  [("example", None); ("operation", Some 100)].

(** The change a cell of the row can report: the inputs take any text, the
    selects one of [PARAM_TYPES], the sub-type select is there for arrays only. *)
Definition offers (type : table_type) (record : ParamItem) (f : FieldChange) : bool :=
  match f with
  | ChName _ | ChRequired _ | ChDescription _ | ChExample _ => true
  | ChType v => bool_decide (v ∈ PARAM_TYPES)
  | ChArrayChild v => String.eqb (item_type record) "array" && bool_decide (v ∈ PARAM_TYPES)
  | ChDefault _ => match type with RequestType => true | ResponseType => false end
  | ChChildren _ => showSubParams record
  end.

(** One edit of a table that is not [readOnly]: a cell, the delete button of a
    row, the add button, or an edit of the nested table of a row.  [fresh] are
    the ids [generateId] may return. *)
Inductive table_step (type : table_type) (fresh : string -> Prop) :
    list ParamItem -> list ParamItem -> Prop :=
| step_field value record f :
    record ∈ value -> (forall l, f <> ChChildren l) -> offers type record f = true ->
    table_step type fresh value (edit_table (FieldChanged (item_id record) f) value)
| step_nested value record rows :
    record ∈ value -> showSubParams record = true ->
    table_step type fresh (nested_rows record) rows ->
    table_step type fresh value (edit_table (FieldChanged (item_id record) (ChChildren rows)) value)
| step_remove value record :
    record ∈ value -> table_step type fresh value (edit_table (Removed (item_id record)) value)
| step_add value id :
    fresh id -> table_step type fresh value (edit_table (Added id) value).

(** ** The tree helpers of [utils.ts] *)

Definition set_children (cs : list ParamItem) (i : ParamItem) : ParamItem :=
  let '(mkItem id n t r d df e ac _ cps) := i in mkItem id n t r d df e ac (Some cs) cps.

(** The callback of [updateTreeItem]'s [map]. *)
Fixpoint update_item (id : ItemId) (f : FieldChange) (item : ParamItem) : ParamItem :=
  if decide (item_id item = id) then set_field f item
  else match item_children item with
       | Some cs => set_children (map (update_item id f) cs) item
       | None => item
       end.
Definition updateTreeItem (items : list ParamItem) (id : ItemId) (f : FieldChange) : list ParamItem :=
  map (update_item id f) items.

(** [addChildren]; [generated] is the id of the new item. *)
Fixpoint add_child (parentId : ItemId) (generated : string) (item : ParamItem) : ParamItem :=
  if decide (item_id item = parentId)
  then set_children (default [] (item_children item) ++ [new_item generated]) item
  else match item_children item with
       | Some cs => set_children (map (add_child parentId generated) cs) item
       | None => item
       end.
Definition addTreeItem (items : list ParamItem) (parentId : option ItemId) (generated : string) : list ParamItem :=
  match parentId with
  | None => items ++ [new_item generated]
  | Some p => map (add_child p generated) items
  end.

(** The callback of [deleteTreeItem]'s [filter]: the items it keeps, which it
    has assigned their new [children] in place. *)
Fixpoint delete_item (id : ItemId) (item : ParamItem) : list ParamItem :=
  if decide (item_id item = id) then []
  else match item_children item with
       | Some cs => [set_children (List.concat (map (delete_item id) cs)) item]
       | None => [item]
       end.
Definition deleteTreeItem (items : list ParamItem) (id : ItemId) : list ParamItem :=
  List.concat (map (delete_item id) items).

(** What the list passed to [deleteTreeItem] holds afterwards: the same items,
    those kept with their [children] replaced. *)
Definition deleted_from (items : list ParamItem) (id : ItemId) : list ParamItem :=
  map (fun item => match delete_item id item with i :: _ => i | [] => item end) items.

(** ** Specification: the edit of one table of the tree *)

(** The edit [e] of the table below the rows [path], reported upwards row by
    row, as nested tables do (through [children] here). *)
Fixpoint edit_at (path : list ItemId) (e : TableEdit) (rows : list ParamItem) : list ParamItem :=
  match path with
  | [] => edit_table e rows
  | p :: path' =>
      map (fun i => if decide (item_id i = p)
                    then set_children (edit_at path' e (default [] (item_children i))) i else i) rows
  end.

(** The table below [path] has a row [id]. *)
Fixpoint located (path : list ItemId) (id : ItemId) (rows : list ParamItem) : Prop :=
  match path with
  | [] => exists i, i ∈ rows /\ item_id i = id
  | p :: path' => exists i cs, i ∈ rows /\ item_id i = p /\ item_children i = Some cs /\ located path' id cs
  end.

Fixpoint item_ids (i : ParamItem) : list ItemId :=
  item_id i :: match item_children i with Some cs => List.concat (map item_ids cs) | None => [] end.
Definition tree_ids (rows : list ParamItem) : list ItemId := List.concat (map item_ids rows).

(** ** Lemmas: the tree helpers *)

Lemma set_children_same i cs : item_children i = Some cs -> set_children cs i = i.
Proof. destruct i. simpl. by intros ->. Qed.

Lemma map_id_on {A} (f : A -> A) l : Forall (fun x => f x = x) l -> map f l = l.
Proof. induction 1 as [|x l Hx _ IH]; [done|]. simpl. by rewrite Hx, IH. Qed.

Lemma not_in_ids id i : id ∉ item_ids i ->
  item_id i <> id /\ forall cs, item_children i = Some cs -> Forall (fun c => id ∉ item_ids c) cs.
Proof.
  destruct i as [k n t r d df e ac cs cps]. simpl. rewrite not_elem_of_cons. intros [Hne Hcs].
  split; [congruence|]. intros ? [= ->]. apply Forall_forall. intros c Hc Hid. apply Hcs.
  apply list_elem_of_In, in_concat. exists (item_ids c).
  split; [apply in_map; by apply list_elem_of_In|by apply list_elem_of_In].
Qed.

(** An id the tree does not hold changes nothing. *)
Lemma absent_item id f g i : id ∉ item_ids i ->
  update_item id f i = i /\ add_child id g i = i /\ delete_item id i = [i].
Proof.
  induction i as [i IH _] using ParamItem_tree_ind. intros Hid.
  destruct (not_in_ids id i Hid) as [Hne Hcs].
  destruct i as [k n t r d df e ac cs cps]. cbn [update_item add_child delete_item item_id item_children] in *.
  rewrite !decide_False by done. destruct cs as [cs|]; [|done].
  specialize (IH cs eq_refl). specialize (Hcs cs eq_refl).
  assert (H : Forall (fun c => update_item id f c = c /\ add_child id g c = c /\ delete_item id c = [c]) cs).
  { apply Forall_forall. intros c Hc. rewrite Forall_forall in IH, Hcs. by apply IH, Hcs. }
  rewrite (map_id_on (update_item id f)), (map_id_on (add_child id g))
    by (eapply Forall_impl; [exact H|]; naive_solver).
  assert (Hd : List.concat (map (delete_item id) cs) = cs).
  { clear -H. induction H as [|c cs (_ & _ & Hc) _ IH]; [done|]. simpl. by rewrite Hc, IH. }
  by rewrite Hd.
Qed.

Lemma absent_list id f g rows : id ∉ tree_ids rows ->
  updateTreeItem rows id f = rows /\ addTreeItem rows (Some id) g = rows /\ deleteTreeItem rows id = rows.
Proof.
  intros Hid. assert (H : Forall (fun i => id ∉ item_ids i) rows).
  { apply Forall_forall. intros i Hi Hin. apply Hid. apply list_elem_of_In, in_concat.
    exists (item_ids i). split; [apply in_map|]; by apply list_elem_of_In. }
  unfold updateTreeItem, addTreeItem, deleteTreeItem. split; [|split].
  - apply map_id_on. eapply Forall_impl; [exact H|]. intros i Hi. by apply (absent_item id f g).
  - apply map_id_on. eapply Forall_impl; [exact H|]. intros i Hi. by apply (absent_item id f g).
  - clear Hid. induction H as [|i rows Hi _ IH]; [done|]. cbn [map List.concat].
    destruct (absent_item id f g i Hi) as (_ & _ & ->). by rewrite IH.
Qed.

Lemma elem_tree_ids x rows : x ∈ tree_ids rows <-> exists i, i ∈ rows /\ x ∈ item_ids i.
Proof.
  unfold tree_ids. rewrite list_elem_of_In, in_concat. split.
  - intros (l & (i & <- & Hi)%in_map_iff & Hx). exists i. by rewrite !list_elem_of_In.
  - intros (i & Hi & Hx). exists (item_ids i). rewrite !list_elem_of_In in *. auto using in_map.
Qed.

Lemma item_ids_self i : item_id i ∈ item_ids i.
Proof. destruct i. by left. Qed.

Lemma item_ids_children i cs : item_children i = Some cs -> item_ids i = item_id i :: tree_ids cs.
Proof. destruct i. simpl. by intros ->. Qed.

(** With distinct ids, a row's ids are its own. *)
Lemma split_row rows i :
  NoDup (tree_ids rows) -> i ∈ rows ->
  exists l1 l2, rows = l1 ++ i :: l2 /\ NoDup (item_ids i) /\
    forall x, x ∈ item_ids i -> x ∉ tree_ids l1 /\ x ∉ tree_ids l2.
Proof.
  intros Hnd (l1 & l2 & ->)%list_elem_of_split. exists l1, l2. split; [done|].
  unfold tree_ids in *. rewrite map_app, concat_app in Hnd. cbn [map List.concat] in Hnd.
  apply NoDup_app in Hnd as (_ & H1 & [Hi [H2 _]]%NoDup_app). split; [done|].
  intros x Hx. split; [|by apply H2]. intros Hx1. apply (H1 x Hx1). apply elem_of_app. by left.
Qed.

Lemma map_others (f : ParamItem -> ParamItem) id rows :
  id ∉ tree_ids rows -> map (fun i => if decide (item_id i = id) then f i else i) rows = rows.
Proof.
  intros Hid. apply map_id_on, Forall_forall. intros i Hi. rewrite decide_False; [done|].
  intros <-. apply Hid, elem_tree_ids. exists i. split; [done|apply item_ids_self].
Qed.

Lemma filter_others id rows : id ∉ tree_ids rows -> filter (fun i => item_id i <> id) rows = rows.
Proof.
  induction rows as [|i rows IH]; [done|]. intros Hid.
  rewrite filter_cons_True.
  - rewrite IH; [done|]. intros H. apply Hid. unfold tree_ids in *. cbn. apply elem_of_app. by right.
  - intros <-. apply Hid. unfold tree_ids. cbn. apply elem_of_app. left. apply item_ids_self.
Qed.

Lemma located_in path : forall id rows, located path id rows -> id ∈ tree_ids rows.
Proof.
  induction path as [|p path IH]; intros id rows; cbn [located].
  - intros (i & Hi & <-). apply elem_tree_ids. exists i. split; [done|apply item_ids_self].
  - intros (i & cs & Hi & _ & Hcs & Hl%IH). apply elem_tree_ids. exists i. split; [done|].
    rewrite (item_ids_children _ _ Hcs). by right.
Qed.

(** One row of the path: the others stay, the row's [children] are edited. *)
Lemma nested_row rows i cs p id f g :
  NoDup (tree_ids rows) -> i ∈ rows -> item_id i = p -> item_children i = Some cs -> id ∈ tree_ids cs ->
  NoDup (tree_ids cs) /\ exists l1 l2, rows = l1 ++ i :: l2 /\ p ∉ tree_ids l1 /\ p ∉ tree_ids l2 /\
    updateTreeItem rows id f = l1 ++ set_children (updateTreeItem cs id f) i :: l2 /\
    addTreeItem rows (Some id) g = l1 ++ set_children (addTreeItem cs (Some id) g) i :: l2 /\
    deleteTreeItem rows id = l1 ++ set_children (deleteTreeItem cs id) i :: l2.
Proof.
  intros Hnd Hi Hp Hcs Hid. destruct (split_row rows i Hnd Hi) as (l1 & l2 & -> & Hni & Hx).
  rewrite (item_ids_children _ _ Hcs) in Hni, Hx. apply NoDup_cons in Hni as [Hself Hncs].
  split; [done|]. exists l1, l2. split; [done|]. rewrite Hp in *.
  assert (Hp' : p ∉ tree_ids l1 /\ p ∉ tree_ids l2) by (apply Hx; by left).
  assert (Hid' : id ∉ tree_ids l1 /\ id ∉ tree_ids l2) by (apply Hx; by right).
  assert (Hne : item_id i <> id) by (rewrite Hp; intros ->; done).
  destruct Hp' as [Hp1 Hp2], Hid' as [H1 H2]. split; [done|]. split; [done|].
  destruct (absent_list id f g l1 H1) as (U1 & A1 & D1), (absent_list id f g l2 H2) as (U2 & A2 & D2).
  unfold updateTreeItem, addTreeItem, deleteTreeItem in *. rewrite !map_app, concat_app.
  cbn [map List.concat]. rewrite U1, U2, A1, A2, D1, D2.
  destruct i as [k n t r d df e ac c cps]. cbn [item_id item_children] in *. subst c.
  cbn [update_item add_child delete_item item_id item_children]. by rewrite !decide_False.
Qed.

(** ** Properties: the helpers *)

(** The helpers on the whole tree are the edits of one table of it: with
    distinct ids, [updateTreeItem] and [deleteTreeItem] on the id of a row do what
    a field change and a deletion in that row's table do, reported upwards along
    the rows that hold it; [addTreeItem] below a row does what the add button of
    the row's nested table does.  On an id the tree does not hold they change
    nothing. *)
Theorem tree_helpers_edit_table rows id f g :
  NoDup (tree_ids rows) ->
  (forall path, located path id rows ->
    updateTreeItem rows id f = edit_at path (FieldChanged id f) rows /\
    deleteTreeItem rows id = edit_at path (Removed id) rows /\
    addTreeItem rows (Some id) g = edit_at (path ++ [id]) (Added g) rows) /\
  (id ∉ tree_ids rows ->
    updateTreeItem rows id f = rows /\ addTreeItem rows (Some id) g = rows /\ deleteTreeItem rows id = rows).
Proof.
  intros Hnd. split; [|by apply absent_list].
  intros path. revert rows Hnd. induction path as [|p path IH]; intros rows Hnd; cbn [located].
  - intros (i & Hi & <-). destruct (split_row rows i Hnd Hi) as (l1 & l2 & -> & _ & Hx).
    destruct (Hx _ (item_ids_self i)) as [H1 H2]. clear Hx Hnd Hi.
    destruct (absent_list (item_id i) f g l1 H1) as (U1 & A1 & D1), (absent_list (item_id i) f g l2 H2) as (U2 & A2 & D2).
    cbn [edit_at edit_table app]. unfold updateTreeItem, addTreeItem, deleteTreeItem in *.
    rewrite !map_app, concat_app, filter_app. cbn [map List.concat].
    rewrite U1, U2, A1, A2, D1, D2, !map_others, !filter_others by done.
    rewrite filter_cons_False by tauto. rewrite filter_others by done.
    rewrite !decide_True by done. destruct i as [k n t r d df e ac c cps].
    cbn [update_item add_child delete_item item_id]. by rewrite !decide_True.
  - intros (i & cs & Hi & Hp & Hcs & Hl).
    destruct (nested_row rows i cs p id f g Hnd Hi Hp Hcs (located_in _ _ _ Hl))
      as (Hncs & l1 & l2 & -> & Hp1 & Hp2 & -> & -> & ->).
    destruct (IH cs Hncs Hl) as (Hu & Hd & Ha).
    cbn [edit_at app]. rewrite !map_app. cbn [map]. rewrite !map_others by done.
    rewrite !decide_True by done. rewrite Hcs. cbn [default]. by rewrite Hu, Hd, Ha.
Qed.

Definition sample_child : ParamItem := mkItem (StrId "b") "id" "int" true None None None None None None.
Definition sample_rows : list ParamItem :=
  [mkItem (StrId "a") "user" "object" true None None None None (Some [sample_child]) None;
   mkItem (StrId "c") "page" "int" false None None None None None None].

Lemma tree_helpers_edit_table_witness :
  NoDup (tree_ids sample_rows) /\
  updateTreeItem sample_rows (StrId "b") (ChName "user_id") =
    edit_at [StrId "a"] (FieldChanged (StrId "b") (ChName "user_id")) sample_rows /\
  deleteTreeItem sample_rows (StrId "b") = edit_at [StrId "a"] (Removed (StrId "b")) sample_rows.
Proof.
  assert (Hnd : NoDup (tree_ids sample_rows)) by (apply (bool_decide_unpack _); vm_compute; exact I).
  split; [exact Hnd|].
  destruct (tree_helpers_edit_table sample_rows (StrId "b") (ChName "user_id") "g" Hnd) as [H _].
  destruct (H [StrId "a"]) as (Hu & Hd & _); [|by split].
  exists (mkItem (StrId "a") "user" "object" true None None None None (Some [sample_child]) None), [sample_child].
  split; [by left|]. split; [reflexivity|]. split; [reflexivity|]. exists sample_child.
  split; [by left|reflexivity].
Defined.

(** [deleteTreeItem] also changes the items of the list it was given: what it
    returns are the very items, with their [children] assigned. *)
Lemma deleted_from_shared rows id :
  deleteTreeItem rows id = filter (fun i => item_id i <> id) (deleted_from rows id).
Proof.
  unfold deleteTreeItem, deleted_from. induction rows as [|i rows IH]; [done|].
  cbn [map List.concat]. rewrite IH. clear IH. destruct i as [k n t r d df e ac cs cps].
  cbn [delete_item item_id item_children].
  destruct (decide (k = id)) as [->|Hne]; [by rewrite filter_cons_False by tauto|].
  destruct cs as [cs|]; by rewrite filter_cons_True.
Qed.

(** ** Lemmas: what the tables keep *)

(** A parameter as the tables edit it: its type and sub-type are among the
    choices, and its sub-parameters, kept in [children_params], likewise. *)
Fixpoint table_item (i : ParamItem) : bool :=
  bool_decide (item_type i ∈ PARAM_TYPES) &&
  bool_decide (default "string" (item_array_child i) ∈ PARAM_TYPES) &&
  bool_decide (item_children i = None) &&
  match item_children_params i with Some cs => forallb table_item cs | None => true end.

(** The same of what is sent. *)
Fixpoint typed_input (p : ParamInput) : bool :=
  bool_decide (input_type p ∈ PARAM_TYPES) &&
  bool_decide (default "string" (input_array_child p) ∈ PARAM_TYPES) &&
  match input_children p with Some cs => forallb typed_input cs | None => true end.

Lemma table_item_nested i : table_item i = true -> forallb table_item (nested_rows i) = true.
Proof.
  destruct i as [k n t r d df e ac cs [cps|]]; [|done]. cbn. by intros [_ ?]%andb_true_iff.
Qed.

Lemma forallb_elem {A} (f : A -> bool) l : forallb f l = true <-> forall x, x ∈ l -> f x = true.
Proof. rewrite forallb_forall. setoid_rewrite list_elem_of_In. done. Qed.

Lemma table_item_change type record i f :
  table_item i = true -> offers type record f = true -> (forall l, f <> ChChildren l) ->
  table_item (set_field f i) = true.
Proof.
  destruct i as [k n t r d df e ac cs cps]. cbn [table_item item_type item_array_child item_children item_children_params].
  rewrite !andb_true_iff. intros [[[Ht Ha] Hc] Hp] Ho Hf.
  destruct f as [v|v|v|v|v|v|v|v]; cbn [set_field table_item item_type item_array_child item_children item_children_params default];
    rewrite ?andb_true_iff; cbn [offers] in Ho; rewrite ?andb_true_iff in Ho; try tauto.
  by destruct (Hf v).
Qed.

Lemma table_item_rows i rows :
  table_item i = true -> forallb table_item rows = true -> table_item (set_field (ChChildren rows) i) = true.
Proof.
  destruct i as [k n t r d df e ac cs cps]. cbn. rewrite !andb_true_iff. tauto.
Qed.

Lemma table_step_items type fresh value value' :
  table_step type fresh value value' -> forallb table_item value = true -> forallb table_item value' = true.
Proof.
  induction 1 as [value record f Hr Hf Ho|value record rows Hr Hs _ IH|value record Hr|value g Hg];
    intros Hv; rewrite forallb_elem in Hv; cbn [edit_table]; apply forallb_elem; intros i.
  - intros (j & <- & Hj%list_elem_of_In)%list_elem_of_In%in_map_iff. case_decide; [|by apply Hv].
    eapply table_item_change; [by apply Hv|exact Ho|exact Hf].
  - intros (j & <- & Hj%list_elem_of_In)%list_elem_of_In%in_map_iff. case_decide; [|by apply Hv].
    apply table_item_rows; [by apply Hv|]. by apply IH, table_item_nested, Hv.
  - intros [_ Hi]%list_elem_of_filter. by apply Hv.
  - intros [Hi| ->%list_elem_of_singleton]%elem_of_app; [by apply Hv|]. vm_compute. done.
Qed.

Lemma sent_typed place i : table_item i = true -> typed_input (process_item place i) = true.
Proof.
  induction i as [i _ IH] using ParamItem_tree_ind.
  destruct i as [k n t r d df e ac cs cps]. cbn [table_item item_type item_array_child item_children item_children_params].
  rewrite !andb_true_iff, !bool_decide_eq_true. intros [[[Ht Ha] ->] Hp].
  cbn [process_item typed_input input_type input_array_child input_children].
  rewrite !andb_true_iff, !bool_decide_eq_true. split; [split; [done|]|].
  - unfold or_null. destruct ac as [ac|]; [|done]. destruct (String.eqb ac ""); [by left|done].
  - destruct cps as [cps|]; [|done]. specialize (IH cps eq_refl). cbn in Hp.
    rewrite Forall_forall in IH. rewrite forallb_elem in Hp. apply forallb_elem.
    intros q (j & <- & Hj%list_elem_of_In)%list_elem_of_In%in_map_iff. by apply IH, Hp.
Qed.

(** A change of nested rows leaves alone all that the checks look at. *)
Definition same_head (p q : ParamInput) : Prop :=
  input_name p = input_name q /\ input_place p = input_place q /\ input_required p = input_required q.

Lemma existsb_Forall2 {A} (f g : A -> bool) l k :
  Forall2 (fun x y => f x = g y) l k -> existsb f l = existsb g k.
Proof. induction 1 as [|x y l k H _ IH]; [done|]. simpl. by rewrite H, IH. Qed.

Lemma forallb_Forall2 {A} (f g : A -> bool) l k :
  Forall2 (fun x y => f x = g y) l k -> forallb f l = forallb g k.
Proof. induction 1 as [|x y l k H _ IH]; [done|]. simpl. by rewrite H, IH. Qed.

Lemma same_head_path p q : same_head p q -> is_path p = is_path q.
Proof. intros (_ & Hp & _). unfold is_path. by rewrite Hp. Qed.

Lemma request_complaint_heads path l k :
  Forall2 same_head l k -> request_complaint path l = request_complaint path k.
Proof.
  intros H. assert (Hf : Forall2 same_head (List.filter is_path l) (List.filter is_path k)).
  { induction H as [|p q l k Hpq _ IH]; [done|]. simpl. rewrite (same_head_path _ _ Hpq).
    by destruct (is_path q); [constructor|]. }
  unfold request_complaint.
  rewrite (existsb_Forall2 (fun p => String.eqb (input_name p) "") (fun p => String.eqb (input_name p) "") l k).
  2:{ eapply Forall2_impl; [exact H|]. by intros p q (-> & _). }
  rewrite (existsb_Forall2 is_path is_path l k).
  2:{ eapply Forall2_impl; [exact H|]. apply same_head_path. }
  rewrite (existsb_Forall2 (fun p => negb (input_required p)) (fun p => negb (input_required p))
    (List.filter is_path l) (List.filter is_path k)).
  2:{ eapply Forall2_impl; [exact Hf|]. by intros p q (_ & _ & ->). }
  rewrite (forallb_Forall2 (fun p => includes path (braced (input_name p))) (fun p => includes path (braced (input_name p)))
    (List.filter is_path l) (List.filter is_path k)); [done|].
  eapply Forall2_impl; [exact Hf|]. by intros p q (-> & _).
Qed.

Lemma nested_heads place id rows value :
  Forall2 same_head (map (process_item place) (edit_table (FieldChanged id (ChChildren rows)) value))
    (map (process_item place) value).
Proof.
  cbn [edit_table]. induction value as [|i value IH]; [constructor|]. cbn [map]. constructor; [|exact IH].
  case_decide; [|done]. by destruct i.
Qed.

Lemma hasError_nested id rows value :
  hasError (edit_table (FieldChanged id (ChChildren rows)) value) = hasError value.
Proof.
  unfold hasError. apply existsb_Forall2. cbn [edit_table].
  induction value as [|i value IH]; [constructor|]. cbn [map]. constructor; [|exact IH].
  case_decide; [|done]. by destruct i.
Qed.

(** ** Properties: the tables *)

(** C34. Whatever is edited in a parameter table and the tables nested in it,
    every parameter of the tree keeps a type and a sub-type that the selects
    offer, and so does everything the form sends for it. *)
Theorem table_edits_typed type fresh place value value' :
  rtc (table_step type fresh) value value' -> forallb table_item value = true ->
  forallb table_item value' = true /\ forallb typed_input (map (process_item place) value') = true.
Proof.
  intros Hs Hv. assert (H : forallb table_item value' = true).
  { induction Hs as [|x y z Hxy _ IH]; [done|]. by eapply IH, table_step_items. }
  split; [done|]. rewrite forallb_elem in H. apply forallb_elem.
  intros p (i & <- & Hi%list_elem_of_In)%list_elem_of_In%in_map_iff. by apply sent_typed, H.
Qed.

Definition typed_rows : list ParamItem :=
  [mkItem (NumId 1) "user" "object" true None None None None None (Some [sample_child])].

Lemma table_edits_typed_witness :
  exists value', rtc (table_step RequestType (fun _ => True)) typed_rows value' /\
    forallb typed_input (map (process_item (AtLocation "body")) value') = true.
Proof.
  assert (H : rtc (table_step RequestType (fun _ => True)) typed_rows
    (edit_table (FieldChanged (NumId 1) (ChChildren (edit_table (Added "k") [sample_child]))) typed_rows)).
  { apply rtc_once.
    apply (step_nested RequestType (fun _ => True) typed_rows
      (mkItem (NumId 1) "user" "object" true None None None None None (Some [sample_child]))
      (edit_table (Added "k") [sample_child])); [by left|reflexivity|].
    apply step_add. exact I. }
  eexists. split; [exact H|].
  refine (proj2 (table_edits_typed RequestType (fun _ => True) (AtLocation "body") typed_rows _ H _)).
  reflexivity.
Defined.

(** Nested tables are not checked: an edit of the sub-parameters of a row
    sets [rejectSubmit] by the rows of the outer table alone, and the checks of
    [handleSubmit] say of the new rows what they said of the old ones, whatever
    the sub-parameters are called. *)
Theorem nested_names_unchecked t id rows s path place :
  let e := FieldChanged id (ChChildren rows) in
  rejectSubmit (edit_form t e s) = hasError (table_rows t (form s)) /\
  request_complaint path (map (process_item place) (edit_table e (table_rows t (form s)))) =
  request_complaint path (map (process_item place) (table_rows t (form s))).
Proof.
  cbn zeta. split; [|apply request_complaint_heads, nested_heads].
  unfold edit_form. cbn [rejectSubmit]. apply hasError_nested.
Qed.
