(* ===== verification/StatusTabs.v ===== *)
(** * The status-code tabs of the API editor

    [ApiManagement/ApiEdit/ResponseParamsEdit.tsx]: one tab per status code of
    the response table, a form to add a code, the deletion of a tab, and the
    effect that keeps the active tab among those shown. *)

From S2P Require Import Prelude JsObject ApiTypes FeTypes FeHttp JsNumber ParamEdit.
From Stdlib Require Import Ascii String ZArith Lia.

Notation ResponseForm := (obj (list ParamItem)).

(** The form's [response_params_by_status_code], the state and the two refs. *)
Record StatusTabs := mkStatusTabs {
  response_table : option ResponseForm;
  activeTab : string;
  newStatusCode : string;
  userEditedTabs : bool
}.

Definition set_response (t : ResponseForm) (s : StatusTabs) : StatusTabs :=
  mkStatusTabs (Some t) (activeTab s) (newStatusCode s) (userEditedTabs s).
Definition setActiveTab (a : string) (s : StatusTabs) : StatusTabs :=
  mkStatusTabs (response_table s) a (newStatusCode s) (userEditedTabs s).
Definition set_new_code (c : string) (s : StatusTabs) : StatusTabs :=
  mkStatusTabs (response_table s) (activeTab s) c (userEditedTabs s).
Definition set_user_edited (s : StatusTabs) : StatusTabs :=
  mkStatusTabs (response_table s) (activeTab s) (newStatusCode s) true.

(** [table || {}]. *)
Definition table_of (s : StatusTabs) : ResponseForm := default [] (response_table s).

(** [sort((a, b) => Number(a) - Number(b))]: stable. *)
Fixpoint insert_code (x : string) (l : list string) : list string :=
  match l with
  | [] => [x]
  | y :: l' => if above (Number y) (Number x) then x :: l else y :: insert_code x l'
  end.
Definition sort_codes (l : list string) : list string := foldl (fun acc x => insert_code x acc) [] l.

(** [responseParamsByStatusCode[Number(status)]?.length >= 0]: the number is
    turned into its canonical text to index the object. *)
Definition listed (t : ResponseForm) (status : string) : bool :=
  bool_decide (is_Some (obj_get t (to_text (Number status)))).

Definition codes_of (t : ResponseForm) : list string := sort_codes (List.filter (listed t) (keys t)).
Definition statusCodes (s : StatusTabs) : list string := codes_of (table_of s).

Definition first_code (l : list string) : string := default "" (head l).

(** The first render. *)
Definition init_tabs (t : option ResponseForm) : StatusTabs :=
  let s := mkStatusTabs t "" "" false in setActiveTab (first_code (statusCodes s)) s.

(** The effect on [activeTab], [form] and [statusCodes]. *)
Definition tabs_effect (s : StatusTabs) : StatusTabs :=
  match statusCodes s with
  | [] =>
      if userEditedTabs s then s
      else if negb (bool_decide (keys (table_of s) = [])) then s
      else setActiveTab "200" (set_response [("200", [])] s)
  | c :: _ =>
      if String.eqb (activeTab s) "" || negb (bool_decide (activeTab s ∈ statusCodes s))
      then setActiveTab c s else s
  end.

(** Confirming the deletion of a tab. *)
Definition handleDeleteTab (tab : string) (s : StatusTabs) : StatusTabs :=
  let newValues := obj_delete (table_of s) tab in
  let s' := set_response newValues (set_user_edited s) in
  if String.eqb (activeTab s) tab
  then setActiveTab (first_code (List.filter (fun c => negb (String.eqb c tab)) (statusCodes s))) s'
  else s'.

(** [onOk] of the form that adds a code: whether the form closes. *)
Definition addStatusCode : UI StatusTabs bool :=
  set_hook set_user_edited ;;
  s ← get_hook;
  let code := trim (newStatusCode s) in
  if String.eqb code "" then toast_up (Warning "状态码不能为空") ;; mret false
  else if bool_decide (Number code = NaN) then toast_up (Warning "状态码必须为数字") ;; mret false
  else if bool_decide (code ∈ statusCodes s) then toast_up (Warning "该状态码已存在") ;; mret false
  else
    set_hook (set_response (obj_set (table_of s) code [])) ;;
    set_hook (setActiveTab code) ;;
    mret true.

(** What the user does; [EditTable] is an edit of a parameter table of the form,
    [LoadTable] another API shown in the form.  The form library takes the field
    name [response_params_by_status_code.code] for a path, so [EditTable] is what
    happens for codes without a dot. *)
Inductive TabEvent :=
| TypeCode (v : string) | ToggleForm | AddCode | DeleteTab (tab : string) | ClickTab (tab : string)
| EditTable (code : string) (rows : list ParamItem) | LoadTable (t : ResponseForm).

Definition tab_event (e : TabEvent) : UI StatusTabs unit :=
  match e with
  | TypeCode v => set_hook (set_new_code v)
  | ToggleForm => set_hook (set_new_code "")
  | AddCode => addStatusCode ;; mret ()
  | DeleteTab tab => set_hook (handleDeleteTab tab)
  | ClickTab tab => s ← get_hook; if bool_decide (tab ∈ statusCodes s) then set_hook (setActiveTab tab) else mret ()
  | EditTable code rows => set_hook (fun s => set_response (obj_set (table_of s) code rows) s)
  | LoadTable t => set_hook (set_response t)
  end.

(** An event, then the effect its render runs. *)
Definition tab_step (e : TabEvent) : UI StatusTabs unit := tab_event e ;; set_hook tabs_effect.

Definition tab_session (es : list TabEvent) : UI StatusTabs unit :=
  set_hook tabs_effect ;; for_each es tab_step.

(** The active tab is shown if any is; none is shown only when the tabs were edited,
    or the table holds codes that have no tab. *)
Definition tabs_ok (s : StatusTabs) : Prop :=
  (statusCodes s <> [] -> activeTab s ∈ statusCodes s) /\
  (statusCodes s = [] -> userEditedTabs s = true \/ table_of s <> []).

(** ** Specification *)

(** The checks on a new code, in order. *)
Definition code_complaint (s : StatusTabs) : option string :=
  let code := trim (newStatusCode s) in
  if String.eqb code "" then Some "状态码不能为空"
  else if bool_decide (Number code = NaN) then Some "状态码必须为数字"
  else if bool_decide (code ∈ statusCodes s) then Some "该状态码已存在"
  else None.

(** The events that count as an edit of the tabs. *)
Definition edits_tabs (e : TabEvent) : bool := match e with AddCode | DeleteTab _ => true | _ => false end.

(** The table an event makes of that of [s]. *)
Definition table_after (e : TabEvent) (s : StatusTabs) : ResponseForm :=
  match e with
  | AddCode => if code_complaint s then table_of s else obj_set (table_of s) (trim (newStatusCode s)) []
  | DeleteTab tab => obj_delete (table_of s) tab
  | EditTable code rows => obj_set (table_of s) code rows
  | LoadTable t => t
  | TypeCode _ | ToggleForm | ClickTab _ => table_of s
  end.

(** The tab that is asked for; none when the active one is deleted. *)
Definition wanted_tab (e : TabEvent) (s : StatusTabs) : option string :=
  match e with
  | ClickTab tab => Some (if bool_decide (tab ∈ statusCodes s) then tab else activeTab s)
  | AddCode => Some (if code_complaint s then activeTab s else trim (newStatusCode s))
  | DeleteTab tab => if String.eqb (activeTab s) tab then None else Some (activeTab s)
  | _ => Some (activeTab s)
  end.

(** The table as the page leaves it: an empty one gets the code 200, unless the tabs
    have been edited. *)
Definition filled (edited : bool) (t : ResponseForm) : ResponseForm :=
  if edited then t else match t with [] => [("200", [])] | _ => t end.

(** ** Lemmas *)

Lemma insert_code_perm x l : insert_code x l ≡ₚ x :: l.
Proof.
  induction l as [|y l IH]; [done|]. simpl. destruct (above _ _); [done|].
  rewrite IH. apply Permutation_swap.
Qed.

Lemma sort_codes_perm l : sort_codes l ≡ₚ l.
Proof.
  unfold sort_codes.
  assert (H : forall acc, foldl (fun acc x => insert_code x acc) acc l ≡ₚ acc ++ l).
  { induction l as [|x l IH]; intros acc; simpl; [by rewrite app_nil_r|].
    rewrite IH, insert_code_perm. by rewrite <-Permutation_middle. }
  apply H.
Qed.

Lemma keys_perm {V} (o : obj V) : keys o ≡ₚ o.*1.
Proof. unfold keys. by rewrite entries_Permutation. Qed.

Lemma obj_has_key {V} (o : obj V) k : k ∈ o.*1 <-> is_Some (obj_get o k).
Proof.
  destruct (obj_get o k) as [v|] eqn:E.
  - split; [eauto|]. intros _. apply list_elem_of_fmap. exists (k, v). split; [done|by apply obj_get_In].
  - apply obj_get_None in E. split; [done|]. by intros [? ?].
Qed.

(** A tab is shown for the keys of the table whose number is a key. *)
Lemma elem_codes_of t k : k ∈ codes_of t <-> k ∈ t.*1 /\ listed t k = true.
Proof.
  unfold codes_of. rewrite sort_codes_perm, list_elem_of_In, filter_In, <-list_elem_of_In.
  by rewrite keys_perm.
Qed.

Lemma elem_canonical t k : canonical k = true -> k ∈ t.*1 -> k ∈ codes_of t.
Proof.
  intros Hc%String.eqb_eq Hk. apply elem_codes_of. split; [done|].
  unfold listed. rewrite Hc. apply bool_decide_eq_true. by apply obj_has_key.
Qed.

Lemma set_keys {V} (o : obj V) k v j : j ∈ (obj_set o k v).*1 <-> j = k \/ j ∈ o.*1.
Proof.
  rewrite !obj_has_key. destruct (decide (j = k)) as [->|Hne].
  - rewrite obj_get_set_eq. split; eauto.
  - rewrite obj_get_set_ne by done. tauto.
Qed.

Lemma keys_nil {V} (o : obj V) : keys o = [] <-> o = [].
Proof.
  split; [|by intros ->]. intros H. pose proof (keys_perm o) as Hp. rewrite H in Hp.
  apply Permutation_nil in Hp. by destruct o.
Qed.

Lemma codes_shown s : statusCodes s <> [] -> first_code (statusCodes s) ∈ statusCodes s.
Proof. destruct (statusCodes s); [done|]. intros _. by left. Qed.

Lemma codes_set_active a s : statusCodes (setActiveTab a s) = statusCodes s.
Proof. done. Qed.

Lemma effect_ok s : tabs_ok (tabs_effect s).
Proof.
  unfold tabs_effect. destruct (statusCodes s) as [|c l] eqn:E.
  - destruct (userEditedTabs s) eqn:Eu; [by split; [rewrite E|left]|].
    case_bool_decide as Hk; simpl negb; cbv iota.
    + split; intros H; [vm_compute; by left|vm_compute in H; discriminate H].
    + split; [by rewrite E|]. intros _. right. intros Ht. apply Hk. by rewrite Ht.
  - case_bool_decide as Ha; rewrite ?orb_false_r, ?orb_true_r; simpl negb; cbv iota.
    + destruct (String.eqb (activeTab s) ""); (split; [intros _|]); rewrite ?codes_set_active, E; try done.
      * by left.
    + split; [intros _|]; rewrite codes_set_active, E; [by left|done].
Qed.

(** At rest the effect changes nothing. *)
Lemma effect_rest s : tabs_ok s -> (activeTab s <> "" \/ statusCodes s = []) -> tabs_effect s = s.
Proof.
  intros [H1 H2] Ha. unfold tabs_effect. destruct (statusCodes s) as [|c l] eqn:E.
  - destruct (userEditedTabs s); [done|]. case_bool_decide as Hk; [|done].
    apply keys_nil in Hk. by destruct (H2 eq_refl).
  - rewrite bool_decide_true by by apply H1.
    destruct Ha as [Ha|Ha]; [|done]. by rewrite (proj2 (String.eqb_neq _ _)).
Qed.

(** One run of the effect brings it to rest. *)
Lemma effect_idem s : tabs_effect (tabs_effect s) = tabs_effect s.
Proof.
  unfold tabs_effect at 2 3. destruct (statusCodes s) as [|c l] eqn:E.
  - destruct (userEditedTabs s) eqn:Eu; [by unfold tabs_effect; rewrite E, Eu|].
    case_bool_decide as Hk; simpl negb; cbv iota; [done|].
    unfold tabs_effect. by rewrite E, Eu, bool_decide_false.
  - case_bool_decide as Ha; rewrite ?orb_false_r, ?orb_true_r; simpl negb; cbv iota.
    + destruct (String.eqb (activeTab s) "") eqn:Et; cbv iota.
      * unfold tabs_effect. rewrite codes_set_active, E. by destruct (_ || _).
      * unfold tabs_effect. by rewrite E, Et, bool_decide_true.
    + unfold tabs_effect. rewrite codes_set_active, E. by destruct (_ || _).
Qed.

Definition at_rest (s : StatusTabs) : Prop := tabs_ok s /\ tabs_effect s = s.

Lemma effect_at_rest s : at_rest (tabs_effect s).
Proof. split; [apply effect_ok|apply effect_idem]. Qed.

Lemma addStatusCode_run (s : Fe StatusTabs) :
  let h := set_user_edited (hook s) in
  let code := trim (newStatusCode h) in
  addStatusCode s =
  match code_complaint h with
  | Some m => (Ret false, mkFe (with_message (Warning m) (browser s)) h)
  | None => (Ret true, mkFe (browser s) (setActiveTab code (set_response (obj_set (table_of h) code []) h)))
  end.
Proof.
  cbn zeta. unfold addStatusCode, code_complaint. erewrite bind_Ret by reflexivity.
  erewrite bind_Ret by reflexivity. cbn [hook].
  by repeat (case_match; [done|]).
Qed.

(** What the effect does to the table, and to a tab that is asked for. *)
Lemma effect_table s : table_of (tabs_effect s) = filled (userEditedTabs s) (table_of s) /\
  userEditedTabs (tabs_effect s) = userEditedTabs s.
Proof.
  unfold tabs_effect, filled. destruct (statusCodes s) as [|c l] eqn:E.
  - destruct (userEditedTabs s) eqn:Eu; [done|]. case_bool_decide as Hk; simpl negb; cbv iota.
    + apply keys_nil in Hk. by rewrite Hk.
    + split; [|done]. destruct (table_of s) eqn:Et; [|done]. by destruct Hk.
  - assert (Ht : table_of s <> []). { intros Ht. unfold statusCodes in E. by rewrite Ht in E. }
    destruct (userEditedTabs s) eqn:Eu, (_ || _); (split; [|done]); change (table_of (setActiveTab c s)) with (table_of s);
      by destruct (table_of s).
Qed.

Lemma effect_keeps_active s : activeTab s <> "" -> activeTab s ∈ statusCodes s -> tabs_effect s = s.
Proof.
  intros Hne Hin. apply effect_rest; [|by left]. split; [done|]. intros E. rewrite E in Hin. by apply not_elem_of_nil in Hin.
Qed.

Lemma effect_default s : userEditedTabs s = false -> table_of s = [] -> activeTab (tabs_effect s) = "200".
Proof. intros Hu Ht. unfold tabs_effect, statusCodes. by rewrite Ht, Hu. Qed.

(** The state an event leaves, before the effect. *)
Lemma tab_event_run e (s : Fe StatusTabs) : exists b h, tab_event e s = (Ret tt, mkFe b h) /\
  table_of h = table_after e (hook s) /\ userEditedTabs h = userEditedTabs (hook s) || edits_tabs e /\
  forall a, wanted_tab e (hook s) = Some a -> activeTab h = a.
Proof.
  destruct e as [v| | |tab|tab|code rows|t]; cbn [tab_event table_after edits_tabs wanted_tab]; rewrite ?orb_false_r, ?orb_true_r.
  - do 2 eexists. split; [reflexivity|]. split; [done|]. split; [done|]. by intros a [= <-].
  - do 2 eexists. split; [reflexivity|]. split; [done|]. split; [done|]. by intros a [= <-].
  - pose proof (addStatusCode_run s) as H. cbn zeta in H.
    change (code_complaint (set_user_edited (hook s))) with (code_complaint (hook s)) in H.
    destruct (code_complaint (hook s)); (do 2 eexists); (split; [erewrite bind_Ret by exact H; reflexivity|]);
      (split; [done|]); (split; [done|]); by intros a [= <-].
  - do 2 eexists. split; [reflexivity|]. unfold handleDeleteTab.
    destruct (String.eqb_spec (activeTab (hook s)) tab); (split; [done|]); (split; [done|]); intros a Ha; by simplify_eq.
  - erewrite bind_Ret by reflexivity. case_bool_decide; [do 2 eexists; split; [reflexivity|]|exists (browser s), (hook s); split; [by destruct s|]];
      (split; [done|]); (split; [done|]); by intros a [= <-].
  - do 2 eexists. split; [reflexivity|]. split; [done|]. split; [done|]. by intros a [= <-].
  - do 2 eexists. split; [reflexivity|]. split; [done|]. split; [done|]. by intros a [= <-].
Qed.

(** [s] is what the page shows of the table [t]. *)
Record shows_tabs (edited : bool) (t : ResponseForm) (wanted : option string) (s : StatusTabs) : Prop := mkShowsTabs {
  tabs_rest : at_rest s;
  tabs_edited : userEditedTabs s = edited;
  tabs_table : table_of s = filled edited t;
  tabs_default : edited = false -> t = [] -> activeTab s = "200";
  tabs_wanted : forall a, wanted = Some a -> a <> "" -> a ∈ statusCodes s -> activeTab s = a
}.

Lemma effect_shows s wanted : (forall a, wanted = Some a -> activeTab s = a) ->
  shows_tabs (userEditedTabs s) (table_of s) wanted (tabs_effect s).
Proof.
  intros Hw. destruct (effect_table s) as [Ht Hu]. split; [apply effect_at_rest|done|done|apply effect_default|].
  intros a Ha Hne Hin. apply Hw in Ha as <-.
  assert (Hs : activeTab s ∈ statusCodes s \/ statusCodes s = [] /\ tabs_effect s = setActiveTab "200" (set_response [("200", [])] s)).
  { revert Hin. unfold tabs_effect. destruct (statusCodes s) as [|c l] eqn:E.
    - destruct (userEditedTabs s); [rewrite E; by left|]. destruct (negb _); [rewrite E; by left|by right].
    - left. rewrite <-E. by destruct (_ || _). }
  destruct Hs as [Hs|[_ Hs]]; [by rewrite effect_keeps_active|]. rewrite Hs in Hin |- *.
  symmetry. apply list_elem_of_singleton. exact Hin.
Qed.

(** A session returns, and knows whether the tabs were edited. *)
Lemma session_run es (s : Fe StatusTabs) : exists s', tab_session es s = (Ret tt, s') /\
  userEditedTabs (hook s') = userEditedTabs (hook s) || existsb edits_tabs es.
Proof.
  unfold tab_session. erewrite bind_Ret by reflexivity.
  assert (H : userEditedTabs (hook (mkFe (browser s) (tabs_effect (hook s)))) = userEditedTabs (hook s)) by apply effect_table.
  rewrite <-H. generalize (mkFe (browser s) (tabs_effect (hook s))). clear s H. induction es as [|e es IH]; intros s.
  { exists s. by rewrite orb_false_r. }
  destruct (tab_event_run e s) as (b & h & He & _ & Hu & _). cbn [for_each existsb].
  destruct (IH (mkFe b (tabs_effect h))) as (s' & Hs & Hu'). exists s'. split.
  - rewrite (bind_Ret (tab_step e) _ s tt (mkFe b (tabs_effect h))); [exact Hs|].
    unfold tab_step. by rewrite (bind_Ret _ _ _ _ _ He).
  - rewrite Hu'. cbn [hook]. by rewrite (proj2 (effect_table h)), Hu, orb_assoc.
Qed.

(** ** Properties *)

(** C33. What the tabs of status codes show, after the first render and after every
    event of any session.  The page is at rest: the active tab is one of those shown
    whenever there is one, and another run of the effect changes nothing.  The table
    is the one the event made of the table before (a code added with an empty list
    when no check complains, a tab removed with its code, a list edited, another
    table loaded); only an empty table of which no tab has been added or deleted is
    given the code 200, which becomes the active tab.  And the tab asked for (the one
    clicked or added, or else the one that was active, unless that was deleted) is
    active whenever it is shown and not the empty text. *)
Theorem tabs_session_ok t es e b :
  let start := mkFe b (init_tabs t) in
  (exists s, tab_session [] start = (Ret tt, s) /\ shows_tabs false (default [] t) None (hook s)) /\
  (exists s s', tab_session es start = (Ret tt, s) /\ tab_session (es ++ [e]) start = (Ret tt, s') /\
     shows_tabs (existsb edits_tabs (es ++ [e])) (table_after e (hook s)) (wanted_tab e (hook s)) (hook s')).
Proof.
  intros start. split.
  { eexists. split; [reflexivity|]. by apply (effect_shows (init_tabs t) None). }
  destruct (session_run es start) as (s & Hs & Hu). exists s.
  change (userEditedTabs (hook start)) with false in Hu. rewrite orb_false_l in Hu.
  destruct (tab_event_run e s) as (b' & h & He & Ht & Heu & Hw). eexists. split; [exact Hs|]. split.
  - unfold tab_session in *. revert Hs. erewrite !bind_Ret by reflexivity. intros Hs.
    rewrite for_each_app, (bind_Ret _ _ _ _ _ Hs). cbn [for_each]. unfold tab_step. erewrite bind_Ret; [reflexivity|].
    by rewrite (bind_Ret _ _ _ _ _ He).
  - cbn [hook]. rewrite existsb_app. cbn [existsb]. rewrite orb_false_r, <-Hu, <-Heu, <-Ht. by apply effect_shows.
Qed.

(** Adding a status code.  An empty text, a text that is no number and a
    code that already has a tab are refused with a message, and the form stays
    open with the table as it was.  Any other text becomes a code with no
    parameters: the lists of the other codes are kept, and when the text is the
    canonical numeral of its number (as all codes below 1000 are) its tab is
    shown and active once the effect has run. *)
Theorem addStatusCode_outcome (s : Fe StatusTabs) :
  let code := trim (newStatusCode (hook s)) in
  let s' := (addStatusCode s).2 in
  match code_complaint (set_user_edited (hook s)) with
  | Some m =>
      (addStatusCode s).1 = Ret false /\ table_of (hook s') = table_of (hook s) /\
      activeTab (hook s') = activeTab (hook s) /\ messages (browser s') = messages (browser s) ++ [Warning m]
  | None =>
      (addStatusCode s).1 = Ret true /\ browser s' = browser s /\
      obj_get (table_of (hook s')) code = Some [] /\
      (forall c, c <> code -> obj_get (table_of (hook s')) c = obj_get (table_of (hook s)) c) /\
      (canonical code = true -> code ∈ statusCodes (tabs_effect (hook s')) /\
        activeTab (tabs_effect (hook s')) = code)
  end.
Proof.
  cbn zeta. rewrite addStatusCode_run. destruct (code_complaint _) as [m|] eqn:E; [done|].
  cbn [fst snd]. set (code := trim (newStatusCode (hook s))).
  change (trim (newStatusCode (set_user_edited (hook s)))) with code.
  change (table_of (set_user_edited (hook s))) with (table_of (hook s)).
  set (h := set_response (obj_set (table_of (hook s)) code []) (set_user_edited (hook s))).
  split; [done|]. split; [done|]. split; [apply obj_get_set_eq|].
  split; [intros c Hc; by apply obj_get_set_ne|]. intros Hc. cbn [hook].
  assert (Hin : code ∈ statusCodes h).
  { apply elem_canonical; [done|]. apply set_keys. by left. }
  assert (Hne : code <> "").
  { intros E'. unfold code_complaint in E. change (trim (newStatusCode (set_user_edited (hook s)))) with code in E.
    rewrite E' in E. done. }
  replace (tabs_effect (setActiveTab code h)) with (setActiveTab code h); [done|].
  symmetry. apply effect_rest; [|by left]. split; [done|].
  change (statusCodes (setActiveTab code h)) with (statusCodes h). intros E'. rewrite E' in Hin.
  by apply not_elem_of_nil in Hin.
Qed.

(** A numeric text that is not canonical ([007], [2e2], [200.0]) is accepted
    without a message and stored, but when the table has no list under its
    canonical numeral no tab shows it: the user gets a code that can be neither
    seen nor deleted. *)
Theorem noncanonical_code_hidden (t : ResponseForm) c b :
  t <> [] -> trim c = c -> c <> "" -> Number c <> NaN -> canonical c = false ->
  obj_get t (to_text (Number c)) = None ->
  exists s, tab_session [TypeCode c; AddCode] (mkFe b (init_tabs (Some t))) = (Ret tt, s) /\
    browser s = b /\ obj_get (table_of (hook s)) c = Some [] /\ c ∉ statusCodes (hook s).
Proof.
  intros Ht Htrim Hne Hnum Hc Hget. apply String.eqb_neq in Hc.
  assert (Heff : forall s, table_of s <> [] ->
    table_of (tabs_effect s) = table_of s /\ newStatusCode (tabs_effect s) = newStatusCode s).
  { intros s Hs. unfold tabs_effect. destruct (statusCodes s); [|by destruct (_ || _)].
    destruct (userEditedTabs s); [done|]. by rewrite bool_decide_false by by rewrite keys_nil. }
  set (s0 := tabs_effect (init_tabs (Some t))).
  assert (H0 : table_of s0 = t) by by apply Heff.
  set (s1 := tabs_effect (set_new_code c s0)).
  destruct (Heff (set_new_code c s0)) as [H1 Hn1]; [by change (table_of s0 <> []); rewrite H0|].
  change (table_of (set_new_code c s0)) with (table_of s0) in H1. rewrite H0 in H1. fold s1 in H1, Hn1.
  assert (Hlist : forall v, c ∉ codes_of t /\ c ∉ codes_of (obj_set t c v)).
  { intros v. split; intros [_ Hl]%elem_codes_of; apply bool_decide_eq_true in Hl.
    - rewrite Hget in Hl. by destruct Hl.
    - rewrite obj_get_set_ne, Hget in Hl by congruence. by destruct Hl. }
  assert (E : code_complaint (set_user_edited s1) = None).
  { unfold code_complaint. change (newStatusCode (set_user_edited s1)) with (newStatusCode s1).
    rewrite Hn1. change (newStatusCode (set_new_code c s0)) with c. rewrite Htrim.
    rewrite (proj2 (String.eqb_neq _ _) Hne), bool_decide_false by done.
    rewrite bool_decide_false; [done|]. unfold statusCodes.
    change (table_of (set_user_edited s1)) with (table_of s1). rewrite H1. apply (Hlist []). }
  pose proof (addStatusCode_run (mkFe b s1)) as Hadd. cbn zeta in Hadd. cbn [hook browser] in Hadd.
  rewrite E in Hadd. change (newStatusCode (set_user_edited s1)) with (newStatusCode s1) in Hadd.
  rewrite Hn1 in Hadd. change (newStatusCode (set_new_code c s0)) with c in Hadd. rewrite Htrim in Hadd.
  change (table_of (set_user_edited s1)) with (table_of s1) in Hadd. rewrite H1 in Hadd.
  set (s2 := setActiveTab c (set_response (obj_set t c []) (set_user_edited s1))) in *.
  assert (H2 : table_of (tabs_effect s2) = obj_set t c []).
  { destruct (Heff s2) as [-> _]; [|done]. change (obj_set t c [] <> []). by destruct t as [|[k v] t]; [|cbn; destruct (String.eqb c k)]. }
  exists (mkFe b (tabs_effect s2)). split; [|split; [done|split]].
  - unfold tab_session. erewrite bind_Ret by reflexivity. cbn [for_each].
    erewrite bind_Ret by reflexivity. cbn [browser hook]. fold s0 s1.
    unfold tab_step at 1. cbn [tab_event].
    erewrite bind_Ret. 2:{ erewrite bind_Ret. 2:{ erewrite bind_Ret by exact Hadd. reflexivity. } reflexivity. }
    reflexivity.
  - cbn [hook]. rewrite H2. apply obj_get_set_eq.
  - cbn [hook]. unfold statusCodes. rewrite H2. apply (Hlist []).
Qed.

Lemma noncanonical_code_hidden_witness :
  exists s, tab_session [TypeCode "007"; AddCode]
      (mkFe (mkBrowser None None None [] [] 0 "/") (init_tabs (Some [("200", [])]))) = (Ret tt, s) /\
    obj_get (table_of (hook s)) "007" = Some [] /\ "007" ∉ statusCodes (hook s).
Proof.
  destruct (noncanonical_code_hidden [("200", [])] "007" (mkBrowser None None None [] [] 0 "/"))
    as (s & H & _ & H2); try done. eauto.
Defined.

(** A code the table lists twice: both tabs are shown, and the second is saved
    under the status [parseInt] reads from its text. *)
Lemma code_saved_by_prefix :
  let row := new_item "r" in
  let t := [("200", [row]); ("2e2", [row])] in
  codes_of t = ["200"; "2e2"] /\
  map input_place (transformRespParamsToApiInput (Some t)) = [AtStatus (Some 200%Z); AtStatus (Some 2%Z)].
Proof. split; reflexivity. Qed.
