(* ===== verification/Header.v ===== *)
(** * The service header

    [FE-CAM/src/components/ApiManagement/Header.tsx]: the maintainers shown, the
    search for users, adding and removing a maintainer through the service page,
    and the people of a service grouped by role. *)

From S2P Require Import Prelude JsObject ApiTypes FeTypes FeHttp ApiTree ThisService UserStore.
From Stdlib Require Import Ascii String ZArith Lia.

Record Header := mkHeader {
  maintainersHere : list UserProfile;
  maintainerOptions : list UserProfile;
  switchLoading : bool;
  exportLoading : bool
}.

Definition setMaintainers (l : list UserProfile) (h : Header) : Header :=
  mkHeader l (maintainerOptions h) (switchLoading h) (exportLoading h).
Definition setOptions (l : list UserProfile) (h : Header) : Header :=
  mkHeader (maintainersHere h) l (switchLoading h) (exportLoading h).
Definition setSwitchLoading (b : bool) (h : Header) : Header :=
  mkHeader (maintainersHere h) (maintainerOptions h) b (exportLoading h).
Definition setExportLoading (b : bool) (h : Header) : Header :=
  mkHeader (maintainersHere h) (maintainerOptions h) (switchLoading h) b.

(** The header next to the service page whose handlers it calls. *)
Record HeaderPage := mkHeaderPage { header : Header; page : ThisService }.

Definition on_page {A} (m : UI ThisService A) : UI HeaderPage A := fun s =>
  let '(o, s') := m (mkFe (browser s) (page (hook s))) in
  (o, mkFe (browser s') (mkHeaderPage (header (hook s)) (hook s'))).

Definition set_header (f : Header -> Header) : UI HeaderPage unit :=
  set_hook (fun s => mkHeaderPage (f (header s)) (page s)).

(** [Select]'s [options]: current maintainers and search results by id, the first
    occurrence giving the place. *)
Definition options (h : Header) : list (Z * UserProfile) :=
  let m := foldl (fun m u => map_set m (user_id u) u) [] (maintainersHere h) in
  foldl (fun m u => match map_get m (user_id u) with Some _ => m | None => map_set m (user_id u) u end)
    m (maintainerOptions h).

(** [serviceMembersByRole]. *)
Definition serviceMembersByRole (personInCharge : UserProfile) (maintainers : list UserProfile)
    : obj (list UserProfile) :=
  foldl (fun acc u => obj_set acc (role u) (default [] (obj_get acc (role u)) ++ [u])) []
    (personInCharge :: maintainers).

Section Handlers.
Variable server : Server.

(** [getMaintainerOptions]. *)
Definition getMaintainerOptions (inputValue : string) : UI HeaderPage unit :=
  if (js_length inputValue <? 2)%nat then set_header (setOptions [])
  else
    res ← getUserByUsernameOrNicknameOrEmail server inputValue;
    set_header (setOptions res) ;;
    for_each res (fun u =>
      isMaintainer ← on_page (checkIsServiceMaintainer server (user_id u));
      if isMaintainer : bool then set_header (fun h => setMaintainers (maintainersHere h ++ [u]) h) else mret ()).

(** [handleAddOrRemoveServiceMaintainer]. *)
Definition handleAddOrRemoveServiceMaintainer (maintainer : UserProfile) : UI HeaderPage unit :=
  set_header (setSwitchLoading true) ;;
  isCurrentMaintainer ← on_page (handleAddOrRemoveServiceMaintainerById server (user_id maintainer));
  (if isCurrentMaintainer : bool then set_header (fun h => setMaintainers (maintainersHere h ++ [maintainer]) h)
   else set_header (fun h =>
     setMaintainers (filter (fun i => user_id i <> user_id maintainer) (maintainersHere h)) h)) ;;
  set_header (setSwitchLoading false).

(** [Select]'s [onChange]: the id added or removed ([0] counts as none). *)
Definition onChangeMaintainers (newIds : list Z) : UI HeaderPage unit :=
  s ← get_hook;
  let h := header s in
  if switchLoading h then mret ()
  else
    let currentIds := map user_id (maintainersHere h) in
    let addedId := List.find (fun i => negb (existsb (Z.eqb i) currentIds)) newIds in
    let removedId := List.find (fun i => negb (existsb (Z.eqb i) newIds)) currentIds in
    let truthy (o : option Z) := match o with Some i => if (i =? 0)%Z then None else Some i | None => None end in
    match truthy addedId with
    | Some i =>
        match List.find (fun u => (user_id u =? i)%Z) (maintainerOptions h) with
        | Some u => handleAddOrRemoveServiceMaintainer u
        | None => mret ()
        end
    | None =>
        match truthy removedId with
        | Some i =>
            match List.find (fun u => (user_id u =? i)%Z) (maintainersHere h) with
            | Some u => handleAddOrRemoveServiceMaintainer u
            | None => mret ()
            end
        | None => mret ()
        end
    end.
End Handlers.

(** ** Lemmas *)

Lemma foldl_role_elem us acc k :
  default [] (obj_get (foldl (fun acc u => obj_set acc (role u) (default [] (obj_get acc (role u)) ++ [u])) acc us) k) =
  default [] (obj_get acc k) ++ filter (fun u => role u = k) us.
Proof.
  revert acc. induction us as [|u us IH]; intros acc; simpl; [by rewrite app_nil_r|].
  rewrite IH, filter_cons. case_decide as E.
  - rewrite E, obj_get_set_eq. simpl. by rewrite <-app_assoc.
  - by rewrite obj_get_set_ne.
Qed.

Lemma foldl_role_keys us acc :
  obj_wf acc ->
  let r := foldl (fun acc u => obj_set acc (role u) (default [] (obj_get acc (role u)) ++ [u])) acc us in
  obj_wf r /\ forall k, is_Some (obj_get r k) <-> is_Some (obj_get acc k) \/ k ∈ map role us.
Proof.
  revert acc. induction us as [|u us IH]; intros acc Hwf; simpl.
  { split; [done|]. intros k. split; [by left|]. intros [?|H]; [done|]. by apply not_elem_of_nil in H. }
  destruct (IH (obj_set acc (role u) (default [] (obj_get acc (role u)) ++ [u])) (obj_set_wf _ _ _ Hwf)) as [H1 H2].
  split; [exact H1|]. intros k. rewrite H2, elem_of_cons.
  destruct (decide (role u = k)) as [<-|Hne].
  - rewrite obj_get_set_eq. split; [tauto|]. intros _. left. by eexists.
  - rewrite obj_get_set_ne by done. split; [tauto|]. intros [?|[?|?]]; [tauto|congruence|tauto].
Qed.

Lemma obj_concat_values (o : obj (list UserProfile)) :
  obj_wf o -> List.concat (map snd o) = List.concat (map (fun k => default [] (obj_get o k)) (map fst o)).
Proof.
  intros Hwf. rewrite map_map. f_equal. apply map_ext_in. intros [k v] Hin%list_elem_of_In. simpl.
  by rewrite (obj_In_get o k v Hwf Hin).
Qed.

(** ** Properties *)

(** Everyone of a service is listed once under their role: each role has one
    bucket, holding exactly its members in order, and the buckets together are the
    person in charge and the maintainers. *)
Theorem membersByRole_partition p us :
  let buckets := serviceMembersByRole p us in
  obj_wf buckets /\
  (forall k, obj_get buckets k = (if decide (k ∈ map role (p :: us))
     then Some (filter (fun u => role u = k) (p :: us)) else None)) /\
  List.concat (values buckets) ≡ₚ p :: us.
Proof.
  unfold serviceMembersByRole. set (r := foldl _ [] (p :: us)).
  destruct (foldl_role_keys (p :: us) [] ltac:(constructor)) as [Hwf Hk].
  change (foldl _ [] (p :: us)) with r in Hwf, Hk.
  assert (Hg : forall k, default [] (obj_get r k) = filter (fun u => role u = k) (p :: us))
    by (intros k; apply (foldl_role_elem (p :: us) [] k)).
  split; [done|]. split.
  - intros k. specialize (Hk k). specialize (Hg k). destruct (obj_get r k) as [l|]; case_decide as Hin.
    + simpl in Hg. by rewrite Hg.
    + destruct Hk as [[[? ?]|?] _]; [by eexists|done|done].
    + destruct Hk as [_ [? ?]]; [by right|done].
    + done.
  - unfold values. rewrite (fmap_Permutation snd _ _ (entries_Permutation r)).
    change (r.*2) with (map snd r). rewrite (obj_concat_values r Hwf).
    rewrite (map_ext _ _ Hg). apply (filter_partition role).
    + exact Hwf.
    + intros u Hu. assert (Hs : is_Some (obj_get r (role u))).
      { apply Hk. right. apply list_elem_of_fmap. eauto. }
      destruct Hs as [l Hl]. apply obj_get_In in Hl. apply list_elem_of_fmap. by exists (role u, l).
Qed.

(** Adding or removing a maintainer, by the server's answer: told that the
    user now is one, the header lists them; told that they are not, it drops them.
    A refusal or a failed request is treated like the second: the header drops
    the user although the server kept them. *)
Theorem toggleMaintainer_outcome server u s :
  let i := detail_id (page (hook s)) in
  let before := maintainersHere (header (hook s)) in
  let '(o, s') := handleAddOrRemoveServiceMaintainer server u s in
  let without := filter (fun x => user_id x <> user_id u) before in
  o = Ret tt /\ switchLoading (header (hook s')) = false /\ page (hook s') = page (hook s) /\
  maintainersHere (header (hook s')) =
    match server _ (sent (browser s)) (getAccessToken (browser s)) (AddOrRemoveServiceMaintainerById i (user_id u)) with
    | NetOk res => if decide (status res <> 200%Z) then without else if payload res then before ++ [u] else without
    | NetErr _ _ _ => without
    end.
Proof.
  cbv zeta. unfold handleAddOrRemoveServiceMaintainer. erewrite bind_Ret by reflexivity.
  set (s1 := mkFe _ _). set (p := mkFe (browser s) (page (hook s))).
  assert (Hrun : exists b, on_page (handleAddOrRemoveServiceMaintainerById server (user_id u)) s1 =
    (Ret (match server _ (sent (browser s)) (getAccessToken (browser s))
                  (AddOrRemoveServiceMaintainerById (detail_id (page (hook s))) (user_id u)) with
          | NetOk res => if decide (status res <> 200%Z) then false else payload res
          | NetErr _ _ _ => false end),
     mkFe b (mkHeaderPage (header (hook s1)) (page (hook s))))).
  { unfold on_page, handleAddOrRemoveServiceMaintainerById, get_hook, try_catch, mbind, M_bind, request. simpl.
    destruct (server _ _ _ _) as [res|n st msg]; [|by eexists]. case_decide; by eexists. }
  destruct Hrun as (b & Hrun). rewrite (bind_Ret _ _ _ _ _ Hrun).
  destruct (server _ _ _ _) as [res|n st msg]; [|done].
  case_decide; [done|]. by destruct (payload res).
Qed.

Section Search.
Context (server : Server) (tok : option string) (is_m : Z -> bool).
Hypothesis Hans : forall log i c, server _ log tok (IsServiceMaintainer i c) = NetOk (mkResponse 200 "" (is_m c)).

Lemma check_run u (s : Fe HeaderPage) : getAccessToken (browser s) = tok -> exists b,
  on_page (checkIsServiceMaintainer server (user_id u)) s = (Ret (is_m (user_id u)), mkFe b (hook s)) /\
  getAccessToken b = tok.
Proof.
  intros Ht. destruct s as [b [h p]]. cbn [browser] in Ht. unfold on_page, checkIsServiceMaintainer. cbn [browser hook page header].
  rewrite (bind_Ret _ _ (mkFe b p) p (mkFe b p)) by done. unfold try_catch.
  rewrite (bind_Ret _ _ _ _ _ (fe_request_NetOk server (IsServiceMaintainer (detail_id p) (user_id u)) (mkFe b p) _
    ltac:(cbn [browser]; rewrite Ht; apply Hans))).
  eexists. split; [done|exact Ht].
Qed.

Lemma check_all us : forall s : Fe HeaderPage, getAccessToken (browser s) = tok -> exists b,
  for_each us (fun u =>
    isMaintainer ← on_page (checkIsServiceMaintainer server (user_id u));
    if isMaintainer : bool then set_header (fun h => setMaintainers (maintainersHere h ++ [u]) h) else mret ()) s =
  (Ret tt, mkFe b (mkHeaderPage (setMaintainers (maintainersHere (header (hook s)) ++
     filter (fun u => is_m (user_id u) = true) us) (header (hook s))) (page (hook s)))).
Proof.
  induction us as [|u us IH]; intros s Ht.
  { exists (browser s). rewrite app_nil_r. by destruct s as [b [[m o w e] p]]. }
  cbn [for_each]. destruct (check_run u s Ht) as (b & E & Hb). rewrite filter_cons.
  destruct (is_m (user_id u)) eqn:Em.
  - erewrite bind_Ret; [|rewrite (bind_Ret _ _ _ _ _ E); reflexivity].
    match goal with |- context [for_each us _ ?q] => destruct (IH q Hb) as (b' & ->) end.
    exists b'. rewrite decide_True by done. cbn [hook header maintainersHere setMaintainers page]. by rewrite <-app_assoc.
  - erewrite bind_Ret; [|rewrite (bind_Ret _ _ _ _ _ E); reflexivity].
    destruct (IH (mkFe b (hook s)) Hb) as (b' & ->). exists b'. by rewrite decide_False by done.
Qed.
End Search.

(** Searching for a maintainer, when the server answers: the users found become
    the options, and those of them who maintain the service are appended to the
    maintainers shown - also when they are shown already, so a search lists a
    maintainer twice, and every further search once more. *)
Theorem search_appends_maintainers (server : Server) q (s : Fe HeaderPage) users is_m
  (Hq : 2 <= js_length q)
  (Hsearch : server _ (sent (browser s)) (getAccessToken (browser s)) (GetUserByUsernameOrNicknameOrEmail q) =
             NetOk (mkResponse 200 "" (Some users)))
  (Hans : forall log i c, server _ log (getAccessToken (browser s)) (IsServiceMaintainer i c) =
                          NetOk (mkResponse 200 "" (is_m c))) :
  let '(o, s') := getMaintainerOptions server q s in
  let before := maintainersHere (header (hook s)) in
  let after := maintainersHere (header (hook s')) in
  o = Ret tt /\ maintainerOptions (header (hook s')) = users /\ page (hook s') = page (hook s) /\
  after = before ++ filter (fun u => is_m (user_id u) = true) users /\
  forall u, u ∈ users -> is_m (user_id u) = true -> u ∈ before -> ~ NoDup after.
Proof.
  unfold getMaintainerOptions. destruct (Nat.ltb_spec (js_length q) 2) as [Hlt|_]; [lia|].
  assert (E : getUserByUsernameOrNicknameOrEmail server q s =
    (Ret users, mkFe (with_sent (getAccessToken (browser s), encode (GetUserByUsernameOrNicknameOrEmail q)) (browser s)) (hook s))).
  { unfold getUserByUsernameOrNicknameOrEmail. by rewrite (bind_Ret _ _ _ _ _ (fe_request_NetOk server _ s _ Hsearch)). }
  rewrite (bind_Ret _ _ _ _ _ E). erewrite bind_Ret by reflexivity.
  match goal with |- context [for_each users _ ?p] =>
    destruct (check_all server (getAccessToken (browser s)) is_m Hans users p eq_refl) as (b & ->) end.
  cbn [hook header maintainersHere setMaintainers setOptions maintainerOptions page].
  do 4 (split; [done|]). intros u Hu Hm Hb Hnd. apply NoDup_app in Hnd as (_ & H & _).
  apply (H u Hb). by apply list_elem_of_filter.
Qed.

Definition bob : UserProfile := mkUserProfile 2 "bob" "Bob" "b@cam.cn" "qa" 1 "now".
Definition maintained_page : Fe HeaderPage :=
  mkFe empty_browser (mkHeaderPage (mkHeader [bob] [] false false) initial).
Definition bob_server : Server := fun T _ _ e =>
  match e in Endpoint T return net T with
  | GetUserByUsernameOrNicknameOrEmail _ => NetOk (mkResponse 200 "" (Some [bob]))
  | IsServiceMaintainer _ c => NetOk (mkResponse 200 "" (c =? 2)%Z)
  | _ => NetErr true None ""
  end.

Lemma search_appends_maintainers_witness :
  let '(o, s') := getMaintainerOptions bob_server "bob" maintained_page in
  o = Ret tt /\ maintainersHere (header (hook s')) = [bob; bob].
Proof.
  pose proof (search_appends_maintainers bob_server "bob" maintained_page [bob] (fun c => c =? 2)%Z
    ltac:(vm_compute; lia) eq_refl ltac:(intros; reflexivity)) as H.
  destruct (getMaintainerOptions bob_server "bob" maintained_page) as [o s']. destruct H as (Ho & _ & _ & H & _).
  split; [exact Ho|exact H].
Defined.
