(* ===== verification/HeaderView.v ===== *)
(** * What the service header shows and exports

    The rendering of [FE-CAM/src/components/ApiManagement/Header.tsx]: the
    breadcrumb, the versions, the people of the service, who may change the
    maintainers, and the download of the OpenAPI document. *)

From S2P Require Import Prelude JsObject ApiTypes FeTypes FeHttp Dialogs ApiTree ThisService ApiPage UserStore Views Header.
From Stdlib Require Import Ascii String ZArith Lia.

(** The properties [ApiManagement] passes down. *)
Record HeaderProps := mkHeaderProps {
  p_serviceUuid : string;
  p_versions : list ServiceVersion;
  p_isLatest : bool;
  p_currentVersion : string;
  p_personInCharge : UserProfile;
  p_maintainers : list UserProfile;
  p_inIteration : bool
}.

(** [maintainers] of the detail, [[]] when the detail has none. *)
Definition page_maintainers (s : ThisService) : list UserProfile :=
  match serviceDetail s with Some (Latest d) => default [] (maintainers d) | _ => [] end.

(** [None] while the page is loading, or no person in charge was sent. *)
Definition header_props (s : ThisService) : option HeaderProps :=
  if isLoading s then None
  else (fun person => mkHeaderProps (serviceUuid s) (versions s) (isLatest s) (currentVersion s) person
                        (page_maintainers s) (inIteration s)) <$> personInCharge s.

(** [isServiceOwnerOrIsL0]. *)
Definition isServiceOwnerOrIsL0 (personInCharge : UserProfile) (user : option UserProfile) : bool :=
  match user with
  | Some u => (user_id personInCharge =? user_id u)%Z || (level u =? 0)%Z
  | None => false
  end.

(** The three items of the breadcrumb: text and address. *)
Definition breadcrumb (p : HeaderProps) : list (string * option string) :=
  [("服务列表", Some "/");
   ("服务详情", if p_inIteration p then Some ("/service?uuid=" +:+ p_serviceUuid p) else None)] ++
  (if p_inIteration p then [("Service 迭代", None)] else []).

(** The list that opens on the identifier: title, number, and a row per role. *)
Record MembersView := mkMembersView {
  members_title : string;
  members_count : nat;
  members_rows : list (Tag * list Avatar)
}.

(** The maintainers' block: avatars, and the [Select] when it may be used (its
    options and the ids chosen). *)
Record MaintainersView := mkMaintainersView {
  maintainer_avatars : list Avatar;
  maintainer_select : option (list (Z * UserProfile) * list Z)
}.

Record HeaderView := mkHeaderView {
  view_breadcrumb : list (string * option string);
  view_members : MembersView;
  view_versions : list string;
  view_version_tag : Tag;
  view_person : string * list Avatar;
  view_maintainers : option MaintainersView
}.

Section View.
Variable t : string -> string.

(** [serviceMembersByRoleContent]; every user is there, so [userAvatar] is a
    map. *)
Definition members_view (p : HeaderProps) (h : Header) : MembersView :=
  let byRole := serviceMembersByRole (p_personInCharge p) (maintainersHere h) in
  mkMembersView (p_serviceUuid p +:+ " 相关人员") (List.length (List.concat (values byRole)))
    (map (fun kv : string * list UserProfile => (genUserRoleTag t kv.1, map (avatar t) kv.2)) (entries byRole)).

Definition maintainers_view (user : option UserProfile) (p : HeaderProps) (h : Header) : option MaintainersView :=
  let may_edit := isServiceOwnerOrIsL0 (p_personInCharge p) user in
  if (bool_decide (maintainersHere h <> []) || may_edit) && p_isLatest p
  then Some (mkMaintainersView (map (avatar t) (maintainersHere h))
    (if may_edit then Some (options h, map user_id (maintainersHere h)) else None))
  else None.

Definition header_view (user : option UserProfile) (p : HeaderProps) (h : Header) : HeaderView :=
  mkHeaderView (breadcrumb p) (members_view p h) (map version (p_versions p))
    (if p_isLatest p then mkTag (Some "green") "最新版本" else mkTag (Some "blue") "非最新版本")
    ((if p_isLatest p then "服务" else "版本") +:+ "负责人", [avatar t (p_personInCharge p)])
    (maintainers_view user p h).
End View.

(** ** Handlers *)

(** The effect on [maintainers]. *)
Definition maintainers_effect (l : list UserProfile) : UI HeaderPage unit := set_header (setMaintainers l).

(** Clicking the second item of the breadcrumb. *)
Definition click_detail : UI HeaderPage unit :=
  s ← get_hook;
  if inIteration (page s) then on_page exitIteration else mret ().

(** Clicking the identifier. *)
Definition click_uuid (c : clipboard) : UI HeaderPage unit := copyToClipboard c.

Section Download.
Variable server : Server.
(** [JSON.stringify(o, null, 2)]. *)
Variable stringify : string -> string.

(** [exportAndDownloadOpenAPI]: the file downloaded, by name and content. *)
Definition exportAndDownloadOpenAPI (serviceUuid : string) : UI HeaderPage (option (string * string)) :=
  set_header (setExportLoading true) ;;
  finally
    (try_catch (
      openAPIObj ← on_page (handleExportOpenAPI server serviceUuid);
      mret ((fun o => (serviceUuid +:+ ".json", stringify o)) <$> openAPIObj))
      (fun _ => mret None))
    (fun s => mkFe (browser s) (mkHeaderPage (setExportLoading false (header (hook s))) (page (hook s)))).
End Download.

(** ** Properties *)

(** The export, by the server's answer: the document of the version shown is
    asked for; an answer is downloaded under the service's identifier, and
    anything else is a warning and no download.  The button stops spinning in
    every case, and the page is left as it was. *)
Theorem export_outcome server stringify uuid s :
  let '(o, s') := exportAndDownloadOpenAPI server stringify uuid s in
  let b := browser s in
  let e := ExportOpenapiByUuidAndVersion uuid (currentVersion (page (hook s))) in
  exportLoading (header (hook s')) = false /\ page (hook s') = page (hook s) /\
  maintainersHere (header (hook s')) = maintainersHere (header (hook s)) /\
  sent (browser s') = sent b ++ [(getAccessToken b, encode e)] /\
  match server _ (sent b) (getAccessToken b) e with
  | NetOk res =>
      if decide (status res <> 200%Z)
      then o = Ret None /\ messages (browser s') = messages b ++ [Warning (str_or (message res) "导出 OpenAPI 失败")]
      else o = Ret (Some (uuid +:+ ".json", stringify (payload res))) /\ messages (browser s') = messages b
  | NetErr _ _ msg => o = Ret None /\ messages (browser s') = messages b ++ [Warning (str_or msg "Request error")]
  end.
Proof.
  unfold exportAndDownloadOpenAPI. erewrite bind_Ret by reflexivity.
  unfold finally, try_catch, on_page, handleExportOpenAPI, get_hook, try_catch, mbind, M_bind, request. simpl.
  destruct (server _ (sent (browser s)) _ _) as [res|n st msg].
  - case_decide; done.
  - destruct (n || _); done.
Qed.

Lemma isServiceOwnerOrIsL0_spec person user :
  isServiceOwnerOrIsL0 person user = true <->
  exists u, user = Some u /\ (user_id person = user_id u \/ level u = 0%Z).
Proof.
  unfold isServiceOwnerOrIsL0. destruct user as [u|]; [|naive_solver].
  rewrite orb_true_iff, !Z.eqb_eq. naive_solver.
Qed.

Lemma maintainers_editable t user p h :
  (exists m, maintainers_view t user p h = Some m /\ is_Some (maintainer_select m)) <->
  p_isLatest p = true /\ isServiceOwnerOrIsL0 (p_personInCharge p) user = true.
Proof.
  unfold maintainers_view.
  destruct (p_isLatest p), (isServiceOwnerOrIsL0 _ _), (bool_decide (maintainersHere h <> [])); cbn; split;
    try (by intros [? ?]); try (by intros (m & [= <-] & [? ?])); by eauto.
Qed.

(** The people the header shows are those of the service: the list behind the
    identifier counts and shows the person in charge and every maintainer, each
    in the row of their role and no other; and the maintainers can be changed
    exactly on the latest version, by its owner or a user of level 0. *)
Theorem header_shows_people t user p h :
  let v := header_view t user p h in
  let people := p_personInCharge p :: maintainersHere h in
  members_count (view_members v) = List.length people /\
  List.concat (map snd (members_rows (view_members v))) ≡ₚ map (avatar t) people /\
  (forall tag avatars, (tag, avatars) ∈ members_rows (view_members v) ->
     exists r, tag = genUserRoleTag t r /\ avatars = map (avatar t) (filter (fun u => role u = r) people) /\ avatars <> []) /\
  ((exists m, view_maintainers v = Some m /\ is_Some (maintainer_select m)) <->
     p_isLatest p = true /\ exists u, user = Some u /\ (user_id (p_personInCharge p) = user_id u \/ level u = 0%Z)).
Proof.
  destruct (membersByRole_partition (p_personInCharge p) (maintainersHere h)) as (Hwf & Hget & Hconcat).
  cbn [header_view view_members members_view members_count members_rows view_maintainers].
  set (byRole := serviceMembersByRole _ _) in *. set (people := p_personInCharge p :: maintainersHere h) in *.
  split; [by rewrite Hconcat|]. split.
  { rewrite map_map. cbn [snd]. rewrite <-(map_map snd (map (avatar t))), <-concat_map.
    apply (fmap_Permutation (avatar t)). exact Hconcat. }
  split.
  - intros tag avs ([k us] & [= -> ->] & Hin)%list_elem_of_fmap. cbn [fst snd].
    assert (E : obj_get byRole k = Some us).
    { apply obj_In_get; [exact Hwf|]. by rewrite <-(entries_Permutation byRole). }
    rewrite Hget in E. case_decide as Hk; [|done]. injection E as <-. exists k. split; [done|]. split; [done|].
    apply list_elem_of_fmap in Hk as (u & -> & Hu). intros H. apply map_eq_nil in H.
    assert (Hf : u ∈ filter (fun x => role x = role u) people) by (by apply list_elem_of_filter). rewrite H in Hf.
    by apply not_elem_of_nil in Hf.
  - by rewrite maintainers_editable, isServiceOwnerOrIsL0_spec.
Qed.
