(* ===== verification/Programs.v ===== *)
(** * The two programs together

    What the front-end lets users enter and save, the command-line tool must be
    able to configure, pull and call.  This file composes the two: services and
    versions with [cam add], saved drafts with the generated client, names with
    the generated types, and the requests both send to the same backend. *)

From S2P Require Import Prelude JsObject ApiTypes Generator ServiceClass Client TsTypes CliWorld CodeGen Cli.
From S2P Require Import FeTypes FeHttp ThisService Iteration UserStore JsNumber Dates Forms ParamEdit.
From Stdlib Require Import Ascii String ZArith Lia.

(** ** The requests of both clients *)

(** A query parameter as axios writes it in the address. *)
Definition param_text (v : json) : option string :=
  match v with
  | JStr s => Some s
  | JNum z => Some (show_int z)
  | JBool b => Some (show_bool b)
  | _ => None
  end.

Definition same_verb (v : CliWorld.http_verb) (w : FeTypes.http_verb) : bool :=
  match v, w with CliWorld.HttpGet, FeTypes.HttpGet | CliWorld.HttpPost, FeTypes.HttpPost => true | _, _ => false end.

(** The same request: verb, address and parameters, in order. *)
Definition same_request (c : CliWorld.HttpRequest) (f : FeTypes.HttpRequest) : Prop :=
  same_verb (CliWorld.verb c) (FeTypes.verb f) = true /\ CliWorld.url c = FeTypes.url f /\
  map (fun kv : string * string => (kv.1, Some kv.2)) (params c) =
  map (fun kv : string * json => (kv.1, param_text kv.2)) (data f).

(** The front-end's function of the same name. *)
Definition fe_call {T} (e : CliWorld.Endpoint T) : FeTypes.HttpRequest :=
  match e with
  | CliWorld.UserLogin n p => FeTypes.encode (FeTypes.UserLogin (mkLoginRequest n p))
  | CliWorld.GetMyInfo => FeTypes.encode FeTypes.GetMyInfo
  | CliWorld.GetServiceByUuidAndVersion u v => FeTypes.encode (FeTypes.GetServiceByUuidAndVersion u v)
  | CliWorld.GetApiById i l => FeTypes.encode (FeTypes.GetApiById i l)
  end.

(** The command-line tool asks the backend what the front-end asks it. *)
Theorem clients_agree T (e : CliWorld.Endpoint T) : same_request (CliWorld.encode e) (fe_call e).
Proof. by destruct e as [n p| |u v|i [l|]]. Qed.

(** ** Lemmas *)

Lemma text_lacks c (f : ascii -> bool) s : str_forallb f s = true -> f c = false -> lacks c s = true.
Proof.
  intros Hs Hc. unfold lacks. eapply str_forallb_impl; [|exact Hs]. intros d Hd.
  apply negb_true_iff, Ascii.eqb_neq. intros ->. by rewrite Hc in Hd.
Qed.

Definition version_char (c : ascii) : bool := is_digit c || Ascii.eqb c ".".

Lemma version_format_chars v : version_format v = true -> str_forallb version_char v = true.
Proof.
  unfold version_format. pose proof (join_split_on "." v) as E.
  destruct (split_on "." v) as [|x [|y [|z []]]]; try done. rewrite !andb_true_iff. intros [[Hx Hy] Hz].
  assert (Hd : forall s, is_numeral s = true -> str_forallb version_char s = true).
  { intros s Hs. unfold is_numeral in Hs. apply bool_decide_eq_true in Hs as [n Hn]. apply digits_chars in Hn.
    eapply str_forallb_impl; [|exact Hn]. intros c Hc. unfold version_char. by rewrite Hc. }
  rewrite <-E. cbn [join]. rewrite !str_forallb_app, (Hd x Hx), (Hd y Hy), (Hd z Hz). done.
Qed.

(** A version the completion form accepts is one [cam add] accepts. *)
Lemma committed_version_valid cur v : v <> "" -> validateVersion cur v = None ->
  isValidVersion v = true /\ lacks "@" v = true.
Proof.
  intros Hne H. unfold validateVersion in H. rewrite (proj2 (String.eqb_neq v "") Hne) in H.
  destruct (version_format v) eqn:Hf; [|done]. split.
  - unfold isValidVersion. rewrite (proj2 (String.eqb_neq v "") Hne). destruct (String.eqb v "latest"); [done|].
    unfold version_format in Hf. exact Hf.
  - eapply text_lacks; [by apply version_format_chars|done].
Qed.

(** ** Properties *)

(** C28. Services and versions made in the front-end can be configured in the
    command-line tool: for an identifier the creation form accepted and a version
    the completion form accepted, [cam add name:identifier@version] passes every
    check for a valid service name and stores exactly the three parts; without
    the version it stores [latest]. *)
Theorem created_service_configurable (validate : list FormItem -> Values -> outcome unit) (lib : FormLibrary validate)
  t service_values cur version_values name server prettier rm_cwd w
  (Hs : entered (CreateServiceForm t) service_values) (Hsv : validate (CreateServiceForm t) service_values = Ret tt)
  (Hv : entered (CompleteIterationForm cur) version_values)
  (Hvv : validate (CompleteIterationForm cur) version_values = Ret tt)
  (Hname : isValidFilename name = true) (Hat : lacks "@" name = true) :
  let u := str_value service_values "service_uuid" in
  let v := str_value version_values "new_version" in
  addService server prettier rm_cwd (name +:+ ":" +:+ u +:+ "@" +:+ v) w =
    storeServiceInfo server prettier rm_cwd name u v (announced name u v w) /\
  addService server prettier rm_cwd (name +:+ ":" +:+ u) w =
    storeServiceInfo server prettier rm_cwd name u "latest" (announced name u "latest" w).
Proof.
  set (uuid_item := mkFormItem (Some "service_uuid")
    [Required (t "service.serviceUUIDRequired"); Matches valid_uuid (t "service.serviceUUIDInvalid")] None None None).
  assert (Hi : uuid_item ∈ CreateServiceForm t) by in_form.
  pose proof (matched_text _ _ Hsv Hs uuid_item "service_uuid" (t "service.serviceUUIDRequired") valid_uuid
    (t "service.serviceUUIDInvalid") Hi eq_refl ltac:(by left) eq_refl ltac:(in_form)) as Hu.
  apply valid_uuid_chars in Hu as [Hune Hu].
  set (version_item := mkFormItem (Some "new_version") [Required "请输入新版本号"; Validator (validateVersion cur)]
    (Some (JStr (suggestVersion cur))) None None).
  assert (Hj : version_item ∈ CompleteIterationForm cur) by in_form.
  destruct (required_text _ _ Hvv Hv version_item "new_version" "请输入新版本号" Hj eq_refl ltac:(by left) eq_refl)
    as [Ev Hvne].
  pose proof (validated_rule _ _ Hvv version_item "new_version" (Validator (validateVersion cur)) Hj eq_refl ltac:(in_form)) as Hr.
  rewrite Ev in Hr. cbn [rule_holds] in Hr. apply bool_decide_eq_true in Hr.
  destruct (committed_version_valid _ _ Hvne Hr) as [Hv1 Hv2]. cbv zeta.
  apply addService_roundtrip; [|exact Hat].
  split; [exact Hname|exact Hune| | |exact Hv1|exact Hv2]; by eapply text_lacks.
Qed.

Definition version_values : Values := [("new_version", JStr "0.0.2")].

Lemma created_service_configurable_witness :
  let w := sample_world in
  addService sample_server (fun _ => None) (mret ()) "core:cam/core/api_1@0.0.2" w =
    storeServiceInfo sample_server (fun _ => None) (mret ()) "core" "cam/core/api_1" "0.0.2"
      (announced "core" "cam/core/api_1" "0.0.2" w).
Proof.
  assert (Hs : entered (CreateServiceForm id) [("service_uuid", JStr "cam/core/api_1"); ("description", JStr "APIs")])
    by enter_values.
  assert (Hv : entered (CompleteIterationForm "0.0.1") version_values) by enter_values.
  exact (proj1 (created_service_configurable check_rules check_rules_library id
    [("service_uuid", JStr "cam/core/api_1"); ("description", JStr "APIs")] "0.0.1" version_values "core" sample_server
    (fun _ => None) (mret ()) sample_world Hs eq_refl Hv eq_refl eq_refl eq_refl)).
Defined.

(** A placeholder included in an address is one of its holes. *)
Lemma includes_find p s : includes s p = true -> find_text p s <> None.
Proof.
  assert (Hp : forall p s, String.prefix p s = true -> after_prefix p s <> None).
  { clear. induction p as [|a p IH]; intros s H; [by destruct s|]. destruct s as [|b s]; [done|].
    cbn in *. destruct (ascii_dec a b) as [->|]; [|done]. rewrite Ascii.eqb_refl. by apply IH. }
  induction s as [|c s IH]; cbn [includes find_text]; intros H.
  - rewrite orb_false_r in H. apply Hp in H. by destruct (after_prefix p "").
  - destruct (after_prefix p (String c s)) eqn:E; [done|]. apply orb_true_iff in H as [H|H]; [by apply Hp in H|].
    specialize (IH H). by destruct (find_text p s).
Qed.

Lemma included_hole n ps : lacks "{" n = true -> lacks "}" n = true -> Forall piece_ok ps ->
  includes (template ps) (braced n) = true -> n ∈ holes ps.
Proof.
  intros H1 H2 Hok H. apply includes_find in H. pose proof (find_hole n ps H1 H2 Hok) as Hf.
  change (braced n) with ("{" +:+ n +:+ "}") in H. destruct (find_text _ _) as [[b a]|]; [|done].
  destruct Hf as (l & r & -> & _). rewrite holes_app. apply elem_of_app. right. by left.
Qed.

(** Trimming keeps the characters it leaves. *)
Lemma trim_forallb f s : str_forallb f s = true -> str_forallb f (trim s) = true.
Proof.
  assert (Hs : forall s, str_forallb f s = true -> str_forallb f (trim_start s) = true).
  { clear. induction s as [|c s IH]; [done|]. cbn [str_forallb trim_start]. rewrite andb_true_iff. intros [Hc H].
    destruct (is_space c); [by apply IH|]. cbn [str_forallb]. by rewrite Hc. }
  assert (He : forall s, str_forallb f s = true -> str_forallb f (trim_end s) = true).
  { clear. induction s as [|c s IH]; [done|]. cbn [str_forallb trim_end]. rewrite andb_true_iff. intros [Hc H].
    specialize (IH H). revert IH.
    destruct (trim_end s); [destruct (is_space c); [done|]|]; cbn [str_forallb]; intros IH; by rewrite Hc, ?IH. }
  intros H. by apply He, Hs.
Qed.

Lemma drop_slashes_forallb f s : str_forallb f s = true -> str_forallb f (drop_slashes s) = true.
Proof.
  induction s as [|c s IH]; [done|]. cbn [str_forallb drop_slashes]. rewrite andb_true_iff. intros [Hc H].
  specialize (IH H). revert IH. destruct (drop_slashes s); [destruct (is_slash c); [done|]|]; cbn [str_forallb];
    intros IH; by rewrite Hc, ?IH.
Qed.

(** [api] is what a draft saved with this path and these parameters becomes: it
    has the path, and the path parameters by their names. *)
Definition published (saved_path : string) (req_params : list ParamInput) (api : ApiTypes.ApiDetail) : Prop :=
  ApiTypes.api_path api = saved_path /\
  exists o, ApiTypes.request_params_by_location api = Some o /\
    map param_name (default [] (obj_get o "path")) = map input_name (List.filter is_path req_params).

(** C21. From the editor to the generated client.  Take a draft that passes the
    editor's check of its path parameters, whose path is trimmed, begins with exactly
    one slash, has opening braces only in placeholders and uses each placeholder once, and
    whose path parameters have no brace in their names; and suppose that every
    placeholder is declared as a path parameter, which is up to the user: the editor
    makes sure of the converse only.  Published with this path and these path
    parameters, and its code generated, the method requests, for values that contain
    neither an opening brace nor a dollar sign, exactly the base address (trimmed,
    without the slashes at its end, and free of opening braces), a slash, and the path
    with the values filled in. *)
Theorem saved_draft_callable {A} (js_String : A -> string) base_url saved_path rest req_params api code
  (req : obj (@arg A)) value
  (Hpath : saved_path = "/" +:+ template rest) (Hrest : String.prefix "/" (template rest) = false)
  (Htrim : trim saved_path = saved_path) (Hok : Forall piece_ok rest) (Honce : NoDup (holes rest))
  (Hbase : lacks "{" base_url = true)
  (Hcheck : request_complaint saved_path req_params = None)
  (Hnames : Forall (fun p => is_path p = true -> lacks "{" (input_name p) = true /\ lacks "}" (input_name p) = true) req_params)
  (Hall : forall n, n ∈ holes rest -> exists p, p ∈ req_params /\ is_path p = true /\ input_name p = n)
  (Hpublished : published saved_path req_params api)
  (Hgen : generateTSCode api = Ret code)
  (Hreq : forall n, n ∈ holes rest -> gives js_String req value n) :
  client_url (call_method js_String (BaseText base_url) (apiOption code) req) =
    drop_slashes (trim base_url) +:+ "/" +:+ fill value rest.
Proof.
  destruct Hpublished as (Hpublished & o & Hparams & Hsaved).
  destruct (generated_option _ _ _ Hgen Hparams) as (Hp & _ & Hf).
  set (prefix := drop_slashes (trim base_url)). set (ps := Lit (prefix +:+ "/") :: rest).
  assert (Hps : Forall piece_ok ps).
  { constructor; [|exact Hok]. unfold piece_ok, lacks, prefix. rewrite str_forallb_app.
    rewrite drop_slashes_forallb by (by apply trim_forallb). done. }
  assert (E : fill value ps = prefix +:+ "/" +:+ fill value rest) by (unfold ps; cbn [fill]; by rewrite str_app_assoc).
  rewrite <-E. apply call_url; [|exact Hps|exact Honce| |exact Hreq].
  - rewrite Hp, Hpublished. unfold genBaseURL. rewrite Htrim, Hpath. rewrite span_app; [|done|].
    + unfold ps. cbn [template piece_text snd]. by rewrite str_app_assoc.
    + destruct (template rest) as [|c r]; [done|]. revert Hrest. cbn [String.prefix].
      destruct (ascii_dec "/" c); [intros H; exfalso; destruct r; discriminate H|]. intros _. unfold is_slash. apply Ascii.eqb_neq. congruence.
  - intros n. change (reqPathFields (apiOption code)) with (location_fields (apiOption code) path). rewrite Hf.
    change (location_name path) with "path". rewrite Hsaved. change (holes ps) with (holes rest). split.
    + intros (p & -> & Hin)%list_elem_of_fmap. apply list_elem_of_In, filter_In in Hin as [Hin Hpa].
      apply list_elem_of_In in Hin. destruct (request_complaint_None _ _ Hcheck) as [_ Hc].
      rewrite Forall_forall in Hc. destruct (Hc p Hin Hpa) as [_ Hinc]. rewrite Forall_forall in Hnames.
      destruct (Hnames p Hin Hpa) as [H1 H2]. change (holes rest) with (holes (Lit "/" :: rest)).
      apply included_hole; [done|done|by constructor|].
      change (template (Lit "/" :: rest)) with ("/" +:+ template rest). by rewrite <-Hpath.
    + intros (p & Hin & Hpa & <-)%Hall. apply list_elem_of_fmap. exists p. split; [done|].
      by apply list_elem_of_In, filter_In; split; [apply list_elem_of_In|].
Qed.

Definition item_param : ParamInput := mkParamInput "item_id" "int" (AtLocation "path") true None None None None None.

Lemma saved_draft_callable_witness :
  exists code, generateTSCode item_api = Ret code /\
    client_url (call_method id (BaseText "https://cam.cn/") (apiOption code) [("item_id", Arg "42")]) =
      "https://cam.cn" +:+ "/" +:+ "api/items/42".
Proof.
  eexists. split; [reflexivity|].
  refine (saved_draft_callable id "https://cam.cn/" "/api/items/{item_id}" [Lit "api/items/"; Hole "item_id"] [item_param]
    item_api _ [("item_id", Arg "42")] (fun _ => "42") eq_refl eq_refl eq_refl _ _ eq_refl eq_refl _ _ _ eq_refl _).
  - repeat constructor.
  - repeat constructor. apply not_elem_of_nil.
  - repeat constructor.
  - intros n Hn. vm_compute in Hn. apply list_elem_of_singleton in Hn as ->. exists item_param.
    split; [by left|done].
  - split; [reflexivity|]. eexists. split; reflexivity.
  - intros n Hn. vm_compute in Hn. apply list_elem_of_singleton in Hn as ->. by exists "42".
Defined.

(** The form that adds an API accepts names the generator cannot use: the name
    of an API becomes the name of its interfaces and of its method unchanged, so
    that for [get user] the declarations generated are not TypeScript. *)
Theorem accepted_name_unreadable :
  exists values api code,
    entered (AddApiForm []) values /\ check_rules (AddApiForm []) values = Ret tt /\
    ApiTypes.api_name api = str_value values "name" /\ ApiTypes.api_path api = str_value values "path" /\
    generateTSCode api = Ret code /\ namespaces code <> [] /\ mapM parse_interface (namespaces code) = None.
Proof.
  exists [("name", JStr "get user"); ("method", JStr "GET"); ("path", JStr "/user"); ("level", JStr "P2");
          ("category_id", JNum (-1))].
  exists (ApiTypes.mkApiDetail 7 "get user" GET "/user" None
    (Some [("query", [sample_param "lang" "string" None None]); ("path", []); ("header", []); ("cookie", []); ("body", [])])
    None).
  eexists. split; [enter_values|]. split; [reflexivity|]. split; [reflexivity|]. split; [reflexivity|].
  split; [reflexivity|]. split; [done|reflexivity].
Qed.
