(* ===== verification/Toolchain.v ===== *)
(** * From the database to the generated client

    The command-line tool ([CodeGen]) run against the back end of this library: its
    requests are the front-end's ([Programs]), the back end answers them from its
    tables ([BackendRoutes]), and the specification of an update says which files
    result. *)

From S2P Require Import Prelude Tables JsNumber JsObject ApiTypes Generator ServiceClass TsTypes CliWorld CodeGen Cli.
From S2P Require Import FeTypes Database ParamStore Openapi Backend Transaction BackendUser BackendService BackendApi.
From S2P Require Import Integrity FeHttp BackendRoutes BackendSafety Failures Wire EndToEnd Releases Programs.
From Stdlib Require Import Ascii String ZArith Lia.

(** ** The tool's view of the replies *)

Definition tool_brief (b : FeTypes.ApiBrief) : ApiTypes.ApiBrief :=
  ApiTypes.mkApiBrief (FeTypes.api_id b) (FeTypes.api_name b) (FeTypes.api_method b) (FeTypes.api_path b) (FeTypes.api_description b)
    (FeTypes.category_id b).
Definition tool_api (a : FeTypes.ApiDetail) : ApiTypes.ApiDetail :=
  let b := detail_api a in
  ApiTypes.mkApiDetail (FeTypes.api_id b) (FeTypes.api_name b) (FeTypes.api_method b) (FeTypes.api_path b) (FeTypes.api_description b)
    (FeTypes.request_params_by_location a) (FeTypes.response_params_by_status_code a).
Definition tool_user (u : FeTypes.UserProfile) : CliWorld.UserProfile :=
  CliWorld.mkUserProfile (FeTypes.user_id u) (FeTypes.username u) (FeTypes.nickname u) (FeTypes.email u) (FeTypes.role u)
    (FeTypes.level u) (FeTypes.created_at u).
Definition tool_service (s : AnyService) : ServicePayload :=
  match s with
  | Latest d => mkServicePayload (option_map (option_map (map tool_brief)) (FeTypes.apis d)) None
  | Past d => mkServicePayload None (option_map (option_map (map tool_brief)) (FeTypes.api_drafts d))
  end.

(** Members of a reply that is not a success are not read. *)
Definition unread_api : ApiTypes.ApiDetail := ApiTypes.mkApiDetail 0 "" GET "" None None None.
Definition unread_user : CliWorld.UserProfile := CliWorld.mkUserProfile 0 "" "" "" "" 0 "".

Definition tool_body {T} (e : CliWorld.Endpoint T) (r : Reply) : T :=
  let st := default 0%Z (reply_status r) in
  let msg := default "" (reply_message r) in
  match e in CliWorld.Endpoint T return T with
  | CliWorld.UserLogin _ _ => mkLoginResponse st msg (match reply_payload r with PToken t => t | _ => "" end)
  | CliWorld.GetMyInfo => mkUserResponse st msg (match reply_payload r with PUser u => tool_user u | _ => unread_user end)
  | CliWorld.GetServiceByUuidAndVersion _ _ =>
      match reply_payload r with
      | PAnyService s l => mkServiceResponse st msg (Some (tool_service s)) l
      | _ => mkServiceResponse st msg None false
      end
  | CliWorld.GetApiById _ _ => mkApiResponse st msg (match reply_payload r with PApi a => tool_api a | _ => unread_api end)
  end.

Section Toolchain.
Context `{!Isoformat, !Libraries, !AxiosQuery}.

(** What the tool receives for a request, from a database. *)
Definition tool_answer (m : Moment) (d : Db) (token : option string) (T : Type) (e : CliWorld.Endpoint T) : CliWorld.net T :=
  match (serve m d token (fe_call e)).1 with
  | Json r => CliWorld.NetOk (tool_body e r)
  | HttpStatus c => CliWorld.NetErr (Some c) ("Request failed with status code " +:+ show_int c)
  end.

(** ** Versions *)

(** The version of a service with a name: its own, or a past one. *)
Definition version_named (d : Db) (s : ServiceRow) (version : string) : option (option IterationRow) :=
  if String.eqb (sr_version s) version || String.eqb version "latest" then Some None
  else Some <$> first_row (iterations d) (fun i => (ir_service i =? sr_id s)%Z && bool_decide (ir_version i = Some version)).

(** Who may see it. *)
Definition may_view (s : ServiceRow) (past : option IterationRow) (u : UserRow) : bool :=
  may_start s u || match past with Some i => (ir_creator i =? ur_id u)%Z | None => false end.

(** Its APIs, and what is shown of one. *)
Definition version_rows (d : Db) (s : ServiceRow) (past : option IterationRow) : list ApiRow :=
  match past with None => apis_of d (sr_id s) | Some i => drafts_of d (ir_id i) end.
Definition version_detail (d : Db) (past : option IterationRow) (a : ApiRow) : FeTypes.ApiDetail :=
  match past with
  | None => api_detail_json d a (params_of (Database.req_params d) (ar_id a)) (params_of (Database.resp_params d) (ar_id a))
  | Some _ => draft_detail d a
  end.

(** An identifier and a version as they are configured. *)
Record configurable (uuid version : string) : Prop := mkConfigurable {
  uuid_given : uuid <> "";
  uuid_lacks_at : lacks "@" uuid = true;
  uuid_no_space : str_existsb is_space uuid = false;
  version_given : version <> "";
  version_lacks_at : lacks "@" version = true;
  version_plain : str_forallb unreserved version = true
}.

Lemma plus_spaces_id s : str_existsb is_space s = false -> plus_spaces s = s.
Proof.
  unfold str_existsb. rewrite negb_false_iff. induction s as [|c s IH]; [done|]. cbn [str_forallb plus_spaces].
  rewrite andb_true_iff, negb_true_iff. intros [Hc Hs]. rewrite IH by done. destruct (Ascii.eqb_spec c " ") as [->|]; done.
Qed.

Lemma uuid_arrives uuid version : configurable uuid version -> trim (unquote (query_text uuid)) = uuid.
Proof. intros [_ _ Hs _ _ _]. by rewrite query_text_decodes, plus_spaces_id, trim_id. Qed.

(** ** The requests of an update, answered *)

Section Version.
Context (m : Moment) (d : Db) (token : option string) (u : UserRow) (uuid version : string) (s : ServiceRow) (past : option IterationRow).
Hypothesis Hd : db_ok d.
Hypothesis Hin : signed_in m d token u.
Hypothesis Hconf : configurable uuid version.
Hypothesis Hs : live_service uuid d = Some s.
Hypothesis Hpast : version_named d s version = Some past.
Hypothesis Hview : may_view s past u = true.

Lemma seen_run c o : version_seen_by (query_text uuid) version (ur_id u) (mkTx d c o) = (Ret (inl (s, past)), mkTx d c o).
Proof.
  unfold version_seen_by. repeat step. rewrite (uuid_arrives uuid version Hconf), Hs. repeat step.
  fold (version_named d s version). rewrite Hpast. unfold get_user. repeat step. rewrite (signed_user _ _ _ _ Hin). repeat step.
  unfold may_view, may_start in Hview.
  destruct (ur_level u =? 0)%Z, (owned_by (ur_id u) s), (maintains (Some u) s), past as [i|]; cbn in *; try done.
  by rewrite Hview.
Qed.

Definition shown_service : AnyService :=
  match past with None => Latest (service_detail_json d s) | Some i => Past (iteration_detail_json d i) end.

Lemma service_answered : tool_answer m d token _ (CliWorld.GetServiceByUuidAndVersion uuid version) =
  CliWorld.NetOk (mkServiceResponse 200 "Get service success" (Some (tool_service shown_service)) (bool_decide (past = None))).
Proof.
  unfold tool_answer.
  rewrite (serve_run m d token u (fe_call (CliWorld.GetServiceByUuidAndVersion uuid version))
    (getServiceByUuidAndVersion (query_text uuid) version)
    (success "Get service success" (PAnyService shown_service (bool_decide (past = None)))) (mkTx d d [])); [done|done| |done|done|].
  - change (fe_call _) with (FeTypes.encode (FeTypes.GetServiceByUuidAndVersion uuid version)). rewrite wire_agrees.
    cbn [asked]. unfold needs_text. destruct Hconf as [Hu _ _ Hv _ Hp].
    by rewrite (proj2 (String.eqb_neq _ _) Hu), (proj2 (String.eqb_neq _ _) Hv), (query_text_plain _ Hp).
  - cbn [handle]. unfold serviceGetServiceByUuidAndVersion. rewrite (bind_Ret _ _ _ _ _ (seen_run d [])). repeat step.
    unfold shown_service. by destruct past.
Qed.

(** A released API, read by someone who may. *)
Lemma released_run a : a ∈ apis_of d (sr_id s) -> tget (services d) (sr_id s) = Some s -> may_start s u = true ->
  handle m (ur_id u) (getApiById (ar_id a) true) (mkTx d d []) =
    (Ret (success "Get api success" (PApi (version_detail d None a))), mkTx d d []).
Proof.
  intros [Ha Hp%Z.eqb_eq]%elem_of_select Hsv Hm. pose proof (tget_unique _ _ (proj1 (ok_apis d Hd)) Ha) as Hget.
  change (id_of a) with (ar_id a) in Hget. cbn [handle]. unfold apiGetApiById. repeat step. unfold Datatypes.id.
  rewrite Hget, (signed_user _ _ _ _ Hin). unfold may_start in Hm. unfold sees_api. rewrite Hp, Hsv.
  destruct (ur_level u =? 0)%Z; repeat step; [done|]. cbn [orb] in Hm. by rewrite Hm.
Qed.

Lemma live_found : s ∈ rows (services d).
Proof. by apply first_row_Some in Hs as [? _]. Qed.
Lemma service_found : tget (services d) (sr_id s) = Some s.
Proof. apply (tget_unique _ s); [apply (ok_services d Hd)|apply live_found]. Qed.

Lemma past_found i : past = Some i -> tget (iterations d) (ir_id i) = Some i /\ ir_service i = sr_id s.
Proof.
  intros ->. unfold version_named in Hpast. destruct (_ || _); [done|].
  destruct (first_row _ _) as [j|] eqn:E; [|done]. cbn in Hpast. injection Hpast as ->.
  apply first_row_Some in E as [Hi [Hsv%Z.eqb_eq _]%andb_true_iff]. split; [|done].
  apply (tget_unique _ i); [apply (ok_iterations d Hd)|done].
Qed.

Lemma api_answered a : a ∈ version_rows d s past ->
  tool_answer m d token _ (CliWorld.GetApiById (ar_id a) (Some (bool_decide (past = None)))) =
  CliWorld.NetOk (mkApiResponse 200 "Get api success" (tool_api (version_detail d past a))).
Proof.
  intros Ha. unfold tool_answer.
  assert (E : handle m (ur_id u) (getApiById (ar_id a) (bool_decide (past = None))) (mkTx d d []) =
    (Ret (success "Get api success" (PApi (version_detail d past a))), mkTx d d [])).
  { pose proof service_found as Hsv. pose proof past_found as Hfound. unfold version_rows in Ha. unfold may_view in Hview. destruct past as [i|] eqn:Ep.
    - destruct (Hfound i eq_refl) as [Hi His]. apply elem_of_select in Ha as [Ha Hp%Z.eqb_eq].
      pose proof (tget_unique _ _ (proj1 (ok_drafts d Hd)) Ha) as Hget.
      apply (draft_run m d u (ar_id a) a i Hd (signed_user _ _ _ _ Hin) Hget); [by rewrite Hp|].
      unfold may_see, may_edit. rewrite His, Hsv. unfold may_start in Hview.
      by destruct (ur_level u =? 0)%Z, (ir_creator i =? ur_id u)%Z, (owned_by (ur_id u) s), (maintains (Some u) s).
    - apply released_run; [done|done|]. by rewrite orb_false_r in Hview. }
  assert (Er : route (fe_call (CliWorld.GetApiById (ar_id a) (Some (bool_decide (past = None))))) =
    Some (inr (getApiById (ar_id a) (bool_decide (past = None))))).
  { change (fe_call _) with (FeTypes.encode (FeTypes.GetApiById (ar_id a) (Some (bool_decide (past = None))))).
    by rewrite wire_agrees. }
  by rewrite (serve_run m d token u _ _ _ _ Hin Er eq_refl eq_refl E).
Qed.

(** The back end's tables of request parameters have all five locations. *)
Lemma version_generates a : exists code, generateTSCode (tool_api (version_detail d past a)) = Ret code.
Proof.
  apply generateTSCode_defined. intros l. unfold request_fields.
  assert (E : exists rp, ApiTypes.request_params_by_location (tool_api (version_detail d past a)) = Some (organizeReqParams rp))
    by (destruct past; by eexists). destruct E as [rp ->].
  pose proof (organizeReq_get l rp) as Hget. destruct (obj_get (organizeReqParams rp) (location_name l)); [eauto|done].
Qed.

Lemma apis_fetched l : (forall a, a ∈ l -> a ∈ version_rows d s past) -> exists codes,
  fetch_apis_spec (tool_answer m d token) (bool_decide (past = None)) (map tool_brief (map api_json l)) = Some codes /\
  Forall2 (fun a code => generateTSCode (tool_api (version_detail d past a)) = Ret code) l codes.
Proof.
  induction l as [|a l IH]; intros Hl; [by exists []|].
  destruct IH as (codes & E & Hf); [intros b Hb; apply Hl; by right|]. destruct (version_generates a) as [code Hc].
  exists (code :: codes). split; [|by constructor]. cbn [map fetch_apis_spec].
  change (brief_id (tool_brief (api_json a))) with (ar_id a). rewrite api_answered by (apply Hl; by left).
  cbn [api_status api_api]. rewrite Hc, E. done.
Qed.

Lemma service_fetched : exists codes,
  fetch_service_spec (tool_answer m d token) uuid version = Some codes /\
  Forall2 (fun a code => generateTSCode (tool_api (version_detail d past a)) = Ret code) (version_rows d s past) codes.
Proof.
  destruct (apis_fetched (version_rows d s past)) as (codes & E & Hf); [done|]. exists codes. split; [|done].
  unfold fetch_service_spec. rewrite service_answered. cbn [service_status service is_latest].
  rewrite <-E. unfold shown_service, payload_apis. by destruct past.
Qed.
End Version.

(** C8. An update generates what the database holds.  For a service that is not
    deleted and a version of it, its own, [latest] or a past one, that the user of
    the stored token may see, the configured [uuid@version] yields the two files of
    the service, generated from exactly the APIs of that version, in their order,
    each with the name, method, path and parameter trees of its rows: none is
    skipped, refused or fails to generate. *)
Theorem update_generates_database m d token u uuid version s past name prettier dir :
  committed_ok d -> signed_in m d token u -> configurable uuid version -> live_service uuid d = Some s ->
  version_named d s version = Some past -> may_view s past u = true ->
  exists codes,
    Forall2 (fun a code => generateTSCode (tool_api (version_detail d past a)) = Ret code) (version_rows d s past) codes /\
    service_files (tool_answer m d token) prettier dir (name, uuid +:+ "@" +:+ version) =
      [(dir ++ [name; "namespaces.ts"], Text (formatted prettier (namespace_text autoGeneratePrefix codes)));
       (dir ++ [name; "index.ts"],
        Text (formatted prettier (autoGeneratePrefix +:+ newline +:+ serviceClassCode name (map apiOption codes))))].
Proof.
  intros [Hd _] Hin Hconf Hs Hpast Hview.
  destruct (service_fetched m d token u uuid version s past Hd Hin Hconf Hs Hpast Hview) as (codes & E & Hf).
  exists codes. split; [exact Hf|]. unfold service_files.
  assert (Hsplit : split_on "@" (uuid +:+ "@" +:+ version) = [uuid; version]).
  { change ("@" +:+ version) with (String "@" version). destruct Hconf. by rewrite split_on_app, split_on_lacks. }
  unfold uuid_of, version_of. rewrite Hsplit. change (default "" (head [uuid; version])) with uuid.
  change (default "" ([uuid; version] !! 1)) with version.
  rewrite decide_False; [by rewrite E|]. destruct Hconf. tauto.
Qed.
End Toolchain.

Lemma update_generates_database_witness : exists codes, List.length codes = 1%nat /\
  @service_files (@tool_answer sample_isoformat sample_client sample_moment (sample_backend released_history) (Some "1")) (fun _ => None)
    ["src"; "api"] ("shop", "team/shop" +:+ "@" +:+ "latest") =
  [(["src"; "api"; "shop"; "namespaces.ts"], Text (formatted (fun _ => None) (namespace_text autoGeneratePrefix codes)));
   (["src"; "api"; "shop"; "index.ts"],
    Text (formatted (fun _ => None) (autoGeneratePrefix +:+ newline +:+ serviceClassCode "shop" (map apiOption codes))))].
Proof.
  destruct (@update_generates_database sample_isoformat sample_client sample_axios sample_moment (sample_backend released_history) (Some "1")
    sample_user "team/shop" "latest" sample_released None
    "shop" (fun _ => None) ["src"; "api"]) as (codes & Hf & E).
  - apply replay_ok, empty_db_ok.
  - split; vm_compute; reflexivity.
  - split; done.
  - vm_compute; reflexivity.
  - vm_compute; reflexivity.
  - vm_compute; reflexivity.
  - exists codes. split; [|exact E]. by rewrite <-(Forall2_length _ _ _ Hf).
Defined.
