(* ===== verification/LivePage.v ===== *)
(** * The page of an iteration on the back end

    The drafts that [useServiceIteration] shows, when the server is the back end:
    every operation of the page sends a request that the database answers, and the
    refresh that follows reads the drafts from what it has left. *)

From S2P Require Import Prelude Tables JsObject ApiTypes FeTypes Dialogs FeHttp ApiTree Iteration Database ParamStore.
From S2P Require Import Openapi Backend Transaction BackendUser BackendService BackendApi Integrity BackendRoutes.
From S2P Require Import BackendSafety Failures Wire EndToEnd Answers.
From Stdlib Require Import String ZArith Lia.

(** The operations of the page on drafts, with the form that adds one: [validate]
    is how its validation ends. *)
Inductive PageOp := Add (validate : outcome unit) (values : AddApiValues) | OnDraft (op : DraftOp).

Section LivePage.
Context `{!Isoformat, !Libraries, !AxiosQuery}.
Context (dump : Document -> string).

Definition run_page_op (server : Server) (i : Z) (op : PageOp) : UI ServiceIteration unit :=
  match op with Add v values => handleAddApi server i v values | OnDraft op => run_op server i op end.

(** The page after the render that follows. *)
Definition rendered (s : Fe ServiceIteration) : Fe ServiceIteration := mkFe (browser s) (draftsRendered (hook s)).

(** A session of the page: operations, with the render after each; what an operation
    throws, its caller shows. *)
Fixpoint page_session (server : Server) (i : Z) (ops : list PageOp) (s : Fe ServiceIteration) : Fe ServiceIteration :=
  match ops with
  | [] => s
  | op :: ops' => page_session server i ops' (rendered (run_page_op server i op s).2)
  end.

(** ** Rights *)

Definition same_rights (d d' : Db) : Prop := users d' = users d /\ services d' = services d /\ iterations d' = iterations d.

(** The iteration is open, and the user may edit it. *)
Definition open_for (d : Db) (i : Z) (u : UserRow) : Prop :=
  exists it, tget (iterations d) i = Some it /\ ir_committed it = false /\ may_edit d it u = true.

Lemma open_for_same d d' i u : same_rights d d' -> open_for d i u -> open_for d' i u.
Proof. intros (_ & Hs & Hi). unfold open_for, may_edit. by rewrite Hs, Hi. Qed.

(** ** The requests that change drafts *)

Definition edits (i : Z) (op : Operation) : Prop :=
  match op with
  | addApi j _ _ _ _ _ _ | copyApiByApiDraftId j _ | deleteApiByApiDraftId j _ | updateApiByApiDraftId j _ _ _ _ _ _ _ _ => j = i
  | _ => False
  end.

Section Edit.
Context (d : Db) (u : UserRow) (i : Z).
Hypothesis Hu : tget (users d) (ur_id u) = Some u.

(** Rights do not change, and only who may edit the iteration is answered with
    success. *)
Notation edited r d' := (same_rights d d' /\ (reply_status r = Some 200%Z -> open_for d i u)).
Notation edit m := (ends (same_rights d) True m d (fun r d' => edited r d')).

Lemma with_iteration_edits (k : IterationRow -> option UserRow -> TX Reply) :
  (open_for d i u -> forall it, edit (k it (Some u))) -> edit (with_iteration i (ur_id u) k).
Proof.
  intros Hk. unfold with_iteration, checkServiceIterationPermission. tx.
  all: repeat match goal with H : inr _ = inr _ |- _ => injection H as <- | H : inl _ = inl _ |- _ => injection H as <- <- end.
  all: try (split; [done|]; by intros [=]).
  all: rewrite Hu; apply Hk; eexists; (split; [done|]); split; [done|]; unfold may_edit.
  all: repeat match goal with E : tget (services d) _ = Some _ |- _ => rewrite E; clear E end; unfold owned_by.
  - by destruct (sr_owner _ =? _)%Z, (ir_creator _ =? _)%Z, (ur_level u =? 0)%Z.
  - repeat match goal with E : tget (users d) _ = Some _ |- _ => rewrite Hu in E; injection E as <- end.
    by destruct (sr_owner _ =? _)%Z, (ir_creator _ =? _)%Z, (ur_level u =? 0)%Z.
Qed.

Lemma with_draft_edits a (k : ApiRow -> TX Reply) :
  (open_for d i u -> forall row, edit (k row)) -> edit (with_draft i a (ur_id u) k).
Proof.
  intros Hk. apply with_iteration_edits. intros Ho it. tx; [by apply Hk|by split..].
Qed.

(** Work on the parameters of drafts, whatever comes of it. *)
Lemma edit_in_table {A} get put (m : M (table ParamRow) A) w (Q : A -> Db -> Prop) :
  (forall a t, Q a (put (fun _ => t) w)) -> ends (same_rights d) True (in_table get put m) w Q.
Proof. intros HQ. apply ends_in_table. by destruct (m _) as [[a|e|e] t]. Qed.

(** Walk through what comes after the checks. *)
Ltac edit := repeat (tx; first
  [ by repeat split
  | match goal with |- same_rights _ _ /\ ends _ _ _ _ _ => split; [by repeat split|] end
  | apply edit_in_table; intros ? ? ]).

Lemma draft_edited m op : edits i op -> edit (handle m (ur_id u) op).
Proof.
  destruct op; intros He; try done; cbn in He; subst; cbn [handle].
  - apply with_iteration_edits. intros Ho it. edit.
  - apply with_draft_edits. intros Ho row. edit.
  - apply with_draft_edits. intros Ho row. edit.
  - apply with_draft_edits. intros Ho row. edit.
Qed.
End Edit.
(** What such a request leaves when it is answered with success. *)
Lemma draft_leaves m d u i op : tget (users d) (ur_id u) = Some u -> edits i op ->
  leaves (handle m (ur_id u) op) d (fun _ d' => same_rights d d' /\ open_for d i u).
Proof.
  intros Hu He. pose proof (draft_edited d u i Hu m op He d [] ltac:(done)) as Hm. unfold leaves, returns.
  destruct (handle m (ur_id u) op (mkTx d d [])) as [[r|x|x] [w c ml]]; [|done..]. intros Hst.
  destruct Hm as [Hs [_ Ho]]. split; [done|by apply Ho].
Qed.

(** Reading the iteration, by someone who may edit it. *)
Lemma iteration_run m d u i : db_ok d -> tget (users d) (ur_id u) = Some u -> open_for d i u ->
  exists it, tget (iterations d) i = Some it /\ handle m (ur_id u) (getIterationById i) (mkTx d d []) =
    (Ret (success "Get service iteration success" (PIteration (iteration_detail_json d it))), mkTx d d []).
Proof.
  intros Hd Hu (it & Hit & Hc & He). exists it. split; [done|]. destruct (service_of_iteration d Hd i it Hit) as [sv Hs].
  cbn [handle]. unfold serviceGetServiceIterationById, get_user. repeat step. rewrite Hit. repeat step. rewrite Hu.
  unfold may_edit in He. rewrite Hs in He.
  destruct (ir_creator it =? ur_id u)%Z; cbn [negb]; repeat step; [by rewrite Hc|].
  rewrite Hs. repeat step. destruct (owned_by (ur_id u) sv), (ur_level u =? 0)%Z; cbn [negb andb]; try done; by rewrite Hc.
Qed.

Lemma iteration_asked m d token u i : committed_ok d -> signed_in m d token u -> open_for d i u ->
  exists it, (ir_id it = i) /\ ask dump m d token (GetIterationById i) =
    (NetOk (mkResponse 200 "Get service iteration success" (Some (iteration_detail_json d it))), d).
Proof.
  intros [Hd _] Hin Ho. destruct (iteration_run m d u i Hd (signed_user _ _ _ _ Hin) Ho) as (it & Hit & Hrun).
  exists it. split; [apply (tget_Some _ _ _ Hit)|]. by rewrite (ask_run dump m d token u (GetIterationById i) (getIterationById i) _ _ Hin eq_refl eq_refl eq_refl Hrun).
Qed.

(** ** The page *)

Definition page_endpoint (i : Z) (op : PageOp) : Endpoint (Response unit) :=
  match op with Add _ values => AddApi (add_api_request i values) | OnDraft op => op_endpoint i op end.

Definition form_accepted (op : PageOp) : Prop := match op with Add v _ => v = Ret tt | OnDraft _ => True end.

Section Run.
Context (server : Server) (i : Z) (op : PageOp) (s : Fe ServiceIteration).
Hypothesis Hform : form_accepted op.
Notation e := (page_endpoint i op).
Notation sent_next b := (sent b = sent (browser s) ++ [(getAccessToken (browser s), encode e)]).

Lemma fetch_returns b : exists s', fetchIterationDetail server i (mkFe b (hook s)) = (Ret tt, s').
Proof. destruct (fetchIterationDetail_ends server i (mkFe b (hook s))) as (b' & s' & -> & _). by eexists. Qed.

Ltac handlers := cbn [run_page_op run_op]; unfold handleAddApi, handleCopyApi, handleDeleteApi, handleSaveApiDraft.

(** The request failed. *)
Lemma page_op_fails err b : request server e s = (Throw err, mkFe b (hook s)) ->
  exists b', sent b' = sent b /\ access_token b' = access_token b /\
    run_page_op server i op s = (Throw err, mkFe b' (hook s)).
Proof.
  destruct op as [v values|[a|a|data]]; intros Hr; handlers.
  - rewrite Hform. exists (with_message (Warning (message_or "API 添加失败" err)) b). split; [done|]. split; [done|].
    etrans; [apply (try_catch_Throw _ _ s err (mkFe b (hook s)))|reflexivity].
    by rewrite (bind_Ret (resume (Ret tt)) _ s tt s eq_refl), (bind_Throw _ _ _ _ _ Hr).
  - exists b. split; [done|]. split; [done|]. by apply bind_Throw.
  - exists b. split; [done|]. split; [done|]. by apply bind_Throw.
  - exists b. split; [done|]. split; [done|]. by do 2 apply bind_Throw.
Qed.

(** The request was refused. *)
Lemma page_op_refused res b : request server e s = (Ret res, mkFe b (hook s)) -> status res <> 200%Z ->
  exists b' err, sent b' = sent b /\ access_token b' = access_token b /\
    run_page_op server i op s = (Throw err, mkFe b' (hook s)).
Proof.
  destruct op as [v values|[a|a|data]]; intros Hr Hst; handlers.
  - rewrite Hform. pose (err := new_error (str_or (message res) "API 添加失败")).
    exists (with_message (Warning (message_or "API 添加失败" err)) b), err. split; [done|]. split; [done|].
    etrans; [apply (try_catch_Throw _ _ s err (mkFe b (hook s)))|reflexivity].
    rewrite (bind_Ret (resume (Ret tt)) _ s tt s eq_refl), (bind_Ret _ _ _ _ _ Hr). by rewrite decide_True.
  - rewrite (bind_Ret _ _ _ _ _ Hr), decide_True by done. eauto.
  - rewrite (bind_Ret _ _ _ _ _ Hr), decide_True by done. eauto.
  - rewrite <-bind_assoc, (bind_Ret _ _ _ _ _ Hr), decide_True by done. by eexists _, _.
Qed.

(** The request was accepted. *)
Lemma page_op_accepted res b : request server e s = (Ret res, mkFe b (hook s)) -> status res = 200%Z ->
  exists b', sent b' = sent b /\ access_token b' = access_token b /\
    run_page_op server i op s = fetchIterationDetail server i (mkFe b' (hook s)).
Proof.
  destruct op as [v values|[a|a|data]]; intros Hr Hst; handlers.
  - rewrite Hform. set (b' := with_message (Success (str_or (message res) "API 添加成功")) b). exists b'.
    split; [done|]. split; [done|]. destruct (fetch_returns b') as [s' Hs']. rewrite Hs'. apply try_catch_Ret.
    rewrite (bind_Ret (resume (Ret tt)) _ s tt s eq_refl), (bind_Ret _ _ _ _ _ Hr). by rewrite decide_False by auto.
  - exists (with_message (Success (str_or (message res) "API 复制成功")) b).
    by rewrite (bind_Ret _ _ _ _ _ Hr), decide_False by auto.
  - exists (with_message (Success (str_or (message res) "API 删除成功")) b).
    by rewrite (bind_Ret _ _ _ _ _ Hr), decide_False by auto.
  - exists b. split; [done|]. split; [done|]. destruct (fetch_returns b) as [s' Hs'].
    by rewrite <-bind_assoc, (bind_Ret _ _ _ _ _ Hr), decide_False, <-bind_assoc, (bind_Ret _ _ _ _ _ Hs') by auto.
Qed.
End Run.

(** ** The page and the database *)

Section Live.
Context (moments : nat -> Moment) (d0 : Db) (u : UserRow) (i : Z).
Hypothesis Hi : (0 < i)%Z.
Notation server := (backend_server dump moments d0).
Notation db s := (replay moments 0 d0 (sent (browser s))).
Notation tok s := (getAccessToken (browser s)).

Notation live s := (live_session moments d0 u (browser s)).

(** The page has loaded the drafts the database holds; it lists them, sorted. *)
Definition loaded (s : Fe ServiceIteration) : Prop := apiDrafts (hook s) = map api_json (drafts_of (db s) i).
Definition in_step (s : Fe ServiceIteration) : Prop :=
  apiDrafts (hook s) = sort_apis (map api_json (drafts_of (db s) i)).

Lemma loaded_rendered s : loaded s -> in_step (rendered s).
Proof. unfold loaded, in_step. cbn. by intros ->. Qed.

(** Rendering again changes nothing. *)
Lemma in_step_rendered s : in_step s -> rendered s = s.
Proof.
  unfold in_step, rendered, draftsRendered. destruct s as [b [l d ds]]. cbn. intros ->. by rewrite sort_apis_idem.
Qed.

Lemma refresh_run s : live s -> open_for (db s) i u -> exists s',
  fetchIterationDetail server i s = (Ret tt, s') /\ tok s' = tok s /\ db s' = db s /\ loaded s'.
Proof.
  intros [Hd Hin] Ho. destruct (iteration_asked (moments (List.length (sent (browser s)))) _ _ u i Hd (Hin _) Ho) as (it & Hid & Ha).
  pose proof (server_ask dump moments d0 (sent (browser s)) (tok s) (GetIterationById i)) as E. rewrite Ha in E.
  pose proof (replay_ask dump moments d0 (sent (browser s)) (tok s) (GetIterationById i)) as E'. rewrite Ha in E'.
  unfold fetchIterationDetail. destruct (Z.leb_spec i 0); [lia|].
  set (s1 := mkFe (browser s) (setIterLoading true (hook s))).
  pose proof (fe_request_NetOk (H := ServiceIteration) server (GetIterationById i) s1 _ E) as Hr.
  unfold finally. rewrite (bind_Ret (set_hook (setIterLoading true)) _ s tt s1 eq_refl). unfold try_catch.
  rewrite (bind_Ret _ _ _ _ _ Hr). cbn -[encode]. eexists. split; [reflexivity|]. split; [done|].
  unfold loaded. cbn [browser hook sent with_sent apiDrafts]. rewrite E'. cbn [snd]. split; [done|].
  cbn [apiDrafts setIterLoading setApiDrafts]. by rewrite Hid.
Qed.

(** The answer to the operation's request. *)
Definition accepted (op : PageOp) (s : Fe ServiceIteration) : Prop :=
  exists res, server _ (sent (browser s)) (tok s) (page_endpoint i op) = NetOk res /\ status res = 200%Z.

(** One operation: it was accepted and returns, and the page has loaded what there is; or it
    throws, and neither the page nor the database has changed. *)
Definition stepped (op : PageOp) (s : Fe ServiceIteration) (r : outcome unit * Fe ServiceIteration) : Prop :=
  live r.2 /\ ((r.1 = Ret tt /\ accepted op s /\ loaded r.2) \/ (r.1 <> Ret tt /\ hook r.2 = hook s /\ db r.2 = db s)).

Lemma form_step op s : live s -> form_accepted op \/ stepped op s (run_page_op server i op s).
Proof.
  intros Hl. destruct op as [[[]|err|c] values|]; [by left| | |by left]; right.
  - split; [by apply (live_same moments d0 u (browser s))|]. by right.
  - split; [done|]. by right.
Qed.

Lemma request_accepted {T} (e : Endpoint T) (s s' : Fe ServiceIteration) res : request server e s = (Ret res, s') ->
  server _ (sent (browser s)) (tok s) e = NetOk res.
Proof. unfold request. by destruct (server _ _ _ _); intros [= ->]. Qed.

Lemma page_step op s : live s -> stepped op s (run_page_op server i op s).
Proof.
  intros Hl. destruct (form_step op s Hl) as [Hform|]; [|done]. set (e := page_endpoint i op).
  pose (b := with_sent (tok s, encode e) (browser s)).
  assert (Hop : exists o, asked e = inr o /\ edits i o) by by destruct op as [|[]]; eexists. destruct Hop as (o & Ha & He).
  pose proof (signed_user _ _ _ _ (proj2 Hl O)) as Hu.
  destruct (request_answered dump moments d0 u e (fun _ d' => same_rights (db s) d' /\ open_for (db s) i u) s Hl)
    as [(res & Hr & Hst & Hrights & Ho)|[(res & Hr & Hst & Hd')|(err & Hr & Hd')]]; try by destruct op as [|[]].
  - intros m o' Ho'. rewrite Ha in Ho'. injection Ho' as <-. by apply (leaves_impl _ _ _ _ (draft_leaves m (db s) u i o Hu He)).
  - destruct (page_op_accepted server i op s Hform res b Hr Hst) as (b' & Hs & Ht & ->).
    assert (Hl' : live (mkFe b' (hook s))) by (apply (live_next moments d0 u e (browser s)); [done..|apply Hrights]).
    destruct (refresh_run (mkFe b' (hook s)) Hl') as (s' & -> & Htok & Hdb & Hstep).
    { cbn [browser]. rewrite Hs. by apply (open_for_same (db s)). }
    split; [|left; split; [done|]; split; [exists res; by split; [apply (request_accepted _ _ _ _ Hr)|]|done]]. destruct Hl' as [Hok Hin]. cbn [snd]. unfold live_session. by rewrite Htok, Hdb.
  - destruct (page_op_refused server i op s Hform res b Hr Hst) as (b' & err & Hs & Ht & ->).
    split; [apply (live_next moments d0 u e (browser s)); [done..|by rewrite Hd']|]. right. split; [done|]. split; [done|].
    cbn [snd browser]. by rewrite Hs.
  - destruct (page_op_fails server i op s Hform err b Hr) as (b' & Hs & Ht & ->).
    split; [apply (live_next moments d0 u e (browser s)); [done..|by rewrite Hd']|]. right. split; [done|]. split; [done|].
    cbn [snd browser]. by rewrite Hs.
Qed.

Lemma session_live ops : forall s, live s -> in_step s ->
  let s' := page_session server i ops s in live s' /\ in_step s'.
Proof.
  induction ops as [|op ops IH]; intros s Hl Hs; [done|]. cbn [page_session].
  destruct (page_step op s Hl) as [Hl' Hcase]. apply IH; [by apply (live_same moments d0 u (browser (run_page_op server i op s).2))|].
  destruct Hcase as [(_ & _ & Hin)|(_ & Hh & Hdb)]; [by apply loaded_rendered|].
  destruct (run_page_op server i op s) as [o s']. cbn [snd] in *. unfold in_step in *. unfold rendered, draftsRendered.
  cbn. by rewrite Hh, Hdb, Hs, sort_apis_idem.
Qed.
End Live.

(** ** Properties *)

(** The load of an iteration the user may edit puts the page in step. *)
Lemma page_opens moments d0 u i s : (0 < i)%Z ->
  let server := backend_server dump moments d0 in
  live_session moments d0 u (browser s) -> open_for (replay moments 0 d0 (sent (browser s))) i u ->
  exists s', fetchIterationDetail server i s = (Ret tt, s') /\ in_step moments d0 i (rendered s').
Proof.
  intros Hi server Hl Ho. destruct (refresh_run moments d0 u i Hi s Hl Ho) as (s' & Hs & _ & _ & Hin).
  exists s'. split; [done|by apply loaded_rendered].
Qed.

(** C9. The page of an iteration never disagrees with the database.  For a sound
    database, a user whose token stays valid, with or without the right to edit, and a
    page that starts in step with the database, as the first load of the iteration leaves it: however drafts are added,
    copied, saved and deleted, after every operation and the render that follows the
    page lists exactly the drafts the database holds for the iteration, as they are
    stored, sorted by method as the render sorts them, and its tree is the tree of
    these drafts.  An operation that returns has been answered with status 200; one
    that throws, because its form or the back end refused it or it failed, has
    changed neither the page nor the database. *)
Theorem page_shows_database moments d0 u i ops op s : (0 < i)%Z ->
  let server := backend_server dump moments d0 in
  let db s := replay moments 0 d0 (sent (browser s)) in
  committed_ok (db s) -> (forall n, signed_in (moments n) (db s) (getAccessToken (browser s)) u) ->
  apiDrafts (hook s) = sort_apis (map api_json (drafts_of (db s) i)) ->
  let s1 := page_session server i ops s in
  let '(o, s') := run_page_op server i op s1 in
  let s2 := rendered s' in
  apiDrafts (hook s2) = sort_apis (map api_json (drafts_of (db s2) i)) /\
  (forall cats, iterationTreeData cats (hook s2) = treeData cats (map api_json (drafts_of (db s2) i))) /\
  (o = Ret tt /\ (exists res, server _ (sent (browser s1)) (getAccessToken (browser s1)) (page_endpoint i op) = NetOk res /\
                    status res = 200%Z) \/
   o <> Ret tt /\ hook s2 = hook s1 /\ db s2 = db s1).
Proof.
  intros Hi server db Hd Hin Hstep s1. destruct (session_live moments d0 u i Hi ops s (conj Hd Hin) Hstep) as [Hl1 Hs1].
  fold server s1 in Hl1, Hs1. destruct (page_step moments d0 u i Hi op s1 Hl1) as [_ Hcase]. fold server in Hcase.
  destruct (run_page_op server i op s1) as [o s']. cbn [fst snd] in Hcase. intros s2.
  assert (Hnow : in_step moments d0 i s2 /\ ((o = Ret tt /\ accepted moments d0 i op s1) \/ o <> Ret tt /\ hook s2 = hook s1 /\ db s2 = db s1)).
  { destruct Hcase as [(-> & Ha & Hnow)|(Ho & Hh & Hdb)]; [split; [by apply loaded_rendered|by left]|].
    pose proof (in_step_rendered moments d0 i s1 Hs1) as Hr. apply (f_equal hook) in Hr. cbn in Hr.
    assert (Hh2 : hook s2 = hook s1) by (unfold s2; cbn; by rewrite Hh).
    split; [|right; by split]. unfold in_step. rewrite Hh2. unfold s2. cbn [browser rendered]. by rewrite Hdb. }
  destruct Hnow as [Hnow Ho]. split; [exact Hnow|]. split; [|exact Ho].
  intros cats. unfold iterationTreeData, treeData. unfold in_step in Hnow. rewrite Hnow. by rewrite sort_apis_idem.
Qed.
End LivePage.

(** Ada copies a draft twice within a second; the second time is answered with 500. *)
Definition sample_page : Fe ServiceIteration :=
  mkFe (mkBrowser (Some "1") None None [] sample_history 0 "/") (mkServiceIteration false None [api_json sample_draft]).

Lemma page_shows_database_witness :
  let server := @backend_server sample_isoformat sample_client (fun _ => "") (fun _ => sample_moment) empty_db in
  let r := run_page_op server 1 (OnDraft (Copy 1)) (page_session server 1 [OnDraft (Copy 1)] sample_page) in
  (r.1 <> Ret tt /\ map api_name (apiDrafts (hook r.2)) = ["list"; "list-copy-0"]) /\
  apiDrafts (hook (rendered r.2)) = sort_apis (map api_json (drafts_of
    (@replay sample_isoformat sample_client (fun _ => sample_moment) 0 empty_db (sent (browser r.2))) 1)).
Proof.
  cbv zeta. split; [vm_compute; by split|].
  pose proof (@page_shows_database sample_isoformat sample_client sample_axios (fun _ => "")
    (fun _ => sample_moment) empty_db sample_user 1 [OnDraft (Copy 1)] (OnDraft (Copy 1)) sample_page eq_refl
    ltac:(apply replay_ok, empty_db_ok) ltac:(intros n; split; vm_compute; reflexivity) ltac:(vm_compute; reflexivity)) as Ht.
  cbv zeta in Ht. destruct (run_page_op _ _ _ _) as [o s2]. exact (proj1 Ht).
Defined.
