(* ===== verification/LiveTree.v ===== *)
(** * The page of a service on the back end

    [useThisService] keeps its categories and APIs up to date by itself: after a
    category is added or deleted, or an API moved, it changes what it shows without
    asking again; it asks for the detail of a version that is selected.  Run against
    the back end, the tree it shows is the one the database holds. *)

From S2P Require Import Prelude Tables JsObject ApiTypes FeTypes Dialogs FeHttp ApiTree ApiListView ThisService.
From S2P Require Import Database ParamStore Openapi Backend Transaction BackendUser BackendService BackendApi.
From S2P Require Import BackendRoutes Integrity Copies BackendSafety Failures Wire EndToEnd Answers Releases Toolchain.
From Stdlib Require Import String ZArith Lia.

(** ** What a tree depends on *)

(** An API whose category is not listed is shown like one without. *)
Definition known (cats : list ApiCategory) (a : ApiBrief) : ApiBrief :=
  mkApiBrief (api_id a) (api_name a) (api_method a) (api_path a) (api_description a) (api_level a) (is_enabled a)
    (match FeTypes.category_id a with Some c => if decide (c ∈ map cat_id cats) then Some c else None | None => None end).

Lemma sort_known cats l : sort_apis (map (known cats) l) = map (known cats) (sort_apis l).
Proof.
  assert (Hins : forall x k, insert_api (known cats x) (map (known cats) k) = map (known cats) (insert_api x k)).
  { intros x k. induction k as [|y k IH]; [done|]. cbn [map insert_api]. change (method_le (known cats x) (known cats y)) with (method_le x y).
    destruct (method_le x y); [done|]. cbn [map]. by rewrite IH. }
  induction l as [|x l IH]; [done|]. unfold sort_apis in *. cbn [map foldr]. by rewrite IH, Hins.
Qed.

Lemma place_api_keys m v a : (place_api (m, v) a).1.*1 = m.*1.
Proof.
  unfold place_api. destruct (FeTypes.category_id a) as [c|]; [|done]. destruct (map_get m c) as [g|] eqn:E; [|done]. cbn [fst].
  rewrite map_set_keys, decide_True; [done|]. destruct (decide (c ∈ m.*1)) as [|Hc%map_get_None]; [done|]. by rewrite Hc in E.
Qed.

Lemma place_known cats m v a : (forall c, c ∈ m.*1 <-> c ∈ map cat_id cats) ->
  place_api (m, v) (known cats a) = place_api (m, v) a.
Proof.
  intros Hm. unfold place_api. change (node_of (known cats a)) with (node_of a). cbn [known FeTypes.category_id].
  destruct (FeTypes.category_id a) as [c|]; [|done]. destruct (decide (c ∈ map cat_id cats)) as [|Hc]; [done|].
  by rewrite (proj2 (map_get_None m c)) by by rewrite Hm.
Qed.

Lemma treeData_known cats l : treeData cats (map (known cats) l) = treeData cats l.
Proof.
  unfold treeData. rewrite sort_known. generalize (mkGroup null_key None []). pose proof (elem_of_category_map_keys cats) as Hm.
  revert Hm. generalize (category_map cats). induction (sort_apis l) as [|a k IH]; intros m Hm v; [done|]. cbn [map foldl].
  rewrite (place_known cats) by done. pose proof (place_api_keys m v a) as Hk. destruct (place_api (m, v) a) as [m' v'].
  apply IH. cbn [fst] in Hk. by rewrite Hk.
Qed.

Section LiveTree.
Context `{!Isoformat, !Libraries, !AxiosQuery}.
Context (dump : Document -> string).

(** ** What the handlers leave when they succeed *)

Lemma nodup_key {A K} (f : A -> K) l x y : NoDup (map f l) -> x ∈ l -> y ∈ l -> f x = f y -> x = y.
Proof.
  induction l as [|a l IH]; [by intros _ ?%not_elem_of_nil|]. cbn [map]. intros [Ha Hnd]%NoDup_cons Hx Hy E.
  apply elem_of_cons in Hx as [->|Hx], Hy as [->|Hy]; [done| | |by apply IH].
  - destruct Ha. apply list_elem_of_fmap. by exists y.
  - destruct Ha. apply list_elem_of_fmap. by exists x.
Qed.

(** ** What the requests of the page leave *)

Lemma add_category_leaves m d u s n t : leaves (handle m u (addCategoryByServiceId s n t)) d (fun p d' =>
  let c := mkCategoryRow (next_id (categories d)) s n t in
  p = PCategory (category_json c) /\ d' = on_categories (tadd (fun _ => c)) d).
Proof. cbn [handle]. unfold apiAddCategoryByServiceId. by leaves. Qed.

Lemma delete_category_leaves m d u c : leaves (handle m u (deleteCategoryById c)) d (fun _ d' => d' = delete_category (now m) c d).
Proof. cbn [handle]. unfold apiDeleteCategoryById. by leaves. Qed.

Lemma update_api_category_leaves m d u a c : leaves (handle m u (updateApiCategoryById a c)) d (fun _ d' =>
  exists row, tget (db_apis d) a = Some row /\
    ((c = -1 /\ d' = on_apis (tupdate a (touch (now m) (set_api_category None))) d) \/
     (exists cat, tget (categories d) c = Some cat /\ cr_service cat = ar_parent row /\
        d' = on_apis (tupdate a (touch (now m) (set_api_category (Some c)))) d)))%Z.
Proof.
  cbn [handle]. unfold apiUpdateApiCategory. leaves; intros _; eexists; (split; [done|]).
  - left. split; [by apply Z.eqb_eq|done].
  - right. eexists. split; [done|]. split; [by apply Z.eqb_eq|done].
Qed.

(** The requests that leave the tree of every service as it is. *)
Definition same_tree (d d' : Db) : Prop :=
  users d' = users d /\ keeps sr_uuid (services d) (services d') /\ categories d' = categories d /\ db_apis d' = db_apis d.
Definition same_rest (d d' : Db) : Prop :=
  users d' = users d /\ services d' = services d /\ categories d' = categories d /\ db_apis d' = db_apis d.

Lemma same_rest_tree d d' : same_rest d d' -> same_tree d d'.
Proof. intros (E1 & E2 & E3). split; [done|]. split; [by rewrite E2; apply keeps_refl|done]. Qed.

Lemma same_tree_refl d : same_tree d d.
Proof. by apply same_rest_tree. Qed.
#[local] Hint Resolve same_tree_refl : core.

Lemma maintainer_leaves m d u s c : leaves (handle m u (addOrRemoveServiceMaintainerById s c)) d (fun _ => same_tree d).
Proof.
  cbn [handle]. unfold serviceAddOrRemoveServiceMaintainerById. leaves; intros _; (split; [done|]); (split; [|done]);
    by apply keeps_tupdate.
Qed.

Lemma start_leaves m d u s : leaves (handle m u (startIteration s)) d (fun _ => same_tree d).
Proof.
  apply leaves_impl with (fun _ => same_rest d); [|by intros; apply same_rest_tree].
  cbn [handle]. unfold serviceStartIteration. leaves.
  apply returns_each with (fun s' => same_rest d (work s')); [done| |].
  - intros a s' Hs'. unfold draft_of_api. by returns.
  - intros s' Hs'. by returns.
Qed.

Lemma reader_leaves m d u op : quiet (handle m u op) -> leaves (handle m u op) d (fun _ => same_tree d).
Proof.
  intros Hq. unfold leaves, returns. specialize (Hq (mkTx d d [])). destruct (handle m u op _) as [[r|e|e] s']; [|done..].
  intros _. apply same_rest_tree. cbn in Hq. by rewrite Hq.
Qed.

Lemma is_maintainer_leaves m d u s c : leaves (handle m u (isServiceMaintainer s c)) d (fun _ => same_tree d).
Proof. apply reader_leaves. cbn [handle]. unfold serviceIsMaintainer. quiet. Qed.

Lemma export_leaves m d u i v : leaves (handle m u (exportOpenapiByUuidAndVersion i v)) d (fun _ => same_tree d).
Proof. apply reader_leaves. cbn [handle]. unfold serviceExportOpenapiByUuidAndVersion. quiet. Qed.

(** What is shown of a version: the latest, or a past one. *)
Definition version_shown (d : Db) (uuid : string) (p : Payload) : Prop :=
  (exists sv, live_service uuid d = Some sv /\ p = PAnyService (Latest (service_detail_json d sv)) true) \/
  exists i, p = PAnyService (Past (iteration_detail_json d i)) false.

Lemma detail_leaves m d u uuid v : leaves (handle m u (getServiceByUuidAndVersion uuid v)) d (fun p d' =>
  d' = d /\ version_shown d (trim (unquote uuid)) p).
Proof.
  cbn [handle]. unfold serviceGetServiceByUuidAndVersion, version_seen_by. leaves.
  destruct o as [i|]; [destruct (b' && negb (ir_creator i =? u)%Z)|destruct b']; cbn [success refused reply_status reply_payload];
    intros E; try discriminate E; (split; [done|]); first [right; by eexists | left; by eexists].
Qed.

Lemma commit_leaves m d u i v : leaves (handle m u (commitIteration i v)) d (fun _ d' => users d' = users d).
Proof.
  cbn [handle]. unfold serviceCommitIteration, checkServiceIterationPermission. leaves.
  apply returns_each with (fun s' => users (work s') = users d); [done| |].
  - intros draft s' Hs'. unfold api_of_draft. by returns.
  - intros s' Hs'. by returns.
Qed.

(** ** The tree and the database *)

Section Tree.
Context (sid : Z) (uuid : string).

(** The categories shown are those of the database; with the latest version, the
    detail is that of the service [sid] or missing, and its APIs are those of the
    database, but for categories that are no longer listed. *)
Record tree_in_step (d : Db) (h : ThisService) : Prop := mkInStep {
  step_named : exists sv, tget (services d) sid = Some sv /\ sr_uuid sv = uuid;
  step_categories : apiCategories h = map category_json (categories_of d sid);
  step_detail : isLatest h = true -> detail_id h = Some sid \/ detail_id h = None;
  step_apis : isLatest h = true -> map (known (apiCategories h)) (apis h) = map api_json (apis_of d sid);
  step_below : isLatest h = true ->
    Forall (fun a => forall c, FeTypes.category_id a = Some c -> (c < next_id (categories d))%Z) (apis h)
}.

(** What the page shows, and what the database holds. *)
Definition page_tree (h : ThisService) : list Group := treeData (apiCategories h) (apis h).
Definition stored_tree (d : Db) : list Group := treeData (map category_json (categories_of d sid)) (map api_json (apis_of d sid)).

Lemma tree_shown d h : isLatest h = true -> tree_in_step d h -> page_tree h = stored_tree d.
Proof. intros Hl [_ Hc _ Ha _]. unfold page_tree, stored_tree. by rewrite <-treeData_known, (Ha Hl), Hc. Qed.

(** What it depends on of the page. *)
Definition same_shown (h h' : ThisService) : Prop :=
  detail_id h' = detail_id h /\ isLatest h' = isLatest h /\ apiCategories h' = apiCategories h /\ apis h' = apis h.

Lemma tree_same d d' h h' : same_tree d d' -> same_shown h h' -> tree_in_step d h -> tree_in_step d' h'.
Proof.
  intros (_ & Es & Ec & Ea) (E1 & El & E2 & E3) [(sv & Hsv & Hu) Hcat Hdet Hapi Hlt]. split.
  - destruct (Es sid sv Hsv) as (sv' & Hsv' & Hu'). exists sv'. split; [done|by rewrite Hu'].
  - unfold categories_of. by rewrite E2, Ec.
  - by rewrite El, E1.
  - unfold apis_of. by rewrite El, E2, E3, Ea.
  - by rewrite El, E3, Ec.
Qed.

Lemma tree_cleared d h : tree_in_step d h -> tree_in_step d (setServiceDetail None h).
Proof. intros [Hn Hcat Hdet Hapi Hlt]. split; [done|done| |done|done]. by right. Qed.

Lemma tree_add d h n t : tree_in_step d h -> let c := mkCategoryRow (next_id (categories d)) sid n t in
  tree_in_step (on_categories (tadd (fun _ => c)) d) (setApiCategories (apiCategories h ++ [category_json c]) h).
Proof.
  intros [Hn Hcat Hdet Hapi Hlt] c. split.
  - exact Hn.
  - unfold categories_of. cbn [on_categories categories setApiCategories apiCategories]. rewrite select_tadd. cbn [cr_service c].
    by rewrite Z.eqb_refl, map_app, Hcat.
  - exact Hdet.
  - intros Hl. specialize (Hapi Hl). specialize (Hlt Hl).
    change (apis_of (on_categories (tadd (fun _ => c)) d) sid) with (apis_of d sid).
    cbn [setApiCategories apiCategories ThisService.apis]. rewrite <-Hapi.
    apply map_ext_in. intros a Ha%list_elem_of_In. rewrite Forall_forall in Hlt. specialize (Hlt a Ha). unfold known. f_equal.
    destruct (FeTypes.category_id a) as [k|]; [|done]. specialize (Hlt k eq_refl). rewrite map_app. cbn [map category_json cat_id c cr_id].
    apply decide_ext. rewrite elem_of_app, list_elem_of_singleton. split; [|by left]. intros [Hk|Hk]; [done|lia].
  - intros Hl. eapply Forall_impl; [exact (Hlt Hl)|]. cbn. intros a Ha k Hk. specialize (Ha k Hk). lia.
Qed.

Definition with_category (v : option Z) (a : ApiBrief) : ApiBrief :=
  mkApiBrief (api_id a) (api_name a) (api_method a) (api_path a) (api_description a) (api_level a) (is_enabled a) v.

(** Changing the APIs of a service without moving them to another. *)
Lemma apis_of_tmap f d : (forall a, ar_parent (f a) = ar_parent a) -> apis_of (on_apis (tmap f) d) sid = map f (apis_of d sid).
Proof.
  intros Hf. unfold apis_of, select. cbn [on_apis db_apis tmap rows]. induction (rows (db_apis d)) as [|a l IH]; [done|].
  cbn [map List.filter]. rewrite Hf. destruct (ar_parent a =? sid)%Z; cbn [map]; by rewrite IH.
Qed.

Lemma apis_of_tupdate i f d : (forall a, ar_parent (f a) = ar_parent a) ->
  apis_of (on_apis (tupdate i f) d) sid = map (fun r => if (ar_id r =? i)%Z then f r else r) (apis_of d sid).
Proof. intros Hf. apply (apis_of_tmap (fun r => if (ar_id r =? i)%Z then f r else r)). intros a. by destruct (_ =? i)%Z. Qed.

Lemma leave_category_json time c a : api_json (leave_category time c a) =
  if decide (ar_category a = Some c) then with_category None (api_json a) else api_json a.
Proof.
  unfold leave_category. set (g := fun a : ApiRow => _).
  assert (E : forall b, api_json (touch time g b) = api_json (g b)) by (intros b; unfold touch; by case_bool_decide as Eb; [rewrite Eb|]).
  rewrite E. unfold g. case_bool_decide; case_decide; done.
Qed.

Lemma filter_categories c (l : list CategoryRow) :
  filter (fun x => cat_id x <> c) (map category_json l) = map category_json (List.filter (fun r => negb (cr_id r =? c)%Z) l).
Proof.
  induction l as [|r l IH]; [done|]. cbn [map List.filter]. rewrite filter_cons, IH. cbn [category_json cat_id].
  destruct (Z.eqb_spec (cr_id r) c); [by rewrite decide_False by auto|by rewrite decide_True].
Qed.

Lemma select_tdelete_filter {R} `{!HasId R} (t : table R) p q : select (tdelete p t) q = List.filter (fun r => negb (p r)) (select t q).
Proof.
  unfold select. cbn [tdelete rows]. induction (rows t) as [|r l IH]; [done|]. cbn [List.filter].
  destruct (p r) eqn:Ep, (q r) eqn:Eq; cbn [negb List.filter]; rewrite ?Ep, ?Eq; cbn [negb]; by rewrite IH.
Qed.

Lemma known_without cats c a : known (filter (fun x => cat_id x <> c) cats) a =
  if decide (FeTypes.category_id (known cats a) = Some c) then with_category None (known cats a) else known cats a.
Proof.
  assert (Hin : forall k, k ∈ map cat_id (filter (fun x => cat_id x <> c) cats) <-> k ∈ map cat_id cats /\ k <> c).
  { intros k. rewrite !list_elem_of_fmap. split.
    - intros (x & -> & [Hx Hm]%list_elem_of_filter). split; [by exists x|done].
    - intros [(x & -> & Hx) Hne]. exists x. split; [done|]. by apply list_elem_of_filter. }
  unfold known, with_category. cbn. destruct (FeTypes.category_id a) as [k|]; [|done].
  destruct (decide (k ∈ map cat_id cats)) as [Hk|Hk].
  - destruct (decide (k = c)) as [->|Hne].
    + rewrite (decide_True (P := Some c = Some c)) by done. by rewrite decide_False by (rewrite Hin; tauto).
    + rewrite (decide_False (P := Some k = Some c)) by congruence. by rewrite decide_True by (rewrite Hin; tauto).
  - by rewrite decide_False by (rewrite Hin; tauto).
Qed.

Lemma tree_delete time c d h : tree_in_step d h ->
  tree_in_step (delete_category time c d) (setApiCategories (filter (fun x => cat_id x <> c) (apiCategories h)) h).
Proof.
  intros [Hn Hcat Hdet Hapi Hlt]. split.
  - exact Hn.
  - cbn [setApiCategories apiCategories]. unfold delete_category, categories_of in *. cbn [on_categories categories on_apis on_drafts].
    by rewrite select_tdelete_filter, Hcat, filter_categories.
  - exact Hdet.
  - intros Hl. specialize (Hapi Hl). cbn [setApiCategories apiCategories ThisService.apis].
    change (apis_of (delete_category time c d) sid) with (apis_of (on_apis (tmap (leave_category time c)) d) sid).
    rewrite apis_of_tmap by (intros a; apply (leave_category_place time c a)).
    rewrite map_map, (map_ext _ _ (leave_category_json time c)).
    transitivity (map (fun b => if decide (FeTypes.category_id b = Some c) then with_category None b else b)
      (map (known (apiCategories h)) (apis h))).
    + rewrite map_map. apply map_ext. intros a. apply known_without.
    + by rewrite Hapi, map_map.
  - exact Hlt.
Qed.

Lemma known_with cats v a : (forall c, v = Some c -> c ∈ map cat_id cats) ->
  known cats (with_category v a) = with_category v (known cats a).
Proof.
  intros Hv. unfold known, with_category. cbn. f_equal. destruct v as [c|]; [|done]. by rewrite decide_True by by apply Hv.
Qed.

Lemma set_category_json time v row : api_json (touch time (set_api_category v) row) = with_category v (api_json row).
Proof. unfold touch. by case_bool_decide as E; [rewrite <-E at 1|]. Qed.

(** The row an API shown stands for. *)
Lemma shown_row d h b : isLatest h = true -> tree_in_step d h -> b ∈ apis h -> exists row, row ∈ apis_of d sid /\ ar_id row = api_id b.
Proof.
  intros Hl Hs Hb. assert (Hk : known (apiCategories h) b ∈ map api_json (apis_of d sid)).
  { rewrite <-(step_apis _ _ Hs Hl). by apply list_elem_of_fmap_2. }
  apply list_elem_of_fmap in Hk as (row & E & Hrow). exists row. split; [done|]. by apply (f_equal api_id) in E.
Qed.

Lemma tree_move time a c v row d h : isLatest h = true -> db_ok d -> tree_in_step d h -> tget (db_apis d) a = Some row ->
  v = (if (0 <=? c)%Z then Some c else None) ->
  (forall k, v = Some k -> exists cat, tget (categories d) k = Some cat /\ cr_service cat = ar_parent row) ->
  tree_in_step (on_apis (tupdate a (touch time (set_api_category v))) d) (setApis (set_category a c (apis h)) h).
Proof.
  intros Hl Hd Hs Hrow Hv Hcat. pose proof Hs as [Hn Hcats Hdet Hapi Hlt]. specialize (Hapi Hl). specialize (Hlt Hl).
  assert (Hin : forall b, b ∈ apis h -> api_id b = a -> forall k, v = Some k -> k ∈ map cat_id (apiCategories h)).
  { intros b Hb Hid k Hk. destruct (shown_row d h b Hl Hs Hb) as (row' & [Hr' Hp%Z.eqb_eq]%elem_of_select & Hid').
    pose proof (tget_unique _ row' (proj1 (ok_apis d Hd)) Hr') as Hg. change (id_of row') with (ar_id row') in Hg.
    rewrite Hid', Hid, Hrow in Hg. injection Hg as <-. destruct (Hcat k Hk) as (cat & Hgc & Hsv).
    rewrite Hcats, map_map. apply tget_Some in Hgc as [Hcr Hcid]. apply list_elem_of_fmap. exists cat. split; [done|].
    apply elem_of_select. split; [done|]. rewrite Hsv. by apply Z.eqb_eq. }
  assert (Hset : set_category a c (apis h) = map (fun b => if (api_id b =? a)%Z then with_category v b else b) (apis h)).
  { unfold set_category, with_category. rewrite Hv. done. }
  split.
  - exact Hn.
  - exact Hcats.
  - exact Hdet.
  - intros _. cbn [setApis apiCategories ThisService.apis]. rewrite Hset, map_map.
    rewrite apis_of_tupdate by (intros r; by rewrite (touched ar_parent)).
    transitivity (map (fun b => if (api_id b =? a)%Z then with_category v b else b) (map (known (apiCategories h)) (apis h))).
    + rewrite map_map. apply map_ext_in. intros b Hb%list_elem_of_In. change (api_id (known (apiCategories h) b)) with (api_id b).
      destruct (Z.eqb_spec (api_id b) a) as [E|]; [|done]. apply known_with. by apply (Hin b).
    + rewrite Hapi, !map_map. apply map_ext. intros r. change (api_id (api_json r)) with (ar_id r).
      destruct (ar_id r =? a)%Z; [by rewrite set_category_json|done].
  - intros _. cbn [setApis ThisService.apis on_apis categories]. rewrite Hset. apply Forall_map. eapply Forall_impl; [exact Hlt|].
    cbn. intros b Hb k. destruct (api_id b =? a)%Z; [|apply Hb]. cbn [with_category FeTypes.category_id]. intros Hk.
    destruct (Hcat k Hk) as (cat & [Hcr <-]%tget_Some & _). pose proof (keys_below _ (proj1 (ok_categories d Hd))) as Hbel.
    rewrite Forall_forall in Hbel. apply (Hbel cat Hcr).
Qed.
End Tree.

(** The detail of the latest version puts the page in step. *)
Lemma latest_in_step uuid sv d h (shown := Latest (service_detail_json d sv)) : db_ok d -> live_service uuid d = Some sv ->
  serviceDetail h = Some shown -> tree_in_step (sr_id sv) uuid d (setLoading false (show_detail shown h)).
Proof.
  intros Hd Hsv Hh.
  assert (Hcat : forall r, r ∈ apis_of d (sr_id sv) -> in_service d (sr_id sv) (ar_category r)).
  { intros r [Hr <-%Z.eqb_eq]%elem_of_select. by apply (ok_apis d Hd). }
  split.
  - pose proof (first_get _ _ _ (proj1 (ok_services d Hd)) Hsv) as Hget. exists sv. split; [exact Hget|].
    apply first_row_Some in Hsv as [_ [Hu _]%andb_true_iff]. by apply String.eqb_eq.
  - done.
  - intros _. left. unfold detail_id. cbn. by rewrite Hh.
  - intros _. change (map (known (map category_json (categories_of d (sr_id sv)))) (map api_json (apis_of d (sr_id sv))) =
      map api_json (apis_of d (sr_id sv))).
    rewrite map_map. apply map_ext_in. intros r Hr%list_elem_of_In. unfold known.
    change (FeTypes.category_id (api_json r)) with (ar_category r). specialize (Hcat r Hr). unfold in_service in Hcat.
    destruct (ar_category r) as [c|] eqn:Ec; [|by destruct r; cbn in *; subst].
    destruct (Hcat c eq_refl) as (cat & [Hcr Hid]%tget_Some & Hs). rewrite decide_True; [by destruct r; cbn in *; subst|].
    rewrite map_map. apply list_elem_of_fmap. exists cat. split; [done|]. apply elem_of_select. split; [done|]. by apply Z.eqb_eq.
  - intros _. change (Forall (fun a => forall c, FeTypes.category_id a = Some c -> (c < next_id (categories d))%Z)
      (map api_json (apis_of d (sr_id sv)))).
    apply Forall_map, Forall_forall. intros r Hr c Hc. destruct (Hcat r Hr c Hc) as (cat & [Hcr <-]%tget_Some & _).
    pose proof (keys_below _ (proj1 (ok_categories d Hd))) as Hb. rewrite Forall_forall in Hb. apply (Hb _ Hcr).
Qed.

(** ** The page *)

Section OnePage.
Context (moments : nat -> Moment) (d0 : Db) (u : UserRow) (uuid : string) (sid : Z).
Notation server := (backend_server dump moments d0).
Notation db s := (replay moments 0 d0 (sent (browser s))).
Notation tok s := (getAccessToken (browser s)).
Notation in_step := (tree_in_step sid uuid).
Notation live s := (live_session moments d0 u (browser s)).

(** One action: the page is reloaded, or shows what the database holds. *)
Definition stepped (s s' : Page) : Prop :=
  live s' /\ reloads (browser s) <= reloads (browser s') /\
  (reloads (browser s') = reloads (browser s) -> in_step (db s') (hook s')).

Lemma stepped_same s s' : live s -> in_step (db s) (hook s) -> same_shown (hook s) (hook s') ->
  sent (browser s') = sent (browser s) -> access_token (browser s') = access_token (browser s) ->
  reloads (browser s') = reloads (browser s) -> stepped s s'.
Proof.
  intros Hl Ht Hh Hs Ha Hr. unfold stepped, live_session, getAccessToken. rewrite Hs, Ha, Hr. split; [done|]. split; [done|]. intros _.
  by apply (tree_same sid uuid (db s) _ (hook s)).
Qed.

(** After one more request. *)
Lemma stepped_sent {T} (e : Endpoint T) s s' (b := with_sent (tok s, encode e) (browser s)) : live s ->
  sent (browser s') = sent b -> access_token (browser s') = access_token b -> reloads b <= reloads (browser s') ->
  users (replay moments 0 d0 (sent b)) = users (db s) ->
  (reloads (browser s') = reloads b -> in_step (replay moments 0 d0 (sent b)) (hook s')) -> stepped s s'.
Proof. intros Hl Hs Ha Hr Hu Ht. split; [by apply (live_next moments d0 u e (browser s))|by rewrite Hs]. Qed.

(** An action that sends [e]: how it ends when the request is accepted, and when it
    is not. *)
Lemma acted {T} (e : Endpoint (Response T)) (eff : T -> Db -> Prop) (m : UI ThisService unit) s
  (b := with_sent (tok s, encode e) (browser s)) : live s -> in_step (db s) (hook s) ->
  auth_required (url (encode e)) = true -> bool_decide (url (encode e) ∈ L0_routes) = false ->
  (forall r, status (body_of dump e r) = default 0%Z (reply_status r)) ->
  (forall m op, asked e = inr op -> leaves (handle m (ur_id u) op) (db s) (fun p d' =>
     forall msg, eff (payload (body_of dump e (mkReply (Some 200%Z) msg p))) d')) ->
  (forall v d', eff v d' -> users d' = users (db s)) ->
  (forall res, request server e s = (Ret res, mkFe b (hook s)) -> status res = 200%Z -> exists b' h', (m s).2 = mkFe b' h' /\
     sent b' = sent b /\ access_token b' = access_token b /\ reloads b <= reloads b' /\
     (reloads b' = reloads b -> eff (payload res) (replay moments 0 d0 (sent b)) ->
        in_step (replay moments 0 d0 (sent b)) h')) ->
  (forall o, request server e s = (o, mkFe b (hook s)) ->
     match o with Ret res => status res <> 200%Z | Throw _ => True | Exit _ => False end ->
     exists b' h', (m s).2 = mkFe b' h' /\ sent b' = sent b /\ access_token b' = access_token b /\ reloads b' = reloads b /\
       same_shown (hook s) h') ->
  stepped s (m s).2.
Proof.
  intros Hl Ht Hauth Hl0 Hst Heff Husers Hok Hno.
  assert (Hstay : replay moments 0 d0 (sent b) = db s ->
    (exists b' h', (m s).2 = mkFe b' h' /\ sent b' = sent b /\ access_token b' = access_token b /\ reloads b' = reloads b /\
       same_shown (hook s) h') -> stepped s (m s).2).
  { intros Hd' (b' & h' & -> & Hs & Ha & Hr & Hh). apply (stepped_sent e); [done..| | |]; fold b.
    - by rewrite <-Hr.
    - by rewrite Hd'.
    - intros _. rewrite Hd'. by apply (tree_same sid uuid (db s) _ (hook s)). }
  destruct (request_answered dump moments d0 u e eff s Hl Hauth Hl0 Hst Heff) as [(res & Hr & Hs & He)|[(res & Hr & Hs & He)|(err & Hr & He)]].
  - destruct (Hok res Hr Hs) as (b' & h' & -> & Hs' & Ha & Hle & Ht'). apply (stepped_sent e); [done..|by apply (Husers _ _ He)|].
    intros Hr'. by apply Ht'.
  - apply Hstay; [done|]. by apply (Hno (Ret res)).
  - apply Hstay; [done|]. by apply (Hno (Throw err)).
Qed.

(** How an action ends, once the request is answered. *)
Ltac handlers := cbn [act]; unfold handleAddCategory, handleUpdateApiCategory, handleDeleteCategory, checkIsServiceMaintainer,
  handleAddOrRemoveServiceMaintainerById, handleExportOpenAPI, handleStartIteration, handleCompleteIteration,
  try_catch, get_hook, resume, mbind, M_bind; cbv beta iota zeta; cbn [hook fst snd].
Ltac accepted := intros res Hr Hres; handlers; rewrite Hr; rewrite decide_False by (rewrite Hres; tauto);
  eexists _, _; (split; [reflexivity|]); do 2 (split; [reflexivity|]).
Ltac not_accepted := intros o Hr Ho; handlers; rewrite Hr; destruct o as [?|?|?]; [|by eexists _, _|done];
  repeat case_decide; try tauto; by eexists _, _.

Section Acts.
Context (s : Page).
Hypotheses (Hd : db_ok (db s)) (Hl : live s) (Ht : in_step (db s) (hook s)).
Notation act_on a := (act server uuid a s).2.

Lemma update_step a c : isLatest (hook s) = true -> stepped s (act_on (UpdateApiCategory a c)).
Proof.
  intros Hlatest. apply (acted (UpdateApiCategoryById a c) (fun _ d' => exists time row, tget (db_apis (db s)) a = Some row /\
    let v := if (0 <=? c)%Z then Some c else None in
    d' = on_apis (tupdate a (touch time (set_api_category v))) (db s) /\
    forall k, v = Some k -> exists cat, tget (categories (db s)) k = Some cat /\ cr_service cat = ar_parent row)); try done.
  - intros m op [= <-]. apply (leaves_impl _ _ _ _ (update_api_category_leaves m (db s) (ur_id u) a c)).
    intros _ d' (row & Hrow & [[-> Hd']|(cat & Hcat & Hsv & Hd')]) _; exists (now m), row; (split; [done|]).
    + by split.
    + pose proof (tget_Some _ _ _ Hcat) as [Hr Hid]. pose proof (keys_below _ (proj1 (ok_categories _ Hd))) as Hb.
      rewrite Forall_forall in Hb. specialize (Hb _ Hr). rewrite Hid in Hb. destruct (Z.leb_spec 0 c); [|lia].
      split; [done|]. intros k [= <-]. by exists cat.
  - by intros _ d' (time & row & _ & -> & _).
  - accepted. cbn [reloads with_sent]. split; [done|]. intros _ (time & row & Hrow & Hd' & Hcat). rewrite Hd'.
    by apply (tree_move sid uuid time a c _ row).
  - not_accepted.
Qed.

Lemma delete_step c : stepped s (act_on (DeleteCategory c)).
Proof.
  apply (acted (DeleteCategoryById c) (fun _ d' => exists time, d' = delete_category time c (db s))); try done.
  - intros m op [= <-]. apply (leaves_impl _ _ _ _ (delete_category_leaves m (db s) (ur_id u) c)). intros _ d' Hd' _. by exists (now m).
  - by intros _ d' (time & ->).
  - accepted. split; [done|]. intros _ (time & Hd'). rewrite Hd'. by apply tree_delete.
  - not_accepted.
Qed.

(** With the latest version, what is asked of the service is asked of [sid], or
    refused for want of a detail. *)
Lemma asked_of_service {T} (e : option Z -> Endpoint T) (k : Z -> Operation) op : isLatest (hook s) = true ->
  (forall i op, asked (e i) = inr op -> exists z, i = Some z /\ op = k z) -> asked (e (detail_id (hook s))) = inr op -> op = k sid.
Proof.
  intros Hlatest He Ha. destruct (He _ _ Ha) as (z & Hz & ->).
  destruct (step_detail _ _ _ _ Ht Hlatest) as [E|E]; rewrite E in Hz; [by injection Hz as <-|done].
Qed.

Lemma add_step ok n t : isLatest (hook s) = true -> stepped s (act_on (AddCategory ok n t)).
Proof.
  intros Hlatest. destruct ok as [[]|err|]; [|by apply (stepped_same s)..].
  apply (acted (AddCategoryByServiceId (detail_id (hook s)) n t) (fun p d' => exists v,
    let c := mkCategoryRow (next_id (categories (db s))) sid n v in
    p = category_json c /\ d' = on_categories (tadd (fun _ => c)) (db s))); try done.
  - intros m op Ha. assert (Hop : exists t', op = addCategoryByServiceId sid n t').
    { destruct t as [t|]; [|by destruct (detail_id (hook s))]. exists (Some t).
      refine (asked_of_service (fun i => AddCategoryByServiceId i n (Some t)) (fun z => addCategoryByServiceId z n (Some t)) op Hlatest _ Ha).
      intros [z|] op'; [|done]. intros [= <-]. by exists z. }
    destruct Hop as [t' ->].
    apply (leaves_impl _ _ _ _ (add_category_leaves m (db s) (ur_id u) sid n t')). intros p d' [-> Hd'] msg. by exists t'.
  - by intros p d' (v & _ & ->).
  - accepted. split; [done|]. intros _ (v & Hp & Hd'). rewrite Hd', Hp. by apply tree_add.
  - not_accepted.
Qed.

(** Actions after which the tree stays as it was. *)
Lemma unmoved {T} (e : Endpoint (Response T)) (m : UI ThisService unit) (b := with_sent (tok s, encode e) (browser s)) :
  auth_required (url (encode e)) = true -> bool_decide (url (encode e) ∈ L0_routes) = false ->
  (forall r, status (body_of dump e r) = default 0%Z (reply_status r)) ->
  (forall m op, asked e = inr op -> leaves (handle m (ur_id u) op) (db s) (fun _ => same_tree (db s))) ->
  (forall o, request server e s = (o, mkFe b (hook s)) -> match o with Exit _ => False | _ => True end ->
     exists b' h', (m s).2 = mkFe b' h' /\ sent b' = sent b /\ access_token b' = access_token b /\ reloads b' = reloads b /\
       same_shown (hook s) h') ->
  stepped s (m s).2.
Proof.
  intros Hauth Hl0 Hst Heff Hend. apply (acted e (fun _ => same_tree (db s))); try done.
  - intros m' op Ha. by apply (leaves_impl _ _ _ _ (Heff m' op Ha)).
  - by intros _ d' (-> & _).
  - intros res Hr _. destruct (Hend _ Hr ltac:(done)) as (b' & h' & E & Hs & Ha & Hre & Hh). exists b', h'.
    split; [done|]. split; [done|]. split; [done|]. split; [by rewrite Hre|]. intros _ Hd'. by apply (tree_same sid uuid (db s) _ (hook s)).
  - intros o Hr Ho. apply (Hend o Hr). by destruct o.
Qed.

Ltac ends := intros o Hr Ho; handlers; rewrite Hr; destruct o as [?|?|?]; [|by eexists _, _|done];
  repeat case_decide; by eexists _, _.
Ltac of_service e k lemma Hlatest := apply (unmoved (e (detail_id (hook s)))); try done;
  [ intros m op Ha; rewrite (asked_of_service e k op Hlatest ltac:(intros [z|] op'; [intros [= <-]; by exists z|done]) Ha); apply lemma
  | ends ].

Lemma maintainer_step k : isLatest (hook s) = true -> stepped s (act_on (AddOrRemoveMaintainer k)).
Proof.
  intros Hlatest. of_service (fun i => AddOrRemoveServiceMaintainerById i k) (fun z => addOrRemoveServiceMaintainerById z k)
    maintainer_leaves Hlatest.
Qed.

Lemma check_step k : isLatest (hook s) = true -> stepped s (act_on (CheckMaintainer k)).
Proof.
  intros Hlatest. of_service (fun i => IsServiceMaintainer i k) (fun z => isServiceMaintainer z k)
    is_maintainer_leaves Hlatest.
Qed.

Lemma start_step : isLatest (hook s) = true -> stepped s (act_on BeginIteration).
Proof.
  intros Hlatest. of_service StartIteration startIteration start_leaves Hlatest.
Qed.

Lemma export_step : stepped s (act_on ExportOpenAPI).
Proof.
  apply (unmoved (ExportOpenapiByUuidAndVersion uuid (currentVersion (hook s)))); try done.
  - intros m op. cbn [asked]. unfold needs_text. repeat case_match; try done. intros [= <-]. apply export_leaves.
  - ends.
Qed.

(** Completing an iteration changes the APIs, and reloads the page. *)
Lemma complete_step ok v : stepped s (act_on (CompleteIteration ok v)).
Proof.
  destruct ok as [[]|err|]; [|by apply (stepped_same s)..].
  apply (acted (CommitIteration (iterationId (hook s)) v) (fun _ d' => users d' = users (db s))); try done.
  - intros m op [= <-]. by apply (leaves_impl _ _ _ _ (commit_leaves m (db s) (ur_id u) _ v)).
  - accepted. cbn [browser reloads with_reload with_message with_sent]. split; [|intros]; lia.
  - not_accepted.
Qed.
(** A version selected, and what comes of its request. *)
Lemma fetch_delivers v (p : Page) o b : request server (GetServiceByUuidAndVersion uuid v) (mkFe (browser p) (setLoading true (hook p))) =
    (o, mkFe b (setLoading true (hook p))) -> (forall c, o <> Exit c) ->
  exists b', fetchServiceDetail server uuid v p = (Ret tt, mkFe b' (delivered o (setLoading true (hook p)))) /\
    sent b' = sent b /\ access_token b' = access_token b /\ reloads b' = reloads b.
Proof.
  intros Hr Ho. set (q := mkFe b (setLoading true (hook p))) in *.
  destruct (deliverDetail_run o q Ho) as (b' & Hrun & Hs & _ & Ha & Hre). exists b'. split; [|done].
  unfold fetchServiceDetail. erewrite bind_Ret by reflexivity. etrans; [|exact Hrun]. apply bind_Ret. unfold attempt. rewrite Hr.
  destruct o as [a|e|c]; [done|done|by destruct (Ho c)].
Qed.

Lemma named_service x : live_service uuid (db s) = Some x -> sr_id x = sid.
Proof.
  intros [Hx [Hxu _]%andb_true_iff]%first_row_Some. destruct (step_named _ _ _ _ Ht) as (sv & [Hsv Hid]%tget_Some & Hu).
  apply String.eqb_eq in Hxu. pose proof (unique_uuids _ (proj1 (unique_ok_iff _) (proj2 (proj1 Hl)))) as Hnd.
  rewrite <-Hid. f_equal. apply (nodup_key sr_uuid (rows (services (db s)))); [done..|]. by rewrite Hxu, Hu.
Qed.

Lemma select_step v : trim (unquote (query_text uuid)) = uuid -> stepped s (act_on (SelectVersion v)).
Proof.
  intros Huuid. cbn [act]. unfold selectVersion, inIterationWarning. rewrite (bind_Ret get_hook _ s (hook s) s eq_refl).
  destruct (inIteration (hook s)); cbn [negb]; [by apply (stepped_same s)|]. do 2 (erewrite bind_Ret by reflexivity).
  unfold version_effect. erewrite (bind_Ret get_hook) by reflexivity. cbn [browser hook currentVersion setCurrentVersion].
  case_decide; [by apply (stepped_same s)|].
  set (p := mkFe (browser s) (setCurrentVersion v (setSelectedApiId (-1) (hook s)))).
  set (q := mkFe (browser p) (setLoading true (hook p))). set (e := GetServiceByUuidAndVersion uuid v).
  assert (Hq : in_step (db s) (hook q)) by by apply (tree_same sid uuid (db s) _ (hook s)).
  assert (Hstepped : forall o, request server e q = (o, mkFe (with_sent (tok q, encode e) (browser q)) (hook q)) ->
    (forall c, o <> Exit c) -> replay moments 0 d0 (sent (with_sent (tok q, encode e) (browser q))) = db s ->
    in_step (db s) (delivered o (hook q)) -> stepped s (fetchServiceDetail server uuid v p).2).
  { intros o Hr Ho Hdb Hin. destruct (fetch_delivers v p o _ Hr Ho) as (b' & -> & Hs & Ha & Hre).
    apply (stepped_sent e); [done|exact Hs|exact Ha|cbn [snd browser]; by rewrite Hre|exact (f_equal users Hdb)|]. intros _.
    change (in_step (replay moments 0 d0 (sent (with_sent (tok q, encode e) (browser q)))) (delivered o (hook q))). by rewrite Hdb. }
  destruct (request_answered dump moments d0 u e (fun r d' => d' = db s /\
    exists p, version_shown (db s) uuid p /\ r = payload (body_of dump e (mkReply (Some 200%Z) None p))) q)
    as [(res & Hr & Hst & Hdb & shown & Hshown & Hres)|[(res & Hr & Hst & Hdb)|(err & Hr & Hdb)]]; try done.
  - intros m op. cbn [asked e]. unfold needs_text. repeat case_match; try done. intros [= <-].
    apply (leaves_impl _ _ _ _ (detail_leaves m (db s) (ur_id u) _ _)). rewrite Huuid. intros r d' [-> Hv] msg. split; [done|by exists r].
  - apply (Hstepped _ Hr); [done|exact Hdb|]. unfold delivered. rewrite decide_False by auto. rewrite Hres.
    destruct Hshown as [(sv & Hsv & ->)|(i & ->)].
    + rewrite <-(named_service sv Hsv). by apply latest_in_step.
    + destruct Hq as [Hn Hcat Hdet Hapi Hlt]. by split.
  - apply (Hstepped _ Hr); [done|exact Hdb|]. unfold delivered. rewrite decide_True by auto.
    by apply (tree_same sid uuid (db s) _ (setServiceDetail None (hook q))), tree_cleared.
  - apply (Hstepped _ Hr); [done|exact Hdb|]. by apply (tree_same sid uuid (db s) _ (hook q)).
Qed.
End Acts.

(** The list offers categories and iterations ([list_operations]), and the header the
    maintainers, of the latest version only. *)
Definition offered (h : ThisService) (a : Action) : bool :=
  match a with
  | AddCategory _ _ _ | BeginIteration =>
      match list_operations (inIteration h) (isLatest h) with Some (StartNewIteration, [CreateCategory]) => true | _ => false end
  | UpdateApiCategory _ _ => tree_draggable (inIteration h) (isLatest h)
  | CheckMaintainer _ | AddOrRemoveMaintainer _ => isLatest h
  | _ => true
  end.

Lemma offered_latest h a : offered h a = true ->
  match a with SelectVersion _ | DeleteCategory _ | ExportOpenAPI | CompleteIteration _ _ | ExitIteration => True | _ => isLatest h = true end.
Proof. unfold offered, list_operations, tree_draggable. destruct a, (isLatest h), (inIteration h); done. Qed.

Lemma act_step s a : trim (unquote (query_text uuid)) = uuid -> live s -> in_step (db s) (hook s) -> offered (hook s) a = true ->
  stepped s (act server uuid a s).2.
Proof.
  intros Huuid Hl Ht Ho%offered_latest. pose proof (proj1 (proj1 Hl)) as Hd. destruct a; [by apply select_step|by apply add_step
    |by apply update_step|by apply delete_step|by apply check_step|by apply maintainer_step|by apply export_step|by apply start_step
    |by apply complete_step|by apply (stepped_same s)].
Qed.

(** ** Opening the page *)

Section Open.
Context (sv : ServiceRow) (d : Db) (token : option string).
Hypothesis Hd : db_ok d.
Hypothesis Hconf : configurable uuid (sr_version sv).
Hypothesis Hsv : live_service uuid d = Some sv.
Hypothesis Hmay : may_start sv u = true.

Lemma versions_means : asked (GetAllVersionsByUuid uuid) = inr (getAllVersionsByUuid (query_text uuid)).
Proof. cbn [asked]. unfold needs_text. by rewrite (proj2 (String.eqb_neq _ _) (uuid_given _ _ Hconf)). Qed.

Lemma detail_means : asked (GetServiceByUuidAndVersion uuid (sr_version sv)) =
  inr (getServiceByUuidAndVersion (query_text uuid) (sr_version sv)).
Proof.
  cbn [asked]. unfold needs_text. destruct Hconf as [Hu _ _ Hv _ Hp].
  by rewrite (proj2 (String.eqb_neq _ _) Hu), (proj2 (String.eqb_neq _ _) Hv), (query_text_plain _ Hp).
Qed.

Lemma versions_asked m : signed_in m d token u -> exists more, ask dump m d token (GetAllVersionsByUuid uuid) =
  (NetOk (mkResponse 200 "Get service versions success" (Some (mkServiceVersion (sr_version sv) true :: more))), d).
Proof.
  intros Hin.
  assert (Hrun : exists more, handle m (ur_id u) (getAllVersionsByUuid (query_text uuid)) (mkTx d d []) =
    (Ret (success "Get service versions success" (PVersions ((Some (sr_version sv), true) :: more))), mkTx d d [])).
  { cbn [handle]. unfold serviceGetAllVersionsByUuid, get_user. eexists. repeat step. rewrite (uuid_arrives _ _ Hconf), Hsv. repeat step.
    rewrite (signed_user _ _ _ _ Hin). unfold may_start in Hmay.
    repeat step. destruct (ur_level u =? 0)%Z, (owned_by (ur_id u) sv), (maintains (Some u) sv); done. }
  destruct Hrun as [more Hrun]. eexists.
  by rewrite (ask_run dump m d token u (GetAllVersionsByUuid uuid) _ _ _ Hin versions_means eq_refl eq_refl Hrun).
Qed.

Lemma latest_asked m : signed_in m d token u -> ask dump m d token (GetServiceByUuidAndVersion uuid (sr_version sv)) =
  (NetOk (mkResponse 200 "Get service success" (mkGetServiceResponse (Some (Latest (service_detail_json d sv))) true)), d).
Proof.
  intros Hin.
  assert (Hp : version_named d sv (sr_version sv) = Some None) by (unfold version_named; by rewrite String.eqb_refl).
  assert (Hv : may_view sv None u = true) by (unfold may_view; by rewrite Hmay).
  assert (Hrun : handle m (ur_id u) (getServiceByUuidAndVersion (query_text uuid) (sr_version sv)) (mkTx d d []) =
    (Ret (success "Get service success" (PAnyService (Latest (service_detail_json d sv)) true)), mkTx d d [])).
  { cbn [handle]. unfold serviceGetServiceByUuidAndVersion.
    rewrite (bind_Ret _ _ _ _ _ (seen_run m d token u uuid _ sv None Hin Hconf Hsv Hp Hv d [])). by repeat step. }
  by rewrite (ask_run dump m d token u (GetServiceByUuidAndVersion uuid (sr_version sv)) _ _ _ Hin detail_means eq_refl eq_refl Hrun).
Qed.
End Open.
End OnePage.

Lemma fetched_versions (server : Server) t uuid s res v vs :
  server _ (sent (browser s)) (getAccessToken (browser s)) (GetAllVersionsByUuid uuid) = NetOk res ->
  status res = 200%Z -> payload res = Some (v :: vs) -> fetchAllVersions server t uuid s =
    (Ret tt, mkFe (with_sent (getAccessToken (browser s), encode (GetAllVersionsByUuid uuid)) (browser s))
      (setLoading false (setIsLatest (is_latest v) (setCurrentVersion (version v)
        (setVersions (filter (fun v => version v <> "") (v :: vs)) (setLoading true (hook s))))))).
Proof.
  intros E Hst Hp. unfold fetchAllVersions, finally, try_catch, mbind, M_bind, set_hook, modify, request.
  cbv beta iota. cbn [browser hook]. rewrite E, decide_False by auto. by rewrite Hp.
Qed.

Lemma fetched_detail (server : Server) uuid v s res shown :
  server _ (sent (browser s)) (getAccessToken (browser s)) (GetServiceByUuidAndVersion uuid v) = NetOk res ->
  status res = 200%Z -> res_service (payload res) = Some shown -> fetchServiceDetail server uuid v s =
    (Ret tt, mkFe (with_sent (getAccessToken (browser s), encode (GetServiceByUuidAndVersion uuid v)) (browser s))
      (setLoading false (show_detail shown (setIsLatest (res_is_latest (payload res))
        (setServiceDetail (Some shown) (setLoading true (hook s))))))).
Proof.
  intros E Hst Hp. unfold fetchServiceDetail, deliverDetail, attempt, finally, try_catch, mbind, M_bind, set_hook, modify, request, resume.
  cbv beta iota. cbn [browser hook]. rewrite E. cbv beta iota. rewrite decide_False by auto. by rewrite Hp.
Qed.

(** Opening the page of a service the user may see shows its latest version. *)
Lemma opened moments d0 u uuid t sv b : let d := replay moments 0 d0 (sent b) in
  db_ok d -> (forall n, signed_in (moments n) d (getAccessToken b) u) -> live_service uuid d = Some sv ->
  may_start sv u = true -> configurable uuid (sr_version sv) ->
  exists b' h', mount (backend_server dump moments d0) t uuid (mkFe b initial) = (Ret tt, mkFe b' h') /\
    replay moments 0 d0 (sent b') = d /\ access_token b' = access_token b /\ reloads b' = reloads b /\
    isLatest h' = true /\ tree_in_step (sr_id sv) uuid d h'.
Proof.
  intros d Hd Hin Hsv Hmay Hconf.
  destruct (versions_asked u uuid sv d (getAccessToken b) Hconf Hsv Hmay _ (Hin (List.length (sent b)))) as [more Ha1].
  destruct (read_answered dump moments d0 d _ _ _ _ eq_refl Ha1) as [E1 D1]. set (h1 := sent b ++ _) in D1.
  pose proof (latest_asked u uuid sv d (getAccessToken b) Hconf Hsv Hmay _ (Hin (List.length h1))) as Ha2.
  destruct (read_answered dump moments d0 d _ _ _ _ D1 Ha2) as [E2 D2].
  pose proof (fetched_versions _ t uuid (mkFe b initial) _ _ _ E1 eq_refl eq_refl) as F1.
  match type of F1 with _ = (_, ?q) => pose proof (fetched_detail _ uuid (sr_version sv) q _ _ E2 eq_refl eq_refl) as F2 end.
  unfold mount. rewrite (bind_Ret get_hook _ (mkFe b initial) initial (mkFe b initial) eq_refl), (bind_Ret _ _ _ _ _ F1).
  unfold version_effect. erewrite (bind_Ret get_hook) by reflexivity.
  rewrite decide_False by (cbn; pose proof (version_given _ _ Hconf); by intros [?|?]).
  eexists _, _. split; [exact F2|]. split; [exact D2|]. do 3 (split; [done|]). by apply latest_in_step.
Qed.

(** A visit: the actions that are offered, to its end or to where the page reloads. *)
Fixpoint visit (server : Server) (uuid : string) (l : list Action) (p : Page) : Page :=
  match l with
  | [] => p
  | a :: l' =>
      let p' := if offered (hook p) a then (act server uuid a p).2 else p in
      if reloads (browser p') =? reloads (browser p) then visit server uuid l' p' else p'
  end.

Lemma visit_in_step moments d0 u uuid sid l (server := backend_server dump moments d0) : trim (unquote (query_text uuid)) = uuid ->
  forall p, live_session moments d0 u (browser p) -> tree_in_step sid uuid (replay moments 0 d0 (sent (browser p))) (hook p) ->
  let p' := visit server uuid l p in
  reloads (browser p') = reloads (browser p) -> tree_in_step sid uuid (replay moments 0 d0 (sent (browser p'))) (hook p').
Proof.
  intros Huuid. induction l as [|a l IH]; intros p Hl Ht; [done|]. cbn [visit]. cbv zeta.
  destruct (offered (hook p) a) eqn:Ho; [|rewrite Nat.eqb_refl; by apply IH].
  destruct (act_step moments d0 u uuid sid p a Huuid Hl Ht Ho) as (Hl' & _ & Ht'). fold server in Hl', Ht'.
  destruct (Nat.eqb_spec (reloads (browser (act server uuid a p).2)) (reloads (browser p))) as [E|E]; [|by intros ?].
  rewrite <-E. apply IH; [done|by apply Ht'].
Qed.

(** ** Properties *)

(** C10. The page of a service keeps in step with the database without loading its
    tree again.  Opened by someone who may see the service, it shows the tree of the
    latest version; and however the user then looks at other versions, adds and
    deletes categories, moves APIs, changes maintainers, begins, completes and leaves
    iterations and exports the document, as far as the page offers it, and however
    the back end answers: until the page reloads, which completing an iteration makes
    it do, the categories it shows are those the database holds, and so is the whole
    tree whenever the version shown is the latest. *)
Theorem tree_shows_database moments d0 u uuid t sv b l :
  let server := backend_server dump moments d0 in
  let db p := replay moments 0 d0 (sent (browser p)) in
  let d := replay moments 0 d0 (sent b) in
  committed_ok d -> (forall n, signed_in (moments n) d (getAccessToken b) u) ->
  live_service uuid d = Some sv -> may_start sv u = true -> configurable uuid (sr_version sv) ->
  let opening := mount server t uuid (mkFe b initial) in
  let p0 := opening.2 in
  let p := visit server uuid l p0 in
  (opening.1 = Ret tt /\ isLatest (hook p0) = true /\ page_tree (hook p0) = stored_tree (sr_id sv) (db p0)) /\
  (reloads (browser p) = reloads b ->
     apiCategories (hook p) = map category_json (categories_of (db p) (sr_id sv)) /\
     (isLatest (hook p) = true -> page_tree (hook p) = stored_tree (sr_id sv) (db p))).
Proof.
  intros server db d Hd Hin Hsv Hmay Hconf.
  destruct (opened moments d0 u uuid t sv b (proj1 Hd) Hin Hsv Hmay Hconf) as (b' & h' & E & Hdb & Ha & Hr & Hlatest & Ht).
  fold server in E. rewrite E. fold d in Hdb, Ht. unfold db. cbn [fst snd browser hook]. rewrite Hdb.
  split; [split; [done|]; split; [done|by apply (tree_shown _ uuid)]|]. intros Hsame.
  assert (Hstep := visit_in_step moments d0 u uuid (sr_id sv) l (uuid_arrives _ _ Hconf) (mkFe b' h')).
  cbn [browser hook] in Hstep. rewrite Hdb, Hr in Hstep. fold server in Hstep.
  assert (Hlive : live_session moments d0 u b') by (unfold live_session, getAccessToken; rewrite Hdb, Ha; done).
  specialize (Hstep Hlive Ht Hsame). split; [by apply (step_categories _ uuid)|]. intros Hl. by apply (tree_shown _ uuid).
Qed.
End LiveTree.

(** Ada opens the page of her service, adds a category, moves an API into it, deletes
    the category the API was in (again: refused) and looks at a version that does
    not exist. *)
Definition sample_browser : Browser := mkBrowser (Some "1") None None [] released_history 0 "/service".
Definition sample_visit : list Action :=
  [AddCategory (Ret tt) "refunds" (Some ""); UpdateApiCategory 1 2; DeleteCategory 1; DeleteCategory 1; SelectVersion "0.0.9"].

Lemma tree_shows_database_witness :
  let server := @backend_server sample_isoformat sample_client (fun _ => "") (fun _ => sample_moment) empty_db in
  let db p := @replay sample_isoformat sample_client (fun _ => sample_moment) 0 empty_db (sent (browser p)) in
  let p := visit server "team/shop" sample_visit (mount server id "team/shop" (mkFe sample_browser initial)).2 in
  map cat_name (apiCategories (hook p)) = ["refunds"] /\ map FeTypes.category_id (apis (hook p)) = [Some 2%Z] /\
  page_tree (hook p) = stored_tree 1 (db p).
Proof.
  cbv zeta. split; [vm_compute; reflexivity|]. split; [vm_compute; reflexivity|].
  pose proof (@tree_shows_database sample_isoformat sample_client sample_axios (fun _ => "") (fun _ => sample_moment) empty_db
    sample_user "team/shop" id sample_released sample_browser sample_visit
    ltac:(apply replay_ok, empty_db_ok) ltac:(intros n; split; vm_compute; reflexivity) ltac:(vm_compute; reflexivity)
    ltac:(vm_compute; reflexivity) ltac:(split; vm_compute; congruence)) as Ht.
  cbv zeta in Ht. destruct Ht as [_ Ht]. destruct Ht as [_ Ht]; [vm_compute; reflexivity|]. apply Ht. vm_compute. reflexivity.
Defined.
