(* ===== verification/Account.v ===== *)
(** * An account, from the form to the session

    [useUser] run against the back end: who registers in the front-end can log in
    with the name and the password chosen, and is then shown as the user the
    database holds; after a change of the password, with the new one. *)

From S2P Require Import Prelude Tables JsObject ApiTypes FeTypes FeHttp UserStore Database ParamStore Openapi Backend.
From S2P Require Import Transaction BackendUser BackendService BackendApi BackendRoutes Integrity BackendSafety Failures.
From S2P Require Import Wire EndToEnd Answers.
From Stdlib Require Import String ZArith Lia.

(** [bcrypt] accepts the password a hash was made from; [jose.jwt] reads the id back
    from a token until it expires. *)
Class AccountLaws `{!Libraries} := {
  own_password salt password : checkpw password (hashpw salt password) = true;
  token_given id name expiry : jwt_encode id name expiry <> "";
  token_valid id name expiry time : (time <= expiry)%Z -> jwt_decode time (jwt_encode id name expiry) = Some id
}.

Section Account.
Context `{!Isoformat, !Libraries, !AxiosQuery, !AccountLaws}.
Context (dump : Document -> string).

(** ** The handlers *)

(** A request to a route without authentication. *)
Lemma ask_open {T} m d token (e : Endpoint T) op r s : asked e = inr op -> auth_required (url (encode e)) = false ->
  handle m 0 op (mkTx d d []) = (Ret r, s) -> ask dump m d token e = (NetOk (body_of dump e r), committed s).
Proof. intros Ha Hauth Hrun. unfold ask, serve. rewrite wire_agrees, Ha, Hauth. unfold in_session. by rewrite Hrun. Qed.

(** The user [data] registers. *)
Definition new_user (m : Moment) (data : RegisterRequest) (i : Z) : UserRow :=
  mkUserRow i (reg_username data) (hashpw (salt m) (reg_password data)) (reg_nickname data) (reg_email data) (reg_role data) 4 (now m).

(** No account has the name or the address, or the name as its address. *)
Definition free_account (d : Db) (data : RegisterRequest) : Prop := forall r, r ∈ rows (users d) ->
  ur_username r <> reg_username data /\ ur_email r <> reg_email data /\ ur_email r <> reg_username data.

Definition registered (m : Moment) (data : RegisterRequest) : Db -> Db := on_users (tadd (new_user m data)).

Lemma register_run m d data : committed_ok d -> free_account d data -> reg_role data ∈ VALID_ROLES ->
  handle m 0 (register (reg_username data) (reg_password data) (reg_nickname data) (reg_email data) (reg_role data)) (mkTx d d []) =
    (Ret (success "Register success" NoPayload), mkTx (registered m data d) (registered m data d) []).
Proof.
  intros [Hd Hu%unique_ok_iff] Hfree Hrole. cbn [handle]. unfold userRegister. repeat step.
  assert (Hno : first_row (users d) (fun u => String.eqb (ur_username u) (reg_username data) || String.eqb (ur_email u) (reg_email data)) = None).
  { apply first_row_None. intros r Hr. destruct (Hfree r Hr) as (Hn & He & _). by rewrite (proj2 (String.eqb_neq _ _) Hn), (proj2 (String.eqb_neq _ _) He). }
  rewrite Hno. change VALID_ROLES with all_roles in Hrole. rewrite bool_decide_eq_true_2 by done. repeat step.
  rewrite run_commit; [done|]. apply unique_ok_iff. split; try apply Hu; apply nodup_tadd; try apply Hu.
  - intros r Hr. apply (Hfree r Hr).
  - intros r Hr. apply (Hfree r Hr).
Qed.

(** The account a login means. *)
Definition account (d : Db) (name : string) : option UserRow :=
  first_row (users d) (fun u => String.eqb (ur_username u) name || String.eqb (ur_email u) name).

Lemma registered_account m d data : free_account d data ->
  account (registered m data d) (reg_username data) = Some (new_user m data (next_id (users d))).
Proof.
  intros Hfree. unfold account, registered, first_row. cbn [on_users users]. rewrite select_tadd. cbn [new_user ur_username].
  rewrite String.eqb_refl. cbn [orb].
  assert (Hno : select (users d) (fun u => String.eqb (ur_username u) (reg_username data) || String.eqb (ur_email u) (reg_username data)) = []).
  { apply elem_of_nil_inv. intros r [Hr Hq]%elem_of_select. destruct (Hfree r Hr) as (Hn & _ & Hx).
    by rewrite (proj2 (String.eqb_neq _ _) Hn), (proj2 (String.eqb_neq _ _) Hx) in Hq. }
  by rewrite Hno.
Qed.

(** Registration compares names with names and addresses with addresses; a login
    takes either.  When the name chosen is somebody's address, the login means an
    account from before. *)
Lemma shadowed_account m d data r : r ∈ rows (users d) -> ur_email r = reg_username data ->
  exists x, x ∈ rows (users d) /\ account (registered m data d) (reg_username data) = Some x.
Proof.
  intros Hr He. unfold account, registered, first_row. cbn [on_users users]. rewrite select_tadd.
  destruct (select (users d) _) as [|x l] eqn:E.
  - exfalso. assert (Hin : r ∈ select (users d) (fun u => String.eqb (ur_username u) (reg_username data) || String.eqb (ur_email u) (reg_username data))).
    { apply elem_of_select. split; [done|]. by rewrite He, String.eqb_refl, orb_true_r. }
    rewrite E in Hin. by apply not_elem_of_nil in Hin.
  - exists x. split; [|done]. assert (Hx : x ∈ x :: l) by by left. rewrite <-E in Hx. by apply elem_of_select in Hx as [? _].
Qed.

Lemma login_run m d name password row : account d name = Some row -> checkpw password (ur_password row) = true ->
  handle m 0 (login name password) (mkTx d d []) =
    (Ret (success "Login success" (PToken (createAccessToken (now m) row))), mkTx d d []).
Proof. intros Ha Hp. cbn [handle]. unfold userLogin. repeat step. fold (account d name). by rewrite Ha, Hp. Qed.

(** The password changed. *)
Definition repassworded (m : Moment) (i : Z) (new : string) : Db -> Db := on_users (tupdate i (set_password (hashpw (salt m) new))).

Lemma modify_password_run m d row old new : committed_ok d -> tget (users d) (ur_id row) = Some row ->
  checkpw old (ur_password row) = true -> old <> new ->
  handle m (ur_id row) (modifyPassword old new) (mkTx d d []) =
    (Ret (success "Modify password success" NoPayload), mkTx (repassworded m (ur_id row) new d) (repassworded m (ur_id row) new d) []).
Proof.
  intros [Hd Hu%unique_ok_iff] Hrow Hp Hne. cbn [handle]. unfold userModifyPassword, get_user. repeat step. rewrite Hrow, Hp.
  rewrite (proj2 (String.eqb_neq _ _) Hne). repeat step. rewrite run_commit; [done|]. apply unique_ok_iff.
  split; try apply Hu; cbn [on_users users]; rewrite map_tupdate by done; apply Hu.
Qed.

Lemma repassworded_account m d i new name row : account d name = Some row -> ur_id row = i ->
  account (repassworded m i new d) name = Some (set_password (hashpw (salt m) new) row).
Proof.
  intros Ha <-. unfold account, repassworded, first_row in *. cbn [on_users users]. unfold select in *. cbn [tupdate rows].
  induction (rows (users d)) as [|r l IH]; [done|]. cbn [map List.filter] in *. change (id_of r) with (ur_id r).
  destruct (ur_id r =? ur_id row)%Z eqn:E; cbn [set_password ur_username ur_email].
  - destruct (_ || _); [|by apply IH]. cbn [head] in *. by injection Ha as ->.
  - destruct (_ || _); [|by apply IH]. cbn [head] in *. injection Ha as ->. by rewrite Z.eqb_refl in E.
Qed.

Lemma my_info_run m d row : tget (users d) (ur_id row) = Some row ->
  handle m (ur_id row) getMyInfo (mkTx d d []) = (Ret (success "Get user success" (PUser (user_json row))), mkTx d d []).
Proof. intros Hrow. cbn [handle]. unfold userGetUserById, get_user. repeat step. by rewrite Hrow. Qed.

(** ** The user store *)

Section Store.
Context (moments : nat -> Moment) (d0 : Db) (t : string -> string) (time : Z).
Notation server := (backend_server dump moments d0).
Notation db s := (replay moments 0 d0 (sent (browser s))).

Hypothesis Hd0 : committed_ok d0.
(** The session takes less than a day. *)
Hypothesis within_a_day : forall i j, i <= j -> (now (moments j) <= now (moments i) + 24 * 3600 * 1000000)%Z.

(** Signed in as [row]: the user is shown, and the token stored is a recent one. *)
Record signed_in_as (row : UserRow) (s : Fe UserStore) : Prop := mkSignedInAs {
  sees_user : user (hook s) = Some (user_json row);
  holds_token : exists i, i <= List.length (sent (browser s)) /\ access_token (browser s) = Some (createAccessToken (now (moments i)) row)
}.

Lemma token_signed row i b d : tget (users d) (ur_id row) = Some row -> i <= List.length (sent b) ->
  access_token b = Some (createAccessToken (now (moments i)) row) ->
  getAccessToken b = access_token b /\ EndToEnd.signed_in (moments (List.length (sent b))) d (getAccessToken b) row.
Proof.
  intros Hrow Hi Ha. assert (E : getAccessToken b = access_token b).
  { unfold getAccessToken, createAccessToken in *. rewrite Ha. by rewrite (proj2 (String.eqb_neq _ _) (token_given _ _ _)). }
  split; [done|]. split; [|done]. rewrite E, Ha. cbn [default from_option]. unfold Datatypes.id. apply token_valid, within_a_day, Hi.
Qed.

(** A form that is answered with success. *)
Lemma modal_accepted {A} (submit : UI UserStore (Response A)) success failure s res s' : submit s = (Ret res, s') ->
  modal_onOk t (Ret tt) submit success failure s =
    (Ret tt, mkFe (with_message (Success (str_or (message res) (t success))) (browser s')) (hook s')).
Proof.
  intros E. unfold modal_onOk. apply try_catch_Ret. rewrite (bind_Ret (resume (Ret tt)) _ s tt s eq_refl), (bind_Ret _ _ _ _ _ E). done.
Qed.

Lemma log_in name password row s : db_ok (db s) -> account (db s) name = Some row -> checkpw password (ur_password row) = true ->
  user (hook s) = None -> exists s', loginModal_onOk server time t (Ret tt) (mkLoginRequest name password) s = (Ret tt, s') /\
    signed_in_as row s' /\ db s' = db s.
Proof.
  intros Hd Ha Hp Hu. set (n := List.length (sent (browser s))). set (d := db s) in *. set (data := mkLoginRequest name password).
  set (k := createAccessToken (now (moments n)) row).
  assert (Hrow : tget (users d) (ur_id row) = Some row) by (apply (first_get _ _ _ (ok_users d Hd) Ha)).
  destruct (read_answered dump moments d0 d (sent (browser s)) (getAccessToken (browser s)) (UserLogin data) _ eq_refl
    (ask_open (moments n) d _ (UserLogin data) _ _ _ eq_refl eq_refl (login_run (moments n) d name password row Ha Hp))) as [E1 D1].
  pose proof (fe_request_NetOk (H := UserStore) server (UserLogin data) s _ E1) as R1.
  set (b1 := with_token (Some k) (with_sent (getAccessToken (browser s), encode (UserLogin data)) (browser s))).
  set (p := mkFe b1 (setClosureToken (Some k) (hook s))).
  destruct (token_signed row n b1 d Hrow) as [Et Hin]; [cbn; rewrite List.length_app; unfold n; lia|done|].
  destruct (read_answered dump moments d0 d (sent b1) (getAccessToken b1) GetMyInfo _ D1
    (ask_run dump _ d _ row GetMyInfo getMyInfo _ _ Hin eq_refl eq_refl eq_refl (my_info_run _ d row Hrow))) as [E2 D2].
  rewrite Et in E2, D2.
  assert (Hk : falsy (token (hook p)) = false) by (apply String.eqb_neq, token_given).
  pose proof (fetchUser_outcome server time p Hk eq_refl Hu) as Hf. destruct (fetchUser server time p) as [o s'] eqn:Ef.
  destruct Hf as (-> & _ & _ & Hs & Hf). change (token (hook p)) with (access_token b1) in Hf, Hs. change (browser p) with b1 in Hf, Hs.
  rewrite E2 in Hf. rewrite decide_False in Hf by auto. destruct Hf as (Hf & Ha' & _).
  eexists. split.
  - apply modal_accepted. unfold UserStore.login. rewrite (bind_Ret _ _ _ _ _ R1), decide_False by auto.
    do 2 (erewrite bind_Ret by reflexivity). fold k. fold b1. fold p. by rewrite (bind_Ret _ _ _ _ _ Ef).
  - split; [split|]; cbn [hook browser with_message sent access_token].
    + exact Hf.
    + exists n. rewrite Hs, List.length_app. split; [cbn; unfold n; rewrite List.length_app; lia|exact Ha'].
    + by rewrite Hs.
Qed.

Lemma sign_up data again s : committed_ok (db s) -> free_account (db s) data -> register_error data again = None ->
  exists s', registerModal_onOk server t (Ret tt) data again s = (Ret tt, s') /\ hook s' = hook s /\
    db s' = registered (moments (List.length (sent (browser s)))) data (db s).
Proof.
  intros Hd Hfree Hok. set (m := moments (List.length (sent (browser s)))).
  assert (Hrole : reg_role data ∈ VALID_ROLES) by (unfold register_error in Hok; repeat case_match; try done; by eapply bool_decide_eq_true, negb_false_iff).
  pose proof (ask_open m (db s) (getAccessToken (browser s)) (UserRegister data) _ _ _ eq_refl eq_refl
    (register_run m (db s) data Hd Hfree Hrole)) as Ea.
  pose proof (server_ask dump moments d0 (sent (browser s)) (getAccessToken (browser s)) (UserRegister data)) as E1.
  pose proof (replay_ask dump moments d0 (sent (browser s)) (getAccessToken (browser s)) (UserRegister data)) as D1.
  fold m in E1, D1. rewrite Ea in E1, D1. pose proof (fe_request_NetOk (H := UserStore) server (UserRegister data) s _ E1) as R1.
  eexists. split.
  - apply modal_accepted. unfold UserStore.register. by rewrite Hok, (bind_Ret _ _ _ _ _ R1), decide_False by auto.
  - by split.
Qed.

Lemma change_password old new row s : committed_ok (db s) -> tget (users (db s)) (ur_id row) = Some row ->
  signed_in_as row s -> checkpw old (ur_password row) = true -> old <> new ->
  exists s', modifyPasswordModal_onOk server t (Ret tt) (mkModifyPasswordRequest old new new) s = (Ret tt, s') /\
    db s' = repassworded (moments (List.length (sent (browser s)))) (ur_id row) new (db s).
Proof.
  intros Hd Hrow [_ (i & Hi & Ha)] Hp Hne. destruct (token_signed row i (browser s) (db s) Hrow Hi Ha) as [_ Hin].
  set (m := moments (List.length (sent (browser s)))) in *. set (data := mkModifyPasswordRequest old new new).
  pose proof (ask_run dump m (db s) (getAccessToken (browser s)) row (UserModifyPassword data) _ _ _ Hin eq_refl eq_refl eq_refl
    (modify_password_run m (db s) row old new Hd Hrow Hp Hne)) as Ea.
  pose proof (server_ask dump moments d0 (sent (browser s)) (getAccessToken (browser s)) (UserModifyPassword data)) as E1.
  pose proof (replay_ask dump moments d0 (sent (browser s)) (getAccessToken (browser s)) (UserModifyPassword data)) as D1.
  fold m in E1, D1. rewrite Ea in E1, D1. pose proof (fe_request_NetOk (H := UserStore) server (UserModifyPassword data) s _ E1) as R1.
  eexists. split.
  - apply modal_accepted. unfold UserStore.modifyPassword. cbn [new_password confirm_new_password data].
    rewrite String.eqb_refl. cbn [negb]. by rewrite (bind_Ret _ _ _ _ _ R1), decide_False by auto.
  - done.
Qed.

(** Registering, and then logging in with what was registered. *)
Definition open_account (data : RegisterRequest) (again : string) : UI UserStore unit :=
  registerModal_onOk server t (Ret tt) data again ;;
  loginModal_onOk server time t (Ret tt) (mkLoginRequest (reg_username data) (reg_password data)).

(** Changing the password, and then logging in again with the new one. *)
Definition renew_password (name old new : string) : UI UserStore unit :=
  modifyPasswordModal_onOk server t (Ret tt) (mkModifyPasswordRequest old new new) ;;
  logout ;;
  loginModal_onOk server time t (Ret tt) (mkLoginRequest name new).

Lemma opened_account data again s (m := moments (List.length (sent (browser s)))) (row := new_user m data (next_id (users (db s)))) :
  free_account (db s) data -> register_error data again = None -> user (hook s) = None ->
  exists s', open_account data again s = (Ret tt, s') /\ signed_in_as row s' /\ account (db s') (reg_username data) = Some row.
Proof.
  intros Hfree Hok Hu. pose proof (fun b : Browser => replay_ok moments (sent b) 0 d0 Hd0) as Hd.
  destruct (sign_up data again s (Hd _) Hfree Hok) as (s1 & E1 & Hh & Hdb). fold m in Hdb.
  assert (Ha : account (db s1) (reg_username data) = Some row) by (rewrite Hdb; by apply registered_account).
  destruct (log_in (reg_username data) (reg_password data) row s1 (proj1 (Hd _)) Ha (own_password _ _)) as (s2 & E2 & Hin & Hdb2).
  { by rewrite Hh. }
  exists s2. split; [unfold open_account; by rewrite (bind_Ret _ _ _ _ _ E1)|]. split; [done|]. by rewrite Hdb2.
Qed.

Lemma renewed_password name old new row s : account (db s) name = Some row -> signed_in_as row s ->
  checkpw old (ur_password row) = true -> old <> new ->
  exists row' s', renew_password name old new s = (Ret tt, s') /\ signed_in_as row' s' /\ user_json row' = user_json row.
Proof.
  intros Ha Hin Hp Hne. pose proof (fun b : Browser => replay_ok moments (sent b) 0 d0 Hd0) as Hd.
  assert (Hrow : tget (users (db s)) (ur_id row) = Some row) by (apply (first_get _ _ _ (ok_users _ (proj1 (Hd _))) Ha)).
  destruct (change_password old new row s (Hd _) Hrow Hin Hp Hne) as (s1 & E1 & Hdb).
  set (row' := set_password (hashpw (salt (moments (List.length (sent (browser s))))) new) row).
  assert (Hl : exists s2, logout s1 = (Ret tt, s2) /\ sent (browser s2) = sent (browser s1) /\ user (hook s2) = None) by by eexists.
  destruct Hl as (s2 & E2 & Hs2 & Hu2).
  destruct (log_in name new row' s2 (proj1 (Hd _))) as (s3 & E3 & Hin3 & _).
  - rewrite Hs2, Hdb. by apply repassworded_account.
  - apply own_password.
  - done.
  - exists row', s3. split; [|done]. unfold renew_password. by rewrite (bind_Ret _ _ _ _ _ E1), (bind_Ret _ _ _ _ _ E2).
Qed.
End Store.

(** ** Properties *)

(** C12. An account made in the front-end can be used.  Whoever fills the form in
    without a complaint, with a name and an address no account has, is registered,
    can log in with that name and password, and is then shown as the user that was
    entered, an L4 user; and after changing the password and logging out, the name
    logs in with the new password as the same user. *)
Theorem account_signs_in moments d0 t time data again new s :
  let server := backend_server dump moments d0 in
  let d := replay moments 0 d0 (sent (browser s)) in
  committed_ok d0 -> (forall i j, i <= j -> (now (moments j) <= now (moments i) + 24 * 3600 * 1000000)%Z) ->
  user (hook s) = None -> register_error data again = None -> free_account d data -> reg_password data <> new ->
  let opening := open_account moments d0 t time data again s in
  let renewal := renew_password moments d0 t time (reg_username data) (reg_password data) new opening.2 in
  let shown := mkUserProfile (next_id (users d)) (reg_username data) (reg_nickname data) (reg_email data) (reg_role data) 4
    (isoformat (now (moments (List.length (sent (browser s)))))) in
  opening.1 = Ret tt /\ user (hook opening.2) = Some shown /\ renewal.1 = Ret tt /\ user (hook renewal.2) = Some shown.
Proof.
  intros server d Hd0 Hday Hu Hok Hfree Hne opening renewal shown.
  destruct (opened_account moments d0 t time Hd0 Hday data again s Hfree Hok Hu) as (s1 & E1 & Hin1 & Ha1).
  destruct (renewed_password moments d0 t time Hd0 Hday (reg_username data) (reg_password data) new _ s1 Ha1 Hin1 (own_password _ _) Hne)
    as (row' & s2 & E2 & Hin2 & Hj).
  unfold renewal, opening. rewrite E1. cbn [fst snd]. rewrite E2. cbn [fst snd]. split; [done|]. split; [exact (sees_user _ _ _ Hin1)|].
  split; [done|]. rewrite (sees_user _ _ _ Hin2), Hj. done.
Qed.
End Account.

(** The libraries of the samples keep the laws. *)
#[export] Instance sample_accounts : @AccountLaws sample_client.
Proof.
  split.
  - intros salt password. apply String.eqb_refl.
  - intros id name expiry. apply String.eqb_neq, show_int_nonempty.
  - intros id name expiry time _. cbn [jwt_decode jwt_encode sample_client sample_libraries].
    rewrite show_int_nonempty. apply to_number_show_int.
Qed.

Definition cyd : RegisterRequest := mkRegisterRequest "cyd" "secret" "Cyd" "cyd@x.org" "designer".
Definition guest : Fe UserStore := mkFe (mkBrowser None None None [] sample_history 0 "/") (mkUserStore None false None).

Lemma account_signs_in_witness :
  let opening := @open_account sample_isoformat sample_client (fun _ => "") (fun _ => sample_moment) empty_db id 0 cyd "secret" guest in
  let renewal := @renew_password sample_isoformat sample_client (fun _ => "") (fun _ => sample_moment) empty_db id 0
    "cyd" "secret" "better" opening.2 in
  opening.1 = Ret tt /\ renewal.1 = Ret tt /\ user (hook renewal.2) = Some (mkUserProfile 3 "cyd" "Cyd" "cyd@x.org" "designer" 4 "0").
Proof.
  pose proof (@account_signs_in sample_isoformat sample_client sample_axios sample_accounts (fun _ => "") (fun _ => sample_moment) empty_db
    id 0 cyd "secret" "better" guest empty_db_ok ltac:(intros; vm_compute; discriminate) eq_refl eq_refl
    ltac:(unfold free_account; rewrite <-Forall_forall; vm_compute; repeat constructor; discriminate) ltac:(done)) as (E1 & _ & E2 & E3).
  split; [exact E1|]. split; [exact E2|exact E3].
Defined.
