(* ===== verification/LiveHome.v ===== *)
(** * The list of services on the back end

    [LoggedInView] run against the back end: whatever tab and page is chosen, and
    whatever is created, deleted and restored, the list on screen is the page of
    services that the database holds. *)

From S2P Require Import Prelude Tables JsObject ApiTypes FeTypes FeHttp ThisService ServiceHome Database ParamStore Openapi.
From S2P Require Import Backend Transaction BackendUser BackendService BackendApi BackendRoutes Integrity BackendSafety.
From S2P Require Import Failures Wire EndToEnd Answers Listings.
From Stdlib Require Import String ZArith Lia.

(** The [c]th page of [n]. *)
Definition nth_page {A} (n c : Z) (l : list A) : list A := page (Z.to_nat n) (Z.to_nat (c - 1)) l.

Lemma page_of_nth {S A} n c (l : list A) (s : S) : (0 <= n)%Z -> (1 <= c)%Z -> page_of n c l s = (Ret (nth_page n c l), s).
Proof.
  intros Hn Hc. unfold nth_page. rewrite <-(page_of_run n (Z.to_nat (c - 1)) l s Hn). f_equal. lia.
Qed.

Section LiveHome.
Context `{!Isoformat, !Libraries, !AxiosQuery}.
Context (dump : Document -> string).

(** ** What a tab lists *)

(** The services of a query as the user [u] is shown them, and how many there are;
    [None] when they are not for that user. *)
Definition listing (d : Db) (u : UserRow) (q : ListQuery) : option (list ServiceItem * Z) :=
  let me := ur_id u in
  let total (l : list ServiceRow) := Z.of_nat (List.length l) in
  match q with
  | MyNewestServices n c =>
      let l := select (services d) (fun s => live s && owned_by me s) in
      Some (map (service_json d false false) (nth_page n c (newest_first l)), total l)
  | MyMaintainedServices n c =>
      let l := select (services d) (fun s => live s && maintained_by me s) in
      Some (map (service_json d true false) (nth_page n c (newest_first l)), total l)
  | HisNewestServicesByOwnerId o n c =>
      let l := select (services d) (fun s => live s && owned_by o s) in
      if (ur_level u =? 0)%Z || (o =? me)%Z
      then Some (map (service_json d (negb (o =? me)%Z) false) (nth_page n c (newest_first l)), total l) else None
  | MyDeletedServices n c =>
      let l := select (services d) (fun s => sr_deleted s && owned_by me s) in
      Some (map (service_json d false true) (nth_page n c (last_deleted_first l)), total l)
  | AllServices n c =>
      let l := rows (services d) in
      if (ur_level u =? 0)%Z then Some (map (service_json d true true) (nth_page n c (newest_first l)), total l) else None
  end.

Definition listed (d : Db) (u : UserRow) (q : ListQuery) : list ServiceItem := default [] (fst <$> listing d u q).

(** A size and a page the table component gives. *)
Definition fair_page (n c : Z) : Prop := (0 <= n)%Z /\ (1 <= c)%Z.
Definition fair_query (q : ListQuery) : Prop :=
  match q with
  | MyNewestServices n c | MyMaintainedServices n c | HisNewestServicesByOwnerId _ n c | MyDeletedServices n c
  | AllServices n c => fair_page n c
  end.

Definition asks (q : ListQuery) : Operation :=
  match q with
  | MyNewestServices n c => getHisNewestServicesByOwnerId None n c
  | MyMaintainedServices n c => getHisMaintainedServicesByUserId None n c
  | HisNewestServicesByOwnerId o n c => getHisNewestServicesByOwnerId (Some o) n c
  | MyDeletedServices n c => getAllDeletedServicesByUserId n c
  | AllServices n c => getAllServices n c
  end.

Lemma listing_run m d u q : tget (users d) (ur_id u) = Some u -> fair_query q ->
  exists r, handle m (ur_id u) (asks q) (mkTx d d []) = (Ret r, mkTx d d []) /\
    match listing d u q with
    | Some (l, n) => reply_status r = Some 200%Z /\ reply_payload r = PServices l n
    | None => reply_status r = Some (-1)%Z
    end.
Proof.
  intros Hu Hq.
  destruct q as [n c|n c|o n c|n c|n c]; destruct Hq as [Hn Hc]; cbn [asks handle listing];
    unfold serviceGetHisNewestServicesByOwnerId, serviceGetHisMaintainedServicesByUserId, serviceGetAllDeletedServicesByUserId,
      serviceGetAllServices, get_user, not_L0; cbn [default from_option]; unfold Datatypes.id; repeat step; rewrite ?Hu; repeat step;
    rewrite ?Z.eqb_refl; cbn [negb]; rewrite ?andb_false_r; try destruct (ur_level u =? 0)%Z; try destruct (o =? ur_id u)%Z;
    cbn [negb andb orb]; repeat step; rewrite ?(bind_Ret _ _ _ _ _ (page_of_nth n c _ _ Hn Hc)); by eexists.
Qed.

(** The list shown after a query, and what is left of it. *)
Lemma query_asked m d token u q : signed_in m d token u -> fair_query q -> exists res,
  ask dump m d token (query_endpoint q) = (NetOk res, d) /\
  match listing d u q with
  | Some (l, n) => status res = 200%Z /\ payload res = mkServiceListResponse (Some l) (Some n)
  | None => status res <> 200%Z
  end.
Proof.
  intros Hin Hq. destruct (listing_run m d u q (signed_user _ _ _ _ Hin) Hq) as (r & Hrun & Hr).
  exists (body_of dump (query_endpoint q) r). split.
  - rewrite (ask_run dump m d token u (query_endpoint q) (asks q) r (mkTx d d []) Hin); [done|by destruct q..|exact Hrun].
  - destruct (listing d u q) as [[l n]|]; [destruct Hr as [Hst Hp]|]; destruct q; cbn [query_endpoint body_of typed status payload];
      by rewrite ?Hst, ?Hp, ?Hr.
Qed.

(** ** The page *)

Section Home.
Context (moments : nat -> Moment) (d0 : Db) (u : UserRow).
Notation server := (backend_server dump moments d0).
Notation db s := (replay moments 0 d0 (sent (browser s))).
Notation tok s := (getAccessToken (browser s)).
Notation live s := (live_session moments d0 u (browser s)).

(** The query to replay is fair, and what it lists is on screen. *)
Record in_step (d : Db) (h : ServiceHome) : Prop := mkInStep {
  step_query : exists q, refetchRef h = Some q /\ fair_query q /\ serviceList h = listed d u q;
  step_page : fair_page (page_size h) (current_page h)
}.

(** A query: the list is the one asked for, or empty when it was refused. *)
Lemma fetch_live q s : live s -> fair_query q -> fair_page (page_size (hook s)) (current_page (hook s)) ->
  exists o s', fetch server q s = (o, s') /\ (forall c, o <> Exit c) /\ live s' /\ db s' = db s /\ in_step (db s) (hook s').
Proof.
  intros Hl Hq Hp. destruct Hl as [Hd Hin].
  destruct (query_asked (moments (List.length (sent (browser s)))) (db s) (tok s) u q (Hin _) Hq) as (res & Ha & Hres).
  destruct (read_answered dump moments d0 (db s) (sent (browser s)) (tok s) (query_endpoint q) _ eq_refl Ha) as [E D].
  set (b := with_sent (tok s, encode (query_endpoint q)) (browser s)).
  set (s1 := mkFe (browser s) (setListLoading true (setRefetch q (hook s)))).
  pose proof (fe_request_NetOk (H := ServiceHome) server (query_endpoint q) s1 res E) as Hr.
  assert (Hb : live_session moments d0 u b).
  { unfold live_session, b. cbn [sent with_sent]. rewrite D. by split. }
  unfold fetch. do 2 (erewrite bind_Ret by reflexivity). fold s1. rewrite (bind_Ret _ _ _ _ _ Hr).
  destruct (listing (db s) u q) as [[l n]|] eqn:El.
  - destruct Hres as [Hst Hpay]. rewrite decide_False by auto. do 2 eexists. split; [reflexivity|]. split; [done|]. split; [exact Hb|].
    split; [exact D|]. split; [|exact Hp]. exists q. split; [done|]. split; [done|].
    unfold listed. rewrite El. cbn [fmap option_fmap option_map default fst]. cbn. by rewrite Hpay.
  - rewrite decide_True by done. do 2 eexists. split; [reflexivity|]. split; [done|]. split; [exact Hb|].
    split; [exact D|]. split; [|exact Hp]. exists q. split; [done|]. split; [done|]. unfold listed. by rewrite El.
Qed.

Lemma fair_of h : fair_page (page_size h) (current_page h) -> fair_query (query_of h).
Proof. unfold query_of. by destruct (serviceRange h). Qed.

Definition stepped (s : Fe ServiceHome) : Prop := live s /\ in_step (db s) (hook s).

(** What matters of the page. *)
Definition same_list (h h' : ServiceHome) : Prop :=
  refetchRef h' = refetchRef h /\ serviceList h' = serviceList h /\ page_size h' = page_size h /\ current_page h' = current_page h.

Lemma home_same s s' : stepped s -> sent (browser s') = sent (browser s) -> access_token (browser s') = access_token (browser s) ->
  same_list (hook s) (hook s') -> stepped s'.
Proof.
  intros [Hl [Hq Hp]] Hs Ha (E1 & E2 & E3 & E4). unfold stepped. rewrite Hs. split; [by apply (live_same moments d0 u (browser s))|].
  split; [by rewrite E1, E2|by rewrite E3, E4].
Qed.

Lemma load_live s : live s -> fair_page (page_size (hook s)) (current_page (hook s)) -> stepped (load server s).2.
Proof.
  intros Hl Hp. unfold load. rewrite (bind_Ret get_hook _ s (hook s) s eq_refl).
  destruct (fetch_live (query_of (hook s)) s Hl (fair_of _ Hp) Hp) as (o & s' & E & Ho & Hl' & Hdb & Hin).
  assert (Hs' : stepped s') by (split; [done|by rewrite Hdb]). unfold try_catch. destruct o as [n|e|c]; [| |by destruct (Ho c)].
  - rewrite (bind_Ret _ _ _ _ _ E). by apply (home_same s').
  - rewrite (bind_Throw _ _ _ _ _ E). by apply (home_same s').
Qed.

Lemma with_effect_live m s : stepped s ->
  (forall o s1, m s = (o, s1) -> sent (browser s1) = sent (browser s) /\ access_token (browser s1) = access_token (browser s) /\
     refetchRef (hook s1) = refetchRef (hook s) /\ serviceList (hook s1) = serviceList (hook s) /\
     fair_page (page_size (hook s1)) (current_page (hook s1))) ->
  stepped (with_effect server m s).2.
Proof.
  intros [Hl [Hq Hp]] Hm. unfold with_effect. rewrite (bind_Ret get_hook _ s (hook s) s eq_refl).
  destruct (m s) as [o s1] eqn:E. destruct (Hm o s1 eq_refl) as (Hs & Ha & E1 & E2 & Hp1).
  assert (Hs1 : stepped s1).
  { unfold stepped. rewrite Hs. split; [by apply (live_same moments d0 u (browser s))|]. split; [by rewrite E1, E2|done]. }
  destruct o as [[]|e|c]; [|by rewrite (bind_Throw _ _ _ _ _ E)|by rewrite (bind_Exit _ _ _ _ _ E)].
  rewrite (bind_Ret _ _ _ _ _ E), (bind_Ret get_hook _ s1 (hook s1) s1 eq_refl). case_decide; [done|].
  apply load_live; [apply Hs1|done].
Qed.

(** Replaying the query. *)
Lemma refetch_live s q : live s -> refetchRef (hook s) = Some q -> fair_query q -> fair_page (page_size (hook s)) (current_page (hook s)) ->
  exists o s', refetch server s = (o, s') /\ (forall c, o <> Exit c) /\ stepped s'.
Proof.
  intros Hl Hr Hq Hp. unfold refetch. rewrite (bind_Ret get_hook _ s (hook s) s eq_refl), Hr.
  destruct (fetch_live q s Hl Hq Hp) as (o & s' & E & Ho & Hl' & Hdb & Hin).
  assert (Hs' : stepped s') by (split; [done|by rewrite Hdb]). destruct o as [n|e|c]; [| |by destruct (Ho c)].
  - rewrite (bind_Ret _ _ _ _ _ E). by eexists _, _.
  - rewrite (bind_Throw _ _ _ _ _ E). by eexists _, _.
Qed.

(** ** Operations on services *)

Lemma delete_leaves m d me i : leaves (handle m me (deleteServiceById i)) d (fun _ d' => users d' = users d).
Proof. cbn [handle]. unfold serviceDeleteServiceById. by leaves. Qed.
Lemma restore_leaves m d me i : leaves (handle m me (restoreServiceById i)) d (fun _ d' => users d' = users d).
Proof. cbn [handle]. unfold serviceRestoreServiceById. by leaves. Qed.
Lemma create_leaves m d me v t : leaves (handle m me (createNewService v t)) d (fun _ d' => users d' = users d).
Proof. cbn [handle]. unfold serviceCreateNewService. by leaves. Qed.

(** An operation is accepted, or leaves everything as it is. *)
Lemma operation_asked (e : Endpoint (Response unit)) s (b := with_sent (tok s, encode e) (browser s)) : stepped s ->
  auth_required (url (encode e)) = true -> bool_decide (url (encode e) ∈ L0_routes) = false ->
  (forall r, status (body_of dump e r) = default 0%Z (reply_status r)) ->
  (forall m op, asked e = inr op -> leaves (handle m (ur_id u) op) (db s) (fun _ d' => users d' = users (db s))) ->
  (exists res, request server e s = (Ret res, mkFe b (hook s)) /\ status res = 200%Z /\ live (mkFe b (hook s))) \/
  (exists o, request server e s = (o, mkFe b (hook s)) /\ match o with Ret res => status res <> 200%Z | Throw _ => True | Exit _ => False end /\
     stepped (mkFe b (hook s))).
Proof.
  intros [Hl Hin] Hauth Hl0 Hst Heff.
  assert (Hstay : db (mkFe b (hook s)) = db s -> stepped (mkFe b (hook s))).
  { intros Hd'. split; [apply (live_next moments d0 u e (browser s)); [done..|exact (f_equal users Hd')]|by rewrite Hd']. }
  destruct (request_answered dump moments d0 u e (fun _ d' => users d' = users (db s)) s Hl Hauth Hl0 Hst)
    as [(res & Hr & Hs & Hu)|[(res & Hr & Hs & Hd')|(err & Hr & Hd')]].
  - intros m op Ha. apply (leaves_impl _ _ _ _ (Heff m op Ha)). auto.
  - left. exists res. split; [done|]. split; [done|]. by apply (live_next moments d0 u e (browser s)).
  - right. exists (Ret res). split; [done|]. split; [done|]. by apply Hstay.
  - right. exists (Throw err). split; [done|]. split; [done|]. by apply Hstay.
Qed.

Lemma delete_live i s : stepped s -> stepped (handleDeleteService server i s).2.
Proof.
  intros Hs. unfold handleDeleteService. erewrite bind_Ret by reflexivity.
  set (s1 := mkFe (browser s) (setListLoading true (hook s))). assert (Hs1 : stepped s1) by by apply (home_same s).
  match goal with |- context [(?m ≫= _) s1] => set (block := m) end.
  assert (Hblock : exists s2, block s1 = (Ret tt, s2) /\ stepped s2).
  { unfold block, try_catch. destruct (operation_asked (DeleteServiceById i) s1 Hs1) as [(res & Hr & Hst & Hl)|(o & Hr & Ho & Hs2)]; try done.
    - intros m op [= <-]. apply delete_leaves.
    - rewrite (bind_Ret _ _ _ _ _ Hr), decide_False by auto. erewrite bind_Ret by reflexivity.
      destruct Hs1 as [_ [(q & Hq & Hf & _) Hp]].
      match goal with |- context [refetch server ?p] => destruct (refetch_live p q Hl Hq Hf Hp) as (o & s2 & -> & Ho & Hs2) end.
      destruct o as [[]|e|c]; [by eexists| |by destruct (Ho c)]. eexists. split; [reflexivity|]. by apply (home_same s2).
    - destruct o as [res|e|c]; [|rewrite (bind_Throw _ _ _ _ _ Hr); eexists; split; [reflexivity|]; by eapply home_same|done].
      rewrite (bind_Ret _ _ _ _ _ Hr), decide_True by done. eexists. split; [reflexivity|]. by eapply home_same. }
  destruct Hblock as (s2 & E & Hs2). rewrite (bind_Ret _ _ _ _ _ E). by apply (home_same s2).
Qed.

Lemma warn_refetch_live text s q : live s -> refetchRef (hook s) = Some q -> fair_query q ->
  fair_page (page_size (hook s)) (current_page (hook s)) -> exists s', warn_refetch server text s = (Ret tt, s') /\ stepped s'.
Proof.
  intros Hl Hr Hq Hp. unfold warn_refetch, try_catch. destruct (refetch_live s q Hl Hr Hq Hp) as (o & s2 & -> & Ho & Hs2).
  destruct o as [[]|e|c]; [by eexists| |by destruct (Ho c)]. eexists. split; [reflexivity|]. by apply (home_same s2).
Qed.

Lemma restore_live i s : stepped s -> stepped (handleRestoreService server i s).2.
Proof.
  intros Hs. unfold handleRestoreService. erewrite bind_Ret by reflexivity.
  set (s1 := mkFe (browser s) (setListLoading true (hook s))). assert (Hs1 : stepped s1) by by apply (home_same s).
  destruct (operation_asked (RestoreServiceById i) s1 Hs1) as [(res & Hr & Hst & Hl)|(o & Hr & Ho & Hs2)]; try done.
  - intros m op [= <-]. apply restore_leaves.
  - rewrite (bind_Ret _ _ _ _ _ Hr), decide_False by auto. erewrite bind_Ret by reflexivity.
    destruct Hs1 as [_ [(q & Hq & Hf & _) Hp]].
    match goal with |- context [(warn_refetch server ?t ≫= _) ?p] => destruct (warn_refetch_live t p q Hl Hq Hf Hp) as (s2 & E & Hs2) end.
    rewrite (bind_Ret _ _ _ _ _ E). by apply (home_same s2).
  - destruct o as [res|e|c]; [|by rewrite (bind_Throw _ _ _ _ _ Hr)|done].
    rewrite (bind_Ret _ _ _ _ _ Hr), decide_True by done. by eapply home_same.
Qed.

Lemma create_live ok v t s : stepped s -> stepped (handleCreateService server ok v t s).2.
Proof.
  intros Hs. unfold handleCreateService, try_catch. destruct ok as [[]|err|c]; [|by apply (home_same s)..].
  rewrite (bind_Ret (resume (Ret tt)) _ s tt s eq_refl). unfold ServiceHome.createNewService. rewrite <-bind_assoc.
  destruct (operation_asked (CreateNewService v t) s Hs) as [(res & Hr & Hst & Hl)|(o & Hr & Ho & Hs2)]; try done.
  - intros m op [= <-]. apply create_leaves.
  - rewrite (bind_Ret _ _ _ _ _ Hr), decide_False by auto. erewrite bind_Ret by reflexivity. erewrite bind_Ret by reflexivity.
    destruct Hs as [_ [(q & Hq & Hf & _) Hp]].
    match goal with |- context [warn_refetch server ?t ?p] => destruct (warn_refetch_live t p q Hl Hq Hf Hp) as (s2 & -> & Hs2) end.
    done.
  - destruct o as [res|e|c]; [|rewrite (bind_Throw _ _ _ _ _ Hr); by eapply home_same|done].
    rewrite (bind_Ret _ _ _ _ _ Hr), decide_True by done. by eapply home_same.
Qed.

(** The table component asks for pages that exist. *)
Definition fair_action (a : HomeAction) : Prop :=
  match a with ChangePage n c => (0 <= n)%Z /\ (forall k, c = Some k -> (0 <= k)%Z) | _ => True end.

Lemma home_act_live a s : fair_action a -> stepped s -> stepped (home_act server a s).2.
Proof.
  intros Ha Hs. pose proof (step_page _ _ (proj2 Hs)) as [Hn Hc].
  destruct a as [r|i| | |n c|i|i|ok v t]; cbn [home_act]; [..|by apply delete_live|by apply restore_live|by apply create_live];
    unfold handleTabChange, confirmHis, cancelHis, handlePageChange; try (by apply (home_same s)); apply (with_effect_live _ s Hs);
    intros o s1.
  - by intros [= <- <-].
  - rewrite (bind_Ret get_hook _ s (hook s) s eq_refl). destruct (hisId (hook s) <=? 0)%Z; by intros [= <- <-].
  - by intros [= <- <-].
  - intros [= <- <-]. do 4 (split; [done|]). destruct Ha as [Hn' Hk]. split; [exact Hn'|]. cbn [hook current_page setPage].
    destruct c as [k|]; [|exact Hc]. specialize (Hk k eq_refl). destruct (Z.eqb_spec k 0); [exact Hc|lia].
Qed.
End Home.

(** ** Properties *)

(** C11. The list of services on screen is the one the database holds.  For a user
    whose token stays valid, from the first load through any sequence of tabs,
    pages, users picked, services created, deleted and restored, whether the back
    end accepts the operation or refuses it: the list is that of the query last
    asked, computed on the database as it now is, empty when it is not for the
    user; and outside the tab of other users' services that is the query of the tab
    and page on screen. *)
Theorem home_shows_database moments d0 u b l :
  let server := backend_server dump moments d0 in
  let d := replay moments 0 d0 (sent b) in
  committed_ok d -> (forall n, signed_in (moments n) d (getAccessToken b) u) -> Forall fair_action l ->
  let p := foldl (fun p a => (home_act server a p).2) (load server (mkFe b initial_home)).2 l in
  exists q, refetchRef (hook p) = Some q /\ serviceList (hook p) = listed (replay moments 0 d0 (sent (browser p))) u q /\
    (serviceRange (hook p) <> RangeHis -> q = query_of (hook p)).
Proof.
  intros server d Hd Hin Hall p.
  assert (Hp : stepped moments d0 u p /\ home_ok (hook p)).
  { unfold p. pose proof (load_run server (mkFe b initial_home)) as [Hview Hload].
    assert (Hstart : stepped moments d0 u (load server (mkFe b initial_home)).2) by (by apply load_live; [split|done]).
    assert (Hok : home_ok (hook (load server (mkFe b initial_home)).2)).
    { eexists. split; [exact Hload|]. intros _. by rewrite (query_of_view _ _ Hview). }
    clear Hload Hview. revert Hstart Hok. generalize (load server (mkFe b initial_home)).2. clear p.
    induction Hall as [|a l Ha _ IH]; intros p Hs Hok; [done|]. apply IH; [by apply home_act_live|by apply home_act_ok]. }
  destruct Hp as [[_ [(q & Hq & _ & Hlist) _]] (q' & Hq' & Hview)]. exists q. split; [done|]. split; [done|].
  rewrite Hq in Hq'. by injection Hq' as <-.
Qed.
End LiveHome.

(** Ada deletes her service, creates another and looks at what she deleted. *)
Lemma home_shows_database_witness :
  let server := @backend_server sample_isoformat sample_client (fun _ => "") (fun _ => sample_moment) empty_db in
  let b := mkBrowser (Some "1") None None [] sample_history 0 "/" in
  let p := foldl (fun p a => (home_act server a p).2) (load server (mkFe b initial_home)).2
    [DeleteService 1; CreateService (Ret tt) "team/till" "A till"; ChangeTab RangeDeleted] in
  map service_uuid (serviceList (hook p)) = ["team/shop"] /\
  exists q, serviceList (hook p) = @listed sample_isoformat
    (@replay sample_isoformat sample_client (fun _ => sample_moment) 0 empty_db (sent (browser p))) sample_user q.
Proof.
  cbv zeta. split; [vm_compute; reflexivity|].
  destruct (@home_shows_database sample_isoformat sample_client sample_axios (fun _ => "") (fun _ => sample_moment) empty_db sample_user
    (mkBrowser (Some "1") None None [] sample_history 0 "/")
    [DeleteService 1; CreateService (Ret tt) "team/till" "A till"; ChangeTab RangeDeleted]
    ltac:(apply replay_ok, empty_db_ok) ltac:(intros n; split; vm_compute; reflexivity) ltac:(by repeat constructor)) as (q & _ & Hl & _).
  exists q. exact Hl.
Defined.
